(** * consolidate_docs: a shallow embedding of scripts/consolidate_docs.py

    The script renames the category directories of a documentation
    container, classifies every markdown entry found under [docs/], moves
    it into the directory of its category and prunes the directories the
    moves left empty.

    A Python [str] is modelled by the [string] of the bytes of its UTF-8
    encoding.  The script compares lower-cased names with ASCII strings
    only, and [str.lower] is modelled as far as such a comparison can
    tell: on the ASCII letters and on the two other code points whose
    lower case has an ASCII letter in it.  The file system is a finite
    tree; [pathlib], [os] and [shutil] calls are modelled by their POSIX
    behaviour on that tree. *)

From Stdlib Require Import List String Ascii Arith Lia Bool ZArith.
From Stdlib Require Import DecimalString DecimalNat Permutation Sorted.
Import ListNotations.
Local Open Scope string_scope.
Local Open Scope list_scope.

(** ** Strings *)

Module Str.

(** [c.lower()] on one character. *)
Definition lower_ascii (c : ascii) : ascii :=
  let n := nat_of_ascii c in
  if ((65 <=? n)%nat && (n <=? 90)%nat)%bool then ascii_of_nat (n + 32) else c.

(** [s.lower()], on the UTF-8 bytes of [s].  The ASCII letters are
    lower-cased; U+212A (KELVIN SIGN, bytes 226 132 170) becomes ["k"] and
    U+0130 (bytes 196 176) becomes ["i"] followed by U+0307 (bytes 204
    135): these are the only code points outside ASCII whose lower case
    holds an ASCII character.  Every other character outside ASCII is left
    as it is: Python maps it to characters outside ASCII again, which no
    test against an ASCII string tells apart. *)
Fixpoint lower (s : string) : string :=
  match s with
  | EmptyString => EmptyString
  | String c s1 =>
      match s1 with
      | EmptyString => String (lower_ascii c) EmptyString
      | String c1 s2 =>
          if (Ascii.eqb c "196" && Ascii.eqb c1 "176")%bool then
            String "i" (String "204" (String "135" (lower s2)))
          else
            match s2 with
            | EmptyString => String (lower_ascii c) (lower s1)
            | String c2 s3 =>
                if (Ascii.eqb c "226" && Ascii.eqb c1 "132"
                    && Ascii.eqb c2 "170")%bool
                then String "k" (lower s3)
                else String (lower_ascii c) (lower s1)
            end
      end
  end.

(** [len(s)]: the number of code points of [s], which is the number of
    bytes of its UTF-8 encoding that do not continue a character. *)
Definition continues (c : ascii) : bool :=
  let n := nat_of_ascii c in ((128 <=? n)%nat && (n <? 192)%nat)%bool.

Fixpoint len (s : string) : nat :=
  match s with
  | EmptyString => 0
  | String c s' => (if continues c then 0 else 1) + len s'
  end.

(** [k in s]: [k] occurs in [s] as a contiguous substring. *)
Fixpoint contains (s k : string) : bool :=
  match s with
  | EmptyString => String.prefix k EmptyString
  | String _ s' => String.prefix k s || contains s' k
  end.

(** [s.rfind(c)], with [-1] when [c] does not occur. *)
Fixpoint rfind (c : ascii) (s : string) : Z :=
  match s with
  | EmptyString => (-1)%Z
  | String d s' =>
      let i := rfind c s' in
      if (0 <=? i)%Z then (i + 1)%Z
      else if Ascii.eqb d c then 0%Z else (-1)%Z
  end.

(** [s[:i]] and [s[i:]] for [0 <= i]. *)
Definition take (i : Z) (s : string) : string :=
  String.substring 0 (Z.to_nat i) s.

Definition drop (i : Z) (s : string) : string :=
  String.substring (Z.to_nat i) (String.length s - Z.to_nat i) s.

(** [str(k)] for a non-negative [int]. *)
Definition of_nat (k : nat) : string :=
  NilEmpty.string_of_uint (Nat.to_uint k).

(** [fnmatch] restricted to the patterns the script uses: literal
    characters and [*], which matches any run of characters. *)
Fixpoint fnmatch (pat name : string) : bool :=
  match pat with
  | EmptyString => String.eqb name EmptyString
  | String c pat' =>
      if Ascii.eqb c "*"%char then
        (fix star (s : string) : bool :=
           fnmatch pat' s ||
           match s with
           | EmptyString => false
           | String _ s' => star s'
           end) name
      else
        match name with
        | EmptyString => false
        | String d name' => Ascii.eqb c d && fnmatch pat' name'
        end
  end.

End Str.

(** ** Paths

    A path is the list of its components below the repository root
    ([root_dir] in [main]). *)

Definition path := list string.

Module PurePath.

(** [p.name]: the last component, [''] for the empty path. *)
Definition name (p : path) : string := last p EmptyString.

(** [p.parent]. *)
Definition parent (p : path) : path := removelast p.

(** [p.suffix]: the part of the name from its last dot, when that dot is
    neither the first nor the last character. *)
Definition suffix (p : path) : string :=
  let nm := name p in
  let i := Str.rfind "."%char nm in
  if ((0 <? i) && (i <? Z.of_nat (String.length nm) - 1))%Z
  then Str.drop i nm else EmptyString.

(** [p.stem]. *)
Definition stem (p : path) : string :=
  let nm := name p in
  let i := Str.rfind "."%char nm in
  if ((0 <? i) && (i <? Z.of_nat (String.length nm) - 1))%Z
  then Str.take i nm else nm.

(** [p.relative_to(base)]: [None] stands for the [ValueError] raised when
    [p] does not lie under [base]. *)
Fixpoint relative_to (p base : path) {struct base} : option path :=
  match base with
  | [] => Some p
  | b :: base' =>
      match p with
      | [] => None
      | x :: p' => if String.eqb x b then relative_to p' base' else None
      end
  end.

(** [str(p)], components joined by the separator. *)
Definition str (p : path) : string := String.concat "/" p.

End PurePath.

(** ** Category registry *)

(** [SUBDIR_MAPPINGS], in insertion order. *)
Definition SUBDIR_MAPPINGS : list (string * string) :=
  [ ("01_GETTING_STARTED", "╔═══ GETTING_STARTED ═══╗");
    ("02_ARCHITECTURE", "╠═══ ARCHITECTURE ═══╣");
    ("03_DEVELOPMENT", "╠═══ DEVELOPMENT ═══╣");
    ("04_DEPLOYMENT", "╠═══ DEPLOYMENT ═══╣");
    ("05_SECURITY", "╠═══ SECURITY ═══╣");
    ("06_API_REFERENCE", "╠═══ API_REFERENCE ═══╣");
    ("07_SERVICES", "╠═══ SERVICES ═══╣");
    ("08_TESTING", "╠═══ TESTING ═══╣");
    ("09_AUDITS_AND_REPORTS", "╠═══ AUDITS_AND_REPORTS ═══╣");
    ("10_GUIDES_AND_TUTORIALS", "╠═══ GUIDES_AND_TUTORIALS ═══╣");
    ("11_MIGRATION_GUIDES", "╠═══ MIGRATION_GUIDES ═══╣");
    ("12_REFERENCE", "╚═══ REFERENCE ═══╝") ].

(** [d[key]]: [None] stands for [KeyError]. *)
Fixpoint getitem (d : list (string * string)) (key : string) : option string :=
  match d with
  | [] => None
  | (k, v) :: d' => if String.eqb k key then Some v else getitem d' key
  end.

(** The decorated directory names, the values of [SUBDIR_MAPPINGS]. *)
Definition category_names : list string := map snd SUBDIR_MAPPINGS.

(** ** Classifier *)

(** [map_file_to_category(file_path, docs_dir)]; [None] stands for an
    exception ([ValueError] from [relative_to], [KeyError] from the table). *)
Definition map_file_to_category (file_path docs_dir : path) : option string :=
  match PurePath.relative_to file_path docs_dir with
  | None => None
  | Some relative_path =>
      let dir_name := Str.lower (PurePath.name (PurePath.parent relative_path)) in
      let file_name := Str.lower (PurePath.name relative_path) in
      let has := Str.contains file_name in
      if String.eqb dir_name "." || String.eqb dir_name "" then
        if has "getting_started" || has "setup" || has "environment" then
          getitem SUBDIR_MAPPINGS "01_GETTING_STARTED"
        else if has "architecture" then
          getitem SUBDIR_MAPPINGS "02_ARCHITECTURE"
        else if has "development" || has "build" || has "storybook" || has "wiki" then
          getitem SUBDIR_MAPPINGS "03_DEVELOPMENT"
        else if has "deployment" then
          getitem SUBDIR_MAPPINGS "04_DEPLOYMENT"
        else if has "security" then
          getitem SUBDIR_MAPPINGS "05_SECURITY"
        else if has "api" then
          getitem SUBDIR_MAPPINGS "06_API_REFERENCE"
        else if has "service" then
          getitem SUBDIR_MAPPINGS "07_SERVICES"
        else if has "test" then
          getitem SUBDIR_MAPPINGS "08_TESTING"
        else if has "audit" || has "cache" || has "dead_code" then
          getitem SUBDIR_MAPPINGS "09_AUDITS_AND_REPORTS"
        else if has "guide" || has "resend" || has "auto_config" then
          getitem SUBDIR_MAPPINGS "10_GUIDES_AND_TUTORIALS"
        else if has "migration" then
          getitem SUBDIR_MAPPINGS "11_MIGRATION_GUIDES"
        else if has "product" || has "reference" || has "scrollbar"
                || has "analytics" || has "cloudflare" || has "chat" then
          getitem SUBDIR_MAPPINGS "12_REFERENCE"
        else
          getitem SUBDIR_MAPPINGS "12_REFERENCE"
      else if String.eqb dir_name "getting-started" then
        getitem SUBDIR_MAPPINGS "01_GETTING_STARTED"
      else if String.eqb dir_name "architecture" then
        getitem SUBDIR_MAPPINGS "02_ARCHITECTURE"
      else if String.eqb dir_name "development" then
        getitem SUBDIR_MAPPINGS "03_DEVELOPMENT"
      else if String.eqb dir_name "deployment" then
        getitem SUBDIR_MAPPINGS "04_DEPLOYMENT"
      else if String.eqb dir_name "security" then
        getitem SUBDIR_MAPPINGS "05_SECURITY"
      else if String.eqb dir_name "api" then
        getitem SUBDIR_MAPPINGS "06_API_REFERENCE"
      else if String.eqb dir_name "services" then
        getitem SUBDIR_MAPPINGS "07_SERVICES"
      else if String.eqb dir_name "guides" then
        getitem SUBDIR_MAPPINGS "10_GUIDES_AND_TUTORIALS"
      else if String.eqb dir_name "reference" then
        getitem SUBDIR_MAPPINGS "12_REFERENCE"
      else
        getitem SUBDIR_MAPPINGS "12_REFERENCE"
  end.

(** ** File system

    A finite tree of directories and regular files.  A directory keeps its
    entries in listing order ([os.scandir] order); a well-formed directory
    has no two entries of one name. *)

#[local] Set Warnings "-register-all".

Inductive node : Type :=
| File (data : string)
| Dir (entries : list (string * node)).

(** What [os.stat] tells about a path: a regular file (with its content, so
    that a replaced file is visible) or a directory. *)
Inductive kind : Type :=
| KFile (data : string)
| KDir.

Inductive errno : Type :=
| ENOENT | EEXIST | ENOTDIR | EISDIR | ENOTEMPTY | EINVAL | EBUSY.

(** The exceptions the script can meet. *)
Inductive exn : Type :=
| OSError (e : errno)
| ShutilError
| ValueError
| KeyError.

Module FS.

Definition entries_t := list (string * node).

Fixpoint find_entry (x : string) (es : entries_t) : option node :=
  match es with
  | [] => None
  | (y, c) :: es' => if String.eqb y x then Some c else find_entry x es'
  end.

Definition remove_entry (x : string) (es : entries_t) : entries_t :=
  filter (fun e => negb (String.eqb (fst e) x)) es.

(** Replace the entry [x], or append it when the directory has none. *)
Fixpoint set_entry (x : string) (n : node) (es : entries_t) : entries_t :=
  match es with
  | [] => [(x, n)]
  | (y, c) :: es' =>
      if String.eqb y x then (y, n) :: es' else (y, c) :: set_entry x n es'
  end.

Definition map_entry (x : string) (f : node -> node) (es : entries_t) : entries_t :=
  map (fun e => if String.eqb (fst e) x then (fst e, f (snd e)) else e) es.

(** Path resolution from the node [n]. *)
Fixpoint lookup (p : path) (n : node) : option node :=
  match p with
  | [] => Some n
  | x :: p' =>
      match n with
      | File _ => None
      | Dir es =>
          match find_entry x es with
          | Some c => lookup p' c
          | None => None
          end
      end
  end.

(** [errno] of a failed resolution: a missing component, or a regular file
    in the place of a directory. *)
Fixpoint resolve_errno (p : path) (n : node) : errno :=
  match p with
  | [] => ENOENT
  | x :: p' =>
      match n with
      | File _ => ENOTDIR
      | Dir es =>
          match find_entry x es with
          | Some c => resolve_errno p' c
          | None => ENOENT
          end
      end
  end.

Definition kind_of (n : node) : kind :=
  match n with
  | File d => KFile d
  | Dir _ => KDir
  end.

Definition stat (p : path) (fs : node) : option kind :=
  option_map kind_of (lookup p fs).

(** [Path.exists()]. *)
Definition exists_ (p : path) (fs : node) : bool :=
  match lookup p fs with Some _ => true | None => false end.

(** [Path.is_dir()]. *)
Definition is_dir (p : path) (fs : node) : bool :=
  match lookup p fs with Some (Dir _) => true | _ => false end.

(** Unlink the entry at [p], with everything below it. *)
Fixpoint delete (p : path) (n : node) : node :=
  match p with
  | [] => n
  | x :: p' =>
      match n with
      | File _ => n
      | Dir es =>
          match p' with
          | [] => Dir (remove_entry x es)
          | _ :: _ => Dir (map_entry x (delete p') es)
          end
      end
  end.

(** Link [new] at [p]; the parent of [p] is an existing directory. *)
Fixpoint insert (p : path) (new : node) (n : node) : node :=
  match p with
  | [] => n
  | x :: p' =>
      match n with
      | File _ => n
      | Dir es =>
          match p' with
          | [] => Dir (set_entry x new es)
          | _ :: _ => Dir (map_entry x (insert p' new) es)
          end
      end
  end.

(** [q] is [p] or lies below it. *)
Fixpoint is_prefix (p q : path) : bool :=
  match p with
  | [] => true
  | x :: p' =>
      match q with
      | [] => false
      | y :: q' => String.eqb x y && is_prefix p' q'
      end
  end.

Definition path_eqb (p q : path) : bool :=
  is_prefix p q && is_prefix q p.

(** [Path.iterdir()], as the list of children. *)
Definition iterdir (p : path) (fs : node) : exn + list path :=
  match lookup p fs with
  | Some (Dir es) => inr (map (fun e => p ++ [fst e]) es)
  | Some (File _) => inl (OSError ENOTDIR)
  | None => inl (OSError (resolve_errno p fs))
  end.

(** [os.mkdir(p)]. *)
Definition os_mkdir (p : path) (fs : node) : exn + node :=
  match lookup p fs with
  | Some _ => inl (OSError EEXIST)
  | None =>
      match lookup (PurePath.parent p) fs with
      | Some (Dir _) => inr (insert p (Dir []) fs)
      | Some (File _) => inl (OSError ENOTDIR)
      | None => inl (OSError (resolve_errno (PurePath.parent p) fs))
      end
  end.

(** [Path.mkdir(parents=True, exist_ok=True)]: every missing directory on
    the way to [p] is created, from the top; a regular file on the way, or
    at [p] itself, raises.  [done] is the part of the path already known to
    be a directory. *)
Fixpoint mkdir_parents (done todo : path) (fs : node) : exn + node :=
  match todo with
  | [] => inr fs
  | x :: todo' =>
      let q := done ++ [x] in
      match lookup q fs with
      | Some (Dir _) => mkdir_parents q todo' fs
      | Some (File _) =>
          inl (OSError (match todo' with [] => EEXIST | _ :: _ => ENOTDIR end))
      | None =>
          match os_mkdir q fs with
          | inr fs' => mkdir_parents q todo' fs'
          | inl e => inl e
          end
      end
  end.

Definition mkdir_p (p : path) (fs : node) : exn + node :=
  mkdir_parents [] p fs.

(** [os.rename(src, dst)] (POSIX): an existing regular file or empty
    directory at [dst] is replaced. *)
Definition os_rename (src dst : path) (fs : node) : exn + node :=
  match lookup src fs with
  | None => inl (OSError (resolve_errno src fs))
  | Some s =>
      if path_eqb src dst then inr fs
      else if is_prefix src dst then inl (OSError EINVAL)
      else
        match lookup (PurePath.parent dst) fs with
        | None => inl (OSError (resolve_errno (PurePath.parent dst) fs))
        | Some (File _) => inl (OSError ENOTDIR)
        | Some (Dir _) =>
            match dst with
            | [] => inl (OSError EBUSY)
            | _ :: _ =>
                match lookup dst fs, s with
                | None, _ => inr (insert dst s (delete src fs))
                | Some (File _), File _ => inr (insert dst s (delete src fs))
                | Some (File _), Dir _ => inl (OSError ENOTDIR)
                | Some (Dir _), File _ => inl (OSError EISDIR)
                | Some (Dir []), Dir _ => inr (insert dst s (delete src fs))
                | Some (Dir (_ :: _)), Dir _ => inl (OSError ENOTEMPTY)
                end
            end
        end
  end.

(** [shutil.move(src, dst)] on one file system: into [dst] when [dst] is a
    directory, otherwise [os.rename]; when the rename fails the copying
    fallback fails too, for the same cause. *)
Definition shutil_move (src dst : path) (fs : node) : exn + node :=
  if is_dir dst fs then
    if path_eqb src dst then os_rename src dst fs
    else
      let real_dst := dst ++ [PurePath.name src] in
      if exists_ real_dst fs then inl ShutilError
      else os_rename src real_dst fs
  else os_rename src dst fs.

(** [Path.rmdir()]. *)
Definition rmdir (p : path) (fs : node) : exn + node :=
  match p with
  | [] => inl (OSError EBUSY)
  | _ :: _ =>
      match lookup p fs with
      | None => inl (OSError (resolve_errno p fs))
      | Some (File _) => inl (OSError ENOTDIR)
      | Some (Dir (_ :: _)) => inl (OSError ENOTEMPTY)
      | Some (Dir []) => inr (delete p fs)
      end
  end.

(** The directories at and below [n], each before the directories it
    contains, with their entries ([_iterate_directories]). *)
Fixpoint iterate_directories (p : path) (n : node) : list (path * entries_t) :=
  match n with
  | File _ => []
  | Dir es =>
      (p, es) ::
      (fix subdirs (l : entries_t) : list (path * entries_t) :=
         match l with
         | [] => []
         | (x, c) :: l' => iterate_directories (p ++ [x]) c ++ subdirs l'
         end) es
  end.

(** The children of one directory whose name matches the pattern. *)
Definition select_children (pat : string) (d : path * entries_t) : list path :=
  map (fun e => fst d ++ [fst e])
      (filter (fun e => Str.fnmatch pat (fst e)) (snd d)).

(** [list(d.rglob(pat))] for a one-component pattern: for every directory
    at or below [d], the children that match.  Nothing when [d] is not a
    directory. *)
Definition rglob (pat : string) (d : path) (fs : node) : list path :=
  match lookup d fs with
  | Some (Dir es) => flat_map (select_children pat) (iterate_directories d (Dir es))
  | _ => []
  end.

(** No two entries of a directory share a name, at any depth. *)
Fixpoint wf (n : node) : bool :=
  match n with
  | File _ => true
  | Dir es =>
      (fix all (l : entries_t) : bool :=
         match l with
         | [] => true
         | (x, c) :: l' =>
             negb (existsb (fun e => String.eqb (fst e) x) l') && wf c && all l'
         end) es
  end.

(** A regular file at or below the node. *)
Fixpoint has_file (n : node) : bool :=
  match n with
  | File _ => true
  | Dir es =>
      (fix any (l : entries_t) : bool :=
         match l with
         | [] => false
         | (_, c) :: l' => has_file c || any l'
         end) es
  end.

End FS.

(** ** Standard output *)

(** One constructor for literal lines, one for every formatted line. *)
Inductive line : Type :=
| Lit (text : string)
| ErrRenamingDirectory (e : exn)
| WarnAlreadyExists (new_name : string)
| RenamedSubdir (old_name new_name : string)
| ErrRenamingSubdir (old_name : string) (e : exn)
| AlreadyExists (new_name : string)
| MovedLine (name target_category : string)
| ErrMoving (name : string) (e : exn)
| Summary (moved_count error_count : nat)
| RemovedEmptyDir (name : string)
| ErrRemoving (name : string) (e : exn)
| RemovedCount (removed_count : nat)
| ErrRemovingDocs (e : exn)
| StillContains (items : nat).

(** ** The script *)

Definition old_panda_core : path := ["╠═══ PANDA_CORE ═══╣"].
Definition new_panda_core : path := ["╠═══ PANDA_CORE ═══╣"].
Definition docs_dir : path := ["docs"].

(** Step 1: the container directory.  [None] in the second component is
    the early [return]. *)
Definition step1 (fs : node) : node * option path * list line :=
  if FS.exists_ old_panda_core fs then
    if FS.exists_ new_panda_core fs then
      (fs, Some new_panda_core,
       [Lit "  Warning: Target directory already exists. Using existing directory."])
    else
      match FS.os_rename old_panda_core new_panda_core fs with
      | inr fs' => (fs', Some new_panda_core, [Lit "  ✓ Renamed main directory"])
      | inl e =>
          (fs, Some old_panda_core,
           [ErrRenamingDirectory e; Lit "  Continuing with existing directory name..."])
      end
  else
    if FS.exists_ new_panda_core fs then
      (fs, Some new_panda_core, [Lit "  Main directory already renamed."])
    else
      (fs, None, [Lit "  ✗ PANDA_CORE directory not found!"]).

(** Step 2, one item of [SUBDIR_MAPPINGS.items()]. *)
Definition rename_subdir (panda_core : path) (fs : node) (item : string * string)
  : node * list line :=
  let (old_name, new_name) := item in
  let old_path := panda_core ++ [old_name] in
  let new_path := panda_core ++ [new_name] in
  if FS.exists_ old_path fs then
    if FS.exists_ new_path fs then (fs, [WarnAlreadyExists new_name])
    else
      match FS.os_rename old_path new_path fs with
      | inr fs' => (fs', [RenamedSubdir old_name new_name])
      | inl e => (fs, [ErrRenamingSubdir old_name e])
      end
  else
    if FS.exists_ new_path fs then (fs, [AlreadyExists new_name]) else (fs, []).

Fixpoint step2 (panda_core : path) (items : list (string * string)) (fs : node)
  : node * list line :=
  match items with
  | [] => (fs, [])
  | item :: items' =>
      let (fs1, out1) := rename_subdir panda_core fs item in
      let (fs2, out2) := step2 panda_core items' fs1 in
      (fs2, out1 ++ out2)
  end.

(** The candidate name of the conflict loop: [f"{stem}_{counter}{suffix}"]. *)
Definition numbered (file_path : path) (counter : nat) : string :=
  (PurePath.stem file_path ++ "_" ++ Str.of_nat counter
   ++ PurePath.suffix file_path)%string.

(** The [while target_file.exists()] loop.  [fuel] bounds the number of
    tests; [None] is a loop still running when the bound is reached. *)
Fixpoint handle_name_conflicts (fuel : nat) (target_dir file_path : path)
    (counter : nat) (target_file : path) (fs : node) : option path :=
  match fuel with
  | 0 => None
  | S fuel' =>
      if FS.exists_ target_file fs then
        handle_name_conflicts fuel' target_dir file_path (S counter)
          (target_dir ++ [numbered file_path counter]) fs
      else Some target_file
  end.

(** Number of entries of a directory (0 when there is none). *)
Definition entry_count (d : path) (fs : node) : nat :=
  match FS.lookup d fs with
  | Some (Dir es) => List.length es
  | _ => 0
  end.

(** Lines 168-176: the target file path, with its name conflict handled.
    The loop is given two more tests than the target directory has
    entries. *)
Definition resolve_target_file (target_dir file_path : path) (fs : node)
  : option path :=
  let target_file := target_dir ++ [PurePath.name file_path] in
  let counter := 1 in
  handle_name_conflicts (2 + entry_count target_dir fs)
    target_dir file_path counter target_file fs.

(** What one pass through the [try] block of step 3 ends in. *)
Inductive attempt : Type :=
| Moved (fs : node) (target_category : string) (target_file : path)
| Raised (fs : node) (e : exn)
| Looping.

(** The body of the [for] loop of step 3, up to the [except]. *)
Definition move_file (panda_core docs : path) (file_path : path) (fs : node)
  : attempt :=
  match map_file_to_category file_path docs with
  | None => Raised fs ValueError
  | Some target_category =>
      let target_dir := panda_core ++ [target_category] in
      match FS.mkdir_p target_dir fs with
      | inl e => Raised fs e
      | inr fs1 =>
          match resolve_target_file target_dir file_path fs1 with
          | None => Looping
          | Some target_file =>
              match FS.shutil_move file_path target_file fs1 with
              | inr fs2 => Moved fs2 target_category target_file
              | inl e => Raised fs1 e
              end
          end
      end
  end.

(** The result of the [for] loop: the tree, the two counters and the lines
    printed. *)
Record consolidated : Type := {
  c_fs : node;
  moved_count : nat;
  error_count : nat;
  c_out : list line
}.

Fixpoint consolidate (panda_core docs : path) (all_files : list path)
    (fs : node) (moved errors : nat) : option consolidated :=
  match all_files with
  | [] => Some {| c_fs := fs; moved_count := moved; error_count := errors; c_out := [] |}
  | file_path :: rest =>
      match move_file panda_core docs file_path fs with
      | Looping => None
      | Moved fs' target_category _ =>
          match consolidate panda_core docs rest fs' (S moved) errors with
          | None => None
          | Some r =>
              Some {| c_fs := c_fs r; moved_count := moved_count r;
                      error_count := error_count r;
                      c_out := MovedLine (PurePath.name file_path) target_category
                               :: c_out r |}
          end
      | Raised fs' e =>
          match consolidate panda_core docs rest fs' moved (S errors) with
          | None => None
          | Some r =>
              Some {| c_fs := c_fs r; moved_count := moved_count r;
                      error_count := error_count r;
                      c_out := ErrMoving (PurePath.name file_path) e :: c_out r |}
          end
      end
  end.

(** Step 3. *)
Definition step3 (panda_core : path) (fs : node) : option (node * list line) :=
  if negb (FS.exists_ docs_dir fs) then
    Some (fs, [Lit "  Warning: docs/ directory not found. Skipping consolidation."])
  else
    let all_files := FS.rglob "*.md" docs_dir fs in
    match consolidate panda_core docs_dir all_files fs 0 0 with
    | None => None
    | Some r =>
        Some (c_fs r, c_out r ++ [Lit ""; Summary (moved_count r) (error_count r)])
    end.

(** [sorted(l, key=key, reverse=True)]: decreasing keys, equal keys in
    their original order. *)
Fixpoint insert_desc (key : path -> nat) (x : path) (l : list path) : list path :=
  match l with
  | [] => [x]
  | y :: l' => if (key x <? key y)%nat then y :: insert_desc key x l' else x :: l
  end.

Definition sorted_reverse (key : path -> nat) (l : list path) : list path :=
  fold_right (insert_desc key) [] l.

(** [lambda p: len(str(p))], up to the constant length of [root_dir]. *)
Definition len_str (p : path) : nat := Str.len (PurePath.str p).

(** The [for dir_path in all_dirs] loop of step 4. *)
Fixpoint prune (all_dirs : list path) (fs : node) (removed_count : nat)
  : node * nat * list line :=
  match all_dirs with
  | [] => (fs, removed_count, [])
  | dir_path :: rest =>
      if FS.is_dir dir_path fs then
        match FS.iterdir dir_path fs with
        | inl e =>
            let '(fs', n, out) := prune rest fs removed_count in
            (fs', n, ErrRemoving (PurePath.name dir_path) e :: out)
        | inr (_ :: _) => prune rest fs removed_count
        | inr [] =>
            match FS.rmdir dir_path fs with
            | inr fs1 =>
                let '(fs', n, out) := prune rest fs1 (S removed_count) in
                (fs', n, RemovedEmptyDir (PurePath.name dir_path) :: out)
            | inl e =>
                let '(fs', n, out) := prune rest fs removed_count in
                (fs', n, ErrRemoving (PurePath.name dir_path) e :: out)
            end
        end
      else prune rest fs removed_count
  end.

(** Step 4. *)
Definition step4 (fs : node) : node * list line :=
  if FS.exists_ docs_dir fs then
    let all_dirs := sorted_reverse len_str (FS.rglob "*" docs_dir fs) in
    let '(fs', removed_count, out) := prune all_dirs fs 0 in
    (fs', out ++ [RemovedCount removed_count])
  else (fs, []).

(** Step 5. *)
Definition step5 (fs : node) : node * list line :=
  if FS.exists_ docs_dir fs then
    let remaining_files := FS.rglob "*" docs_dir fs in
    match remaining_files with
    | [] =>
        match FS.rmdir docs_dir fs with
        | inr fs' => (fs', [Lit "  ✓ Removed empty docs/ directory"])
        | inl e =>
            (fs, [ErrRemovingDocs e;
                  Lit "  Note: Some files may still remain. Please check manually."])
        end
    | _ :: _ =>
        (fs, [StillContains (List.length remaining_files);
              Lit "  These items were not moved. Please review manually."])
    end
  else (fs, []).

Definition banner (title : string) : list line :=
  [Lit "╔════════════════════════════════════════════════════════════╗";
   Lit title;
   Lit "╚════════════════════════════════════════════════════════════╝";
   Lit ""].

(** What [main] prints before step 1 decides. *)
Definition header : list line :=
  banner "║  Documentation Consolidation & Directory Renaming        ║"
  ++ [Lit "Step 1: Renaming main PANDA_CORE directory..."].

(** What a run that goes through all five steps prints, from the lines of
    each step: up to the lines of step 3, and after them. *)
Definition transcript_before_step3 (out1 out2 : list line) : list line :=
  header ++ out1
  ++ [Lit ""; Lit "Step 2: Renaming subdirectories with box-drawing symbols..."]
  ++ out2
  ++ [Lit ""; Lit "Step 3: Consolidating files from docs/ directory..."].

Definition transcript_after_step3 (out4 out5 : list line) : list line :=
  [Lit ""; Lit "Step 4: Cleaning up empty directories in docs/..."]
  ++ out4
  ++ [Lit ""; Lit "Step 5: Checking if docs/ directory can be removed..."]
  ++ out5
  ++ [Lit ""]
  ++ banner "║  Consolidation Complete!                                   ║".

Definition transcript (out1 out2 out3 out4 out5 : list line) : list line :=
  transcript_before_step3 out1 out2 ++ out3 ++ transcript_after_step3 out4 out5.

(** [main()]: the final tree and everything printed; [None] when the
    conflict loop of step 3 is still running at its bound. *)
Definition main (fs : node) : option (node * list line) :=
  match step1 fs with
  | (fs1, None, out1) => Some (fs1, header ++ out1)
  | (fs1, Some panda_core, out1) =>
      let (fs2, out2) := step2 panda_core SUBDIR_MAPPINGS fs1 in
      match step3 panda_core fs2 with
      | None => None
      | Some (fs3, out3) =>
          let (fs4, out4) := step4 fs3 in
          let (fs5, out5) := step5 fs4 in
          Some (fs5, transcript out1 out2 out3 out4 out5)
      end
  end.

(** [if __name__ == "__main__": main()]: the interpreter's exit status is 0
    once [main] has returned, whatever it returned. *)
Definition script (fs : node) : option (node * list line * Z) :=
  match main fs with
  | Some (fs', out) => Some (fs', out, 0%Z)
  | None => None
  end.

(** ** Vocabulary of the statements *)

(** The keywords tested on a file directly under [docs/], and the directory
    names tested otherwise: the conditions of the two [if]/[elif] chains. *)
Definition root_keywords : list string :=
  [ "getting_started"; "setup"; "environment"; "architecture"; "development";
    "build"; "storybook"; "wiki"; "deployment"; "security"; "api"; "service";
    "test"; "audit"; "cache"; "dead_code"; "guide"; "resend"; "auto_config";
    "migration"; "product"; "reference"; "scrollbar"; "analytics";
    "cloudflare"; "chat" ].

Definition known_subdirs : list string :=
  [ "getting-started"; "architecture"; "development"; "deployment";
    "security"; "api"; "services"; "guides"; "reference" ].

(** No condition of the chain that applies to [relative_path] holds. *)
Definition matches_no_rule (relative_path : path) : bool :=
  let dir_name := Str.lower (PurePath.name (PurePath.parent relative_path)) in
  let file_name := Str.lower (PurePath.name relative_path) in
  if String.eqb dir_name "." || String.eqb dir_name "" then
    forallb (fun k => negb (Str.contains file_name k)) root_keywords
  else
    forallb (fun d => negb (String.eqb dir_name d)) known_subdirs.

Section NodeInduction.

Variable P : node -> Prop.
Hypothesis P_file : forall d, P (File d).
Hypothesis P_dir : forall es, Forall (fun e => P (snd e)) es -> P (Dir es).

Fixpoint node_rect' (n : node) : P n :=
  match n with
  | File d => P_file d
  | Dir es =>
      P_dir es
        ((fix all (l : FS.entries_t) : Forall (fun e => P (snd e)) l :=
            match l with
            | [] => Forall_nil _
            | e :: l' => Forall_cons e (node_rect' (snd e)) (all l')
            end) es)
  end.

End NodeInduction.

(** [p] and [q] lie on one branch of the tree. *)
Definition comparable (p q : path) : bool := FS.is_prefix p q || FS.is_prefix q p.

(** A document whose move cannot even start: it has no category, or a
    regular file sits on the way to its category directory. *)
Definition blocked (panda_core docs : path) (fs : node) (file_path : path) : Prop :=
  map_file_to_category file_path docs = None
  \/ exists cat q d,
       map_file_to_category file_path docs = Some cat
       /\ FS.is_prefix q (panda_core ++ [cat]) = true
       /\ FS.stat q fs = Some (KFile d).

(** The line printed for a document names it. *)
Definition line_name (l : line) : option string :=
  match l with
  | MovedLine name _ | ErrMoving name _ => Some name
  | _ => None
  end.

Definition is_moved_line (l : line) : bool :=
  match l with MovedLine _ _ => true | _ => false end.

Definition is_error_line (l : line) : bool :=
  match l with ErrMoving _ _ => true | _ => false end.

(** The structural failure of the error taxonomy: there is no container
    directory, under either name. *)
Definition structural_failure (fs : node) : bool :=
  negb (FS.exists_ old_panda_core fs) && negb (FS.exists_ new_panda_core fs).

(** [q] lies below [d], and is not [d] itself. *)
Definition strictly_under (d q : path) : bool :=
  FS.is_prefix d q && negb (FS.path_eqb d q).

(** A regular file at or below the path [q]. *)
Definition has_file_at (q : path) (fs : node) : bool :=
  match FS.lookup q fs with
  | Some n => FS.has_file n
  | None => false
  end.

(** A directory that holds no regular file, however deep: the directories
    the prune step is meant to remove. *)
Definition transitively_empty (q : path) (fs : node) : bool :=
  FS.is_dir q fs && negb (has_file_at q fs).

(** A regular file at or below [q], as a proposition on [stat]. *)
Definition file_below (fs : node) (q : path) : Prop :=
  exists r d, FS.stat (q ++ r) fs = Some (KFile d).

(** The order [sorted(..., key=len(str(p)), reverse=True)] puts the list
    in. *)
Definition longest_first (l : list path) : Prop :=
  StronglySorted (fun a b => len_str b <= len_str a) l.



(** An item of [SUBDIR_MAPPINGS] that step 2 has nothing to do for: the
    legacy directory is gone or the decorated one is there. *)
Definition settled (panda_core : path) (fs : node) (item : string * string) : Prop :=
  FS.exists_ (panda_core ++ [fst item]) fs = false
  \/ FS.exists_ (panda_core ++ [snd item]) fs = true.

(** All the directory names of a mapping table, legacy and decorated. *)
Definition item_names (items : list (string * string)) : list string :=
  map fst items ++ map snd items.

(** The claim on exit codes, as the specification words it: the exit code
    is non-zero exactly on a structural failure. *)
Definition exit_code_reflects_failure (fs : node) : Prop :=
  forall fs' out code,
    script fs = Some (fs', out, code) ->
    (code <> 0%Z <-> structural_failure fs = true).

(** No component of [q] below [docs/] has a name that ends in [.md]. *)
Definition md_free (q : path) : bool :=
  match PurePath.relative_to q docs_dir with
  | Some rel => forallb (fun x => negb (Str.fnmatch "*.md" x)) rel
  | None => true
  end.

(** The claim on enumeration, as the specification words it: every regular
    file under [docs/] is a candidate, and the run moves it away. *)
Definition format_agnostic (fs : node) : Prop :=
  forall q d,
    strictly_under docs_dir q = true ->
    FS.stat q fs = Some (KFile d) ->
    In q (FS.rglob "*.md" docs_dir fs)
    /\ forall fs' out, main fs = Some (fs', out) -> FS.stat q fs' = None.

(** A printed line that reports a move: the line of a moved document, or a
    summary with a positive moved count. *)
Definition reports_move (l : line) : bool :=
  match l with
  | MovedLine _ _ => true
  | Summary (S _) _ => true
  | _ => false
  end.

(** Where a run can be cut short: between two of the system calls that
    change the tree.  In step 2 after the first [j] items; in step 3
    after the first [k] documents, or after the [mkdir] of the document
    that follows them; in step 4 after the first [m] directories of its
    list (with all of them, before step 5). *)
Inductive cut : Type :=
| InStep2 (j : nat)
| InStep3 (k : nat)
| InStep3Mkdir (k : nat)
| InStep4 (m : nat).

(** The first action of a pass of step 3 on [file_path], and nothing
    more: the directory of its category is made. *)
Definition make_target_dir (panda_core docs file_path : path) (fs : node) : node :=
  match map_file_to_category file_path docs with
  | None => fs
  | Some target_category =>
      match FS.mkdir_p (panda_core ++ [target_category]) fs with
      | inr fs1 => fs1
      | inl _ => fs
      end
  end.

(** The tree a run cut short at [c] leaves behind. *)
Definition partial_run (c : cut) (fs : node) : option node :=
  match step1 fs with
  | (fs1, None, _) => Some fs1
  | (fs1, Some panda_core, _) =>
      match c with
      | InStep2 j => Some (fst (step2 panda_core (firstn j SUBDIR_MAPPINGS) fs1))
      | InStep3 k =>
          let (fs2, _) := step2 panda_core SUBDIR_MAPPINGS fs1 in
          if negb (FS.exists_ docs_dir fs2) then Some fs2
          else
            option_map c_fs
              (consolidate panda_core docs_dir
                 (firstn k (FS.rglob "*.md" docs_dir fs2)) fs2 0 0)
      | InStep3Mkdir k =>
          let (fs2, _) := step2 panda_core SUBDIR_MAPPINGS fs1 in
          if negb (FS.exists_ docs_dir fs2) then Some fs2
          else
            let all_files := FS.rglob "*.md" docs_dir fs2 in
            match consolidate panda_core docs_dir (firstn k all_files) fs2 0 0 with
            | None => None
            | Some r =>
                match nth_error all_files k with
                | Some file_path =>
                    Some (make_target_dir panda_core docs_dir file_path (c_fs r))
                | None => Some (c_fs r)
                end
            end
      | InStep4 m =>
          let (fs2, _) := step2 panda_core SUBDIR_MAPPINGS fs1 in
          match step3 panda_core fs2 with
          | None => None
          | Some (fs3, _) =>
              if FS.exists_ docs_dir fs3 then
                let all_dirs := sorted_reverse len_str (FS.rglob "*" docs_dir fs3) in
                Some (fst (fst (prune (firstn m all_dirs) fs3 0)))
              else Some fs3
          end
      end
  end.

(** The claim on partial runs, as the specification words it: the run
    started on the tree a partial run left behind ends in the tree the
    uninterrupted run ends in. *)
Definition converges_after_partial_run (fs : node) : Prop :=
  forall c fsk,
    partial_run c fs = Some fsk ->
    option_map fst (main fsk) = option_map fst (main fs).

(** The legacy directories of the container that step 2 has yet to deal
    with when the run is cut at [c]: none once step 2 is over. *)
Definition pending_legacy (c : cut) : list string :=
  match c with
  | InStep2 j => map fst (skipn j SUBDIR_MAPPINGS)
  | _ => []
  end.

(** The cuts that fall in the loop of step 3. *)
Definition in_step3 (c : cut) : bool :=
  match c with
  | InStep3 _ | InStep3Mkdir _ => true
  | _ => false
  end.

(** An output in which no line reports a move. *)
Definition quiet (out : list line) : Prop :=
  forallb (fun l => negb (reports_move l)) out = true.

(** The contents of all the regular files of a tree, one item per file:
    the documents the tree holds, wherever they are. *)
Fixpoint documents (n : node) : list string :=
  match n with
  | File d => [d]
  | Dir es =>
      (fix all (l : FS.entries_t) : list string :=
         match l with
         | [] => []
         | (_, c) :: l' => documents c ++ all l'
         end) es
  end.

(** Every candidate of step 3 is a regular file: no directory below
    [docs/] has a name that ends in [.md]. *)
Definition candidates_are_files (fs : node) : bool :=
  forallb (fun f => match FS.stat f fs with Some (KFile _) => true | _ => false end)
          (FS.rglob "*.md" docs_dir fs).

(** The first chain of [map_file_to_category] as a table: the keywords of
    each branch and the key of its category, in the order of the
    branches. *)
Definition root_rules : list (list string * string) :=
  [ (["getting_started"; "setup"; "environment"], "01_GETTING_STARTED");
    (["architecture"], "02_ARCHITECTURE");
    (["development"; "build"; "storybook"; "wiki"], "03_DEVELOPMENT");
    (["deployment"], "04_DEPLOYMENT");
    (["security"], "05_SECURITY");
    (["api"], "06_API_REFERENCE");
    (["service"], "07_SERVICES");
    (["test"], "08_TESTING");
    (["audit"; "cache"; "dead_code"], "09_AUDITS_AND_REPORTS");
    (["guide"; "resend"; "auto_config"], "10_GUIDES_AND_TUTORIALS");
    (["migration"], "11_MIGRATION_GUIDES");
    (["product"; "reference"; "scrollbar"; "analytics"; "cloudflare"; "chat"],
     "12_REFERENCE") ].

(** The second chain as a table: the directory name of each branch and the
    key of its category. *)
Definition subdir_rules : list (string * string) :=
  [ ("getting-started", "01_GETTING_STARTED");
    ("architecture", "02_ARCHITECTURE");
    ("development", "03_DEVELOPMENT");
    ("deployment", "04_DEPLOYMENT");
    ("security", "05_SECURITY");
    ("api", "06_API_REFERENCE");
    ("services", "07_SERVICES");
    ("guides", "10_GUIDES_AND_TUTORIALS");
    ("reference", "12_REFERENCE") ].

(** The key of the first rule one of whose keywords occurs in
    [file_name]; the key of the catch-all category when there is none. *)
Definition first_rule (rules : list (list string * string)) (file_name : string)
  : string :=
  match find (fun rule => existsb (Str.contains file_name) (fst rule)) rules with
  | Some rule => snd rule
  | None => "12_REFERENCE"
  end.

(** The key the table gives to a directory name. *)
Definition subdir_rule (rules : list (string * string)) (dir_name : string)
  : string :=
  match getitem rules dir_name with
  | Some key => key
  | None => "12_REFERENCE"
  end.

(** No regular file stands, in the container, at one of the [names]. *)
Definition no_file_at (names : list string) (fs : node) : bool :=
  forallb (fun x => match FS.stat (new_panda_core ++ [x]) fs with
                    | Some (KFile _) => false
                    | _ => true
                    end) names.

(** Below [docs/] the entries whose name ends in [.md] are the regular
    files, and the other entries are the directories. *)
Definition markdown_only (fs : node) : bool :=
  forallb (fun q => Bool.eqb (FS.is_dir q fs)
                      (negb (Str.fnmatch "*.md" (PurePath.name q))))
          (FS.rglob "*" docs_dir fs).

(** The line step 4 prints for a directory it removed. *)
Definition is_removed_line (l : line) : bool :=
  match l with RemovedEmptyDir _ => true | _ => false end.

(** The number of entries below a node, at every depth, directories and
    regular files alike. *)
Fixpoint entries_below (n : node) : nat :=
  match n with
  | File _ => 0
  | Dir es =>
      (fix sum (l : FS.entries_t) : nat :=
         match l with
         | [] => 0
         | (_, c) :: l' => S (entries_below c) + sum l'
         end) es
  end.

(** The exception a pass of the loop of step 3 raises on [file_path], and
    the tree it leaves behind: the classifier raises, and nothing has
    changed; or [mkdir] raises [e], and nothing has changed; or the
    category directory is made, a free target is found, and [shutil.move]
    raises [e]. *)
Inductive raises (panda_core docs file_path : path) (fs : node) (e : exn)
    (fs' : node) : Prop :=
| raises_classifier :
    map_file_to_category file_path docs = None ->
    e = ValueError -> fs' = fs ->
    raises panda_core docs file_path fs e fs'
| raises_mkdir (cat : string) :
    map_file_to_category file_path docs = Some cat ->
    FS.mkdir_p (panda_core ++ [cat]) fs = inl e -> fs' = fs ->
    raises panda_core docs file_path fs e fs'
| raises_move (cat : string) (target : path) :
    map_file_to_category file_path docs = Some cat ->
    FS.mkdir_p (panda_core ++ [cat]) fs = inr fs' ->
    resolve_target_file (panda_core ++ [cat]) file_path fs' = Some target ->
    FS.shutil_move file_path target fs' = inl e ->
    raises panda_core docs file_path fs e fs'.

(** What the line printed for the candidate [f] says of its pass, which
    leads from the tree [fs] to the tree [fs'].  A "moved" line names the
    candidate and its category: the pass has moved the entry to a path
    directly in the directory of that category, free before the pass, so
    that what was at or below [f] is at or below that path and nothing is
    left at [f].  An "error" line names the candidate and the exception
    the pass raised, and everything that existed before the pass, the
    candidate with it, exists as it was. *)
Definition reports (panda_core docs f : path) (fs fs' : node) (l : line) : Prop :=
  match l with
  | MovedLine name cat =>
      name = PurePath.name f
      /\ exists target,
           move_file panda_core docs f fs = Moved fs' cat target
           /\ map_file_to_category f docs = Some cat
           /\ PurePath.parent target = panda_core ++ [cat]
           /\ FS.exists_ target fs = false
           /\ FS.exists_ f fs = true
           /\ (forall r, FS.stat (target ++ r) fs' = FS.stat (f ++ r) fs)
           /\ (forall r, FS.stat (f ++ r) fs' = None)
  | ErrMoving name e =>
      name = PurePath.name f
      /\ move_file panda_core docs f fs = Raised fs' e
      /\ raises panda_core docs f fs e fs'
      /\ (forall q k, FS.stat q fs = Some k -> FS.stat q fs' = Some k)
  | _ => False
  end.

(** The lines of the loop of step 3 account for the candidates: one line
    for each candidate, in order, each reporting the pass of its
    candidate, and each pass starting from the tree the pass before it
    left, whether that one moved its document or raised. *)
Inductive accounted (panda_core docs : path)
  : list path -> node -> list line -> node -> Prop :=
| accounted_nil (fs : node) : accounted panda_core docs [] fs [] fs
| accounted_cons (f : path) (rest : list path) (fs fs' fs'' : node) (l : line)
    (out : list line) :
    reports panda_core docs f fs fs' l ->
    accounted panda_core docs rest fs' out fs'' ->
    accounted panda_core docs (f :: rest) fs (l :: out) fs''.

(** ** Sample trees *)

(** A container in which a regular file sits where the Security category
    directory belongs, and two documents, of which the first cannot be
    moved. *)
Definition tree_blocked : node :=
  Dir [("docs", Dir [("security.md", File "s"); ("misc.md", File "m")]);
       ("╠═══ PANDA_CORE ═══╣", Dir [("╠═══ SECURITY ═══╣", File "in the way")])].

(** A document tree with a file that is not markdown. *)
Definition tree_mixed : node :=
  Dir [("docs", Dir [("guide.md", File "g"); ("notes.txt", File "n")]);
       ("╠═══ PANDA_CORE ═══╣", Dir [])].


(** The same, with [docs/a/b/d/other.md] still in place. *)
Definition tree_chain_sibling : node :=
  Dir [("docs",
        Dir [("a", Dir [("b", Dir [("c", Dir []);
                                   ("d", Dir [("other.md", File "o")])])])])].

(** Two documents of one name, in two directories. *)
Definition tree_reports : node :=
  Dir [("docs", Dir [("a", Dir [("report.md", File "first")]);
                     ("b", Dir [("report.md", File "second")])]);
       ("╠═══ PANDA_CORE ═══╣", Dir [])].

(** A directory whose name ends in [.md], with a document inside. *)
Definition tree_md_dir : node :=
  Dir [("docs", Dir [("x.md", Dir [("api", Dir [("b.md", File "b")])])]);
       ("╠═══ PANDA_CORE ═══╣", Dir [])].

(** [docs/a/b/c/] beside a directory of depth one with a long name. *)
Definition tree_long_name : node :=
  Dir [("docs", Dir [("a", Dir [("b", Dir [("c", Dir [])])]);
                     ("long_directory_name", Dir [])])].

(** Two characters outside ASCII, in UTF-8: U+212A (KELVIN SIGN) and
    U+0130 (LATIN CAPITAL LETTER I WITH DOT ABOVE). *)
Definition kelvin_sign : string := String "226" (String "132" (String "170" "")).
Definition dotted_capital_i : string := String "196" (String "176" "").

(** U+00E9 (LATIN SMALL LETTER E WITH ACUTE), two bytes in UTF-8. *)
Definition e_acute : string := String "195" (String "169" "").

(** * Properties *)

(** ** Examples *)

Example classify_security :
  map_file_to_category ["docs"; "security-hardening.md"] ["docs"]
  = Some "╠═══ SECURITY ═══╣".
Proof. reflexivity. Qed.

Example classify_api_dir :
  map_file_to_category ["docs"; "api"; "endpoints.md"] ["docs"]
  = Some "╠═══ API_REFERENCE ═══╣".
Proof. reflexivity. Qed.

Example classify_misc :
  map_file_to_category ["docs"; "misc.md"] ["docs"]
  = Some "╚═══ REFERENCE ═══╝".
Proof. reflexivity. Qed.

Example classify_upper :
  map_file_to_category ["docs"; "API"; "x.md"] ["docs"]
  = Some "╠═══ API_REFERENCE ═══╣".
Proof. reflexivity. Qed.

(** [str.lower] outside ASCII: the Kelvin sign becomes [k], so that a
    name spelt with it holds the keyword [wiki]; and U+0130 becomes [i]
    and a combining dot, so that the name holds [api]. *)
Example classify_kelvin_sign :
  Str.lower ("wi" ++ kelvin_sign ++ "i.md") = "wiki.md"
  /\ map_file_to_category ["docs"; ("wi" ++ kelvin_sign ++ "i.md")%string] ["docs"]
     = Some "╠═══ DEVELOPMENT ═══╣"
  /\ Str.lower ("AP" ++ dotted_capital_i ++ ".md")
     = String "a" (String "p" (String "i" (String "204" (String "135" ".md"))))
  /\ map_file_to_category ["docs"; ("AP" ++ dotted_capital_i ++ ".md")%string] ["docs"]
     = Some "╠═══ API_REFERENCE ═══╣".
Proof. repeat split; reflexivity. Qed.

(** [len] counts characters, not bytes: a character outside ASCII counts
    once, whatever the length of its encoding. *)
Example len_code_points :
  Str.len ("AP" ++ dotted_capital_i ++ ".md") = 6
  /\ String.length ("AP" ++ dotted_capital_i ++ ".md") = 7
  /\ len_str ["docs"; kelvin_sign] = 6.
Proof. repeat split; reflexivity. Qed.

(** So step 4 takes [docs/abc], of eight characters, before the
    directory [docs/] followed by two [e_acute], of seven characters and
    nine bytes. *)
Example sorted_by_code_points :
  sorted_reverse len_str [["docs"; (e_acute ++ e_acute)%string]; ["docs"; "abc"]]
  = [["docs"; "abc"]; ["docs"; (e_acute ++ e_acute)%string]].
Proof. reflexivity. Qed.

Example suffix_report : PurePath.suffix ["t"; "report.md"] = ".md"
  /\ PurePath.stem ["t"; "report.md"] = "report"
  /\ PurePath.suffix [".md"] = "" /\ PurePath.stem [".md"] = ".md"
  /\ Str.of_nat 12 = "12" /\ Str.fnmatch "*.md" "a.md" = true
  /\ Str.fnmatch "*.md" "a.mdx" = false /\ Str.fnmatch "*" "" = true.
Proof. repeat split; reflexivity. Qed.

(** ** The classifier *)

Lemma relative_to_app (base rel : path) :
  PurePath.relative_to (base ++ rel) base = Some rel.
Proof.
  induction base as [|b base IH]; simpl; [reflexivity|].
  now rewrite String.eqb_refl.
Qed.

Lemma relative_to_inv (base : path) :
  forall p rel, PurePath.relative_to p base = Some rel -> p = base ++ rel.
Proof.
  induction base as [|b base IH]; simpl; intros p rel H.
  - now inversion H.
  - destruct p as [|x p]; [discriminate|].
    destruct (String.eqb x b) eqn:E; [|discriminate].
    apply String.eqb_eq in E. subst x. f_equal. now apply IH.
Qed.

Lemma map_file_to_category_some (docs rel : path) :
  exists c, map_file_to_category (docs ++ rel) docs = Some c
            /\ In c category_names.
Proof.
  unfold map_file_to_category. rewrite relative_to_app.
  cbv zeta.
  repeat match goal with
         | |- exists c, (if ?b then _ else _) = Some c /\ _ =>
             destruct b
         end.
  all: eexists; split; [reflexivity | simpl; tauto ].
Qed.

Lemma map_file_to_category_default (docs rel : path) :
  matches_no_rule rel = true ->
  map_file_to_category (docs ++ rel) docs = Some "╚═══ REFERENCE ═══╝".
Proof.
  unfold matches_no_rule, map_file_to_category. rewrite relative_to_app.
  cbv zeta.
  destruct (_ || _)%bool.
  - cbn [forallb root_keywords]. intros H.
    repeat (apply andb_prop in H; destruct H as [?H H]).
    repeat match goal with
           | K : negb ?b = true |- _ => apply negb_true_iff in K; rewrite K
           end.
    reflexivity.
  - cbn [forallb known_subdirs]. intros H.
    repeat (apply andb_prop in H; destruct H as [?H H]).
    repeat match goal with
           | K : negb ?b = true |- _ => apply negb_true_iff in K; rewrite K
           end.
    reflexivity.
Qed.

(** ** The file system operations *)

Module FSFacts.
Import FS.

(** *** Prefixes *)

Lemma is_prefix_iff (p q : path) :
  is_prefix p q = true <-> exists r, q = p ++ r.
Proof.
  revert q. induction p as [|x p IH]; intros q; simpl.
  - split; [intros _; now exists q | reflexivity].
  - destruct q as [|y q].
    + split; [discriminate | intros [r H]; discriminate].
    + rewrite andb_true_iff, String.eqb_eq, IH. split.
      * intros [-> [r ->]]. now exists r.
      * intros [r H]. inversion H. split; [reflexivity | now exists r].
Qed.

Lemma is_prefix_app (p r : path) : is_prefix p (p ++ r) = true.
Proof. apply is_prefix_iff. now exists r. Qed.

Lemma is_prefix_refl (p : path) : is_prefix p p = true.
Proof. apply is_prefix_iff. exists []. now rewrite app_nil_r. Qed.

Lemma is_prefix_trans (p q r : path) :
  is_prefix p q = true -> is_prefix q r = true -> is_prefix p r = true.
Proof.
  rewrite !is_prefix_iff. intros [a ->] [b ->]. exists (a ++ b).
  now rewrite app_assoc.
Qed.

Lemma is_prefix_relative_to (p q : path) :
  is_prefix p q = match PurePath.relative_to q p with Some _ => true | None => false end.
Proof.
  revert q. induction p as [|x p IH]; intros q; simpl; [reflexivity|].
  destruct q as [|y q]; [reflexivity|].
  rewrite (String.eqb_sym x y). destruct (String.eqb y x); simpl; [apply IH | reflexivity].
Qed.

Lemma path_eqb_eq (p q : path) : path_eqb p q = true <-> p = q.
Proof.
  unfold path_eqb. rewrite andb_true_iff, !is_prefix_iff. split.
  - intros [[a Ha] [b Hb]]. subst q.
    rewrite <- app_assoc in Hb. rewrite <- (app_nil_r p) in Hb at 1.
    apply app_inv_head in Hb. symmetry in Hb. apply app_eq_nil in Hb.
    destruct Hb as [-> _]. now rewrite app_nil_r.
  - intros ->. split; exists []; now rewrite app_nil_r.
Qed.

Lemma parent_snoc (p : path) (x : string) : PurePath.parent (p ++ [x]) = p.
Proof. apply removelast_last. Qed.

Lemma name_snoc (p : path) (x : string) : PurePath.name (p ++ [x]) = x.
Proof. apply last_last. Qed.

(** *** Entries *)

Lemma find_entry_remove (x y : string) (es : entries_t) :
  find_entry y (remove_entry x es)
  = if String.eqb y x then None else find_entry y es.
Proof.
  induction es as [|[z c] es IH]; simpl.
  - now destruct (String.eqb y x).
  - destruct (String.eqb z x) eqn:Ezx; simpl.
    + rewrite IH. destruct (String.eqb y x) eqn:Eyx; [reflexivity|].
      destruct (String.eqb z y) eqn:Ezy; [|reflexivity].
      apply String.eqb_eq in Ezx, Ezy. subst.
      now rewrite String.eqb_refl in Eyx.
    + destruct (String.eqb z y) eqn:Ezy.
      * apply String.eqb_eq in Ezy. subst z. now rewrite Ezx.
      * apply IH.
Qed.

Lemma find_entry_set (x y : string) (n : node) (es : entries_t) :
  find_entry y (set_entry x n es)
  = if String.eqb y x then Some n else find_entry y es.
Proof.
  induction es as [|[z c] es IH]; simpl.
  - now rewrite (String.eqb_sym x y).
  - destruct (String.eqb z x) eqn:Ezx; simpl.
    + apply String.eqb_eq in Ezx. subst z.
      rewrite (String.eqb_sym x y). now destruct (String.eqb y x).
    + destruct (String.eqb z y) eqn:Ezy.
      * apply String.eqb_eq in Ezy. subst z. now rewrite Ezx.
      * apply IH.
Qed.

Lemma find_entry_map (x y : string) (f : node -> node) (es : entries_t) :
  find_entry y (map_entry x f es)
  = if String.eqb y x then option_map f (find_entry y es) else find_entry y es.
Proof.
  induction es as [|[z c] es IH]; simpl.
  - now destruct (String.eqb y x).
  - destruct (String.eqb z x) eqn:Ezx; simpl.
    + apply String.eqb_eq in Ezx. subst z.
      rewrite (String.eqb_sym x y). destruct (String.eqb y x); [reflexivity|].
      apply IH.
    + destruct (String.eqb z y) eqn:Ezy.
      * apply String.eqb_eq in Ezy. subst z. now rewrite Ezx.
      * apply IH.
Qed.

Lemma find_entry_in (x : string) (es : entries_t) (c : node) :
  find_entry x es = Some c -> In (x, c) es.
Proof.
  induction es as [|[z c'] es IH]; simpl; [discriminate|].
  destruct (String.eqb z x) eqn:E.
  - apply String.eqb_eq in E. subst z. intros H. inversion H. now left.
  - intros H. right. now apply IH.
Qed.

Lemma in_find_entry (x : string) (es : entries_t) (c : node) :
  In (x, c) es -> find_entry x es <> None.
Proof.
  induction es as [|[z c'] es IH]; simpl; [tauto|].
  intros [H|H].
  - inversion H. subst. now rewrite String.eqb_refl.
  - destruct (String.eqb z x); [discriminate | now apply IH].
Qed.

(** *** Resolution *)

Lemma lookup_app (p q : path) (n : node) :
  lookup (p ++ q) n
  = match lookup p n with Some c => lookup q c | None => None end.
Proof.
  revert n. induction p as [|x p IH]; intros n; simpl; [reflexivity|].
  destruct n as [d|es]; [reflexivity|].
  destruct (find_entry x es); [apply IH | reflexivity].
Qed.

Lemma lookup_file_below (p : path) (d : string) :
  p <> [] -> lookup p (File d) = None.
Proof. destruct p; [congruence | reflexivity]. Qed.

Lemma lookup_empty_below (p : path) :
  p <> [] -> lookup p (Dir []) = None.
Proof. destruct p; [congruence | reflexivity]. Qed.

Lemma stat_nil (fs : node) : stat [] fs = Some (kind_of fs).
Proof. reflexivity. Qed.

Lemma stat_app (p q : path) (fs : node) :
  stat (p ++ q) fs
  = match lookup p fs with Some c => stat q c | None => None end.
Proof.
  unfold stat. rewrite lookup_app. now destruct (lookup p fs).
Qed.

Lemma exists_stat (p : path) (fs : node) :
  exists_ p fs = match stat p fs with Some _ => true | None => false end.
Proof. unfold exists_, stat. now destruct (lookup p fs). Qed.

Lemma is_dir_stat (p : path) (fs : node) :
  is_dir p fs = match stat p fs with Some KDir => true | _ => false end.
Proof. unfold is_dir, stat. now destruct (lookup p fs) as [[|]|]. Qed.

Lemma is_dir_true (p : path) (fs : node) :
  is_dir p fs = true <-> stat p fs = Some KDir.
Proof.
  rewrite is_dir_stat. destruct (stat p fs) as [[|]|]; split; congruence.
Qed.

Lemma exists_false (p : path) (fs : node) :
  exists_ p fs = false <-> stat p fs = None.
Proof. rewrite exists_stat. destruct (stat p fs); split; congruence. Qed.

Lemma exists_true (p : path) (fs : node) :
  exists_ p fs = true <-> stat p fs <> None.
Proof. rewrite exists_stat. destruct (stat p fs); split; congruence. Qed.

(** Whatever exists lies in a directory. *)
Lemma stat_below (p r : path) (fs : node) :
  r <> [] -> stat (p ++ r) fs <> None -> stat p fs = Some KDir.
Proof.
  intros Hr. rewrite stat_app. unfold stat.
  destruct (lookup p fs) as [[d|es]|]; simpl; try congruence.
  now rewrite lookup_file_below.
Qed.

Lemma stat_none_below (p r : path) (fs : node) :
  stat p fs = None -> stat (p ++ r) fs = None.
Proof.
  rewrite stat_app. unfold stat. now destruct (lookup p fs).
Qed.

Lemma stat_file_below (p r : path) (fs : node) (d : string) :
  stat p fs = Some (KFile d) -> r <> [] -> stat (p ++ r) fs = None.
Proof.
  intros H Hr. destruct (stat (p ++ r) fs) eqn:E; [|reflexivity].
  assert (stat p fs = Some KDir) by (apply (stat_below p r); congruence).
  congruence.
Qed.

(** *** Unlinking and linking *)

Lemma stat_delete (p q : path) (fs : node) :
  p <> [] ->
  stat q (delete p fs) = if is_prefix p q then None else stat q fs.
Proof.
  revert q fs. induction p as [|x p IH]; intros q fs Hp; [congruence|].
  destruct fs as [d|es].
  - simpl. destruct q as [|y q]; [reflexivity|].
    now destruct (String.eqb x y && is_prefix p q).
  - destruct p as [|z p].
    + simpl. destruct q as [|y q]; [reflexivity|].
      unfold stat. simpl. rewrite find_entry_remove, andb_true_r.
      rewrite (String.eqb_sym x y). now destruct (String.eqb y x).
    + destruct q as [|y q]; [reflexivity|].
      change (stat (y :: q) (delete (x :: z :: p) (Dir es)))
        with (option_map kind_of
                (match find_entry y (map_entry x (delete (z :: p)) es) with
                 | Some c => lookup q c | None => None end)).
      rewrite find_entry_map.
      change (is_prefix (x :: z :: p) (y :: q))
        with (String.eqb x y && is_prefix (z :: p) q).
      rewrite (String.eqb_sym x y).
      destruct (String.eqb y x); simpl; [|reflexivity].
      change (stat (y :: q) (Dir es))
        with (option_map kind_of
                (match find_entry y es with
                 | Some c => lookup q c | None => None end)).
      destruct (find_entry y es) as [c|]; simpl.
      * exact (IH q c ltac:(discriminate)).
      * now destruct q as [|y0 q']; [|destruct (String.eqb z y0 && is_prefix p q')].
Qed.

Lemma stat_insert (p q : path) (new fs : node) :
  p <> [] -> is_dir (PurePath.parent p) fs = true ->
  stat q (insert p new fs)
  = match PurePath.relative_to q p with
    | Some r => stat r new
    | None => stat q fs
    end.
Proof.
  revert q fs. induction p as [|x p IH]; intros q fs Hp Hd; [congruence|].
  destruct fs as [d|es].
  - destruct p; simpl in Hd; discriminate.
  - destruct p as [|z p].
    + simpl. destruct q as [|y q]; [reflexivity|].
      unfold stat at 1. simpl. rewrite find_entry_set.
      destruct (String.eqb y x); reflexivity.
    + destruct q as [|y q]; [reflexivity|].
      change (stat (y :: q) (insert (x :: z :: p) new (Dir es)))
        with (option_map kind_of
                (match find_entry y (map_entry x (insert (z :: p) new) es) with
                 | Some c => lookup q c | None => None end)).
      rewrite find_entry_map.
      change (PurePath.relative_to (y :: q) (x :: z :: p))
        with (if String.eqb y x then PurePath.relative_to q (z :: p) else None).
      destruct (String.eqb y x) eqn:E; [|reflexivity].
      apply String.eqb_eq in E. subst y.
      change (PurePath.parent (x :: z :: p)) with (x :: PurePath.parent (z :: p)) in Hd.
      change (stat (x :: q) (Dir es))
        with (option_map kind_of
                (match find_entry x es with
                 | Some c => lookup q c | None => None end)).
      unfold is_dir in Hd. cbn [lookup] in Hd.
      destruct (find_entry x es) as [c|]; simpl; [|discriminate].
      exact (IH q c ltac:(discriminate) Hd).
Qed.

End FSFacts.

Module OpFacts.
Import FS FSFacts.

Lemma is_prefix_parent (p : path) : is_prefix (PurePath.parent p) p = true.
Proof.
  destruct p as [|x p]; [reflexivity|].
  apply is_prefix_iff. exists [last (x :: p) EmptyString].
  apply app_removelast_last. discriminate.
Qed.

Lemma is_prefix_nil_inv (p q : path) : is_prefix p q = false -> p <> [].
Proof. intros H ->. discriminate. Qed.

Lemma relative_to_some_iff (p q r : path) :
  PurePath.relative_to q p = Some r <-> q = p ++ r.
Proof.
  split; [apply relative_to_inv | intros ->; apply relative_to_app].
Qed.

Lemma relative_to_none (p q : path) :
  PurePath.relative_to q p = None <-> is_prefix p q = false.
Proof.
  rewrite is_prefix_relative_to.
  destruct (PurePath.relative_to q p); split; congruence.
Qed.

(** *** [os.rename] onto a free name *)

Lemma os_rename_fresh_eq (src dst : path) (fs fs' : node) :
  stat dst fs = None ->
  os_rename src dst fs = inr fs' ->
  exists s, lookup src fs = Some s /\ is_prefix src dst = false
            /\ is_dir (PurePath.parent dst) fs = true /\ dst <> []
            /\ fs' = insert dst s (delete src fs).
Proof.
  intros Hdst. unfold os_rename.
  destruct (lookup src fs) as [s|] eqn:Hs; [|discriminate].
  destruct (path_eqb src dst) eqn:Heq.
  { apply path_eqb_eq in Heq. subst dst. unfold stat in Hdst.
    rewrite Hs in Hdst. discriminate. }
  destruct (is_prefix src dst) eqn:Hpre; [discriminate|].
  unfold is_dir.
  destruct (lookup (PurePath.parent dst) fs) as [[d|es]|] eqn:Hpar; try discriminate.
  destruct dst as [|x dst']; [discriminate|].
  unfold stat in Hdst.
  destruct (lookup (x :: dst') fs) eqn:Hl; [discriminate|].
  intros H. exists s. repeat split; try congruence.
Qed.

Lemma os_rename_fresh (src dst : path) (fs fs' : node) :
  stat dst fs = None ->
  os_rename src dst fs = inr fs' ->
  stat src fs <> None /\ is_prefix src dst = false
  /\ is_dir (PurePath.parent dst) fs = true
  /\ forall q,
       stat q fs'
       = match PurePath.relative_to q dst with
         | Some r => stat (src ++ r) fs
         | None => if is_prefix src q then None else stat q fs
         end.
Proof.
  intros Hdst H.
  destruct (os_rename_fresh_eq src dst fs fs' Hdst H)
    as (s & Hs & Hpre & Hpd & Hne & ->).
  assert (Hsrc : src <> []) by (eapply is_prefix_nil_inv; eassumption).
  repeat split; trivial.
  - unfold stat. now rewrite Hs.
  - intros q. rewrite stat_insert; trivial.
    + destruct (PurePath.relative_to q dst) as [r|].
      * rewrite stat_app, Hs. reflexivity.
      * now apply stat_delete.
    + apply is_dir_true. rewrite stat_delete by assumption.
      destruct (is_prefix src (PurePath.parent dst)) eqn:E.
      * rewrite (is_prefix_trans _ _ _ E (is_prefix_parent _)) in Hpre. discriminate.
      * now apply is_dir_true.
Qed.

Lemma os_rename_ok (src dst : path) (fs : node) :
  stat src fs <> None -> stat dst fs = None ->
  is_prefix src dst = false ->
  is_dir (PurePath.parent dst) fs = true ->
  exists fs', os_rename src dst fs = inr fs'.
Proof.
  intros Hs Hd Hpre Hpar. unfold os_rename, stat in *.
  destruct (lookup src fs) as [s|]; [|simpl in Hs; congruence].
  destruct (path_eqb src dst) eqn:Heq; [eauto|].
  rewrite Hpre. unfold is_dir in Hpar.
  destruct (lookup (PurePath.parent dst) fs) as [[d|es]|]; try discriminate.
  destruct dst as [|x dst'].
  - destruct src; discriminate.
  - destruct (lookup (x :: dst') fs); [simpl in Hd; discriminate | eauto].
Qed.

(** A failed [os.rename] onto a free name in an existing directory: the
    source is missing, or the target lies inside the source. *)
Lemma os_rename_fails (src dst : path) (fs : node) (e : exn) :
  stat dst fs = None -> is_dir (PurePath.parent dst) fs = true ->
  os_rename src dst fs = inl e ->
  stat src fs = None \/ is_prefix src dst = true.
Proof.
  intros Hd Hpar H.
  destruct (stat src fs) eqn:Hs; [|now left]. right.
  destruct (is_prefix src dst) eqn:Hpre; [reflexivity|].
  destruct (os_rename_ok src dst fs) as [fs' Hok]; try assumption; congruence.
Qed.

(** *** [shutil.move] onto a free name *)

Lemma shutil_move_fresh (src dst : path) (fs : node) :
  stat dst fs = None -> shutil_move src dst fs = os_rename src dst fs.
Proof.
  intros H. unfold shutil_move. rewrite is_dir_stat, H. reflexivity.
Qed.

(** *** [rmdir] *)

Lemma rmdir_inr (p : path) (fs fs' : node) :
  rmdir p fs = inr fs' ->
  lookup p fs = Some (Dir []) /\ p <> [] /\ fs' = delete p fs.
Proof.
  unfold rmdir. destruct p as [|x p]; [discriminate|].
  destruct (lookup (x :: p) fs) as [[d|[|e es]]|]; try discriminate.
  intros [= <-]. repeat split. discriminate.
Qed.

Lemma stat_rmdir (p q : path) (fs fs' : node) :
  rmdir p fs = inr fs' ->
  stat q fs' = if path_eqb p q then None else stat q fs.
Proof.
  intros H. apply rmdir_inr in H. destruct H as (Hl & Hp & ->).
  rewrite stat_delete by assumption.
  destruct (path_eqb p q) eqn:E.
  - apply path_eqb_eq in E. subst q. now rewrite is_prefix_refl.
  - destruct (is_prefix p q) eqn:Hpre; [|reflexivity].
    apply is_prefix_iff in Hpre. destruct Hpre as [r ->].
    rewrite stat_app, Hl. unfold stat. rewrite lookup_empty_below; [reflexivity|].
    intros ->. rewrite app_nil_r in E.
    assert (path_eqb p p = true) by now apply path_eqb_eq. congruence.
Qed.

(** *** [mkdir(parents=True, exist_ok=True)] *)

Lemma os_mkdir_inr (p : path) (fs fs' : node) :
  os_mkdir p fs = inr fs' ->
  stat p fs = None /\ p <> []
  /\ forall q, stat q fs' = if path_eqb p q then Some KDir else stat q fs.
Proof.
  unfold os_mkdir. destruct (lookup p fs) eqn:Hl; [discriminate|].
  destruct (lookup (PurePath.parent p) fs) as [[d|es]|] eqn:Hpar; try discriminate.
  intros [= <-].
  assert (Hp : p <> []) by (intros ->; discriminate).
  repeat split; trivial.
  - unfold stat. now rewrite Hl.
  - intros q. rewrite stat_insert; trivial; [|unfold is_dir; now rewrite Hpar].
    destruct (PurePath.relative_to q p) as [r|] eqn:Hr.
    + apply relative_to_some_iff in Hr. subst q. destruct r as [|y r].
      * rewrite app_nil_r.
        assert (path_eqb p p = true) by now apply path_eqb_eq.
        now rewrite H.
      * destruct (path_eqb p (p ++ y :: r)) eqn:E.
        { apply path_eqb_eq in E. rewrite <- (app_nil_r p) in E at 1.
          apply app_inv_head in E. discriminate. }
        rewrite stat_app, Hl. reflexivity.
    + destruct (path_eqb p q) eqn:E; [|reflexivity].
      apply path_eqb_eq in E. subst q.
      apply relative_to_none in Hr. now rewrite is_prefix_refl in Hr.
Qed.

Lemma mkdir_parents_inr (todo : path) :
  forall done fs fs',
    mkdir_parents done todo fs = inr fs' ->
    (forall q k, stat q fs = Some k -> stat q fs' = Some k)
    /\ (forall q, stat q fs = None -> stat q fs' <> None ->
                  stat q fs' = Some KDir /\ is_prefix q (done ++ todo) = true)
    /\ (todo <> [] -> stat (done ++ todo) fs' = Some KDir).
Proof.
  induction todo as [|x todo IH]; intros done fs fs' H; simpl in H.
  - inversion H. subst fs'. repeat split; trivial; congruence.
  - destruct (lookup (done ++ [x]) fs) as [[d|es]|] eqn:Hl; try discriminate.
    + apply IH in H. destruct H as (H1 & H2 & H3).
      rewrite <- app_assoc in H2, H3. simpl in H2, H3.
      repeat split; trivial.
      * now apply H2.
      * now apply H2.
      * intros _. destruct todo as [|y todo]; [|apply H3; discriminate].
        apply H1. unfold stat. now rewrite Hl.
    + destruct (os_mkdir (done ++ [x]) fs) as [e|fs1] eqn:Hm; [discriminate|].
      apply os_mkdir_inr in Hm. destruct Hm as (Hn & Hne & Hst).
      apply IH in H. destruct H as (H1 & H2 & H3).
      rewrite <- app_assoc in H2, H3. simpl in H2, H3.
      assert (Hk : forall q k, stat q fs = Some k -> stat q fs1 = Some k).
      { intros q k Hq. rewrite Hst. destruct (path_eqb (done ++ [x]) q) eqn:E; trivial.
        apply path_eqb_eq in E. subst q. congruence. }
      repeat split.
      * intros q k Hq. apply H1. now apply Hk.
      * destruct (stat q fs1) as [k|] eqn:Hq1.
        -- rewrite Hst in Hq1. destruct (path_eqb (done ++ [x]) q) eqn:E; [|congruence].
           apply H1. now rewrite Hst, E.
        -- now apply H2.
      * destruct (stat q fs1) as [k|] eqn:Hq1.
        -- rewrite Hst in Hq1. destruct (path_eqb (done ++ [x]) q) eqn:E; [|congruence].
           apply path_eqb_eq in E. subst q.
           change (x :: todo) with ([x] ++ todo). rewrite app_assoc.
           apply is_prefix_app.
        -- now apply H2.
      * intros _. destruct todo as [|y todo]; [|apply H3; discriminate].
        apply H1. rewrite Hst.
        assert (E : path_eqb (done ++ [x]) (done ++ [x]) = true) by now apply path_eqb_eq.
        now rewrite E.
Qed.

Lemma mkdir_p_inr (p : path) (fs fs' : node) :
  mkdir_p p fs = inr fs' ->
  (forall q k, stat q fs = Some k -> stat q fs' = Some k)
  /\ (forall q, stat q fs = None -> stat q fs' <> None ->
                stat q fs' = Some KDir /\ is_prefix q p = true)
  /\ (p <> [] -> stat p fs' = Some KDir).
Proof. apply (mkdir_parents_inr p []). Qed.

(** A regular file on the way makes it raise, and nothing else does. *)
Lemma mkdir_parents_inl (todo : path) :
  forall done fs e,
    is_dir done fs = true ->
    mkdir_parents done todo fs = inl e ->
    exists q d, is_prefix q (done ++ todo) = true /\ stat q fs = Some (KFile d).
Proof.
  induction todo as [|x todo IH]; intros done fs e Hd H; simpl in H; [discriminate|].
  destruct (lookup (done ++ [x]) fs) as [[d|es]|] eqn:Hl.
  - exists (done ++ [x]), d. split.
    + change (x :: todo) with ([x] ++ todo). rewrite app_assoc. apply is_prefix_app.
    + unfold stat. now rewrite Hl.
  - apply IH in H; [|unfold is_dir; now rewrite Hl].
    now rewrite <- app_assoc in H.
  - unfold os_mkdir in H. rewrite Hl, parent_snoc in H.
    unfold is_dir in Hd.
    destruct (lookup done fs) as [[d|es]|] eqn:Hdone; try discriminate.
    assert (Hst : forall q, stat q (insert (done ++ [x]) (Dir []) fs)
                            = if path_eqb (done ++ [x]) q then Some KDir else stat q fs).
    { intros q.
      destruct (os_mkdir_inr (done ++ [x]) fs (insert (done ++ [x]) (Dir []) fs))
        as (_ & _ & Hq); [|apply Hq].
      unfold os_mkdir. now rewrite Hl, parent_snoc, Hdone. }
    rename H into Hm.
    apply IH in Hm.
    + destruct Hm as (q & d & Hq & Hf). rewrite <- app_assoc in Hq.
      exists q, d. split; trivial. rewrite Hst in Hf.
      destruct (path_eqb (done ++ [x]) q); [discriminate | assumption].
    + apply is_dir_true. rewrite Hst.
      assert (E : path_eqb (done ++ [x]) (done ++ [x]) = true) by now apply path_eqb_eq.
      now rewrite E.
Qed.

Lemma mkdir_p_inl (p : path) (fs : node) (e : exn) :
  mkdir_p p fs = inl e ->
  exists q d, is_prefix q p = true /\ stat q fs = Some (KFile d).
Proof.
  intros H. destruct fs as [d|es].
  - exists [], d. split; reflexivity.
  - apply (mkdir_parents_inl p [] (Dir es) e); [reflexivity | exact H].
Qed.

Lemma mkdir_parents_blocked (todo : path) :
  forall done fs r d,
    is_prefix r todo = true -> r <> [] ->
    stat (done ++ r) fs = Some (KFile d) ->
    exists e, mkdir_parents done todo fs = inl e.
Proof.
  induction todo as [|x todo IH]; intros done fs r d Hr Hne Hf.
  - destruct r; [congruence | discriminate].
  - destruct r as [|y r]; [congruence|]. simpl in Hr.
    apply andb_prop in Hr. destruct Hr as [Hy Hr].
    apply String.eqb_eq in Hy. subst y. simpl.
    change (x :: r) with ([x] ++ r) in Hf. rewrite app_assoc in Hf.
    destruct (lookup (done ++ [x]) fs) as [[d'|es]|] eqn:Hl.
    + eauto.
    + destruct r as [|z r].
      * rewrite app_nil_r in Hf. unfold stat in Hf. rewrite Hl in Hf. discriminate.
      * apply (IH (done ++ [x]) fs (z :: r) d); trivial. discriminate.
    + rewrite stat_none_below in Hf; [discriminate|].
      unfold stat. now rewrite Hl.
Qed.

Lemma mkdir_p_blocked (p q : path) (fs : node) (d : string) :
  p <> [] -> is_prefix q p = true -> stat q fs = Some (KFile d) ->
  exists e, mkdir_p p fs = inl e.
Proof.
  intros Hp Hq Hf. destruct q as [|y q].
  - destruct fs as [d'|es]; [|discriminate].
    destruct p as [|x p]; [congruence|]. unfold mkdir_p. simpl.
    unfold os_mkdir. simpl. destruct p; simpl; eauto.
  - apply (mkdir_parents_blocked p [] fs (y :: q) d); trivial. discriminate.
Qed.

End OpFacts.

(** ** The conflict loop *)

Module Conflicts.
Import FS FSFacts OpFacts.

Lemma append_length (a b : string) :
  String.length (a ++ b)%string = String.length a + String.length b.
Proof. induction a as [|c a IH]; simpl; [reflexivity | now rewrite IH]. Qed.

Lemma append_inv_head (s a b : string) :
  (s ++ a)%string = (s ++ b)%string -> a = b.
Proof.
  induction s as [|c s IH]; simpl; intros H; [exact H|].
  inversion H. now apply IH.
Qed.

Lemma append_inv_tail (t : string) :
  forall a b, (a ++ t)%string = (b ++ t)%string -> a = b.
Proof.
  induction a as [|c a IH]; intros [|c' b] H; simpl in H.
  - reflexivity.
  - apply (f_equal String.length) in H. simpl in H.
    rewrite append_length in H. lia.
  - apply (f_equal String.length) in H. simpl in H.
    rewrite append_length in H. lia.
  - inversion H. f_equal. now apply IH.
Qed.

Lemma of_nat_inj (j k : nat) : Str.of_nat j = Str.of_nat k -> j = k.
Proof.
  unfold Str.of_nat. intros H.
  apply DecimalNat.Unsigned.to_uint_inj.
  assert (E : Some (Nat.to_uint j) = Some (Nat.to_uint k)).
  { rewrite <- !NilEmpty.usu. now rewrite H. }
  now inversion E.
Qed.

Lemma numbered_inj (file_path : path) (j k : nat) :
  numbered file_path j = numbered file_path k -> j = k.
Proof.
  unfold numbered. intros H.
  apply append_inv_head in H. apply append_inv_head in H.
  apply append_inv_tail in H. now apply of_nat_inj.
Qed.

Lemma numbered_NoDup (file_path : path) (start len : nat) :
  NoDup (map (numbered file_path) (seq start len)).
Proof.
  apply Finite.Injective_map_NoDup; [|apply seq_NoDup].
  intros j k. apply numbered_inj.
Qed.

(** An existing child is one of the entries of its directory. *)
Lemma exists_child (d : path) (x : string) (fs : node) :
  exists_ (d ++ [x]) fs = true ->
  exists es, lookup d fs = Some (Dir es) /\ In x (map fst es).
Proof.
  unfold exists_. rewrite lookup_app.
  destruct (lookup d fs) as [[c|es]|]; try discriminate.
  simpl. destruct (find_entry x es) as [c|] eqn:E; [|discriminate].
  intros _. exists es. split; [reflexivity|].
  apply find_entry_in in E. now apply (in_map fst) in E.
Qed.

Lemma handle_name_conflicts_some (target_dir file_path : path) (fs : node) :
  forall fuel counter target t,
    handle_name_conflicts fuel target_dir file_path counter target fs = Some t ->
    exists_ t fs = false
    /\ ((exists_ target fs = false /\ t = target)
        \/ (exists_ target fs = true
            /\ exists k, counter <= k
                 /\ t = target_dir ++ [numbered file_path k]
                 /\ forall j, counter <= j < k ->
                      exists_ (target_dir ++ [numbered file_path j]) fs = true)).
Proof.
  induction fuel as [|fuel IH]; intros counter target t H; simpl in H; [discriminate|].
  destruct (exists_ target fs) eqn:E.
  - apply IH in H. destruct H as (Hfree & [[Hf ->]|(Hex & k & Hk & -> & Hall)]).
    + split; [exact Hf|]. right. split; [reflexivity|].
      exists counter. repeat split; trivial. intros j Hj. lia.
    + split; [exact Hfree|]. right. split; [reflexivity|].
      exists k. repeat split; [lia|]. intros j Hj.
      destruct (Nat.eq_dec j counter) as [->|Hne]; [exact Hex|].
      apply Hall. lia.
  - inversion H. subst t. split; [exact E|]. now left.
Qed.

Lemma handle_name_conflicts_none (target_dir file_path : path) (fs : node) :
  forall fuel counter target,
    handle_name_conflicts fuel target_dir file_path counter target fs = None ->
    forall j, counter <= j -> j + 2 <= counter + fuel ->
              exists_ (target_dir ++ [numbered file_path j]) fs = true.
Proof.
  induction fuel as [|fuel IH]; intros counter target H j Hj1 Hj2; [lia|].
  simpl in H. destruct (exists_ target fs) eqn:E; [|discriminate].
  destruct (Nat.eq_dec j counter) as [->|Hne].
  - destruct fuel as [|fuel]; [lia|]. simpl in H.
    destruct (exists_ (target_dir ++ [numbered file_path counter]) fs);
      [reflexivity | discriminate].
  - apply (IH _ _ H); lia.
Qed.

(** The loop ends: a directory of [n] entries cannot hold the [n + 1]
    numbered names the loop would have had to find there. *)
Lemma handle_name_conflicts_terminates (target_dir file_path target : path)
    (fs : node) (fuel : nat) :
  2 + entry_count target_dir fs <= fuel ->
  exists t, handle_name_conflicts fuel target_dir file_path 1 target fs = Some t.
Proof.
  intros Hfuel.
  destruct (handle_name_conflicts fuel target_dir file_path 1 target fs) as [t|] eqn:H;
    [now exists t|].
  exfalso.
  pose proof (handle_name_conflicts_none _ _ _ _ _ _ H) as Hall.
  assert (H1 : exists_ (target_dir ++ [numbered file_path 1]) fs = true)
    by (apply Hall; lia).
  apply exists_child in H1. destruct H1 as (es & Hl & _).
  unfold entry_count in Hfuel. rewrite Hl in Hfuel.
  assert (Hincl : incl (map (numbered file_path) (seq 1 (S (List.length es))))
                       (map fst es)).
  { intros nm Hin. apply in_map_iff in Hin. destruct Hin as (j & <- & Hj).
    apply in_seq in Hj.
    assert (Hex : exists_ (target_dir ++ [numbered file_path j]) fs = true)
      by (apply Hall; lia).
    apply exists_child in Hex. destruct Hex as (es' & Hl' & Hin).
    congruence. }
  apply NoDup_incl_length in Hincl; [|apply numbered_NoDup].
  rewrite !length_map, length_seq in Hincl. lia.
Qed.

End Conflicts.

(** ** One pass of the step 3 loop *)

Module MoveFacts.
Import FS FSFacts OpFacts Conflicts.

Lemma is_prefix_snoc (q p : path) (x : string) :
  is_prefix q (p ++ [x]) = true -> is_prefix q p = true \/ q = p ++ [x].
Proof.
  revert q. induction p as [|y p IH]; intros q H.
  - destruct q as [|z q]; [now left|]. simpl in H.
    apply andb_prop in H. destruct H as [Hz Hq].
    apply String.eqb_eq in Hz. subst z.
    destruct q; [now right | discriminate].
  - destruct q as [|z q]; [now left|]. simpl in H.
    apply andb_prop in H. destruct H as [Hz Hq].
    apply String.eqb_eq in Hz. subst z. simpl. rewrite String.eqb_refl. simpl.
    destruct (IH q Hq) as [H1| ->]; [now left | now right].
Qed.

Lemma resolve_target_file_spec (target_dir file_path : path) (fs : node) :
  exists t nm,
    resolve_target_file target_dir file_path fs = Some t
    /\ t = target_dir ++ [nm] /\ stat t fs = None.
Proof.
  unfold resolve_target_file.
  destruct (handle_name_conflicts_terminates target_dir file_path
              (target_dir ++ [PurePath.name file_path]) fs
              (2 + entry_count target_dir fs) (Nat.le_refl _)) as [t Ht].
  destruct (handle_name_conflicts_some _ _ _ _ _ _ _ Ht)
    as (Hfree & [[_ ->]|(_ & k & _ & -> & _)]).
  - exists (target_dir ++ [PurePath.name file_path]), (PurePath.name file_path).
    repeat split; trivial. now apply exists_false.
  - exists (target_dir ++ [numbered file_path k]), (numbered file_path k).
    repeat split; trivial. now apply exists_false.
Qed.

(** Everything [move_file] can do. *)
Lemma move_file_spec (panda_core docs file_path : path) (fs : node) :
  match move_file panda_core docs file_path fs with
  | Looping => False
  | Moved fs' cat target =>
      map_file_to_category file_path docs = Some cat
      /\ exists fs1 nm,
          mkdir_p (panda_core ++ [cat]) fs = inr fs1
          /\ target = panda_core ++ [cat] ++ [nm]
          /\ stat target fs1 = None
          /\ stat file_path fs1 <> None
          /\ is_prefix file_path target = false
          /\ forall q,
               stat q fs'
               = match PurePath.relative_to q target with
                 | Some r => stat (file_path ++ r) fs1
                 | None => if is_prefix file_path q then None else stat q fs1
                 end
  | Raised fs' e =>
      (fs' = fs
       /\ (map_file_to_category file_path docs = None
           \/ exists cat, map_file_to_category file_path docs = Some cat
                          /\ mkdir_p (panda_core ++ [cat]) fs = inl e))
      \/ (exists cat, map_file_to_category file_path docs = Some cat
                      /\ mkdir_p (panda_core ++ [cat]) fs = inr fs'
                      /\ (stat file_path fs' = None
                          \/ is_prefix file_path panda_core = true
                          \/ file_path = panda_core ++ [cat]))
  end.
Proof.
  unfold move_file.
  destruct (map_file_to_category file_path docs) as [cat|] eqn:Hc;
    [|left; split; [reflexivity | now left]].
  destruct (mkdir_p (panda_core ++ [cat]) fs) as [e|fs1] eqn:Hm.
  { left. split; [reflexivity|]. right. now exists cat. }
  destruct (resolve_target_file_spec (panda_core ++ [cat]) file_path fs1)
    as (t & nm & Ht & -> & Hfree).
  rewrite Ht. rewrite shutil_move_fresh by assumption.
  assert (Hdir : is_dir (PurePath.parent ((panda_core ++ [cat]) ++ [nm])) fs1 = true).
  { rewrite parent_snoc. apply is_dir_true.
    apply (mkdir_p_inr _ _ _ Hm). now destruct panda_core. }
  destruct (os_rename file_path ((panda_core ++ [cat]) ++ [nm]) fs1) as [e|fs2] eqn:Hr.
  - right. exists cat. repeat split; trivial.
    destruct (os_rename_fails _ _ _ _ Hfree Hdir Hr) as [H|H]; [now left|].
    apply is_prefix_snoc in H. destruct H as [H| ->]; [|now left].
    right. apply is_prefix_snoc in H. destruct H as [H| ->]; [now left | now right].
  - split; [reflexivity|]. exists fs1, nm.
    destruct (os_rename_fresh _ _ _ _ Hfree Hr) as (Hs & Hpre & _ & Hq).
    rewrite <- app_assoc in *. repeat split; trivial.
Qed.

(** Whatever existed, outside the moved entry, is still there and regular
    files keep their content. *)
Lemma move_file_keeps (panda_core docs file_path : path) (fs : node) :
  forall q k, stat q fs = Some k ->
    match move_file panda_core docs file_path fs with
    | Looping => False
    | Moved fs' _ _ => is_prefix file_path q = false -> stat q fs' = Some k
    | Raised fs' _ => stat q fs' = Some k
    end.
Proof.
  intros q k Hq. pose proof (move_file_spec panda_core docs file_path fs) as H.
  destruct (move_file panda_core docs file_path fs) as [fs' cat target|fs' e|];
    [| |exact H].
  - destruct H as (_ & fs1 & nm & Hm & -> & Hfree & _ & _ & Hst).
    intros Hpre. rewrite Hst.
    assert (Hq1 : stat q fs1 = Some k) by now apply (mkdir_p_inr _ _ _ Hm).
    destruct (PurePath.relative_to q (panda_core ++ [cat] ++ [nm])) as [r|] eqn:Hr.
    + apply relative_to_some_iff in Hr. subst q.
      rewrite (stat_none_below _ r _ Hfree) in Hq1. discriminate.
    + now rewrite Hpre.
  - destruct H as [[-> _]|(cat & _ & Hm & _)]; [exact Hq|].
    now apply (mkdir_p_inr _ _ _ Hm).
Qed.

(** Whatever appears, appears on the branch of the container. *)
Lemma move_file_creates (panda_core docs file_path : path) (fs : node) :
  forall q, stat q fs = None ->
    match move_file panda_core docs file_path fs with
    | Looping => False
    | Moved fs' _ _ | Raised fs' _ =>
        stat q fs' <> None -> comparable panda_core q = true
    end.
Proof.
  intros q Hq. pose proof (move_file_spec panda_core docs file_path fs) as H.
  assert (Hmk : forall cat fs1, mkdir_p (panda_core ++ [cat]) fs = inr fs1 ->
                  stat q fs1 <> None -> comparable panda_core q = true).
  { intros cat fs1 Hm Hne. unfold comparable.
    destruct (proj1 (proj2 (mkdir_p_inr _ _ _ Hm)) q Hq Hne) as [_ Hp].
    apply is_prefix_snoc in Hp. destruct Hp as [Hp| ->].
    - rewrite Hp. apply orb_true_r.
    - now rewrite is_prefix_app. }
  destruct (move_file panda_core docs file_path fs) as [fs' cat target|fs' e|];
    [| |exact H].
  - destruct H as (_ & fs1 & nm & Hm & -> & _ & _ & _ & Hst).
    rewrite Hst.
    destruct (PurePath.relative_to q (panda_core ++ [cat] ++ [nm])) as [r|] eqn:Hr.
    + intros _. apply relative_to_some_iff in Hr. subst q. unfold comparable.
      rewrite <- app_assoc. now rewrite is_prefix_app.
    + destruct (is_prefix file_path q); [congruence|]. apply (Hmk cat fs1 Hm).
  - destruct H as [[-> _]|(cat & _ & Hm & _)]; [congruence|].
    apply (Hmk cat fs' Hm).
Qed.

End MoveFacts.

(** ** The step 3 loop *)

Module LoopFacts.
Import FS FSFacts OpFacts MoveFacts.

Lemma blocked_move_file (panda_core docs file_path : path) (fs : node) :
  blocked panda_core docs fs file_path ->
  exists e, move_file panda_core docs file_path fs = Raised fs e.
Proof.
  unfold move_file. intros [H|(cat & q & d & Hc & Hq & Hf)]; rewrite ?H, ?Hc; eauto.
  destruct (mkdir_p_blocked (panda_core ++ [cat]) q fs d) as [e He]; trivial.
  - now destruct panda_core.
  - rewrite He. eauto.
Qed.

Lemma blocked_stable (panda_core docs file_path : path) (fs fs' : node) :
  (forall q d, stat q fs = Some (KFile d) -> stat q fs' = Some (KFile d)) ->
  blocked panda_core docs fs file_path -> blocked panda_core docs fs' file_path.
Proof.
  intros Hkeep [H|(cat & q & d & Hc & Hq & Hf)]; [now left|].
  right. exists cat, q, d. auto.
Qed.

(** The loop always ends. *)
Lemma consolidate_total (panda_core docs : path) (all_files : list path) :
  forall fs moved errors,
    exists r, consolidate panda_core docs all_files fs moved errors = Some r.
Proof.
  induction all_files as [|f rest IH]; intros fs moved errors; simpl; [eauto|].
  pose proof (move_file_spec panda_core docs f fs) as H.
  destruct (move_file panda_core docs f fs) as [fs' cat target|fs' e|]; [| |contradiction].
  - destruct (IH fs' (S moved) errors) as [r ->]. eauto.
  - destruct (IH fs' moved (S errors)) as [r ->]. eauto.
Qed.

Lemma consolidate_accounts (panda_core docs : path) (all_files : list path) :
  forall fs moved errors r,
    consolidate panda_core docs all_files fs moved errors = Some r ->
    map line_name (c_out r) = map (fun f => Some (PurePath.name f)) all_files
    /\ moved_count r = moved + List.length (filter is_moved_line (c_out r))
    /\ error_count r = errors + List.length (filter is_error_line (c_out r))
    /\ moved_count r + error_count r = moved + errors + List.length all_files.
Proof.
  induction all_files as [|f rest IH]; intros fs moved errors r H; simpl in H.
  - inversion H. simpl. repeat split; lia.
  - destruct (move_file panda_core docs f fs) as [fs' cat target|fs' e|]; [| |discriminate].
    + destruct (consolidate panda_core docs rest fs' (S moved) errors) as [r'|] eqn:Hr;
        [|discriminate].
      inversion H. subst r. simpl. apply IH in Hr.
      destruct Hr as (-> & -> & -> & Hsum). repeat split; lia.
    + destruct (consolidate panda_core docs rest fs' moved (S errors)) as [r'|] eqn:Hr;
        [|discriminate].
      inversion H. subst r. simpl. apply IH in Hr.
      destruct Hr as (-> & -> & -> & Hsum). repeat split; lia.
Qed.

Lemma consolidate_keeps (panda_core docs : path) (all_files : list path) :
  forall fs moved errors r,
    consolidate panda_core docs all_files fs moved errors = Some r ->
    forall q k, stat q fs = Some k ->
      (forall f, In f all_files -> is_prefix f q = false) ->
      stat q (c_fs r) = Some k.
Proof.
  induction all_files as [|f rest IH]; intros fs moved errors r H q k Hq Hout;
    simpl in H.
  - inversion H. exact Hq.
  - pose proof (move_file_keeps panda_core docs f fs q k Hq) as Hk.
    destruct (move_file panda_core docs f fs) as [fs' cat target|fs' e|]; [| |discriminate].
    + destruct (consolidate panda_core docs rest fs' (S moved) errors) as [r'|] eqn:Hr;
        [|discriminate].
      inversion H. subst r. simpl.
      apply (IH _ _ _ _ Hr); [apply Hk; apply Hout; now left|].
      intros g Hg. apply Hout. now right.
    + destruct (consolidate panda_core docs rest fs' moved (S errors)) as [r'|] eqn:Hr;
        [|discriminate].
      inversion H. subst r. simpl.
      apply (IH _ _ _ _ Hr); [exact Hk|].
      intros g Hg. apply Hout. now right.
Qed.

Lemma consolidate_creates (panda_core docs : path) (all_files : list path) :
  forall fs moved errors r,
    consolidate panda_core docs all_files fs moved errors = Some r ->
    forall q, stat q fs = None -> stat q (c_fs r) <> None ->
      comparable panda_core q = true.
Proof.
  induction all_files as [|f rest IH]; intros fs moved errors r H q Hq Hne;
    simpl in H.
  - inversion H. subst r. simpl in Hne. congruence.
  - pose proof (move_file_creates panda_core docs f fs q Hq) as Hk.
    destruct (move_file panda_core docs f fs) as [fs' cat target|fs' e|]; [| |discriminate].
    + destruct (consolidate panda_core docs rest fs' (S moved) errors) as [r'|] eqn:Hr;
        [|discriminate].
      inversion H. subst r. simpl in Hne.
      destruct (stat q fs') eqn:Hq'; [apply Hk; congruence|].
      apply (IH _ _ _ _ Hr q Hq' Hne).
    + destruct (consolidate panda_core docs rest fs' moved (S errors)) as [r'|] eqn:Hr;
        [|discriminate].
      inversion H. subst r. simpl in Hne.
      destruct (stat q fs') eqn:Hq'; [apply Hk; congruence|].
      apply (IH _ _ _ _ Hr q Hq' Hne).
Qed.

(** On documents that are all blocked the loop changes nothing and moves
    nothing. *)
Lemma consolidate_blocked (panda_core docs : path) (all_files : list path) (fs : node) :
  (forall f, In f all_files -> blocked panda_core docs fs f) ->
  forall moved errors,
    exists r, consolidate panda_core docs all_files fs moved errors = Some r
              /\ c_fs r = fs /\ moved_count r = moved
              /\ filter is_moved_line (c_out r) = [].
Proof.
  induction all_files as [|f rest IH]; intros Hb moved errors; simpl.
  - eexists. repeat split.
  - destruct (blocked_move_file _ _ _ _ (Hb f (or_introl eq_refl))) as [e ->].
    destruct (IH (fun g Hg => Hb g (or_intror Hg)) moved (S errors))
      as (r & -> & Hfs & Hm & Hl).
    eexists. repeat split; simpl; assumption.
Qed.

Lemma comparable_prefix_of_category (panda_core g q : path) (cat : string) :
  comparable panda_core g = false ->
  is_prefix q (panda_core ++ [cat]) = true ->
  is_prefix g q = false.
Proof.
  intros Hg Hq. destruct (is_prefix g q) eqn:E; [|reflexivity].
  pose proof (is_prefix_trans _ _ _ E Hq) as H.
  apply is_prefix_snoc in H. unfold comparable in Hg.
  apply orb_false_iff in Hg. destruct Hg as [Hg1 Hg2].
  destruct H as [H| ->]; [congruence|].
  now rewrite is_prefix_app in Hg1.
Qed.

(** A document still in place after the loop is a blocked one. *)
Lemma consolidate_residue (panda_core docs : path) (all_files : list path) :
  forall fs moved errors r,
    consolidate panda_core docs all_files fs moved errors = Some r ->
    (forall g, In g all_files -> comparable panda_core g = false) ->
    forall f, In f all_files -> stat f (c_fs r) <> None ->
      blocked panda_core docs (c_fs r) f.
Proof.
  induction all_files as [|f0 rest IH]; intros fs moved errors r H Hout f Hin Hne;
    [contradiction|].
  simpl in H.
  pose proof (move_file_spec panda_core docs f0 fs) as Hspec.
  assert (Hgone : forall fs' m e r',
             consolidate panda_core docs rest fs' m e = Some r' ->
             stat f0 fs' = None -> stat f0 (c_fs r') = None).
  { intros fs' m e r' Hr Hn. destruct (stat f0 (c_fs r')) eqn:Hs; [|reflexivity].
    assert (Hc : comparable panda_core f0 = true).
    { apply (consolidate_creates _ _ _ _ _ _ _ Hr f0 Hn). congruence. }
    rewrite Hout in Hc; [discriminate | now left]. }
  assert (Hrest : forall g, In g rest -> comparable panda_core g = false)
    by (intros g Hg; apply Hout; now right).
  destruct (move_file panda_core docs f0 fs) as [fs' cat target|fs' e|]; [| |discriminate].
  - destruct (consolidate panda_core docs rest fs' (S moved) errors) as [r'|] eqn:Hr;
      [|discriminate].
    inversion H. subst r. cbn [c_fs] in *. clear H.
    destruct Hin as [<-|Hin]; [|now apply (IH _ _ _ _ Hr Hrest)].
    exfalso. apply Hne. apply (Hgone _ _ _ _ Hr).
    destruct Hspec as (_ & fs1 & nm & _ & -> & _ & _ & _ & Hst).
    rewrite Hst.
    destruct (PurePath.relative_to f0 (panda_core ++ [cat] ++ [nm])) as [x|] eqn:Hrel.
    + apply relative_to_some_iff in Hrel.
      assert (Hc : comparable panda_core f0 = true).
      { rewrite Hrel. unfold comparable. rewrite <- app_assoc.
        now rewrite is_prefix_app. }
      rewrite Hout in Hc; [discriminate | now left].
    + now rewrite is_prefix_refl.
  - destruct (consolidate panda_core docs rest fs' moved (S errors)) as [r'|] eqn:Hr;
      [|discriminate].
    inversion H. subst r. cbn [c_fs] in *. clear H.
    destruct Hin as [<-|Hin]; [|now apply (IH _ _ _ _ Hr Hrest)].
    destruct Hspec as [[-> [Hc|(cat & Hc & Hm)]]|(cat & Hc & Hm & Hwhy)].
    + now left.
    + destruct (mkdir_p_inl _ _ _ Hm) as (q & d & Hq & Hf).
      right. exists cat, q, d. repeat split; trivial.
      apply (consolidate_keeps _ _ _ _ _ _ _ Hr _ _ Hf).
      intros g Hg. apply (comparable_prefix_of_category panda_core g q cat); auto.
    + exfalso. assert (Hf0 : comparable panda_core f0 = false) by (apply Hout; now left).
      unfold comparable in Hf0. apply orb_false_iff in Hf0. destruct Hf0 as [Hc1 Hc2].
      destruct Hwhy as [Hn|[Hp| ->]].
      * apply Hne. now apply (Hgone _ _ _ _ Hr).
      * congruence.
      * now rewrite is_prefix_app in Hc1.
Qed.

End LoopFacts.

(** ** Changes elsewhere in the tree *)

Module FrameFacts.
Import FS FSFacts OpFacts MoveFacts.

Lemma comparable_cons (x y : string) (p q : path) :
  comparable (x :: p) (y :: q) = String.eqb x y && comparable p q.
Proof.
  unfold comparable. simpl. rewrite (String.eqb_sym y x).
  now destruct (String.eqb x y).
Qed.

Lemma comparable_sym (p q : path) : comparable p q = comparable q p.
Proof. unfold comparable. apply orb_comm. Qed.

Lemma comparable_false_cons (p q : path) :
  comparable p q = false ->
  exists x p' y q', p = x :: p' /\ q = y :: q'
                    /\ (String.eqb x y = false \/ (x = y /\ comparable p' q' = false)).
Proof.
  destruct p as [|x p]; [discriminate|].
  destruct q as [|y q]; [unfold comparable; simpl; discriminate|].
  rewrite comparable_cons. intros H. exists x, p, y, q. repeat split.
  destruct (String.eqb x y) eqn:E; [right | now left].
  apply String.eqb_eq in E. now split.
Qed.

Lemma lookup_delete_disjoint (p : path) :
  forall q fs, comparable p q = false -> lookup q (delete p fs) = lookup q fs.
Proof.
  induction p as [|x p IH]; intros q fs H; [discriminate|].
  destruct (comparable_false_cons _ _ H) as (x' & p' & y & q' & [= <- <-] & -> & Hd).
  destruct fs as [d|es]; [reflexivity|].
  destruct p as [|z p].
  - simpl. rewrite find_entry_remove.
    destruct Hd as [Hd|[_ Hd]]; [|discriminate].
    rewrite String.eqb_sym in Hd. now rewrite Hd.
  - change (lookup (y :: q') (delete (x :: z :: p) (Dir es)))
      with (match find_entry y (map_entry x (delete (z :: p)) es) with
            | Some c => lookup q' c | None => None end).
    rewrite find_entry_map. simpl.
    destruct (String.eqb y x) eqn:E; [|reflexivity].
    destruct Hd as [Hd|[_ Hd]]; [rewrite String.eqb_sym in Hd; congruence|].
    destruct (find_entry y es) as [c|]; simpl; [|reflexivity].
    exact (IH q' c Hd).
Qed.

Lemma lookup_insert_disjoint (p : path) (new : node) :
  forall q fs, comparable p q = false -> lookup q (insert p new fs) = lookup q fs.
Proof.
  induction p as [|x p IH]; intros q fs H; [discriminate|].
  destruct (comparable_false_cons _ _ H) as (x' & p' & y & q' & [= <- <-] & -> & Hd).
  destruct fs as [d|es]; [reflexivity|].
  destruct p as [|z p].
  - simpl. rewrite find_entry_set.
    destruct Hd as [Hd|[_ Hd]]; [|discriminate].
    rewrite String.eqb_sym in Hd. now rewrite Hd.
  - change (lookup (y :: q') (insert (x :: z :: p) new (Dir es)))
      with (match find_entry y (map_entry x (insert (z :: p) new) es) with
            | Some c => lookup q' c | None => None end).
    rewrite find_entry_map. simpl.
    destruct (String.eqb y x) eqn:E; [|reflexivity].
    destruct Hd as [Hd|[_ Hd]]; [rewrite String.eqb_sym in Hd; congruence|].
    destruct (find_entry y es) as [c|]; simpl; [|reflexivity].
    exact (IH q' c Hd).
Qed.

(** A rename onto a free name leaves every other branch as it was. *)
Lemma lookup_os_rename_disjoint (src dst q : path) (fs fs' : node) :
  stat dst fs = None -> os_rename src dst fs = inr fs' ->
  comparable src q = false -> comparable dst q = false ->
  lookup q fs' = lookup q fs.
Proof.
  intros Hd H Hs Hq.
  destruct (os_rename_fresh_eq _ _ _ _ Hd H) as (s & _ & _ & _ & _ & ->).
  rewrite lookup_insert_disjoint by assumption.
  now apply lookup_delete_disjoint.
Qed.

Lemma lookup_os_mkdir_disjoint (p q : path) (fs fs' : node) :
  os_mkdir p fs = inr fs' -> comparable p q = false ->
  lookup q fs' = lookup q fs.
Proof.
  unfold os_mkdir. destruct (lookup p fs); [discriminate|].
  destruct (lookup (PurePath.parent p) fs) as [[d|es]|]; try discriminate.
  intros [= <-] H. now apply lookup_insert_disjoint.
Qed.

Lemma comparable_prefix_l (p p' q : path) :
  is_prefix p p' = true -> comparable p q = false -> comparable p' q = false.
Proof.
  intros Hp H. unfold comparable in *. apply orb_false_iff in H.
  destruct H as [H1 H2]. apply orb_false_iff. split.
  - destruct (is_prefix p' q) eqn:E; [|reflexivity].
    now rewrite (is_prefix_trans _ _ _ Hp E) in H1.
  - destruct (is_prefix q p') eqn:E; [|reflexivity].
    apply is_prefix_iff in Hp, E. destruct Hp as [a ->], E as [b Hb].
    revert H1 H2 Hb. clear. revert q.
    induction p as [|x p IH]; intros q H1 H2 Hb; [discriminate|].
    destruct q as [|y q]; [discriminate|].
    simpl in *. inversion Hb. subst y. rewrite String.eqb_refl in *. simpl in *.
    now apply (IH q).
Qed.

Lemma lookup_mkdir_parents_disjoint (todo : path) :
  forall done q fs fs',
    mkdir_parents done todo fs = inr fs' ->
    match todo with
    | x :: _ => comparable (done ++ [x]) q = false
    | [] => True
    end ->
    lookup q fs' = lookup q fs.
Proof.
  induction todo as [|x todo IH]; intros done q fs fs' H Hq; simpl in H.
  - now inversion H.
  - assert (Hnext : match todo with
                    | y :: _ => comparable ((done ++ [x]) ++ [y]) q = false
                    | [] => True
                    end).
    { destruct todo as [|y todo]; [exact I|].
      apply (comparable_prefix_l (done ++ [x])); [apply is_prefix_app | apply Hq]. }
    destruct (lookup (done ++ [x]) fs) as [[d|es]|] eqn:Hl; try discriminate.
    + now apply (IH _ _ _ _ H).
    + destruct (os_mkdir (done ++ [x]) fs) as [e|fs1] eqn:Hm; [discriminate|].
      rewrite (IH _ _ _ _ H Hnext).
      now apply (lookup_os_mkdir_disjoint _ _ _ _ Hm).
Qed.

Lemma lookup_mkdir_p_disjoint (x : string) (p q : path) (fs fs' : node) :
  mkdir_p (x :: p) fs = inr fs' -> comparable [x] q = false ->
  lookup q fs' = lookup q fs.
Proof.
  intros H Hq. now apply (lookup_mkdir_parents_disjoint (x :: p) [] q fs fs' H).
Qed.

End FrameFacts.

(** ** Well-formed trees *)

Module WfFacts.
Import FS FSFacts OpFacts.

Lemma wf_cons (x : string) (c : node) (l : entries_t) :
  wf (Dir ((x, c) :: l))
  = negb (existsb (fun e => String.eqb (fst e) x) l) && wf c && wf (Dir l).
Proof. reflexivity. Qed.

Lemma existsb_name_false (x : string) (l : entries_t) :
  existsb (fun e => String.eqb (fst e) x) l = false <-> find_entry x l = None.
Proof.
  induction l as [|[y c] l IH]; simpl; [tauto|].
  destruct (String.eqb y x); simpl; [split; discriminate | exact IH].
Qed.

Lemma wf_cons_iff (x : string) (c : node) (l : entries_t) :
  wf (Dir ((x, c) :: l)) = true
  <-> find_entry x l = None /\ wf c = true /\ wf (Dir l) = true.
Proof.
  rewrite wf_cons, !andb_true_iff, negb_true_iff, existsb_name_false. tauto.
Qed.

Lemma wf_find_entry (x : string) (es : entries_t) (c : node) :
  wf (Dir es) = true -> find_entry x es = Some c -> wf c = true.
Proof.
  induction es as [|[y c'] es IH]; [discriminate|].
  rewrite wf_cons_iff. intros (_ & Hc & Hes). simpl.
  destruct (String.eqb y x); [congruence | now apply IH].
Qed.

Lemma wf_lookup (p : path) :
  forall fs s, wf fs = true -> lookup p fs = Some s -> wf s = true.
Proof.
  induction p as [|x p IH]; intros fs s Hw H; simpl in H; [congruence|].
  destruct fs as [d|es]; [discriminate|].
  destruct (find_entry x es) as [c|] eqn:E; [|discriminate].
  apply (IH c s); [now apply (wf_find_entry x es) | exact H].
Qed.

Lemma wf_remove_entry (x : string) (es : entries_t) :
  wf (Dir es) = true -> wf (Dir (remove_entry x es)) = true.
Proof.
  induction es as [|[y c] es IH]; [reflexivity|].
  rewrite wf_cons_iff. intros (Hn & Hc & Hes).
  unfold remove_entry. simpl. fold (remove_entry x es).
  destruct (String.eqb y x) eqn:E; simpl; [now apply IH|].
  apply wf_cons_iff. repeat split; [|assumption|now apply IH].
  rewrite find_entry_remove. rewrite Hn. now destruct (String.eqb y x).
Qed.

Lemma wf_map_entry (x : string) (f : node -> node) (es : entries_t) :
  (forall c, wf c = true -> wf (f c) = true) ->
  wf (Dir es) = true -> wf (Dir (map_entry x f es)) = true.
Proof.
  intros Hf. induction es as [|[y c] es IH]; [reflexivity|].
  rewrite wf_cons_iff. intros (Hn & Hc & Hes).
  unfold map_entry. simpl. fold (map_entry x f es).
  assert (E : find_entry y (map_entry x f es) = None).
  { rewrite find_entry_map, Hn. now destruct (String.eqb y x). }
  destruct (String.eqb y x); apply wf_cons_iff; auto.
Qed.

Lemma wf_set_entry (x : string) (n : node) (es : entries_t) :
  wf n = true -> wf (Dir es) = true -> wf (Dir (set_entry x n es)) = true.
Proof.
  intros Hn. induction es as [|[y c] es IH]; intros H.
  - simpl. now rewrite Hn.
  - apply wf_cons_iff in H. destruct H as (Hy & Hc & Hes). simpl.
    destruct (String.eqb y x) eqn:E; apply wf_cons_iff; repeat split; auto.
    rewrite find_entry_set, Hy. rewrite E. reflexivity.
Qed.

Lemma wf_delete (p : path) :
  forall fs, wf fs = true -> wf (delete p fs) = true.
Proof.
  induction p as [|x p IH]; intros fs H; [exact H|].
  destruct fs as [d|es]; [exact H|].
  destruct p as [|z p].
  - now apply wf_remove_entry.
  - apply (wf_map_entry x (delete (z :: p))); [apply IH | exact H].
Qed.

Lemma wf_insert (p : path) (n : node) :
  wf n = true -> forall fs, wf fs = true -> wf (insert p n fs) = true.
Proof.
  intros Hn. induction p as [|x p IH]; intros fs H; [exact H|].
  destruct fs as [d|es]; [exact H|].
  destruct p as [|z p].
  - now apply wf_set_entry.
  - apply (wf_map_entry x (insert (z :: p) n)); [apply IH | exact H].
Qed.

Lemma wf_os_rename (src dst : path) (fs fs' : node) :
  wf fs = true -> os_rename src dst fs = inr fs' -> wf fs' = true.
Proof.
  intros Hw. unfold os_rename.
  destruct (lookup src fs) as [s|] eqn:Hs; [|discriminate].
  assert (Hws : wf s = true) by now apply (wf_lookup src fs).
  assert (Hgoal : wf (insert dst s (delete src fs)) = true)
    by (apply wf_insert; [assumption | now apply wf_delete]).
  destruct (path_eqb src dst); [congruence|].
  destruct (is_prefix src dst); [discriminate|].
  destruct (lookup (PurePath.parent dst) fs) as [[d|es]|]; try discriminate.
  destruct dst as [|x dst]; [discriminate|].
  destruct (lookup (x :: dst) fs) as [[d|[|e es']]|], s; try discriminate; congruence.
Qed.

Lemma wf_shutil_move (src dst : path) (fs fs' : node) :
  wf fs = true -> shutil_move src dst fs = inr fs' -> wf fs' = true.
Proof.
  intros Hw. unfold shutil_move.
  destruct (is_dir dst fs); [|apply wf_os_rename; assumption].
  destruct (path_eqb src dst); [apply wf_os_rename; assumption|].
  destruct (exists_ (dst ++ [PurePath.name src]) fs); [discriminate|].
  apply wf_os_rename; assumption.
Qed.

Lemma wf_os_mkdir (p : path) (fs fs' : node) :
  wf fs = true -> os_mkdir p fs = inr fs' -> wf fs' = true.
Proof.
  intros Hw. unfold os_mkdir. destruct (lookup p fs); [discriminate|].
  destruct (lookup (PurePath.parent p) fs) as [[d|es]|]; try discriminate.
  intros [= <-]. now apply wf_insert.
Qed.

Lemma wf_mkdir_parents (todo : path) :
  forall done fs fs',
    wf fs = true -> mkdir_parents done todo fs = inr fs' -> wf fs' = true.
Proof.
  induction todo as [|x todo IH]; intros done fs fs' Hw H; simpl in H; [congruence|].
  destruct (lookup (done ++ [x]) fs) as [[d|es]|]; try discriminate.
  - now apply (IH _ _ _ Hw H).
  - destruct (os_mkdir (done ++ [x]) fs) as [e|fs1] eqn:Hm; [discriminate|].
    apply (IH _ _ _ (wf_os_mkdir _ _ _ Hw Hm) H).
Qed.

Lemma wf_rmdir (p : path) (fs fs' : node) :
  wf fs = true -> rmdir p fs = inr fs' -> wf fs' = true.
Proof.
  intros Hw H. apply rmdir_inr in H. destruct H as (_ & _ & ->).
  now apply wf_delete.
Qed.

End WfFacts.

(** ** Enumeration *)

Module GlobFacts.
Import FS FSFacts OpFacts WfFacts.

Lemma fnmatch_star (s : string) : Str.fnmatch "*" s = true.
Proof.
  induction s as [|c s IH]; [reflexivity|].
  change (Str.fnmatch "*" (String c s))
    with (Str.fnmatch "" (String c s) || Str.fnmatch "*" s).
  now rewrite IH.
Qed.

(** ["*.md"] matches the names that end in [".md"]. *)
Lemma fnmatch_literal (c : ascii) (pat name : string) :
  Ascii.eqb c "*" = false ->
  Str.fnmatch (String c pat) name
  = match name with
    | EmptyString => false
    | String d name' => Ascii.eqb c d && Str.fnmatch pat name'
    end.
Proof.
  intros H. destruct name; cbn [Str.fnmatch]; now rewrite H.
Qed.

Lemma fnmatch_dot_md (s : string) : Str.fnmatch ".md" s = true -> s = ".md".
Proof.
  rewrite fnmatch_literal by reflexivity.
  destruct s as [|c1 s]; [discriminate|].
  rewrite fnmatch_literal by reflexivity.
  destruct s as [|c2 s]; [rewrite andb_false_r; discriminate|].
  rewrite fnmatch_literal by reflexivity.
  destruct s as [|c3 s]; [rewrite !andb_false_r; discriminate|].
  rewrite !andb_true_iff. intros (H1 & H2 & H3 & H4).
  apply Ascii.eqb_eq in H1, H2, H3. subst.
  destruct s; [reflexivity | discriminate].
Qed.

Lemma fnmatch_md (s : string) :
  Str.fnmatch "*.md" s = true <-> exists a, s = (a ++ ".md")%string.
Proof.
  induction s as [|c s IH].
  - split; [discriminate|]. intros [[|? ?] H]; discriminate.
  - change (Str.fnmatch "*.md" (String c s))
      with (Str.fnmatch ".md" (String c s) || Str.fnmatch "*.md" s).
    rewrite orb_true_iff, IH. split.
    + intros [H|[a ->]].
      * exists EmptyString. now apply fnmatch_dot_md.
      * now exists (String c a).
    + intros [[|c' a] H].
      * left. simpl in H. now rewrite H.
      * right. simpl in H. inversion H. now exists a.
Qed.

Lemma iterate_directories_dir (d : path) (es : entries_t) :
  iterate_directories d (Dir es)
  = (d, es) :: flat_map (fun e => iterate_directories (d ++ [fst e]) (snd e)) es.
Proof.
  simpl. f_equal. induction es as [|[x c] es IH]; [reflexivity|].
  simpl. now rewrite IH.
Qed.

Lemma wf_in_find_entry (x : string) (c : node) (es : entries_t) :
  wf (Dir es) = true -> In (x, c) es -> find_entry x es = Some c.
Proof.
  induction es as [|[y c'] es IH]; [contradiction|].
  rewrite wf_cons_iff. intros (Hn & _ & Hes) [H|H]; simpl.
  - inversion H. subst. now rewrite String.eqb_refl.
  - destruct (String.eqb y x) eqn:E; [|now apply IH].
    apply String.eqb_eq in E. subst y.
    apply in_find_entry in H. congruence.
Qed.

(** Every directory listed lies below the start; in a well-formed tree it
    is the directory found there. *)
Lemma in_iterate_directories (n : node) :
  forall d p es,
    In (p, es) (iterate_directories d n) ->
    exists r, p = d ++ r /\ (wf n = true -> lookup r n = Some (Dir es)).
Proof.
  induction n as [c|es0 IH] using node_rect'; intros d p es Hin; [contradiction|].
  rewrite iterate_directories_dir in Hin. destruct Hin as [Hin|Hin].
  - inversion Hin. subst. exists []. split; [now rewrite app_nil_r | reflexivity].
  - apply in_flat_map in Hin. destruct Hin as ([x c] & Hxc & Hin). simpl in Hin.
    rewrite Forall_forall in IH.
    destruct (IH _ Hxc _ _ _ Hin) as (r & -> & Hl).
    exists (x :: r). split; [now rewrite <- app_assoc|].
    intros Hw. simpl. rewrite (wf_in_find_entry x c es0 Hw Hxc).
    apply Hl. apply (wf_find_entry x es0 c Hw). now apply wf_in_find_entry.
Qed.

Lemma iterate_directories_complete (r : path) :
  forall n d es,
    lookup r n = Some (Dir es) -> In (d ++ r, es) (iterate_directories d n).
Proof.
  induction r as [|x r IH]; intros n d es H.
  - simpl in H. inversion H. rewrite app_nil_r, iterate_directories_dir. now left.
  - destruct n as [c|es0]; [discriminate|]. simpl in H.
    destruct (find_entry x es0) as [c|] eqn:E; [|discriminate].
    rewrite iterate_directories_dir. right. apply in_flat_map.
    exists (x, c). split; [now apply find_entry_in|]. simpl.
    change (x :: r) with ([x] ++ r). rewrite app_assoc. now apply IH.
Qed.

Lemma in_select_children (pat : string) (p q : path) (es : entries_t) :
  In q (select_children pat (p, es))
  <-> exists x c, q = p ++ [x] /\ In (x, c) es /\ Str.fnmatch pat x = true.
Proof.
  unfold select_children. simpl. rewrite in_map_iff. split.
  - intros ([x c] & <- & H). apply filter_In in H. now exists x, c.
  - intros (x & c & -> & H & Hm). exists (x, c). split; [reflexivity|].
    apply filter_In. now split.
Qed.

(** What [rglob] lists lies strictly below the start and has a matching
    name; in a well-formed tree it exists. *)
Lemma in_rglob (pat : string) (d q : path) (fs : node) :
  In q (rglob pat d fs) ->
  is_dir d fs = true
  /\ exists r x, q = d ++ r ++ [x] /\ Str.fnmatch pat x = true
                 /\ (wf fs = true -> stat q fs <> None).
Proof.
  unfold rglob, is_dir. destruct (lookup d fs) as [[c|es0]|] eqn:Hd; try contradiction.
  intros Hin. split; [reflexivity|].
  apply in_flat_map in Hin. destruct Hin as ([p es] & Hp & Hq).
  apply in_select_children in Hq. destruct Hq as (x & c & -> & Hxc & Hm).
  apply in_iterate_directories in Hp. destruct Hp as (r & -> & Hl).
  exists r, x. rewrite <- app_assoc. repeat split; trivial.
  intros Hw. rewrite stat_app, Hd. unfold stat. rewrite lookup_app.
  rewrite Hl by (now apply (wf_lookup d fs)). simpl.
  pose proof (in_find_entry _ _ _ Hxc). now destruct (find_entry x es).
Qed.

(** Whatever exists strictly below the start, with a matching name, is
    listed. *)
Lemma rglob_complete (pat : string) (d r : path) (x : string) (fs : node) :
  is_dir d fs = true -> stat (d ++ r ++ [x]) fs <> None ->
  Str.fnmatch pat x = true ->
  In (d ++ r ++ [x]) (rglob pat d fs).
Proof.
  unfold rglob, is_dir. destruct (lookup d fs) as [[c|es0]|] eqn:Hd; try discriminate.
  intros _ Hne Hm. rewrite stat_app, Hd in Hne. unfold stat in Hne.
  rewrite lookup_app in Hne.
  destruct (lookup r (Dir es0)) as [[c|es]|] eqn:Hr; simpl in Hne; try congruence.
  destruct (find_entry x es) as [c|] eqn:Hx; [|simpl in Hne; congruence].
  apply in_flat_map. exists (d ++ r, es). split.
  - now apply iterate_directories_complete.
  - rewrite app_assoc. apply in_select_children. exists x, c.
    repeat split; trivial. now apply find_entry_in.
Qed.

Lemma strictly_under_iff (d q : path) :
  strictly_under d q = true <-> exists r x, q = d ++ r ++ [x].
Proof.
  unfold strictly_under. rewrite andb_true_iff, negb_true_iff, is_prefix_iff. split.
  - intros [[r ->] Hne]. destruct (exists_last (l := r)) as (r' & x & ->).
    + intros ->. rewrite app_nil_r in Hne.
      assert (path_eqb d d = true) by now apply path_eqb_eq. congruence.
    + now exists r', x.
  - intros (r & x & ->). split; [now exists (r ++ [x])|].
    destruct (path_eqb d (d ++ r ++ [x])) eqn:E; [|reflexivity].
    apply path_eqb_eq in E. rewrite <- (app_nil_r d) in E at 1.
    apply app_inv_head in E. destruct r; discriminate.
Qed.

(** [rglob("*")] on an empty directory, and only there, lists nothing. *)
Lemma rglob_star_nil (d : path) (fs : node) :
  rglob "*" d fs = [] <->
  (forall e es, lookup d fs <> Some (Dir (e :: es))).
Proof.
  unfold rglob. destruct (lookup d fs) as [[c|[|[x c] es]]|].
  - split; congruence.
  - split; [congruence | reflexivity].
  - rewrite iterate_directories_dir. cbn [flat_map]. unfold select_children at 1.
    cbn [filter fst snd]. rewrite fnmatch_star. split; [discriminate|].
    intros H. exfalso. now apply (H (x, c) es).
  - split; congruence.
Qed.

End GlobFacts.

(** ** Sorting and pruning *)

Module PruneFacts.
Import FS FSFacts OpFacts WfFacts GlobFacts.

Lemma in_insert_desc (key : path -> nat) (x z : path) (l : list path) :
  In z (insert_desc key x l) <-> z = x \/ In z l.
Proof.
  induction l as [|y l IH]; simpl; [intuition|].
  destruct (key x <? key y)%nat; simpl; rewrite ?IH; intuition.
Qed.

Lemma in_sorted_reverse (key : path -> nat) (z : path) (l : list path) :
  In z (sorted_reverse key l) <-> In z l.
Proof.
  induction l as [|x l IH]; simpl; [tauto|].
  rewrite in_insert_desc, IH. intuition.
Qed.

Lemma sorted_reverse_perm (key : path -> nat) (l : list path) :
  Permutation (sorted_reverse key l) l.
Proof.
  induction l as [|x l IH]; simpl; [constructor|].
  transitivity (x :: sorted_reverse key l); [|now constructor].
  generalize (sorted_reverse key l). clear. intros l.
  induction l as [|y l IH]; simpl; [reflexivity|].
  destruct (key x <? key y)%nat; [|reflexivity].
  transitivity (y :: x :: l); [now constructor | constructor].
Qed.

Lemma insert_desc_sorted (key : path -> nat) (x : path) (l : list path) :
  StronglySorted (fun a b => key b <= key a) l ->
  StronglySorted (fun a b => key b <= key a) (insert_desc key x l).
Proof.
  induction 1 as [|y l Hs IH Hall]; simpl; [repeat constructor|].
  destruct (key x <? key y)%nat eqn:E.
  - apply Nat.ltb_lt in E. constructor; [exact IH|].
    apply Forall_forall. intros z Hz. apply in_insert_desc in Hz.
    destruct Hz as [->|Hz]; [lia|]. rewrite Forall_forall in Hall. now apply Hall.
  - apply Nat.ltb_ge in E. constructor; [now constructor|].
    constructor; [exact E|]. rewrite Forall_forall in *. intros z Hz.
    specialize (Hall z Hz). simpl in Hall. lia.
Qed.

Lemma sorted_reverse_sorted (l : list path) :
  longest_first (sorted_reverse len_str l).
Proof.
  unfold longest_first. induction l as [|x l IH]; simpl; [constructor|].
  now apply insert_desc_sorted.
Qed.

Lemma len_append (a b : string) : Str.len (a ++ b) = Str.len a + Str.len b.
Proof.
  induction a as [|c a IH]; [reflexivity|]. cbn [append Str.len]. rewrite IH. lia.
Qed.

(** A child has a longer path string than its directory. *)
Lemma len_str_snoc (p : path) (x : string) :
  p <> [] -> len_str p < len_str (p ++ [x]).
Proof.
  unfold len_str, PurePath.str. induction p as [|y p IH]; [congruence|]. intros _.
  destruct p as [|z p].
  - cbn [app String.concat]. rewrite !len_append.
    change (Str.len "/") with 1. lia.
  - change (Str.len (y ++ "/" ++ String.concat "/" (z :: p))%string
            < Str.len (y ++ "/" ++ String.concat "/" ((z :: p) ++ [x]))%string).
    rewrite !len_append.
    assert (z :: p <> []) by discriminate. specialize (IH H). lia.
Qed.

(** *** Regular files below a path *)

Lemma has_file_dir (es : entries_t) :
  has_file (Dir es) = existsb (fun e => has_file (snd e)) es.
Proof.
  simpl. induction es as [|[x c] es IH]; [reflexivity|]. simpl. now rewrite IH.
Qed.

Lemma lookup_file_has_file (r : path) :
  forall n d, lookup r n = Some (File d) -> has_file n = true.
Proof.
  induction r as [|x r IH]; intros n d H; simpl in H.
  - now inversion H.
  - destruct n as [c|es]; [discriminate|].
    destruct (find_entry x es) as [c|] eqn:E; [|discriminate].
    rewrite has_file_dir. apply existsb_exists. exists (x, c).
    split; [now apply find_entry_in | now apply (IH c d)].
Qed.

Lemma has_file_lookup (n : node) :
  wf n = true -> has_file n = true -> exists r d, lookup r n = Some (File d).
Proof.
  induction n as [d|es IH] using node_rect'; intros Hw H.
  - now exists [], d.
  - rewrite has_file_dir in H. apply existsb_exists in H.
    destruct H as ([x c] & Hin & Hc). simpl in Hc.
    rewrite Forall_forall in IH.
    pose proof (wf_in_find_entry x c es Hw Hin) as Hf.
    destruct (IH _ Hin (wf_find_entry x es c Hw Hf) Hc) as (r & d & Hr).
    exists (x :: r), d. simpl. now rewrite Hf.
Qed.

Lemma has_file_at_iff (q : path) (fs : node) :
  wf fs = true -> (has_file_at q fs = true <-> file_below fs q).
Proof.
  intros Hw. unfold has_file_at, file_below. split.
  - destruct (lookup q fs) as [n|] eqn:Hq; [|discriminate]. intros H.
    destruct (has_file_lookup n (wf_lookup q fs n Hw Hq) H) as (r & d & Hr).
    exists r, d. unfold stat. now rewrite lookup_app, Hq, Hr.
  - intros (r & d & H). unfold stat in H. rewrite lookup_app in H.
    destruct (lookup q fs) as [n|]; [|discriminate].
    destruct (lookup r n) as [[d'|es]|] eqn:Hr; try discriminate.
    now apply (lookup_file_has_file r n d').
Qed.

Lemma file_below_child (fs : node) (p : path) (x : string) :
  file_below fs (p ++ [x]) -> file_below fs p.
Proof.
  intros (r & d & H). exists (x :: r), d. rewrite <- app_assoc in H. exact H.
Qed.

Lemma empty_dir_no_file (fs : node) (p : path) :
  lookup p fs = Some (Dir []) -> ~ file_below fs p.
Proof.
  intros Hp (r & d & H). rewrite stat_app, Hp in H. unfold stat in H.
  destruct r; simpl in H; discriminate.
Qed.

(** *** One step of the loop *)

Lemma prune_cons (p : path) (rest : list path) (fs : node) (n : nat) :
  p <> [] ->
  prune (p :: rest) fs n
  = match lookup p fs with
    | Some (Dir []) =>
        let '(fs', n', out) := prune rest (delete p fs) (S n) in
        (fs', n', RemovedEmptyDir (PurePath.name p) :: out)
    | _ => prune rest fs n
    end.
Proof.
  intros Hp. simpl. unfold is_dir, iterdir, rmdir.
  destruct (lookup p fs) as [[d|[|e es]]|]; try reflexivity.
  destruct p; [congruence | reflexivity].
Qed.

Lemma stat_delete_empty (p q : path) (fs : node) :
  p <> [] -> lookup p fs = Some (Dir []) ->
  stat q (delete p fs) = if path_eqb p q then None else stat q fs.
Proof.
  intros Hp Hl. apply stat_rmdir. unfold rmdir.
  destruct p; [congruence|]. now rewrite Hl.
Qed.

Section Prune.

Variable d : path.

Lemma prune_spec (l : list path) :
  forall fs n fs' n' out,
    prune l fs n = (fs', n', out) ->
    longest_first l ->
    (forall p, In p l -> strictly_under d p = true) ->
    (forall q, strictly_under d q = true -> is_dir q fs = true ->
               ~ In q l -> file_below fs q) ->
    (forall q, stat q fs' = stat q fs
               \/ (stat q fs' = None /\ strictly_under d q = true
                   /\ is_dir q fs = true /\ ~ file_below fs q))
    /\ (forall q, strictly_under d q = true -> is_dir q fs' = true ->
                  file_below fs' q)
    /\ (forall q k, stat q fs' = Some k -> stat q fs = Some k).
Proof.
  induction l as [|p rest IH]; intros fs n fs' n' out H Hs Hu Hb.
  - simpl in H. inversion H. subst. repeat split; auto.
  - assert (Hp : p <> []).
    { specialize (Hu p (or_introl eq_refl)). apply strictly_under_iff in Hu.
      destruct Hu as (r & x & ->). destruct d, r; discriminate. }
    rewrite (prune_cons p rest fs n Hp) in H.
    inversion Hs as [|? ? Hs' Hall]. subst.
    assert (Hu' : forall p0, In p0 rest -> strictly_under d p0 = true)
      by (intros p0 H0; apply Hu; now right).
    assert (Hskip : lookup p fs <> Some (Dir []) ->
                    prune rest fs n = (fs', n', out) ->
                    (forall q, stat q fs' = stat q fs
                               \/ (stat q fs' = None /\ strictly_under d q = true
                                   /\ is_dir q fs = true /\ ~ file_below fs q))
                    /\ (forall q, strictly_under d q = true -> is_dir q fs' = true ->
                                  file_below fs' q)
                    /\ (forall q k, stat q fs' = Some k -> stat q fs = Some k)).
    { intros Hne Hrest. apply (IH _ _ _ _ _ Hrest Hs' Hu').
      intros q Hq Hd Hnin.
      destruct (list_eq_dec string_dec q p) as [->|Hqp].
      - unfold is_dir in Hd.
        destruct (lookup p fs) as [[c|[|[x c] es]]|] eqn:Hl; try discriminate;
          [congruence|].
        apply (file_below_child fs p x).
        assert (Hx : lookup (p ++ [x]) fs = Some c).
        { rewrite lookup_app, Hl. simpl. now rewrite String.eqb_refl. }
        destruct c as [dd|es'].
        + exists [], dd. rewrite app_nil_r. unfold stat. now rewrite Hx.
        + apply Hb.
          * apply strictly_under_iff.
            specialize (Hu p (or_introl eq_refl)). apply strictly_under_iff in Hu.
            destruct Hu as (r & y & ->). exists (r ++ [y]), x.
            now rewrite <- !app_assoc.
          * unfold is_dir. now rewrite Hx.
          * intros [Heq|Hin].
            -- rewrite <- (app_nil_r p) in Heq at 1.
               apply app_inv_head in Heq. discriminate.
            -- rewrite Forall_forall in Hall. specialize (Hall _ Hin).
               pose proof (len_str_snoc p x Hp). simpl in Hall. lia.
      - apply Hb; trivial. intros [Heq|Hin]; [congruence | contradiction]. }
    destruct (lookup p fs) as [[c|[|e es]]|] eqn:Hl;
      try (apply Hskip; [congruence | exact H]).
    destruct (prune rest (delete p fs) (S n)) as [[fs1 n1] out1] eqn:Hrest.
    inversion H. subst. clear H Hskip.
    pose proof (stat_delete_empty p) as Hst.
    assert (Hfb : forall q, file_below fs q -> file_below (delete p fs) q).
    { intros q (r & dd & Hf). exists r, dd. rewrite Hst by assumption.
      destruct (path_eqb p (q ++ r)) eqn:E; [|exact Hf].
      apply path_eqb_eq in E. subst p. unfold stat in Hf. rewrite Hl in Hf.
      discriminate. }
    destruct (IH _ _ _ _ _ Hrest Hs' Hu') as (R1 & R2 & R3).
    { intros q Hq Hd Hnin. apply Hfb.
      assert (Hqp : path_eqb p q = false).
      { destruct (path_eqb p q) eqn:E; [|reflexivity].
        apply is_dir_true in Hd. rewrite Hst, E in Hd by assumption. discriminate. }
      apply Hb; trivial.
      - apply is_dir_true. apply is_dir_true in Hd.
        now rewrite Hst, Hqp in Hd by assumption.
      - intros [Heq|Hin]; [|contradiction]. subst q.
        assert (path_eqb p p = true) by now apply path_eqb_eq. congruence. }
    repeat split.
    + intros q. destruct (R1 q) as [Hq|(Hq1 & Hq2 & Hq3 & Hq4)].
      * rewrite Hst in Hq by assumption.
        destruct (path_eqb p q) eqn:E; [|now left].
        apply path_eqb_eq in E. subst q. right. repeat split; trivial.
        -- apply Hu. now left.
        -- unfold is_dir. now rewrite Hl.
        -- now apply empty_dir_no_file.
      * right. repeat split; trivial.
        -- apply is_dir_true. apply is_dir_true in Hq3.
           rewrite Hst in Hq3 by assumption.
           now destruct (path_eqb p q).
        -- intros Hf. apply Hq4. now apply Hfb.
    + exact R2.
    + intros q k Hq. apply R3 in Hq. rewrite Hst in Hq by assumption.
      now destruct (path_eqb p q).
Qed.

End Prune.

End PruneFacts.

(** ** Step 2 *)

Module Step2Facts.
Import FS FSFacts OpFacts MoveFacts FrameFacts WfFacts.

Lemma is_prefix_length (p q : path) :
  is_prefix p q = true -> List.length p <= List.length q.
Proof.
  intros H. apply is_prefix_iff in H. destruct H as [r ->].
  rewrite length_app. lia.
Qed.

Lemma comparable_siblings (p : path) (x y : string) :
  x <> y -> comparable (p ++ [x]) (p ++ [y]) = false.
Proof.
  intros H. induction p as [|z p IH]; simpl.
  - unfold comparable. simpl. rewrite !andb_true_r.
    destruct (String.eqb x y) eqn:E1; [apply String.eqb_eq in E1; congruence|].
    rewrite String.eqb_sym in E1. now rewrite E1.
  - rewrite comparable_cons, String.eqb_refl. exact IH.
Qed.

Lemma comparable_false_l (p q : path) :
  comparable p q = false -> is_prefix p q = false.
Proof. unfold comparable. intros H. now apply orb_false_iff in H. Qed.

Lemma prefix_of_parent (q p : path) (x : string) :
  is_prefix q p = true ->
  PurePath.relative_to q (p ++ [x]) = None /\ is_prefix (p ++ [x]) q = false.
Proof.
  intros H. apply is_prefix_length in H.
  assert (Hn : is_prefix (p ++ [x]) q = false).
  { destruct (is_prefix (p ++ [x]) q) eqn:E; [|reflexivity].
    apply is_prefix_length in E. rewrite length_app in E. simpl in E. lia. }
  split; [now apply relative_to_none | exact Hn].
Qed.

Lemma rename_subdir_spec (panda_core : path) (fs fs' : node) (o n : string)
    (out : list line) :
  o <> n ->
  rename_subdir panda_core fs (o, n) = (fs', out) ->
  settled panda_core fs' (o, n)
  /\ (forall q, comparable (panda_core ++ [o]) q = false ->
                comparable (panda_core ++ [n]) q = false ->
                lookup q fs' = lookup q fs)
  /\ (forall q, is_prefix q panda_core = true -> stat q fs' = stat q fs)
  /\ (wf fs = true -> wf fs' = true)
  /\ (settled panda_core fs (o, n) -> fs' = fs).
Proof.
  intros Hon. unfold rename_subdir, settled. cbn [fst snd].
  destruct (exists_ (panda_core ++ [o]) fs) eqn:Eo.
  - destruct (exists_ (panda_core ++ [n]) fs) eqn:En.
    + intros [= <- <-]. rewrite En. repeat split; auto.
    + apply exists_false in En. apply exists_true in Eo.
      assert (Hdir : is_dir (PurePath.parent (panda_core ++ [n])) fs = true).
      { rewrite parent_snoc. apply is_dir_true.
        apply (stat_below panda_core [o]); [discriminate | exact Eo]. }
      pose proof (comparable_siblings panda_core o n Hon) as Hsib.
      destruct (os_rename_ok _ _ fs Eo En (comparable_false_l _ _ Hsib) Hdir)
        as [fs1 Hr].
      rewrite Hr. intros [= <- <-].
      destruct (os_rename_fresh _ _ _ _ En Hr) as (_ & _ & _ & Hst).
      repeat split.
      * left. apply exists_false. rewrite Hst, is_prefix_refl.
        replace (PurePath.relative_to (panda_core ++ [o]) (panda_core ++ [n]))
          with (@None path); [reflexivity|].
        symmetry. apply relative_to_none. apply comparable_false_l.
        now rewrite comparable_sym.
      * intros q H1 H2. now apply (lookup_os_rename_disjoint _ _ _ _ _ En Hr).
      * intros q Hq. rewrite Hst.
        destruct (prefix_of_parent q panda_core n Hq) as [-> _].
        destruct (prefix_of_parent q panda_core o Hq) as [_ ->]. reflexivity.
      * intros Hw. now apply (wf_os_rename _ _ _ _ Hw Hr).
      * intros [H|H]; discriminate.
  - destruct (exists_ (panda_core ++ [n]) fs) eqn:En;
      intros [= <- <-]; rewrite Eo; repeat split; auto.
Qed.

Lemma step2_spec (panda_core : path) (items : list (string * string)) :
  forall fs fs' out,
    NoDup (item_names items) ->
    step2 panda_core items fs = (fs', out) ->
    (forall it, In it items -> settled panda_core fs' it)
    /\ (forall q, (forall x, In x (item_names items) ->
                             comparable (panda_core ++ [x]) q = false) ->
                  lookup q fs' = lookup q fs)
    /\ (forall q, is_prefix q panda_core = true -> stat q fs' = stat q fs)
    /\ (wf fs = true -> wf fs' = true).
Proof.
  induction items as [|[o n] items IH]; intros fs fs' out Hnd H; cbn [step2] in H.
  - inversion H. subst. repeat split; auto. contradiction.
  - destruct (rename_subdir panda_core fs (o, n)) as [fs1 out1] eqn:H1.
    destruct (step2 panda_core items fs1) as [fs2 out2] eqn:H2.
    injection H as <- <-.
    unfold item_names in Hnd. simpl in Hnd.
    apply NoDup_cons_iff in Hnd. destruct Hnd as [Ho Hnd].
    pose proof (NoDup_remove_1 _ _ _ Hnd) as Hnd'.
    pose proof (NoDup_remove_2 _ _ _ Hnd) as Hn.
    assert (Hon : o <> n).
    { intros ->. apply Ho. apply in_or_app. right. now left. }
    assert (Ho' : ~ In o (item_names items)).
    { intros Hin. apply Ho. unfold item_names in Hin. apply in_app_or in Hin.
      apply in_or_app. destruct Hin; [now left | right; now right]. }
    destruct (rename_subdir_spec _ _ _ _ _ _ Hon H1) as (S1 & F1 & P1 & W1 & _).
    destruct (IH _ _ _ Hnd' H2) as (S2 & F2 & P2 & W2).
    repeat split.
    + intros it [<-|Hin]; [|now apply S2].
      assert (Eo : lookup (panda_core ++ [o]) fs2 = lookup (panda_core ++ [o]) fs1).
      { apply F2. intros x Hx. apply comparable_siblings. intros ->. contradiction. }
      assert (En : lookup (panda_core ++ [n]) fs2 = lookup (panda_core ++ [n]) fs1).
      { apply F2. intros x Hx. apply comparable_siblings. intros ->. contradiction. }
      unfold settled, exists_ in *. simpl in *. now rewrite Eo, En.
    + intros q Hq. rewrite F2.
      * apply F1; apply Hq; unfold item_names; simpl; [now left|].
        right. apply in_or_app. right. now left.
      * intros x Hx. apply Hq. unfold item_names in *. simpl.
        apply in_app_or in Hx. right. apply in_or_app.
        destruct Hx; [now left | right; now right].
    + intros q Hq. rewrite P2 by assumption. now apply P1.
    + auto.
Qed.

Lemma step2_settled (panda_core : path) (items : list (string * string)) :
  forall fs,
    (forall it, In it items -> settled panda_core fs it) ->
    (forall it, In it items -> fst it <> snd it) ->
    fst (step2 panda_core items fs) = fs.
Proof.
  induction items as [|[o n] items IH]; intros fs Hs Hne; [reflexivity|].
  cbn [step2].
  destruct (rename_subdir panda_core fs (o, n)) as [fs1 out1] eqn:H1.
  destruct (rename_subdir_spec _ _ _ _ _ _ (Hne (o, n) (or_introl eq_refl)) H1)
    as (_ & _ & _ & _ & Hsame).
  rewrite (Hsame (Hs (o, n) (or_introl eq_refl))).
  specialize (IH fs (fun it H => Hs it (or_intror H)) (fun it H => Hne it (or_intror H))).
  destruct (step2 panda_core items fs) as [fs2 out2]. exact IH.
Qed.

Lemma SUBDIR_MAPPINGS_NoDup : NoDup (item_names SUBDIR_MAPPINGS).
Proof.
  unfold item_names, SUBDIR_MAPPINGS. cbn [map fst snd app].
  repeat (constructor; [cbn [In]; intros H;
    repeat (destruct H as [H|H]; [discriminate H|]); exact H|]).
  constructor.
Qed.

Lemma SUBDIR_MAPPINGS_distinct :
  forall it, In it SUBDIR_MAPPINGS -> fst it <> snd it.
Proof.
  intros it H. cbn [In SUBDIR_MAPPINGS] in H.
  repeat (destruct H as [<-|H]; [discriminate|]). contradiction.
Qed.

End Step2Facts.

(** ** Step 3 as a whole *)

Module Step3Facts.
Import FS FSFacts OpFacts MoveFacts LoopFacts FrameFacts WfFacts GlobFacts.

Lemma map_file_to_category_in (file_path docs : path) (cat : string) :
  map_file_to_category file_path docs = Some cat -> In cat category_names.
Proof.
  intros H.
  destruct (PurePath.relative_to file_path docs) as [rel|] eqn:Hrel.
  - apply relative_to_inv in Hrel. subst file_path.
    destruct (map_file_to_category_some docs rel) as (c & Hc & Hin). congruence.
  - unfold map_file_to_category in H. rewrite Hrel in H. discriminate.
Qed.

(** What appears is a missing directory on the way to a category
    directory, or lies inside a category directory. *)
Lemma move_file_creates_in (panda_core docs file_path : path) (fs : node) :
  forall q, stat q fs = None ->
    match move_file panda_core docs file_path fs with
    | Looping => False
    | Moved fs' _ _ | Raised fs' _ =>
        stat q fs' <> None ->
        is_prefix q panda_core = true
        \/ exists cat, In cat category_names
                       /\ is_prefix (panda_core ++ [cat]) q = true
    end.
Proof.
  intros q Hq. pose proof (move_file_spec panda_core docs file_path fs) as H.
  assert (Hmk : forall cat fs1,
             map_file_to_category file_path docs = Some cat ->
             mkdir_p (panda_core ++ [cat]) fs = inr fs1 ->
             stat q fs1 <> None ->
             is_prefix q panda_core = true
             \/ exists cat, In cat category_names
                            /\ is_prefix (panda_core ++ [cat]) q = true).
  { intros cat fs1 Hc Hm Hne.
    destruct (proj1 (proj2 (mkdir_p_inr _ _ _ Hm)) q Hq Hne) as [_ Hp].
    apply is_prefix_snoc in Hp. destruct Hp as [Hp| ->]; [now left|].
    right. exists cat. split; [now apply (map_file_to_category_in file_path docs)|].
    apply is_prefix_refl. }
  destruct (move_file panda_core docs file_path fs) as [fs' cat target|fs' e|];
    [| |exact H].
  - destruct H as (Hc & fs1 & nm & Hm & -> & _ & _ & _ & Hst).
    rewrite Hst.
    destruct (PurePath.relative_to q (panda_core ++ [cat] ++ [nm])) as [r|] eqn:Hr.
    + intros _. apply relative_to_some_iff in Hr. subst q. right. exists cat.
      split; [now apply (map_file_to_category_in file_path docs)|].
      rewrite !app_assoc. rewrite <- app_assoc. apply is_prefix_app.
    + destruct (is_prefix file_path q); [congruence|]. apply (Hmk cat fs1 Hc Hm).
  - destruct H as [[-> _]|(cat & Hc & Hm & _)]; [congruence|].
    apply (Hmk cat fs' Hc Hm).
Qed.

Lemma consolidate_creates_in (panda_core docs : path) (all_files : list path) :
  forall fs moved errors r,
    consolidate panda_core docs all_files fs moved errors = Some r ->
    forall q, stat q fs = None -> stat q (c_fs r) <> None ->
      is_prefix q panda_core = true
      \/ exists cat, In cat category_names
                     /\ is_prefix (panda_core ++ [cat]) q = true.
Proof.
  induction all_files as [|f rest IH]; intros fs moved errors r H q Hq Hne;
    simpl in H.
  - inversion H. subst r. simpl in Hne. congruence.
  - pose proof (move_file_creates_in panda_core docs f fs q Hq) as Hk.
    destruct (move_file panda_core docs f fs) as [fs' cat target|fs' e|]; [| |discriminate].
    + destruct (consolidate panda_core docs rest fs' (S moved) errors) as [r'|] eqn:Hr;
        [|discriminate].
      inversion H. subst r. simpl in Hne.
      destruct (stat q fs') eqn:Hq'; [apply Hk; congruence|].
      apply (IH _ _ _ _ Hr q Hq' Hne).
    + destruct (consolidate panda_core docs rest fs' moved (S errors)) as [r'|] eqn:Hr;
        [|discriminate].
      inversion H. subst r. simpl in Hne.
      destruct (stat q fs') eqn:Hq'; [apply Hk; congruence|].
      apply (IH _ _ _ _ Hr q Hq' Hne).
Qed.

Lemma wf_move_file (panda_core docs file_path : path) (fs : node) :
  wf fs = true ->
  match move_file panda_core docs file_path fs with
  | Looping => False
  | Moved fs' _ _ | Raised fs' _ => wf fs' = true
  end.
Proof.
  intros Hw. pose proof (move_file_spec panda_core docs file_path fs) as Hspec.
  unfold move_file in *.
  destruct (map_file_to_category file_path docs) as [cat|]; [|exact Hw].
  destruct (mkdir_p (panda_core ++ [cat]) fs) as [e|fs1] eqn:Hm; [exact Hw|].
  assert (Hw1 : wf fs1 = true) by apply (wf_mkdir_parents _ _ _ _ Hw Hm).
  destruct (resolve_target_file (panda_core ++ [cat]) file_path fs1) as [t|];
    [|exact Hspec].
  destruct (shutil_move file_path t fs1) as [e|fs2] eqn:Hmv; [exact Hw1|].
  apply (wf_shutil_move _ _ _ _ Hw1 Hmv).
Qed.

Lemma wf_consolidate (panda_core docs : path) (all_files : list path) :
  forall fs moved errors r,
    wf fs = true ->
    consolidate panda_core docs all_files fs moved errors = Some r ->
    wf (c_fs r) = true.
Proof.
  induction all_files as [|f rest IH]; intros fs moved errors r Hw H; simpl in H.
  - inversion H. exact Hw.
  - pose proof (wf_move_file panda_core docs f fs Hw) as Hw'.
    destruct (move_file panda_core docs f fs) as [fs' cat target|fs' e|]; [| |discriminate].
    + destruct (consolidate panda_core docs rest fs' (S moved) errors) as [r'|] eqn:Hr;
        [|discriminate].
      inversion H. subst r. simpl. apply (IH _ _ _ _ Hw' Hr).
    + destruct (consolidate panda_core docs rest fs' moved (S errors)) as [r'|] eqn:Hr;
        [|discriminate].
      inversion H. subst r. simpl. apply (IH _ _ _ _ Hw' Hr).
Qed.

(** The candidates lie under [docs/], away from the container. *)
Lemma candidate_not_comparable (pat : string) (fs : node) (g : path) :
  In g (rglob pat docs_dir fs) -> comparable new_panda_core g = false.
Proof.
  intros H. apply in_rglob in H. destruct H as (_ & r & x & -> & _).
  reflexivity.
Qed.

Lemma under_docs_not_comparable (q : path) :
  is_prefix docs_dir q = true -> comparable new_panda_core q = false.
Proof.
  intros H. apply is_prefix_iff in H. destruct H as [r ->]. reflexivity.
Qed.

End Step3Facts.

(** ** The run as a whole *)

Module MainFacts.
Import FS FSFacts OpFacts MoveFacts LoopFacts FrameFacts WfFacts GlobFacts
       PruneFacts Step2Facts Step3Facts.

Lemma step1_eq (fs : node) :
  step1 fs
  = if exists_ new_panda_core fs
    then (fs, Some new_panda_core,
          [Lit "  Warning: Target directory already exists. Using existing directory."])
    else (fs, None, [Lit "  ✗ PANDA_CORE directory not found!"]).
Proof.
  unfold step1. change old_panda_core with new_panda_core.
  now destruct (exists_ new_panda_core fs).
Qed.

Lemma step3_total (panda_core : path) (fs : node) :
  exists fs3 out3, step3 panda_core fs = Some (fs3, out3).
Proof.
  unfold step3. destruct (negb (exists_ docs_dir fs)); [eauto|].
  destruct (consolidate_total panda_core docs_dir (rglob "*.md" docs_dir fs) fs 0 0)
    as [r ->].
  eauto.
Qed.

Lemma main_absent (fs : node) :
  exists_ new_panda_core fs = false ->
  main fs = Some (fs, header ++ [Lit "  ✗ PANDA_CORE directory not found!"]).
Proof. intros H. unfold main. now rewrite step1_eq, H. Qed.

Lemma main_present (fs : node) :
  exists_ new_panda_core fs = true ->
  exists fs2 out2 fs3 out3 fs4 out4 fs5 out5,
    step2 new_panda_core SUBDIR_MAPPINGS fs = (fs2, out2)
    /\ step3 new_panda_core fs2 = Some (fs3, out3)
    /\ step4 fs3 = (fs4, out4)
    /\ step5 fs4 = (fs5, out5)
    /\ main fs
       = Some (fs5,
               transcript
                 [Lit "  Warning: Target directory already exists. Using existing directory."]
                 out2 out3 out4 out5).
Proof.
  intros H. unfold main. rewrite step1_eq, H.
  destruct (step2 new_panda_core SUBDIR_MAPPINGS fs) as [fs2 out2].
  destruct (step3_total new_panda_core fs2) as (fs3 & out3 & H3). rewrite H3.
  destruct (step4 fs3) as [fs4 out4] eqn:H4.
  destruct (step5 fs4) as [fs5 out5] eqn:H5.
  exists fs2, out2, fs3, out3, fs4, out4, fs5, out5. repeat split; assumption.
Qed.

(** Step 2 works inside the container: [docs/] is as it was. *)
Lemma step2_docs (fs fs2 : node) (out2 : list line) (q : path) :
  step2 new_panda_core SUBDIR_MAPPINGS fs = (fs2, out2) ->
  is_prefix docs_dir q = true ->
  lookup q fs2 = lookup q fs.
Proof.
  intros H Hq.
  destruct (step2_spec _ _ _ _ _ SUBDIR_MAPPINGS_NoDup H) as (_ & F & _ & _).
  apply F. intros x _. apply is_prefix_iff in Hq. destruct Hq as [r ->].
  reflexivity.
Qed.

Lemma rglob_lookup (pat : string) (d : path) (fs fs' : node) :
  lookup d fs' = lookup d fs -> rglob pat d fs' = rglob pat d fs.
Proof. unfold rglob. now intros ->. Qed.

End MainFacts.

(** ** Steps 3, 4 and 5 on the tree *)

Module StepFacts.
Import FS FSFacts OpFacts MoveFacts LoopFacts FrameFacts WfFacts GlobFacts
       PruneFacts Step2Facts Step3Facts MainFacts.

Lemma step3_cases (panda_core : path) (fs fs3 : node) (out3 : list line) :
  step3 panda_core fs = Some (fs3, out3) ->
  (exists_ docs_dir fs = false /\ fs3 = fs
   /\ out3 = [Lit "  Warning: docs/ directory not found. Skipping consolidation."])
  \/ (exists_ docs_dir fs = true
      /\ exists r,
          consolidate panda_core docs_dir (rglob "*.md" docs_dir fs) fs 0 0 = Some r
          /\ fs3 = c_fs r
          /\ out3 = c_out r ++ [Lit ""; Summary (moved_count r) (error_count r)]).
Proof.
  unfold step3. destruct (exists_ docs_dir fs); cbn [negb].
  - destruct (consolidate panda_core docs_dir (rglob "*.md" docs_dir fs) fs 0 0)
      as [r|]; [|discriminate].
    intros [= <- <-]. right. split; [reflexivity|]. now exists r.
  - intros [= <- <-]. now left.
Qed.

Lemma step3_keeps (panda_core : path) (fs fs3 : node) (out3 : list line) :
  step3 panda_core fs = Some (fs3, out3) ->
  forall q k, stat q fs = Some k ->
    (forall f, In f (rglob "*.md" docs_dir fs) -> is_prefix f q = false) ->
    stat q fs3 = Some k.
Proof.
  intros H q k Hq Hout.
  destruct (step3_cases _ _ _ _ H) as [(_ & -> & _)|(_ & r & Hr & -> & _)];
    [exact Hq|].
  now apply (consolidate_keeps _ _ _ _ _ _ _ Hr).
Qed.

Lemma step3_creates (fs fs3 : node) (out3 : list line) :
  step3 new_panda_core fs = Some (fs3, out3) ->
  forall q, stat q fs = None -> stat q fs3 <> None ->
    is_prefix q new_panda_core = true
    \/ exists cat, In cat category_names
                   /\ is_prefix (new_panda_core ++ [cat]) q = true.
Proof.
  intros H q Hq Hne.
  destruct (step3_cases _ _ _ _ H) as [(_ & -> & _)|(_ & r & Hr & -> & _)];
    [congruence|].
  now apply (consolidate_creates_in _ _ _ _ _ _ _ Hr).
Qed.

Lemma wf_step3 (panda_core : path) (fs fs3 : node) (out3 : list line) :
  wf fs = true -> step3 panda_core fs = Some (fs3, out3) -> wf fs3 = true.
Proof.
  intros Hw H.
  destruct (step3_cases _ _ _ _ H) as [(_ & -> & _)|(_ & r & Hr & -> & _)];
    [exact Hw|].
  now apply (wf_consolidate _ _ _ _ _ _ _ Hw Hr).
Qed.

(** After step 3 every markdown entry still under [docs/] is a blocked
    one. *)
Lemma step3_residue (fs fs3 : node) (out3 : list line) :
  wf fs3 = true ->
  step3 new_panda_core fs = Some (fs3, out3) ->
  forall q, In q (rglob "*.md" docs_dir fs3) ->
    blocked new_panda_core docs_dir fs3 q.
Proof.
  intros Hw H q Hin.
  pose proof (candidate_not_comparable _ _ _ Hin) as Hcmp.
  apply in_rglob in Hin. destruct Hin as (Hd3 & r0 & x & -> & Hm & Hex).
  specialize (Hex Hw).
  destruct (step3_cases _ _ _ _ H) as [(Hno & -> & _)|(Hyes & r & Hr & -> & _)].
  - unfold exists_, is_dir in *. destruct (lookup docs_dir fs) as [[|]|]; discriminate.
  - assert (Hin2 : In (docs_dir ++ r0 ++ [x]) (rglob "*.md" docs_dir fs)).
    { assert (Hq2 : stat (docs_dir ++ r0 ++ [x]) fs <> None).
      { intros Hn.
        pose proof (consolidate_creates _ _ _ _ _ _ _ Hr _ Hn Hex). congruence. }
      apply rglob_complete; trivial. apply is_dir_true.
      apply (stat_below docs_dir (r0 ++ [x])); [destruct r0; discriminate | exact Hq2]. }
    apply (consolidate_residue _ _ _ _ _ _ _ Hr); trivial.
    intros g Hg. now apply (candidate_not_comparable "*.md" fs).
Qed.

Lemma wf_prune (l : list path) :
  forall fs n, wf fs = true -> wf (fst (fst (prune l fs n))) = true.
Proof.
  induction l as [|p rest IH]; intros fs n Hw; [exact Hw|].
  cbn [prune]. destruct (is_dir p fs); [|now apply IH].
  destruct (iterdir p fs) as [e|[|c cs]].
  - specialize (IH fs n Hw). now destruct (prune rest fs n) as [[? ?] ?].
  - destruct (rmdir p fs) as [e|fs1] eqn:Hr.
    + specialize (IH fs n Hw). now destruct (prune rest fs n) as [[? ?] ?].
    + specialize (IH fs1 (S n) (wf_rmdir _ _ _ Hw Hr)).
      now destruct (prune rest fs1 (S n)) as [[? ?] ?].
  - now apply IH.
Qed.

(** Step 4: what is gone was a directory under [docs/] with no regular
    file below; what is left of the directories under [docs/] has one. *)
Lemma step4_spec (fs : node) :
  (forall q, stat q (fst (step4 fs)) = stat q fs
             \/ (stat q (fst (step4 fs)) = None /\ strictly_under docs_dir q = true
                 /\ is_dir q fs = true /\ ~ file_below fs q))
  /\ (forall q, strictly_under docs_dir q = true -> is_dir q (fst (step4 fs)) = true ->
                file_below (fst (step4 fs)) q)
  /\ (forall q k, stat q (fst (step4 fs)) = Some k -> stat q fs = Some k)
  /\ (wf fs = true -> wf (fst (step4 fs)) = true).
Proof.
  unfold step4. destruct (exists_ docs_dir fs) eqn:Hd.
  - pose proof (wf_prune (sorted_reverse len_str (rglob "*" docs_dir fs)) fs 0) as Hw.
    destruct (prune (sorted_reverse len_str (rglob "*" docs_dir fs)) fs 0)
      as [[fs4 n4] out4] eqn:Hp.
    cbn [fst] in *.
    destruct (prune_spec docs_dir _ _ _ _ _ _ Hp) as (R1 & R2 & R3).
    + apply sorted_reverse_sorted.
    + intros p Hin. apply in_sorted_reverse in Hin. apply in_rglob in Hin.
      destruct Hin as (_ & r & x & -> & _). apply strictly_under_iff. now exists r, x.
    + intros q Hq Hdir Hnin. exfalso. apply Hnin. apply in_sorted_reverse.
      apply strictly_under_iff in Hq. destruct Hq as (r & x & ->).
      apply is_dir_true in Hdir.
      apply rglob_complete; [|congruence|apply fnmatch_star].
      apply is_dir_true. apply (stat_below docs_dir (r ++ [x]));
        [destruct r; discriminate | congruence].
    + repeat split; auto.
  - cbn [fst]. repeat split; auto. intros q Hq Hdir. exfalso.
    apply strictly_under_iff in Hq. destruct Hq as (r & x & ->).
    apply is_dir_true in Hdir. apply exists_false in Hd.
    rewrite (stat_none_below _ (r ++ [x]) _ Hd) in Hdir. discriminate.
Qed.

(** Step 5, case by case. *)
Lemma step5_cases (fs : node) :
  (exists_ docs_dir fs = false /\ step5 fs = (fs, []))
  \/ (lookup docs_dir fs = Some (Dir [])
      /\ step5 fs = (delete docs_dir fs, [Lit "  ✓ Removed empty docs/ directory"]))
  \/ ((exists e es, lookup docs_dir fs = Some (Dir (e :: es)))
      /\ 1 <= List.length (rglob "*" docs_dir fs)
      /\ step5 fs
         = (fs, [StillContains (List.length (rglob "*" docs_dir fs));
                 Lit "  These items were not moved. Please review manually."]))
  \/ ((exists d, lookup docs_dir fs = Some (File d))
      /\ step5 fs
         = (fs, [ErrRemovingDocs (OSError ENOTDIR);
                 Lit "  Note: Some files may still remain. Please check manually."])).
Proof.
  unfold step5, exists_.
  destruct (lookup docs_dir fs) as [[d|[|e es]]|] eqn:Hl.
  - right. right. right. split; [now exists d|].
    unfold rglob, rmdir. change docs_dir with ["docs"] in *. now rewrite Hl.
  - right. left. split; [reflexivity|].
    unfold rglob, rmdir. change docs_dir with ["docs"] in *. now rewrite Hl.
  - right. right. left. split; [now exists e, es|].
    destruct (rglob "*" docs_dir fs) as [|p l] eqn:Hg.
    + exfalso. pose proof (proj1 (rglob_star_nil docs_dir fs) Hg e es). congruence.
    + split; [simpl; lia | reflexivity].
  - now left.
Qed.

Lemma step5_stat (fs : node) (q : path) :
  strictly_under docs_dir q = true \/ is_prefix docs_dir q = false ->
  stat q (fst (step5 fs)) = stat q fs.
Proof.
  intros Hq.
  destruct (step5_cases fs) as [[_ ->]|[[Hl ->]|[(_ & _ & ->)|[_ ->]]]];
    try reflexivity.
  cbn [fst]. rewrite stat_delete by discriminate.
  destruct Hq as [Hq| ->]; [|reflexivity].
  apply strictly_under_iff in Hq. destruct Hq as (r & x & ->).
  rewrite is_prefix_app. rewrite stat_app, Hl. unfold stat.
  rewrite lookup_empty_below; [reflexivity | destruct r; discriminate].
Qed.

Lemma wf_step5 (fs : node) : wf fs = true -> wf (fst (step5 fs)) = true.
Proof.
  intros Hw.
  destruct (step5_cases fs) as [[_ ->]|[[Hl ->]|[(_ & _ & ->)|[_ ->]]]];
    try exact Hw.
  now apply wf_delete.
Qed.

End StepFacts.

(** ** The documents of a tree *)

Module DocFacts.
Import FS FSFacts OpFacts MoveFacts LoopFacts FrameFacts WfFacts GlobFacts
       PruneFacts Step2Facts Step3Facts MainFacts StepFacts.

Lemma documents_dir (es : entries_t) :
  documents (Dir es) = flat_map (fun e => documents (snd e)) es.
Proof.
  simpl. induction es as [|[x c] es IH]; [reflexivity|]. simpl. now rewrite IH.
Qed.

Lemma documents_cons (x : string) (c : node) (es : entries_t) :
  documents (Dir ((x, c) :: es)) = documents c ++ documents (Dir es).
Proof. reflexivity. Qed.

Lemma remove_entry_absent (x : string) (es : entries_t) :
  find_entry x es = None -> remove_entry x es = es.
Proof.
  induction es as [|[y c] es IH]; [reflexivity|]. simpl.
  destruct (String.eqb y x); [discriminate|]. simpl. intros H.
  now rewrite IH.
Qed.

Lemma map_entry_absent (x : string) (f : node -> node) (es : entries_t) :
  find_entry x es = None -> map_entry x f es = es.
Proof.
  induction es as [|[y c] es IH]; [reflexivity|]. simpl.
  destruct (String.eqb y x); [discriminate|]. intros H.
  fold (map_entry x f es). now rewrite IH.
Qed.

Lemma documents_remove_entry (x : string) (c : node) (es : entries_t) :
  wf (Dir es) = true -> find_entry x es = Some c ->
  Permutation (documents (Dir es))
              (documents c ++ documents (Dir (remove_entry x es))).
Proof.
  induction es as [|[y c'] es IH]; [discriminate|].
  rewrite wf_cons_iff. intros (Hn & _ & Hw). simpl find_entry.
  unfold remove_entry. cbn [filter fst]. fold (remove_entry x es).
  destruct (String.eqb y x) eqn:E; cbn [negb].
  - intros [= ->]. apply String.eqb_eq in E. subst y.
    rewrite (remove_entry_absent x es Hn). now rewrite documents_cons.
  - intros Hf. rewrite !documents_cons.
    rewrite (IH Hw Hf). rewrite !app_assoc.
    apply Permutation_app_tail, Permutation_app_comm.
Qed.

Lemma documents_map_entry (x : string) (f : node -> node) (c : node)
    (es : entries_t) :
  wf (Dir es) = true -> find_entry x es = Some c ->
  Permutation (documents (Dir (map_entry x f es)))
              (documents (f c) ++ documents (Dir (remove_entry x es))).
Proof.
  induction es as [|[y c'] es IH]; [discriminate|].
  rewrite wf_cons_iff. intros (Hn & _ & Hw). simpl find_entry.
  unfold map_entry, remove_entry. cbn [map filter fst snd].
  fold (map_entry x f es). fold (remove_entry x es).
  destruct (String.eqb y x) eqn:E; cbn [negb].
  - intros [= ->]. apply String.eqb_eq in E. subst y.
    rewrite (remove_entry_absent x es Hn), (map_entry_absent x f es Hn).
    now rewrite documents_cons.
  - intros Hf. rewrite !documents_cons.
    rewrite (IH Hw Hf). rewrite !app_assoc.
    apply Permutation_app_tail, Permutation_app_comm.
Qed.

Lemma documents_set_entry (x : string) (n : node) (es : entries_t) :
  find_entry x es = None ->
  Permutation (documents (Dir (set_entry x n es)))
              (documents (Dir es) ++ documents n).
Proof.
  induction es as [|[y c] es IH]; simpl find_entry; intros H.
  - simpl. now rewrite app_nil_r.
  - cbn [set_entry]. destruct (String.eqb y x); [discriminate|].
    rewrite !documents_cons, (IH H). now rewrite app_assoc.
Qed.

Lemma documents_delete (p : path) :
  forall fs s,
    wf fs = true -> p <> [] -> lookup p fs = Some s ->
    Permutation (documents fs) (documents s ++ documents (delete p fs)).
Proof.
  induction p as [|x p IH]; intros fs s Hw Hp Hl; [congruence|].
  destruct fs as [d|es]; [discriminate|]. simpl in Hl.
  destruct (find_entry x es) as [c|] eqn:Hx; [|discriminate].
  destruct p as [|y p].
  - simpl in Hl. inversion Hl. subst s. now apply documents_remove_entry.
  - change (delete (x :: y :: p) (Dir es))
      with (Dir (map_entry x (delete (y :: p)) es)).
    rewrite (documents_map_entry x _ c es Hw Hx).
    rewrite (documents_remove_entry x c es Hw Hx).
    rewrite (IH c s (wf_find_entry x es c Hw Hx) ltac:(discriminate) Hl).
    now rewrite app_assoc.
Qed.

Lemma documents_insert (p : path) (n : node) :
  forall fs,
    wf fs = true -> p <> [] -> lookup p fs = None ->
    is_dir (PurePath.parent p) fs = true ->
    Permutation (documents (insert p n fs)) (documents fs ++ documents n).
Proof.
  induction p as [|x p IH]; intros fs Hw Hp Hl Hd; [congruence|].
  destruct fs as [d|es]; [destruct p; discriminate|].
  destruct p as [|y p].
  - simpl in Hl. simpl. destruct (find_entry x es) eqn:Hx; [discriminate|].
    now apply documents_set_entry.
  - change (insert (x :: y :: p) n (Dir es))
      with (Dir (map_entry x (insert (y :: p) n) es)).
    change (PurePath.parent (x :: y :: p)) with (x :: PurePath.parent (y :: p)) in Hd.
    unfold is_dir in Hd. cbn [lookup] in Hd, Hl.
    destruct (find_entry x es) as [c|] eqn:Hx; [|discriminate].
    rewrite (documents_map_entry x _ c es Hw Hx).
    rewrite (documents_remove_entry x c es Hw Hx).
    rewrite (IH c (wf_find_entry x es c Hw Hx) ltac:(discriminate) Hl Hd).
    rewrite <- !app_assoc. apply Permutation_app_head, Permutation_app_comm.
Qed.

Lemma lookup_stat_none (p : path) (fs : node) :
  stat p fs = None -> lookup p fs = None.
Proof. unfold stat. now destruct (lookup p fs). Qed.

(** A rename onto a free name relocates documents; it loses and
    duplicates none. *)
Lemma documents_os_rename (src dst : path) (fs fs' : node) :
  wf fs = true -> stat dst fs = None -> os_rename src dst fs = inr fs' ->
  Permutation (documents fs') (documents fs).
Proof.
  intros Hw Hd H.
  destruct (os_rename_fresh_eq _ _ _ _ Hd H) as (s & Hs & Hpre & Hpar & Hne & ->).
  assert (Hsrc : src <> []) by (eapply is_prefix_nil_inv; eassumption).
  rewrite documents_insert; trivial.
  - rewrite (documents_delete src fs s Hw Hsrc Hs). apply Permutation_app_comm.
  - now apply wf_delete.
  - apply lookup_stat_none. rewrite stat_delete by assumption.
    now destruct (is_prefix src dst).
  - apply is_dir_true. rewrite stat_delete by assumption.
    destruct (is_prefix src (PurePath.parent dst)) eqn:E.
    + rewrite (is_prefix_trans _ _ _ E (is_prefix_parent _)) in Hpre. discriminate.
    + now apply is_dir_true.
Qed.

Lemma documents_os_mkdir (p : path) (fs fs' : node) :
  wf fs = true -> os_mkdir p fs = inr fs' ->
  Permutation (documents fs') (documents fs).
Proof.
  intros Hw. unfold os_mkdir. destruct (lookup p fs) eqn:Hl; [discriminate|].
  destruct (lookup (PurePath.parent p) fs) as [[d|es]|] eqn:Hpar; try discriminate.
  intros [= <-]. rewrite documents_insert; trivial.
  - simpl. now rewrite app_nil_r.
  - intros ->. discriminate.
  - unfold is_dir. now rewrite Hpar.
Qed.

Lemma documents_mkdir_parents (todo : path) :
  forall done fs fs',
    wf fs = true -> mkdir_parents done todo fs = inr fs' ->
    Permutation (documents fs') (documents fs).
Proof.
  induction todo as [|x todo IH]; intros done fs fs' Hw H; simpl in H.
  - now inversion H.
  - destruct (lookup (done ++ [x]) fs) as [[d|es]|]; try discriminate.
    + now apply (IH _ _ _ Hw H).
    + destruct (os_mkdir (done ++ [x]) fs) as [e|fs1] eqn:Hm; [discriminate|].
      rewrite (IH _ _ _ (wf_os_mkdir _ _ _ Hw Hm) H).
      now apply (documents_os_mkdir _ _ _ Hw Hm).
Qed.

Lemma documents_rmdir (p : path) (fs fs' : node) :
  wf fs = true -> rmdir p fs = inr fs' ->
  Permutation (documents fs') (documents fs).
Proof.
  intros Hw H. apply rmdir_inr in H. destruct H as (Hl & Hp & ->).
  now rewrite (documents_delete p fs (Dir []) Hw Hp Hl).
Qed.

Lemma documents_move_file (panda_core docs file_path : path) (fs : node) :
  wf fs = true ->
  match move_file panda_core docs file_path fs with
  | Looping => False
  | Moved fs' _ _ | Raised fs' _ => Permutation (documents fs') (documents fs)
  end.
Proof.
  intros Hw. pose proof (move_file_spec panda_core docs file_path fs) as Hspec.
  unfold move_file in *.
  destruct (map_file_to_category file_path docs) as [cat|]; [|reflexivity].
  destruct (mkdir_p (panda_core ++ [cat]) fs) as [e|fs1] eqn:Hm; [reflexivity|].
  assert (Hw1 : wf fs1 = true) by apply (wf_mkdir_parents _ _ _ _ Hw Hm).
  pose proof (documents_mkdir_parents _ _ _ _ Hw Hm) as P1.
  destruct (resolve_target_file (panda_core ++ [cat]) file_path fs1) as [t|] eqn:Ht;
    [|exact Hspec].
  destruct (shutil_move file_path t fs1) as [e|fs2] eqn:Hmv; [exact P1|].
  destruct Hspec as (_ & fs1' & nm & E1 & -> & Hfree & _).
  assert (fs1' = fs1) by congruence. subst fs1'.
  rewrite shutil_move_fresh in Hmv by assumption.
  now rewrite (documents_os_rename _ _ _ _ Hw1 Hfree Hmv).
Qed.

Lemma documents_consolidate (panda_core docs : path) (all_files : list path) :
  forall fs moved errors r,
    wf fs = true ->
    consolidate panda_core docs all_files fs moved errors = Some r ->
    Permutation (documents (c_fs r)) (documents fs).
Proof.
  induction all_files as [|f rest IH]; intros fs moved errors r Hw H; simpl in H.
  - now inversion H.
  - pose proof (wf_move_file panda_core docs f fs Hw) as Hw'.
    pose proof (documents_move_file panda_core docs f fs Hw) as P.
    destruct (move_file panda_core docs f fs) as [fs' cat target|fs' e|]; [| |discriminate].
    + destruct (consolidate panda_core docs rest fs' (S moved) errors) as [r'|] eqn:Hr;
        [|discriminate].
      inversion H. subst r. simpl. now rewrite (IH _ _ _ _ Hw' Hr).
    + destruct (consolidate panda_core docs rest fs' moved (S errors)) as [r'|] eqn:Hr;
        [|discriminate].
      inversion H. subst r. simpl. now rewrite (IH _ _ _ _ Hw' Hr).
Qed.

Lemma documents_rename_subdir (panda_core : path) (fs : node) (item : string * string) :
  wf fs = true ->
  wf (fst (rename_subdir panda_core fs item)) = true
  /\ Permutation (documents (fst (rename_subdir panda_core fs item))) (documents fs).
Proof.
  intros Hw. unfold rename_subdir. destruct item as [o n].
  destruct (exists_ (panda_core ++ [o]) fs);
    destruct (exists_ (panda_core ++ [n]) fs) eqn:En; try (now split).
  destruct (os_rename (panda_core ++ [o]) (panda_core ++ [n]) fs) as [e|fs'] eqn:Hr;
    [now split|].
  cbn [fst]. split; [apply (wf_os_rename _ _ _ _ Hw Hr)|].
  apply (documents_os_rename (panda_core ++ [o]) (panda_core ++ [n]) _ _ Hw);
    [now apply exists_false | exact Hr].
Qed.

Lemma documents_step2 (panda_core : path) (items : list (string * string)) :
  forall fs, wf fs = true ->
    wf (fst (step2 panda_core items fs)) = true
    /\ Permutation (documents (fst (step2 panda_core items fs))) (documents fs).
Proof.
  induction items as [|item items IH]; intros fs Hw; [now split|].
  cbn [step2]. destruct (documents_rename_subdir panda_core fs item Hw) as [W1 P1].
  destruct (rename_subdir panda_core fs item) as [fs1 out1]. cbn [fst] in *.
  destruct (IH fs1 W1) as [W2 P2].
  destruct (step2 panda_core items fs1) as [fs2 out2]. cbn [fst] in *.
  split; [exact W2 | now rewrite P2].
Qed.

Lemma documents_prune (l : list path) :
  forall fs n, wf fs = true ->
    Permutation (documents (fst (fst (prune l fs n)))) (documents fs).
Proof.
  induction l as [|p rest IH]; intros fs n Hw; [reflexivity|].
  cbn [prune]. destruct (is_dir p fs); [|now apply IH].
  destruct (iterdir p fs) as [e|[|c cs]].
  - specialize (IH fs n Hw). now destruct (prune rest fs n) as [[? ?] ?].
  - destruct (rmdir p fs) as [e|fs1] eqn:Hr.
    + specialize (IH fs n Hw). now destruct (prune rest fs n) as [[? ?] ?].
    + specialize (IH fs1 (S n) (wf_rmdir _ _ _ Hw Hr)).
      rewrite <- (documents_rmdir _ _ _ Hw Hr).
      now destruct (prune rest fs1 (S n)) as [[? ?] ?].
  - now apply IH.
Qed.

Lemma documents_step4 (fs : node) :
  wf fs = true -> Permutation (documents (fst (step4 fs))) (documents fs).
Proof.
  intros Hw. unfold step4. destruct (exists_ docs_dir fs); [|reflexivity].
  pose proof (documents_prune (sorted_reverse len_str (rglob "*" docs_dir fs)) fs 0 Hw)
    as P.
  now destruct (prune (sorted_reverse len_str (rglob "*" docs_dir fs)) fs 0)
    as [[? ?] ?].
Qed.

Lemma documents_step5 (fs : node) :
  wf fs = true -> Permutation (documents (fst (step5 fs))) (documents fs).
Proof.
  intros Hw.
  destruct (step5_cases fs) as [[_ ->]|[[Hl ->]|[(_ & _ & ->)|[_ ->]]]];
    try reflexivity.
  cbn [fst]. now rewrite (documents_delete docs_dir fs (Dir []) Hw ltac:(discriminate) Hl).
Qed.

(** A run relocates documents: the tree it ends in holds the same
    documents, each once, as the tree it started from. *)
Lemma documents_main (fs : node) :
  wf fs = true ->
  exists fs' out, main fs = Some (fs', out)
                  /\ Permutation (documents fs') (documents fs).
Proof.
  intros Hw. destruct (exists_ new_panda_core fs) eqn:Hc.
  - destruct (main_present fs Hc)
      as (fs2 & out2 & fs3 & out3 & fs4 & out4 & fs5 & out5
          & H2 & H3 & H4 & H5 & Hm).
    exists fs5. eexists. split; [exact Hm|].
    destruct (documents_step2 new_panda_core SUBDIR_MAPPINGS fs Hw) as [W2 P2].
    rewrite H2 in W2, P2. cbn [fst] in W2, P2.
    assert (P3 : Permutation (documents fs3) (documents fs2)).
    { destruct (step3_cases _ _ _ _ H3) as [(_ & -> & _)|(_ & r & Hr & -> & _)];
        [reflexivity|].
      now apply (documents_consolidate _ _ _ _ _ _ _ W2 Hr). }
    pose proof (wf_step3 _ _ _ _ W2 H3) as W3.
    pose proof (documents_step4 fs3 W3) as P4.
    assert (W4 : wf (fst (step4 fs3)) = true) by now apply step4_spec.
    pose proof (documents_step5 _ W4) as P5.
    rewrite H4 in P4, P5. cbn [fst] in P4, P5. rewrite H5 in P5. cbn [fst] in P5.
    now rewrite P5, P4, P3.
  - rewrite (main_absent fs Hc). eauto.
Qed.

End DocFacts.

(** ** The run and its re-run *)

Module RunFacts.
Import FS FSFacts OpFacts Conflicts MoveFacts LoopFacts FrameFacts WfFacts
       GlobFacts PruneFacts Step2Facts Step3Facts MainFacts StepFacts DocFacts.

Lemma step5_only_removes (fs : node) (q : path) (k : kind) :
  stat q (fst (step5 fs)) = Some k -> stat q fs = Some k.
Proof.
  destruct (step5_cases fs) as [[_ ->]|[[Hl ->]|[(_ & _ & ->)|[_ ->]]]]; trivial.
  cbn [fst]. rewrite stat_delete by discriminate.
  now destruct (is_prefix docs_dir q).
Qed.

Lemma step5_keeps_files (fs : node) (q : path) (d : string) :
  stat q fs = Some (KFile d) -> stat q (fst (step5 fs)) = Some (KFile d).
Proof.
  intros Hq.
  destruct (step5_cases fs) as [[_ ->]|[[Hl ->]|[(_ & _ & ->)|[_ ->]]]]; trivial.
  cbn [fst]. rewrite stat_delete by discriminate.
  destruct (is_prefix docs_dir q) eqn:E; [|exact Hq].
  apply is_prefix_iff in E. destruct E as [r ->].
  rewrite stat_app, Hl in Hq. unfold stat in Hq. destruct r; discriminate.
Qed.

Lemma step4_keeps_files (fs : node) (q : path) (d : string) :
  stat q fs = Some (KFile d) -> stat q (fst (step4 fs)) = Some (KFile d).
Proof.
  intros Hq. destruct (step4_spec fs) as (R1 & _).
  destruct (R1 q) as [->|(_ & _ & Hd & _)]; [exact Hq|].
  apply is_dir_true in Hd. congruence.
Qed.

Lemma under_or_not (d q : path) :
  path_eqb d q = true \/ strictly_under d q = true \/ is_prefix d q = false.
Proof.
  unfold strictly_under.
  destruct (path_eqb d q); [now left|]. right.
  destruct (is_prefix d q); [now left | now right].
Qed.



Lemma md_free_not_candidate (fs : node) (f q : path) :
  In f (rglob "*.md" docs_dir fs) -> md_free q = true -> is_prefix f q = false.
Proof.
  intros Hin Hfree. destruct (is_prefix f q) eqn:E; [|reflexivity]. exfalso.
  apply in_rglob in Hin. destruct Hin as (_ & r & x & -> & Hm & _).
  apply is_prefix_iff in E. destruct E as [s ->].
  unfold md_free in Hfree. rewrite <- !app_assoc in Hfree.
  rewrite relative_to_app in Hfree. rewrite forallb_forall in Hfree.
  specialize (Hfree x). rewrite Hm in Hfree.
  assert (Hx : In x (r ++ [x] ++ s)) by (apply in_or_app; right; now left).
  specialize (Hfree Hx). discriminate.
Qed.

(** A regular file under [docs/] that is no markdown entry, and lies in
    none, is where it was when [main] returns. *)
Lemma main_keeps_file (fs : node) (q : path) (d : string) :
  strictly_under docs_dir q = true ->
  stat q fs = Some (KFile d) -> md_free q = true ->
  exists fs' out, main fs = Some (fs', out) /\ stat q fs' = Some (KFile d).
Proof.
  intros Hu Hq Hfree.
  destruct (exists_ new_panda_core fs) eqn:Hc.
  - destruct (main_present fs Hc)
      as (fs2 & out2 & fs3 & out3 & fs4 & out4 & fs5 & out5
          & H2 & H3 & H4 & H5 & Hm).
    eexists. eexists. split; [exact Hm|].
    assert (Hpre : is_prefix docs_dir q = true).
    { unfold strictly_under in Hu. now apply andb_prop in Hu. }
    assert (Hq2 : stat q fs2 = Some (KFile d)).
    { unfold stat. now rewrite (step2_docs _ _ _ _ H2 Hpre). }
    assert (Hq3 : stat q fs3 = Some (KFile d)).
    { apply (step3_keeps _ _ _ _ H3 _ _ Hq2). intros f Hf.
      now apply (md_free_not_candidate fs2). }
    replace fs5 with (fst (step5 fs4)) by now rewrite H5.
    replace fs4 with (fst (step4 fs3)) by now rewrite H4.
    now apply step5_keeps_files, step4_keeps_files.
  - rewrite (main_absent fs Hc). eauto.
Qed.

Lemma NoDup_app_disjoint (A : Type) (l1 l2 : list A) (x : A) :
  NoDup (l1 ++ l2) -> In x l1 -> In x l2 -> False.
Proof.
  induction l1 as [|a l1 IH]; simpl; intros Hnd H1 H2; [contradiction|].
  inversion Hnd as [|? ? Hna Hnd']. subst. destruct H1 as [->|H1].
  - apply Hna. apply in_or_app. now right.
  - now apply IH.
Qed.

Lemma prune_nothing (l : list path) (fs : node) (n : nat) :
  (forall p, In p l -> lookup p fs <> Some (Dir [])) ->
  prune l fs n = (fs, n, []).
Proof.
  induction l as [|p rest IH]; intros H; [reflexivity|].
  cbn [prune]. unfold is_dir, iterdir.
  assert (Hrest : prune rest fs n = (fs, n, []))
    by (apply IH; intros q Hq; apply H; now right).
  pose proof (H p (or_introl eq_refl)) as Hp.
  destruct (lookup p fs) as [[d|[|e es]]|]; try exact Hrest. congruence.
Qed.

Lemma step5_again (fs : node) : step5 (fst (step5 fs)) = (fst (step5 fs), snd (step5 (fst (step5 fs)))).
Proof.
  destruct (step5_cases fs) as [[_ E]|[[Hl E]|[(_ & _ & E)|[_ E]]]];
    try (rewrite E; cbn [fst]; rewrite E; reflexivity).
  rewrite E. cbn [fst].
  destruct (step5_cases (delete docs_dir fs)) as [[_ E']|[[Hl' _]|[((e & es & Hl') & _)|[(d & Hl') _]]]].
  - now rewrite E'.
  - assert (Hs : stat docs_dir (delete docs_dir fs) = None)
      by (rewrite stat_delete by discriminate; now rewrite is_prefix_refl).
    unfold stat in Hs. rewrite Hl' in Hs. discriminate.
  - assert (Hs : stat docs_dir (delete docs_dir fs) = None)
      by (rewrite stat_delete by discriminate; now rewrite is_prefix_refl).
    unfold stat in Hs. rewrite Hl' in Hs. discriminate.
  - assert (Hs : stat docs_dir (delete docs_dir fs) = None)
      by (rewrite stat_delete by discriminate; now rewrite is_prefix_refl).
    unfold stat in Hs. rewrite Hl' in Hs. discriminate.
Qed.

Lemma quiet_app (a b : list line) : quiet a -> quiet b -> quiet (a ++ b).
Proof. unfold quiet. rewrite forallb_app. now intros -> ->. Qed.

Lemma quiet_rename_subdir (panda_core : path) (fs : node) (item : string * string) :
  quiet (snd (rename_subdir panda_core fs item)).
Proof.
  unfold rename_subdir. destruct item as [o n].
  destruct (exists_ (panda_core ++ [o]) fs), (exists_ (panda_core ++ [n]) fs);
    try reflexivity.
  now destruct (os_rename (panda_core ++ [o]) (panda_core ++ [n]) fs).
Qed.

Lemma quiet_step2 (panda_core : path) (items : list (string * string)) :
  forall fs, quiet (snd (step2 panda_core items fs)).
Proof.
  induction items as [|item items IH]; intros fs; [reflexivity|].
  cbn [step2]. pose proof (quiet_rename_subdir panda_core fs item) as H1.
  destruct (rename_subdir panda_core fs item) as [fs1 out1].
  specialize (IH fs1). destruct (step2 panda_core items fs1) as [fs2 out2].
  now apply quiet_app.
Qed.

Lemma quiet_step5 (fs : node) : quiet (snd (step5 fs)).
Proof.
  destruct (step5_cases fs) as [[_ E]|[[Hl E]|[(_ & _ & E)|[_ E]]]];
    rewrite E; reflexivity.
Qed.

Lemma quiet_errors (out : list line) :
  forallb is_error_line out = true -> quiet out.
Proof.
  unfold quiet. induction out as [|l out IH]; [reflexivity|]. simpl.
  rewrite !andb_true_iff. intros [Hl Hout]. split; [|now apply IH].
  now destruct l.
Qed.

Lemma consolidate_blocked_out (panda_core docs : path) (all_files : list path)
    (fs : node) :
  (forall f, In f all_files -> blocked panda_core docs fs f) ->
  forall moved errors r,
    consolidate panda_core docs all_files fs moved errors = Some r ->
    c_fs r = fs /\ moved_count r = moved /\ forallb is_error_line (c_out r) = true.
Proof.
  induction all_files as [|f rest IH]; intros Hb moved errors r H; simpl in H.
  - inversion H. repeat split.
  - destruct (blocked_move_file _ _ _ _ (Hb f (or_introl eq_refl))) as [e He].
    rewrite He in H.
    destruct (consolidate panda_core docs rest fs moved (S errors)) as [r'|] eqn:Hr;
      [|discriminate].
    inversion H. subst r. cbn [c_fs moved_count c_out forallb is_error_line].
    destruct (IH (fun g Hg => Hb g (or_intror Hg)) _ _ _ Hr) as (H1 & H2 & H3).
    repeat split; assumption.
Qed.

Lemma outside_docs_steps45 (fs3 : node) (q : path) :
  is_prefix docs_dir q = false ->
  stat q (fst (step5 (fst (step4 fs3)))) = stat q fs3.
Proof.
  intros H. rewrite step5_stat by now right.
  destruct (step4_spec fs3) as (R1 & _).
  destruct (R1 q) as [->|(_ & Hu & _)]; [reflexivity|].
  unfold strictly_under in Hu. rewrite H in Hu. discriminate.
Qed.

Lemma step5_docs_left (fs4 : node) :
  exists_ docs_dir (fst (step5 fs4)) = true -> fst (step5 fs4) = fs4.
Proof.
  destruct (step5_cases fs4) as [[_ E]|[[Hl E]|[(_ & _ & E)|[_ E]]]];
    rewrite E; cbn [fst]; trivial.
  intros H. apply exists_true in H. exfalso. apply H.
  rewrite stat_delete by discriminate. now rewrite is_prefix_refl.
Qed.

(** After a run, step 3 finds only blocked documents. *)
Lemma steps45_then_step3 (fs3 : node) :
  wf fs3 = true ->
  (forall q, In q (rglob "*.md" docs_dir fs3) ->
             blocked new_panda_core docs_dir fs3 q) ->
  exists out3,
    step3 new_panda_core (fst (step5 (fst (step4 fs3))))
    = Some (fst (step5 (fst (step4 fs3))), out3)
    /\ quiet out3.
Proof.
  intros Hw Hres.
  destruct (step4_spec fs3) as (R1 & R2 & R3 & W4).
  unfold step3.
  destruct (exists_ docs_dir (fst (step5 (fst (step4 fs3))))) eqn:Hd; cbn [negb].
  - rewrite (step5_docs_left _ Hd) in *.
    assert (Hb : forall f, In f (rglob "*.md" docs_dir (fst (step4 fs3))) ->
                           blocked new_panda_core docs_dir (fst (step4 fs3)) f).
    { intros f Hf.
      apply (blocked_stable _ _ _ fs3); [intros q d; apply step4_keeps_files|].
      apply Hres. apply in_rglob in Hf. destruct Hf as (_ & r & x & -> & Hm & Hex).
      specialize (Hex (W4 Hw)).
      assert (Hex3 : stat (docs_dir ++ r ++ [x]) fs3 <> None).
      { destruct (stat (docs_dir ++ r ++ [x]) (fst (step4 fs3))) as [k|] eqn:E;
          [|congruence].
        rewrite (R3 _ _ E). discriminate. }
      apply rglob_complete; trivial. apply is_dir_true.
      apply (stat_below docs_dir (r ++ [x])); [destruct r; discriminate | exact Hex3]. }
    destruct (consolidate_total new_panda_core docs_dir
                (rglob "*.md" docs_dir (fst (step4 fs3))) (fst (step4 fs3)) 0 0)
      as [r Hr].
    rewrite Hr.
    destruct (consolidate_blocked_out _ _ _ _ Hb _ _ _ Hr) as (-> & -> & Hout).
    eexists. split; [reflexivity|].
    apply quiet_app; [now apply quiet_errors | reflexivity].
  - eexists. split; reflexivity.
Qed.

(** After a run, step 4 finds no empty directory. *)
Lemma steps45_then_step4 (fs3 : node) :
  exists out4,
    step4 (fst (step5 (fst (step4 fs3))))
    = (fst (step5 (fst (step4 fs3))), out4)
    /\ quiet out4.
Proof.
  destruct (step4_spec fs3) as (R1 & R2 & R3 & W4).
  unfold step4 at 1.
  destruct (exists_ docs_dir (fst (step5 (fst (step4 fs3))))) eqn:Hd.
  - rewrite (step5_docs_left _ Hd) in *.
    rewrite prune_nothing.
    + eexists. split; reflexivity.
    + intros p Hin Hl. apply in_sorted_reverse in Hin. apply in_rglob in Hin.
      destruct Hin as (_ & r & x & -> & _).
      apply (empty_dir_no_file _ _ Hl). apply R2.
      * apply strictly_under_iff. now exists r, x.
      * unfold is_dir. now rewrite Hl.
  - eexists. split; reflexivity.
Qed.

Lemma candidate_not_prefix (pat : string) (fs : node) (g q : path) :
  In g (rglob pat docs_dir fs) -> is_prefix docs_dir q = false ->
  is_prefix g q = false.
Proof.
  intros Hg Hq. destruct (is_prefix g q) eqn:E; [|reflexivity].
  apply in_rglob in Hg. destruct Hg as (_ & r & x & -> & _).
  assert (is_prefix docs_dir q = true)
    by (apply (is_prefix_trans _ (docs_dir ++ r ++ [x])); [apply is_prefix_app | exact E]).
  congruence.
Qed.

(** After a run, step 2 has nothing left to rename. *)
Lemma run_settled (fs fs2 fs3 : node) (out2 out3 : list line) :
  step2 new_panda_core SUBDIR_MAPPINGS fs = (fs2, out2) ->
  step3 new_panda_core fs2 = Some (fs3, out3) ->
  forall it, In it SUBDIR_MAPPINGS ->
    settled new_panda_core (fst (step5 (fst (step4 fs3)))) it.
Proof.
  intros H2 H3 [o n] Hin.
  destruct (step2_spec _ _ _ _ _ SUBDIR_MAPPINGS_NoDup H2) as (S2 & _).
  assert (Hout : forall x, is_prefix docs_dir (new_panda_core ++ [x]) = false)
    by reflexivity.
  unfold settled. cbn [fst snd].
  rewrite !exists_stat, !outside_docs_steps45 by apply Hout.
  destruct (S2 _ Hin) as [Ho|Hn]; cbn [fst snd] in *.
  - left. apply exists_false in Ho.
    destruct (stat (new_panda_core ++ [o]) fs3) eqn:E; [|reflexivity]. exfalso.
    destruct (step3_creates _ _ _ H3 _ Ho) as [Hp|(cat & Hcat & Hp)]; [congruence| |].
    + unfold new_panda_core in Hp. simpl in Hp. discriminate.
    + unfold new_panda_core in Hp. simpl in Hp.
      rewrite andb_true_r in Hp.
      apply String.eqb_eq in Hp. subst cat.
      apply (NoDup_app_disjoint _ _ _ o SUBDIR_MAPPINGS_NoDup);
        [now apply (in_map fst) in Hin | exact Hcat].
  - right. rewrite exists_stat in Hn.
    destruct (stat (new_panda_core ++ [n]) fs2) as [k|] eqn:E; [|discriminate].
    rewrite (step3_keeps _ _ _ _ H3 _ _ E); [reflexivity|].
    intros f Hf. apply (candidate_not_prefix "*.md" fs2); [exact Hf | apply Hout].
Qed.

Lemma run_container (fs fs2 fs3 : node) (out2 out3 : list line) :
  exists_ new_panda_core fs = true ->
  step2 new_panda_core SUBDIR_MAPPINGS fs = (fs2, out2) ->
  step3 new_panda_core fs2 = Some (fs3, out3) ->
  exists_ new_panda_core (fst (step5 (fst (step4 fs3)))) = true.
Proof.
  intros Hc H2 H3.
  destruct (step2_spec _ _ _ _ _ SUBDIR_MAPPINGS_NoDup H2) as (_ & _ & P2 & _).
  rewrite exists_stat in *. rewrite outside_docs_steps45 by reflexivity.
  rewrite <- (P2 new_panda_core (is_prefix_refl _)) in Hc.
  destruct (stat new_panda_core fs2) as [k|] eqn:E; [|discriminate].
  rewrite (step3_keeps _ _ _ _ H3 _ _ E); [reflexivity|].
  intros f Hf. now apply (candidate_not_prefix "*.md" fs2).
Qed.

Lemma quiet_transcript (out1 out2 out3 out4 out5 : list line) :
  quiet out1 -> quiet out2 -> quiet out3 -> quiet out4 -> quiet out5 ->
  quiet (transcript out1 out2 out3 out4 out5).
Proof.
  intros H1 H2 H3 H4 H5.
  unfold transcript, transcript_before_step3, transcript_after_step3.
  repeat (apply quiet_app; try assumption; try reflexivity).
Qed.

(** The tree a run ends in is left as it is by the next run, which moves
    nothing. *)
Lemma main_fixed_point (fs : node) :
  wf fs = true ->
  exists fs1 out1 out2,
    main fs = Some (fs1, out1) /\ main fs1 = Some (fs1, out2)
    /\ quiet out2 /\ wf fs1 = true.
Proof.
  intros Hw. destruct (exists_ new_panda_core fs) eqn:Hc.
  - destruct (main_present fs Hc)
      as (fs2 & out2 & fs3 & out3 & fs4 & out4 & fs5 & out5
          & H2 & H3 & H4 & H5 & Hm).
    assert (E4 : fs4 = fst (step4 fs3)) by now rewrite H4.
    assert (E5 : fs5 = fst (step5 (fst (step4 fs3)))) by now rewrite <- E4, H5.
    assert (Hw2 : wf fs2 = true)
      by (now apply (step2_spec _ _ _ _ _ SUBDIR_MAPPINGS_NoDup H2)).
    assert (Hw3 : wf fs3 = true) by apply (wf_step3 _ _ _ _ Hw2 H3).
    assert (Hw5 : wf fs5 = true).
    { rewrite E5. apply wf_step5. now apply step4_spec. }
    pose proof (run_container _ _ _ _ _ Hc H2 H3) as Hc5. rewrite <- E5 in Hc5.
    destruct (main_present fs5 Hc5)
      as (gs2 & o2 & gs3 & o3 & gs4 & o4 & gs5 & o5 & G2 & G3 & G4 & G5 & Gm).
    assert (F2 : gs2 = fs5).
    { pose proof (step2_settled new_panda_core SUBDIR_MAPPINGS fs5) as Hs.
      rewrite G2 in Hs. apply Hs; [|apply SUBDIR_MAPPINGS_distinct].
      rewrite E5. apply (run_settled _ _ _ _ _ H2 H3). }
    subst gs2.
    destruct (steps45_then_step3 fs3 Hw3 (step3_residue _ _ _ Hw3 H3))
      as (o3' & G3' & Q3).
    rewrite <- E5, G3 in G3'. injection G3' as -> ->.
    destruct (steps45_then_step4 fs3) as (o4' & G4' & Q4).
    rewrite <- E5, G4 in G4'. injection G4' as -> ->.
    assert (F5 : gs5 = fs5).
    { pose proof (step5_again (fst (step4 fs3))) as Hs.
      rewrite <- E5, G5 in Hs. now injection Hs. }
    subst gs5.
    exists fs5, (transcript
                   [Lit "  Warning: Target directory already exists. Using existing directory."]
                   out2 out3 out4 out5),
      (transcript
         [Lit "  Warning: Target directory already exists. Using existing directory."]
         o2 o3' o4' o5).
    repeat split; trivial.
    apply quiet_transcript; trivial; [reflexivity| |].
    + pose proof (quiet_step2 new_panda_core SUBDIR_MAPPINGS fs5) as Q.
      now rewrite G2 in Q.
    + pose proof (quiet_step5 fs5) as Q. now rewrite G5 in Q.
  - exists fs, (header ++ [Lit "  ✗ PANDA_CORE directory not found!"]),
      (header ++ [Lit "  ✗ PANDA_CORE directory not found!"]).
    rewrite (main_absent fs Hc). repeat split; trivial.
Qed.

Lemma in_firstn (A : Type) (k : nat) (l : list A) (x : A) :
  In x (firstn k l) -> In x l.
Proof.
  intros H. rewrite <- (firstn_skipn k l). apply in_or_app. now left.
Qed.

(** What step 3 does, entirely or in part, keeps step 2 done and the
    container in place. *)
Lemma consolidate_settled (all_files : list path) (fs2 fs : node)
    (moved errors : nat) (r : consolidated) (it : string * string) :
  (forall f, In f all_files -> In f (rglob "*.md" docs_dir fs)) ->
  consolidate new_panda_core docs_dir all_files fs2 moved errors = Some r ->
  In it SUBDIR_MAPPINGS ->
  settled new_panda_core fs2 it -> settled new_panda_core (c_fs r) it.
Proof.
  intros Hsub Hr Hin Hs. destruct it as [o n]. unfold settled in *. cbn [fst snd] in *.
  assert (Hout : forall x, is_prefix docs_dir (new_panda_core ++ [x]) = false)
    by reflexivity.
  rewrite !exists_stat in *. destruct Hs as [Ho|Hn].
  - left. destruct (stat (new_panda_core ++ [o]) fs2) eqn:E2; [discriminate|].
    destruct (stat (new_panda_core ++ [o]) (c_fs r)) eqn:E; [|reflexivity]. exfalso.
    destruct (consolidate_creates_in _ _ _ _ _ _ _ Hr _ E2)
      as [Hp|(cat & Hcat & Hp)]; [congruence| |].
    + unfold new_panda_core in Hp. simpl in Hp. discriminate.
    + unfold new_panda_core in Hp. simpl in Hp. rewrite andb_true_r in Hp.
      apply String.eqb_eq in Hp. subst cat.
      apply (NoDup_app_disjoint _ _ _ o SUBDIR_MAPPINGS_NoDup);
        [now apply (in_map fst) in Hin | exact Hcat].
  - right. destruct (stat (new_panda_core ++ [n]) fs2) as [k|] eqn:E; [|discriminate].
    rewrite (consolidate_keeps _ _ _ _ _ _ _ Hr _ _ E); [reflexivity|].
    intros f Hf. apply (candidate_not_prefix "*.md" fs); [now apply Hsub | apply Hout].
Qed.

Lemma consolidate_container (all_files : list path) (fs2 fs : node)
    (moved errors : nat) (r : consolidated) :
  (forall f, In f all_files -> In f (rglob "*.md" docs_dir fs)) ->
  consolidate new_panda_core docs_dir all_files fs2 moved errors = Some r ->
  exists_ new_panda_core fs2 = true -> exists_ new_panda_core (c_fs r) = true.
Proof.
  intros Hsub Hr. rewrite !exists_stat.
  destruct (stat new_panda_core fs2) as [k|] eqn:E; [|discriminate]. intros _.
  rewrite (consolidate_keeps _ _ _ _ _ _ _ Hr _ _ E); [reflexivity|].
  intros f Hf. apply (candidate_not_prefix "*.md" fs); [now apply Hsub | reflexivity].
Qed.

(** On a tree where step 2 has nothing to do, a run leaves every regular
    file outside [docs/] where it is, with its content. *)
Lemma main_keeps_outside (fs fs1 : node) (out1 : list line) :
  (forall it, In it SUBDIR_MAPPINGS -> settled new_panda_core fs it) ->
  main fs = Some (fs1, out1) ->
  forall q d, is_prefix docs_dir q = false ->
    stat q fs = Some (KFile d) -> stat q fs1 = Some (KFile d).
Proof.
  intros Hs Hm q d Hq Hf. destruct (exists_ new_panda_core fs) eqn:Hc.
  - destruct (main_present fs Hc)
      as (fs2 & out2 & fs3 & out3 & fs4 & out4 & fs5 & out5
          & H2 & H3 & H4 & H5 & Hm').
    rewrite Hm' in Hm. injection Hm as <- _.
    assert (E2 : fs2 = fs).
    { pose proof (step2_settled new_panda_core SUBDIR_MAPPINGS fs Hs
                    SUBDIR_MAPPINGS_distinct) as E. now rewrite H2 in E. }
    subst fs2.
    replace fs5 with (fst (step5 (fst (step4 fs3))))
      by (rewrite H4; cbn [fst]; now rewrite H5).
    rewrite outside_docs_steps45 by assumption.
    apply (step3_keeps _ _ _ _ H3 _ _ Hf).
    intros f Hin. now apply (candidate_not_prefix "*.md" fs).
  - rewrite (main_absent fs Hc) in Hm. now injection Hm as <- _.
Qed.

End RunFacts.

(** ** A run taken up again *)

Module ResumeFacts.
Import FS FSFacts OpFacts MoveFacts LoopFacts FrameFacts WfFacts GlobFacts
       Step2Facts Step3Facts MainFacts StepFacts DocFacts RunFacts.

(** *** The listing after a move *)

Lemma filter_id (A : Type) (f : A -> bool) (l : list A) :
  (forall a, In a l -> f a = true) -> filter f l = l.
Proof.
  induction l as [|a l IH]; intros H; [reflexivity|]. simpl.
  rewrite (H a (or_introl eq_refl)). f_equal. apply IH.
  intros b Hb. apply H. now right.
Qed.

Lemma path_eqb_false (p q : path) : p <> q -> path_eqb p q = false.
Proof.
  intros H. destruct (path_eqb p q) eqn:E; [|reflexivity].
  now apply path_eqb_eq in E.
Qed.

Lemma path_eqb_refl (p : path) : path_eqb p p = true.
Proof. now apply path_eqb_eq. Qed.

(** What is listed below [d] lies strictly below it. *)
Lemma in_listing (pat : string) (n : node) (d q : path) :
  In q (flat_map (select_children pat) (iterate_directories d n)) ->
  exists r x, q = d ++ r ++ [x].
Proof.
  intros Hin. apply in_flat_map in Hin. destruct Hin as ([p es] & Hp & Hq).
  apply in_select_children in Hq. destruct Hq as (x & c & -> & _).
  apply in_iterate_directories in Hp. destruct Hp as (r & -> & _).
  exists r, x. now rewrite <- app_assoc.
Qed.

Lemma listing_dir (pat : string) (d : path) (es : entries_t) :
  flat_map (select_children pat) (iterate_directories d (Dir es))
  = select_children pat (d, es)
    ++ flat_map (fun e => flat_map (select_children pat)
                            (iterate_directories (d ++ [fst e]) (snd e))) es.
Proof.
  rewrite iterate_directories_dir. cbn [flat_map]. f_equal.
  induction es as [|e es IH]; [reflexivity|].
  cbn [flat_map]. now rewrite flat_map_app, IH.
Qed.

Lemma select_children_cons (pat : string) (d : path) (x : string) (c : node)
    (es : entries_t) :
  select_children pat (d, (x, c) :: es)
  = if Str.fnmatch pat x then (d ++ [x]) :: select_children pat (d, es)
    else select_children pat (d, es).
Proof.
  unfold select_children. cbn [filter fst snd]. now destruct (Str.fnmatch pat x).
Qed.

Lemma select_children_map_entry (pat : string) (d : path) (x : string)
    (f : node -> node) (es : entries_t) :
  select_children pat (d, map_entry x f es) = select_children pat (d, es).
Proof.
  induction es as [|[y c] es IH]; [reflexivity|].
  unfold map_entry in *. cbn [map fst snd].
  destruct (String.eqb y x); cbn [fst snd]; rewrite !select_children_cons;
    now rewrite IH.
Qed.

Lemma snoc_inj (d : path) (x y : string) : d ++ [x] = d ++ [y] -> x = y.
Proof. intros H. apply app_inv_head in H. now inversion H. Qed.

Lemma select_children_remove_entry (pat : string) (d : path) (x : string)
    (es : entries_t) :
  select_children pat (d, remove_entry x es)
  = filter (fun q => negb (path_eqb q (d ++ [x]))) (select_children pat (d, es)).
Proof.
  induction es as [|[y c] es IH]; [reflexivity|].
  unfold remove_entry in *. cbn [filter fst]. rewrite select_children_cons.
  destruct (String.eqb y x) eqn:E; cbn [negb].
  - apply String.eqb_eq in E. subst y. rewrite IH.
    destruct (Str.fnmatch pat x); [|reflexivity].
    cbn [filter]. now rewrite path_eqb_refl.
  - rewrite select_children_cons, IH.
    destruct (Str.fnmatch pat y); [|reflexivity].
    cbn [filter]. rewrite path_eqb_false; [reflexivity|].
    intros H. apply snoc_inj in H. subst y. now rewrite String.eqb_refl in E.
Qed.

Lemma listing_other_branch (pat : string) (c : node) (d q : path) (x y : string)
    (t : path) :
  In q (flat_map (select_children pat) (iterate_directories (d ++ [y]) c)) ->
  y <> x \/ t = [] -> q <> d ++ x :: t.
Proof.
  intros Hin Hd ->. apply in_listing in Hin. destruct Hin as (r & z & H).
  rewrite <- app_assoc in H. apply app_inv_head in H. inversion H. subst y.
  destruct Hd as [Hd| ->]; [congruence|]. destruct r; discriminate.
Qed.

Lemma select_children_shallow (pat : string) (d q : path) (es : entries_t)
    (x z : string) (t : path) :
  In q (select_children pat (d, es)) -> q <> d ++ x :: z :: t.
Proof.
  intros Hin ->. apply in_select_children in Hin.
  destruct Hin as (y & c & H & _). apply app_inv_head in H. discriminate.
Qed.

Lemma filter_children_id (pat : string) (d : path) (x : string) (t : path)
    (es : entries_t) :
  (forall e, In e es -> fst e <> x \/ t = []) ->
  filter (fun q => negb (path_eqb q (d ++ x :: t)))
    (flat_map (fun e => flat_map (select_children pat)
                          (iterate_directories (d ++ [fst e]) (snd e))) es)
  = flat_map (fun e => flat_map (select_children pat)
                         (iterate_directories (d ++ [fst e]) (snd e))) es.
Proof.
  intros H. apply filter_id. intros q Hq. apply in_flat_map in Hq.
  destruct Hq as ([y c] & He & Hq). cbn [fst snd] in Hq.
  apply negb_true_iff, path_eqb_false.
  apply (listing_other_branch pat c d q x y t Hq). apply (H _ He).
Qed.

Lemma find_entry_none_in (x : string) (es : entries_t) :
  find_entry x es = None -> forall e, In e es -> fst e <> x.
Proof.
  intros Hn [y c] He Hy. cbn [fst] in Hy. subst y.
  now apply in_find_entry in He.
Qed.

(** Unlinking a regular file takes its path, and nothing else, out of the
    listing; the order of the rest is kept. *)
Lemma listing_delete (pat : string) (t : path) :
  forall x n d data,
    wf n = true -> lookup (x :: t) n = Some (File data) ->
    flat_map (select_children pat) (iterate_directories d (delete (x :: t) n))
    = filter (fun q => negb (path_eqb q (d ++ x :: t)))
        (flat_map (select_children pat) (iterate_directories d n)).
Proof.
  induction t as [|z t IH]; intros x n d data Hw Hl.
  - destruct n as [c|es]; [discriminate|]. cbn [lookup] in Hl.
    cbn [delete]. rewrite !listing_dir, filter_app.
    rewrite select_children_remove_entry. f_equal.
    rewrite filter_children_id by (intros; now right).
    revert Hw Hl.
    induction es as [|[y c] es IHes]; intros Hw Hl; [reflexivity|].
    apply wf_cons_iff in Hw. destruct Hw as (Hn & Hc & Hes).
    unfold remove_entry. cbn [filter fst find_entry] in *.
    destruct (String.eqb y x) eqn:E; cbn [negb].
    + apply String.eqb_eq in E. subst y.
      fold (remove_entry x es). rewrite (remove_entry_absent x es Hn).
      cbn [flat_map snd]. destruct c as [c|es']; [reflexivity | discriminate].
    + cbn [flat_map]. f_equal. now apply IHes.
  - destruct n as [c|es]; [discriminate|].
    change (delete (x :: z :: t) (Dir es)) with (Dir (map_entry x (delete (z :: t)) es)).
    rewrite !listing_dir, filter_app, select_children_map_entry. f_equal.
    + symmetry. apply filter_id. intros q Hq.
      apply negb_true_iff, path_eqb_false.
      now apply (select_children_shallow pat d q es).
    + change (lookup (x :: z :: t) (Dir es))
        with (match find_entry x es with
              | Some c => lookup (z :: t) c | None => None end) in Hl.
      revert Hw Hl.
      induction es as [|[y c] es IHes]; intros Hw Hl; [reflexivity|].
      apply wf_cons_iff in Hw. destruct Hw as (Hn & Hc & Hes).
      unfold map_entry. cbn [map fst snd find_entry] in *.
      fold (map_entry x (delete (z :: t)) es).
      destruct (String.eqb y x) eqn:E.
      * apply String.eqb_eq in E. subst y.
        rewrite (map_entry_absent x _ es Hn).
        cbn [flat_map fst snd]. rewrite filter_app.
        rewrite (IH z c (d ++ [x]) data Hc Hl), <- app_assoc. cbn [app].
        f_equal. symmetry. apply filter_children_id.
        intros e He. left. now apply (find_entry_none_in x es Hn).
      * cbn [flat_map fst snd]. rewrite filter_app. f_equal.
        -- symmetry. apply filter_id. intros q Hq.
           apply negb_true_iff, path_eqb_false.
           apply (listing_other_branch pat c d q x y (z :: t) Hq). left.
           intros ->. now rewrite String.eqb_refl in E.
        -- now apply IHes.
Qed.

(** In a well-formed tree nothing is listed twice. *)
Lemma select_children_NoDup (pat : string) (d : path) (es : entries_t) :
  wf (Dir es) = true -> NoDup (select_children pat (d, es)).
Proof.
  induction es as [|[x c] es IH]; intros Hw; [constructor|].
  apply wf_cons_iff in Hw. destruct Hw as (Hn & _ & Hes).
  rewrite select_children_cons. destruct (Str.fnmatch pat x); [|now apply IH].
  constructor; [|now apply IH].
  intros Hin. apply in_select_children in Hin.
  destruct Hin as (y & c' & H & He & _).
  apply snoc_inj in H. subst y. now apply in_find_entry in He.
Qed.

Lemma listing_NoDup (pat : string) (n : node) :
  forall d, wf n = true ->
    NoDup (flat_map (select_children pat) (iterate_directories d n)).
Proof.
  induction n as [c|es IH] using node_rect'; intros d Hw; [constructor|].
  rewrite listing_dir. apply NoDup_app.
  - now apply select_children_NoDup.
  - revert Hw. induction es as [|[x c] es IHes]; intros Hw; [constructor|].
    apply wf_cons_iff in Hw. destruct Hw as (Hn & Hc & Hes).
    inversion IH as [|? ? IHc IHrest]; subst.
    cbn [flat_map fst snd] in *. apply NoDup_app.
    + now apply IHc.
    + now apply IHes.
    + intros q Hq1 Hq2. apply in_flat_map in Hq2.
      destruct Hq2 as ([y c'] & He & Hq2). cbn [fst snd] in Hq2.
      apply in_listing in Hq1, Hq2.
      destruct Hq1 as (r1 & z1 & ->), Hq2 as (r2 & z2 & H).
      rewrite <- !app_assoc in H. apply app_inv_head in H. inversion H. subst y.
      now apply in_find_entry in He.
  - intros q Hq1 Hq2. apply in_select_children in Hq1.
    destruct Hq1 as (x & c & -> & _). apply in_flat_map in Hq2.
    destruct Hq2 as ([y c'] & He & Hq2). cbn [fst snd] in Hq2.
    apply in_listing in Hq2. destruct Hq2 as (r & z & H).
    rewrite <- app_assoc in H. apply app_inv_head in H. inversion H.
    destruct r; discriminate.
Qed.

Lemma rglob_NoDup (pat : string) (d : path) (fs : node) :
  wf fs = true -> NoDup (rglob pat d fs).
Proof.
  intros Hw. unfold rglob.
  destruct (lookup d fs) as [[c|es]|] eqn:E; try constructor.
  apply listing_NoDup. now apply (wf_lookup d fs).
Qed.

Lemma lookup_delete_below (p : path) (y : string) (r : path) :
  forall fs,
    lookup p (delete (p ++ y :: r) fs) = option_map (delete (y :: r)) (lookup p fs).
Proof.
  induction p as [|x p IH]; intros fs; [reflexivity|].
  destruct fs as [c|es]; [reflexivity|].
  cbn [app]. destruct (p ++ y :: r) as [|z t] eqn:E; [destruct p; discriminate|].
  change (lookup (x :: p) (delete (x :: z :: t) (Dir es)))
    with (match find_entry x (map_entry x (delete (z :: t)) es) with
          | Some c => lookup p c | None => None end).
  rewrite find_entry_map, String.eqb_refl. cbn [lookup].
  destruct (find_entry x es) as [c|]; [apply IH | reflexivity].
Qed.

Lemma rglob_delete (pat : string) (d : path) (y : string) (r : path) (fs : node)
    (data : string) :
  wf fs = true -> stat (d ++ y :: r) fs = Some (KFile data) ->
  rglob pat d (delete (d ++ y :: r) fs)
  = filter (fun q => negb (path_eqb q (d ++ y :: r))) (rglob pat d fs).
Proof.
  intros Hw Hs. unfold rglob. rewrite lookup_delete_below.
  rewrite stat_app in Hs. destruct (lookup d fs) as [n|] eqn:Hd; [|discriminate].
  unfold stat in Hs.
  destruct (lookup (y :: r) n) as [[data'|?]|] eqn:Hl; try discriminate.
  destruct n as [c|es]; [discriminate|]. cbn [option_map].
  pose proof (listing_delete pat r y (Dir es) d data' (wf_lookup d fs _ Hw Hd) Hl) as H.
  destruct (delete (y :: r) (Dir es)) as [c|es'] eqn:E; [destruct r; discriminate|].
  exact H.
Qed.

(** A moved regular file leaves the listing of [docs/]; whatever else was
    listed still is, in the same order. *)
Lemma rglob_move_file (pat : string) (y : string) (r : path) (fs fs' : node)
    (cat : string) (target : path) (data : string) :
  wf fs = true -> stat (docs_dir ++ y :: r) fs = Some (KFile data) ->
  move_file new_panda_core docs_dir (docs_dir ++ y :: r) fs = Moved fs' cat target ->
  rglob pat docs_dir fs'
  = filter (fun q => negb (path_eqb q (docs_dir ++ y :: r))) (rglob pat docs_dir fs).
Proof.
  intros Hw Hs H. unfold move_file in H.
  destruct (map_file_to_category (docs_dir ++ y :: r) docs_dir) as [cat'|];
    [|discriminate].
  destruct (mkdir_p (new_panda_core ++ [cat']) fs) as [e|fs1] eqn:Hm; [discriminate|].
  destruct (resolve_target_file_spec (new_panda_core ++ [cat']) (docs_dir ++ y :: r) fs1)
    as (t & nm & Ht & -> & Hfree).
  rewrite Ht in H. rewrite shutil_move_fresh in H by assumption.
  destruct (os_rename (docs_dir ++ y :: r) ((new_panda_core ++ [cat']) ++ [nm]) fs1)
    as [e|fs2] eqn:Hr; [discriminate|].
  injection H as <- _ _.
  destruct (os_rename_fresh_eq _ _ _ _ Hfree Hr) as (s & _ & _ & _ & _ & ->).
  assert (Hw1 : wf fs1 = true) by apply (wf_mkdir_parents _ _ _ _ Hw Hm).
  assert (Hs1 : stat (docs_dir ++ y :: r) fs1 = Some (KFile data))
    by now apply (mkdir_p_inr _ _ _ Hm).
  rewrite (rglob_lookup pat docs_dir (delete (docs_dir ++ y :: r) fs1))
    by (apply lookup_insert_disjoint; reflexivity).
  rewrite (rglob_delete pat docs_dir y r fs1 data Hw1 Hs1). f_equal.
  apply rglob_lookup.
  apply (lookup_mkdir_p_disjoint "╠═══ PANDA_CORE ═══╣" [cat'] docs_dir fs fs1 Hm).
  reflexivity.
Qed.

(** *** The loop, from where it stopped *)

Lemma consolidate_counters (panda_core docs : path) (all_files : list path) :
  forall fs m e m' e',
    option_map c_fs (consolidate panda_core docs all_files fs m e)
    = option_map c_fs (consolidate panda_core docs all_files fs m' e').
Proof.
  induction all_files as [|f rest IH]; intros fs m e m' e'; [reflexivity|].
  cbn [consolidate].
  destruct (move_file panda_core docs f fs) as [fs' cat target|fs' x|]; [| |reflexivity].
  - specialize (IH fs' (S m) e (S m') e').
    destruct (consolidate panda_core docs rest fs' (S m) e),
             (consolidate panda_core docs rest fs' (S m') e'); simpl in *; congruence.
  - specialize (IH fs' m (S e) m' (S e')).
    destruct (consolidate panda_core docs rest fs' m (S e)),
             (consolidate panda_core docs rest fs' m' (S e')); simpl in *; congruence.
Qed.

(** The loop over a list is the loop over its first part, then over the
    rest from the tree reached. *)
Lemma consolidate_app (panda_core docs : path) (l1 : list path) :
  forall l2 fs m e r1,
    consolidate panda_core docs l1 fs m e = Some r1 ->
    option_map c_fs (consolidate panda_core docs (l1 ++ l2) fs m e)
    = option_map c_fs (consolidate panda_core docs l2 (c_fs r1) 0 0).
Proof.
  induction l1 as [|f l1 IH]; intros l2 fs m e r1 H.
  - cbn [consolidate] in H. injection H as <-. cbn [app c_fs].
    apply consolidate_counters.
  - cbn [consolidate app] in *.
    destruct (move_file panda_core docs f fs) as [fs' cat target|fs' x|]; [| |discriminate].
    + destruct (consolidate panda_core docs l1 fs' (S m) e) as [r'|] eqn:Hr;
        [|discriminate].
      injection H as <-. cbn [c_fs]. rewrite <- (IH l2 fs' (S m) e r' Hr).
      now destruct (consolidate panda_core docs (l1 ++ l2) fs' (S m) e).
    + destruct (consolidate panda_core docs l1 fs' m (S e)) as [r'|] eqn:Hr;
        [|discriminate].
      injection H as <-. cbn [c_fs]. rewrite <- (IH l2 fs' m (S e) r' Hr).
      now destruct (consolidate panda_core docs (l1 ++ l2) fs' m (S e)).
Qed.

Lemma candidate_shape (pat : string) (fs : node) (f : path) :
  In f (rglob pat docs_dir fs) -> exists y r, f = docs_dir ++ y :: r.
Proof.
  intros H. apply in_rglob in H. destruct H as (_ & r & x & -> & _).
  destruct r as [|y r]; [now exists x, [] | now exists y, (r ++ [x])].
Qed.

(** A blocked document stays blocked when a document is moved. *)
Lemma blocked_after_move (f g : path) (fs : node) :
  comparable new_panda_core g = false ->
  blocked new_panda_core docs_dir fs f ->
  match move_file new_panda_core docs_dir g fs with
  | Moved fs' _ _ | Raised fs' _ => blocked new_panda_core docs_dir fs' f
  | Looping => False
  end.
Proof.
  intros Hg Hb.
  pose proof (move_file_keeps new_panda_core docs_dir g fs) as Hk.
  pose proof (move_file_spec new_panda_core docs_dir g fs) as Hspec.
  destruct Hb as [Hb|(cat & q & d & Hc & Hq & Hf)].
  - destruct (move_file new_panda_core docs_dir g fs); trivial; now left.
  - specialize (Hk q (KFile d) Hf).
    destruct (move_file new_panda_core docs_dir g fs) as [fs' c t|fs' x|]; trivial.
    + right. exists cat, q, d. repeat split; trivial. apply Hk.
      now apply (comparable_prefix_of_category new_panda_core g q cat).
    + right. now exists cat, q, d.
Qed.

Lemma filter_remove_head (f : path) (pre rest : list path) :
  NoDup (pre ++ f :: rest) ->
  filter (fun q => negb (path_eqb q f)) (pre ++ f :: rest) = pre ++ rest.
Proof.
  intros Hnd. apply NoDup_remove_2 in Hnd.
  rewrite filter_app. cbn [filter]. rewrite path_eqb_refl. cbn [negb].
  rewrite !filter_id; [reflexivity| |].
  - intros a Ha. apply negb_true_iff, path_eqb_false. intros ->.
    apply Hnd, in_or_app. now right.
  - intros a Ha. apply negb_true_iff, path_eqb_false. intros ->.
    apply Hnd, in_or_app. now left.
Qed.

(** The state of the loop of step 3 after some of the documents: what
    [docs/] still lists is the documents that could not be moved, which
    are blocked, followed by the documents to come. *)
Lemma consolidate_resume (l1 : list path) :
  forall (pre l2 : list path) (fs : node) (m e : nat) (r : consolidated),
    wf fs = true ->
    rglob "*.md" docs_dir fs = pre ++ l1 ++ l2 ->
    (forall f, In f (l1 ++ l2) -> exists d, stat f fs = Some (KFile d)) ->
    (forall f, In f pre -> blocked new_panda_core docs_dir fs f) ->
    consolidate new_panda_core docs_dir l1 fs m e = Some r ->
    exists pre',
      rglob "*.md" docs_dir (c_fs r) = pre' ++ l2
      /\ (forall f, In f pre' -> blocked new_panda_core docs_dir (c_fs r) f).
Proof.
  induction l1 as [|f l1 IH]; intros pre l2 fs m e r Hw Hg Hfiles Hpre H.
  - cbn [consolidate] in H. injection H as <-. now exists pre.
  - assert (Hin : In f (rglob "*.md" docs_dir fs))
      by (rewrite Hg; apply in_or_app; right; now left).
    destruct (candidate_shape _ _ _ Hin) as (y & t & Hf).
    pose proof (candidate_not_comparable _ _ _ Hin) as Hcmp.
    destruct (Hfiles f (or_introl eq_refl)) as [data Hdata].
    pose proof (rglob_NoDup "*.md" docs_dir fs Hw) as Hnd. rewrite Hg in Hnd.
    cbn [consolidate] in H.
    pose proof (move_file_spec new_panda_core docs_dir f fs) as Hspec.
    pose proof (wf_move_file new_panda_core docs_dir f fs Hw) as Hw'.
    pose proof (fun g Hb => blocked_after_move g f fs Hcmp Hb) as Hstay.
    pose proof (move_file_keeps new_panda_core docs_dir f fs) as Hkeep.
    pose proof (fun fs' cat target =>
                  rglob_move_file "*.md" y t fs fs' cat target data Hw) as Hlist.
    rewrite <- Hf in Hlist. specialize (Hlist).
    destruct (move_file new_panda_core docs_dir f fs) as [fs' cat target|fs' x|];
      [| |discriminate].
    + destruct (consolidate new_panda_core docs_dir l1 fs' (S m) e) as [r'|] eqn:Hr;
        [|discriminate].
      injection H as <-. cbn [c_fs].
      apply (IH pre l2 fs' (S m) e r' Hw'); trivial.
      * rewrite (Hlist fs' cat target Hdata eq_refl), Hg.
        now apply filter_remove_head.
      * intros g Hgin. destruct (Hfiles g (or_intror Hgin)) as [d Hd].
        exists d. apply (Hkeep g (KFile d) Hd).
        destruct (is_prefix f g) eqn:E; [|reflexivity]. exfalso.
        apply is_prefix_iff in E. destruct E as [s ->].
        destruct s as [|z s].
        -- rewrite app_nil_r in Hgin. apply NoDup_remove_2 in Hnd.
           apply Hnd, in_or_app. now right.
        -- rewrite (stat_file_below f (z :: s) fs data Hdata) in Hd; discriminate.
      * intros g Hgin. now apply Hstay, Hpre.
    + destruct (consolidate new_panda_core docs_dir l1 fs' m (S e)) as [r'|] eqn:Hr;
        [|discriminate].
      injection H as <-. cbn [c_fs].
      assert (Hsame : fs' = fs /\ blocked new_panda_core docs_dir fs f).
      { destruct Hspec as [[-> [Hc|(cat & Hc & Hm)]]|(cat & Hc & Hm & Hwhy)].
        - split; [reflexivity | now left].
        - split; [reflexivity|]. destruct (mkdir_p_inl _ _ _ Hm) as (q & d & Hq & Hd).
          right. now exists cat, q, d.
        - exfalso. unfold comparable in Hcmp. apply orb_false_iff in Hcmp.
          destruct Hcmp as [Hc1 Hc2]. destruct Hwhy as [Hn|[Hp| ->]].
          + rewrite (proj1 (mkdir_p_inr _ _ _ Hm) _ _ Hdata) in Hn. discriminate.
          + congruence.
          + now rewrite is_prefix_app in Hc1. }
      destruct Hsame as [-> Hb].
      apply (IH (pre ++ [f]) l2 fs m (S e) r' Hw); trivial.
      * rewrite Hg, <- app_assoc. reflexivity.
      * intros g Hgin. apply Hfiles. now right.
      * intros g Hgin. apply in_app_or in Hgin.
        destruct Hgin as [Hgin|[<-|[]]]; [now apply Hpre | exact Hb].
Qed.

Lemma skipn_candidates (k : nat) (fs fs' : node) (pre : list path) (m e : nat) :
  rglob "*.md" docs_dir fs' = pre ++ skipn k (rglob "*.md" docs_dir fs) ->
  (forall f, In f pre -> blocked new_panda_core docs_dir fs' f) ->
  option_map c_fs (consolidate new_panda_core docs_dir (rglob "*.md" docs_dir fs') fs' m e)
  = option_map c_fs
      (consolidate new_panda_core docs_dir (skipn k (rglob "*.md" docs_dir fs)) fs' 0 0).
Proof.
  intros -> Hb.
  destruct (consolidate_blocked new_panda_core docs_dir pre fs' Hb m e)
    as (r & Hr & Hfs & _).
  rewrite (consolidate_app _ _ pre _ _ _ _ _ Hr). now rewrite Hfs.
Qed.

End ResumeFacts.

(** ** The classifier, rule by rule *)

Module ClassifierFacts.
Import FS FSFacts OpFacts.


Lemma name_map_lower (p : path) :
  PurePath.name (map Str.lower p) = Str.lower (PurePath.name p).
Proof.
  unfold PurePath.name. induction p as [|x p IH]; [reflexivity|].
  destruct p as [|y p]; [reflexivity|]. exact IH.
Qed.

Lemma parent_map_lower (p : path) :
  PurePath.parent (map Str.lower p) = map Str.lower (PurePath.parent p).
Proof.
  unfold PurePath.parent. induction p as [|x p IH]; [reflexivity|].
  destruct p as [|y p]; [reflexivity|].
  change (removelast (map Str.lower (x :: y :: p)))
    with (Str.lower x :: removelast (map Str.lower (y :: p))).
  rewrite IH. reflexivity.
Qed.

(** The classification of a path below [docs_dir] reads two strings only:
    the lower-cased name of the parent directory and the lower-cased file
    name. *)
Lemma map_file_to_category_reads (docs rel rel' : path) :
  Str.lower (PurePath.name (PurePath.parent rel))
  = Str.lower (PurePath.name (PurePath.parent rel')) ->
  Str.lower (PurePath.name rel) = Str.lower (PurePath.name rel') ->
  map_file_to_category (docs ++ rel) docs = map_file_to_category (docs ++ rel') docs.
Proof.
  intros Hd Hn. unfold map_file_to_category. rewrite !relative_to_app.
  cbv zeta. now rewrite Hd, Hn.
Qed.

Lemma subdirectory_document (docs r : path) (d name : string) :
  Str.lower d <> "." -> Str.lower d <> "" ->
  map_file_to_category (docs ++ r ++ [d; name]) docs
  = getitem SUBDIR_MAPPINGS (subdir_rule subdir_rules (Str.lower d)).
Proof.
  intros H1 H2. unfold map_file_to_category. rewrite relative_to_app. cbv zeta.
  replace (PurePath.name (PurePath.parent (r ++ [d; name]))) with d.
  2:{ change [d; name] with ([d] ++ [name]). rewrite app_assoc.
      now rewrite parent_snoc, name_snoc. }
  apply String.eqb_neq in H1, H2. rewrite H1, H2. cbn [orb].
  unfold subdir_rule, subdir_rules. cbn [getitem].
  generalize (Str.lower d). intros dn.
  repeat match goal with
         | |- context [String.eqb dn ?k] =>
             rewrite (String.eqb_sym dn k); destruct (String.eqb k dn)
         end; reflexivity.
Qed.

End ClassifierFacts.

(** ** Step 2, item by item *)

Module Step2More.
Import FS FSFacts OpFacts MoveFacts FrameFacts WfFacts Step2Facts.

Lemma comparable_below_sibling (p : path) (x y : string) (r : path) :
  x <> y -> comparable (p ++ [x]) (p ++ y :: r) = false.
Proof.
  intros H. induction p as [|z p IH].
  - unfold comparable. cbn [app is_prefix].
    destruct (String.eqb x y) eqn:E1; [apply String.eqb_eq in E1; congruence|].
    rewrite String.eqb_sym in E1. now rewrite E1.
  - cbn [app]. rewrite comparable_cons, String.eqb_refl. exact IH.
Qed.

Lemma relative_to_child (p : path) (x : string) (r : path) :
  PurePath.relative_to (p ++ x :: r) (p ++ [x]) = Some r.
Proof.
  change (x :: r) with ([x] ++ r). rewrite app_assoc. apply relative_to_app.
Qed.

(** One item of step 2, on what lies at and below its two directories. *)
Lemma rename_subdir_item (panda_core : path) (fs fs' : node) (o n : string)
    (out : list line) :
  o <> n ->
  rename_subdir panda_core fs (o, n) = (fs', out) ->
  if exists_ (panda_core ++ [o]) fs && negb (exists_ (panda_core ++ [n]) fs) then
    (forall r, stat (panda_core ++ n :: r) fs' = stat (panda_core ++ o :: r) fs)
    /\ (forall r, stat (panda_core ++ o :: r) fs' = None)
    /\ out = [RenamedSubdir o n]
  else
    fs' = fs
    /\ out = (if exists_ (panda_core ++ [n]) fs then
                if exists_ (panda_core ++ [o]) fs then [WarnAlreadyExists n]
                else [AlreadyExists n]
              else []).
Proof.
  intros Hon. unfold rename_subdir.
  destruct (exists_ (panda_core ++ [o]) fs) eqn:Eo;
    destruct (exists_ (panda_core ++ [n]) fs) eqn:En; cbn [andb negb];
    try (intros [= <- <-]; now split).
  apply exists_false in En. apply exists_true in Eo.
  assert (Hdir : is_dir (PurePath.parent (panda_core ++ [n])) fs = true).
  { rewrite parent_snoc. apply is_dir_true.
    apply (stat_below panda_core [o]); [discriminate | exact Eo]. }
  pose proof (comparable_siblings panda_core o n Hon) as Hsib.
  destruct (os_rename_ok _ _ fs Eo En (comparable_false_l _ _ Hsib) Hdir) as [fs1 Hr].
  rewrite Hr. intros [= <- <-].
  destruct (os_rename_fresh _ _ _ _ En Hr) as (_ & _ & _ & Hst).
  repeat split.
  - intros r. rewrite Hst, relative_to_child.
    change (o :: r) with ([o] ++ r). now rewrite app_assoc.
  - intros r. rewrite Hst.
    replace (PurePath.relative_to (panda_core ++ o :: r) (panda_core ++ [n]))
      with (@None path).
    + change (o :: r) with ([o] ++ r). now rewrite app_assoc, is_prefix_app.
    + symmetry. apply relative_to_none. apply comparable_false_l.
      apply comparable_below_sibling. congruence.
Qed.

Lemma not_in_item_names (x o n : string) (items : list (string * string)) :
  ~ In x (item_names items) -> In (o, n) items -> x <> o /\ x <> n.
Proof.
  intros Hx Hin. unfold item_names in Hx. split; intros ->; apply Hx, in_or_app.
  - left. now apply (in_map fst) in Hin.
  - right. now apply (in_map snd) in Hin.
Qed.

Lemma rename_subdir_renamed (panda_core : path) (fs : node) (it : string * string)
    (o n : string) :
  In (RenamedSubdir o n) (snd (rename_subdir panda_core fs it)) -> it = (o, n).
Proof.
  destruct it as [a b]. unfold rename_subdir.
  destruct (exists_ (panda_core ++ [a]) fs), (exists_ (panda_core ++ [b]) fs);
    cbn [snd]; try (intros [H|[]]; discriminate); try (intros []).
  destruct (os_rename (panda_core ++ [a]) (panda_core ++ [b]) fs);
    cbn [snd]; intros [H|[]]; [discriminate|]. now injection H as -> ->.
Qed.

Lemma step2_renamed (panda_core : path) (items : list (string * string))
    (o n : string) :
  forall fs, In (RenamedSubdir o n) (snd (step2 panda_core items fs)) ->
             In (o, n) items.
Proof.
  induction items as [|it items IH]; intros fs H; [contradiction|].
  cbn [step2] in H.
  pose proof (rename_subdir_renamed panda_core fs it o n) as H1.
  destruct (rename_subdir panda_core fs it) as [fs1 out1].
  specialize (IH fs1). destruct (step2 panda_core items fs1) as [fs2 out2].
  cbn [snd] in *. apply in_app_or in H. destruct H as [H|H]; [left | right]; auto.
Qed.

(** Step 2, on what lies at and below the two directories of one item:
    the other items do not interfere. *)
Lemma step2_item (panda_core : path) (items : list (string * string)) :
  forall fs fs' out o n,
    NoDup (item_names items) -> In (o, n) items ->
    step2 panda_core items fs = (fs', out) ->
    if exists_ (panda_core ++ [o]) fs && negb (exists_ (panda_core ++ [n]) fs) then
      (forall r, stat (panda_core ++ n :: r) fs' = stat (panda_core ++ o :: r) fs)
      /\ (forall r, stat (panda_core ++ o :: r) fs' = None)
      /\ In (RenamedSubdir o n) out
    else
      (forall r, stat (panda_core ++ n :: r) fs' = stat (panda_core ++ n :: r) fs)
      /\ (forall r, stat (panda_core ++ o :: r) fs' = stat (panda_core ++ o :: r) fs)
      /\ ~ In (RenamedSubdir o n) out
      /\ (exists_ (panda_core ++ [n]) fs = true ->
          In (if exists_ (panda_core ++ [o]) fs then WarnAlreadyExists n
              else AlreadyExists n) out).
Proof.
  induction items as [|[o' n'] items IH]; intros fs fs' out o n Hnd Hin H;
    [contradiction|].
  cbn [step2] in H.
  destruct (rename_subdir panda_core fs (o', n')) as [fs1 out1] eqn:H1.
  destruct (step2 panda_core items fs1) as [fs2 out2] eqn:H2.
  injection H as <- <-.
  unfold item_names in Hnd. simpl in Hnd.
  apply NoDup_cons_iff in Hnd. destruct Hnd as [Ho Hnd].
  pose proof (NoDup_remove_1 _ _ _ Hnd) as Hnd'.
  pose proof (NoDup_remove_2 _ _ _ Hnd) as Hn.
  fold (item_names items) in Hnd', Hn.
  assert (Hon : o' <> n').
  { intros ->. apply Ho. apply in_or_app. right. now left. }
  assert (Ho' : ~ In o' (item_names items)).
  { intros Hi. apply Ho. unfold item_names in Hi. apply in_app_or in Hi.
    apply in_or_app. destruct Hi; [now left | right; now right]. }
  destruct (step2_spec _ _ _ _ _ Hnd' H2) as (_ & F2 & _ & _).
  destruct (rename_subdir_spec _ _ _ _ _ _ Hon H1) as (_ & F1 & _ & _ & _).
  destruct Hin as [[= -> ->]|Hin].
  - assert (Hrest : forall x r, stat (panda_core ++ x :: r) fs2
                                = stat (panda_core ++ x :: r) fs1 \/ In x (item_names items)).
    { intros x r. destruct (in_dec string_dec x (item_names items)) as [Hx|Hx];
        [now right | left].
      unfold stat. rewrite F2; [reflexivity|].
      intros y Hy. apply comparable_below_sibling. congruence. }
    assert (Eo : forall r, stat (panda_core ++ o :: r) fs2 = stat (panda_core ++ o :: r) fs1)
      by (intros r; destruct (Hrest o r); [assumption | contradiction]).
    assert (En : forall r, stat (panda_core ++ n :: r) fs2 = stat (panda_core ++ n :: r) fs1)
      by (intros r; destruct (Hrest n r); [assumption | contradiction]).
    assert (Hout2 : ~ In (RenamedSubdir o n) out2).
    { intros Hi. apply Ho'. unfold item_names. apply in_or_app. left.
      apply (in_map fst items (o, n)).
      apply (step2_renamed panda_core items o n fs1). now rewrite H2. }
    pose proof (rename_subdir_item _ _ _ _ _ _ Hon H1) as Hit.
    destruct (exists_ (panda_core ++ [o]) fs && negb (exists_ (panda_core ++ [n]) fs)).
    + destruct Hit as (A & B & ->). repeat split.
      * intros r. now rewrite En.
      * intros r. now rewrite Eo.
      * now left.
    + destruct Hit as (-> & Hout). repeat split; trivial.
      * intros Hi. apply in_app_or in Hi. destruct Hi as [Hi|Hi]; [|contradiction].
        rewrite Hout in Hi.
        destruct (exists_ (panda_core ++ [n]) fs), (exists_ (panda_core ++ [o]) fs);
          try destruct Hi as [Hi|[]]; try discriminate; try contradiction.
      * intros Hex. apply in_or_app. left. rewrite Hout, Hex.
        destruct (exists_ (panda_core ++ [o]) fs); now left.
  - destruct (not_in_item_names o' o n items Ho' Hin) as [Ho1 Ho2].
    destruct (not_in_item_names n' o n items Hn Hin) as [Hn1 Hn2].
    assert (Hsame : forall x r, x = o \/ x = n ->
                      lookup (panda_core ++ x :: r) fs1 = lookup (panda_core ++ x :: r) fs).
    { intros x r Hx. apply F1; apply comparable_below_sibling;
        destruct Hx; congruence. }
    specialize (IH fs1 fs2 out2 o n Hnd' Hin H2).
    assert (Eo : exists_ (panda_core ++ [o]) fs1 = exists_ (panda_core ++ [o]) fs)
      by (unfold exists_; now rewrite (Hsame o [] (or_introl eq_refl))).
    assert (En : exists_ (panda_core ++ [n]) fs1 = exists_ (panda_core ++ [n]) fs)
      by (unfold exists_; now rewrite (Hsame n [] (or_intror eq_refl))).
    rewrite Eo, En in IH.
    assert (Hout1 : ~ In (RenamedSubdir o n) out1).
    { intros Hi.
      pose proof (rename_subdir_renamed panda_core fs (o', n') o n) as E.
      rewrite H1 in E. specialize (E Hi). congruence. }
    destruct (exists_ (panda_core ++ [o]) fs && negb (exists_ (panda_core ++ [n]) fs)).
    + destruct IH as (A & B & C). repeat split.
      * intros r. rewrite A. unfold stat. now rewrite Hsame by now left.
      * exact B.
      * apply in_or_app. now right.
    + destruct IH as (A & B & C & D). repeat split.
      * intros r. rewrite A. unfold stat. now rewrite Hsame by now right.
      * intros r. rewrite B. unfold stat. now rewrite Hsame by now left.
      * intros Hi. apply in_app_or in Hi. tauto.
      * intros Hex. apply in_or_app. right. now apply D.
Qed.

End Step2More.

(** ** Documents that nothing blocks *)

Module Step3More.
Import FS FSFacts OpFacts Conflicts MoveFacts LoopFacts FrameFacts WfFacts GlobFacts
       Step2Facts Step3Facts MainFacts StepFacts RunFacts ResumeFacts.

Lemma not_comparable_inv (p f : path) :
  comparable p f = false -> is_prefix f p = false /\ is_prefix p f = false.
Proof. unfold comparable. intros H. apply orb_false_iff in H. tauto. Qed.

Lemma not_prefix_of_child (p f : path) (x : string) :
  comparable p f = false -> is_prefix f (p ++ [x]) = false.
Proof.
  intros H. destruct (not_comparable_inv _ _ H) as [H1 H2].
  destruct (is_prefix f (p ++ [x])) eqn:E; [|reflexivity].
  apply is_prefix_snoc in E. destruct E as [E| ->]; [congruence|].
  now rewrite is_prefix_app in H2.
Qed.

(** What a move does, for a source away from the container. *)
Lemma move_file_moved (panda_core docs f : path) (fs fs' : node) (cat : string)
    (target : path) :
  comparable panda_core f = false ->
  move_file panda_core docs f fs = Moved fs' cat target ->
  map_file_to_category f docs = Some cat
  /\ PurePath.parent target = panda_core ++ [cat]
  /\ (forall x, stat (panda_core ++ [x]) fs'
                = if String.eqb x cat then Some KDir else stat (panda_core ++ [x]) fs)
  /\ (forall r, stat (target ++ r) fs' = stat (f ++ r) fs)
  /\ (forall r, stat (f ++ r) fs' = None).
Proof.
  intros Hcmp H. pose proof (move_file_spec panda_core docs f fs) as Hspec.
  rewrite H in Hspec. destruct Hspec as (Hc & fs1 & nm & Hm & -> & Hfree & _ & Hpre & Hst).
  destruct (mkdir_p_inr _ _ _ Hm) as (K1 & K2 & K3).
  assert (Hsrc : forall r, stat (f ++ r) fs1 = stat (f ++ r) fs).
  { intros r. destruct (stat (f ++ r) fs) as [k|] eqn:E; [now apply K1|].
    destruct (stat (f ++ r) fs1) eqn:E1; [|reflexivity]. exfalso.
    destruct (K2 _ E) as [_ Hp]; [congruence|].
    assert (Hf : is_prefix f (panda_core ++ [cat]) = true)
      by (apply (is_prefix_trans _ (f ++ r)); [apply is_prefix_app | exact Hp]).
    now rewrite (not_prefix_of_child _ _ cat Hcmp) in Hf. }
  split; [exact Hc|]. split; [rewrite app_assoc; apply parent_snoc|].
  split; [|split].
  - intros x. rewrite Hst.
    replace (PurePath.relative_to (panda_core ++ [x]) (panda_core ++ [cat] ++ [nm]))
      with (@None path).
    2:{ symmetry. apply relative_to_none.
        destruct (is_prefix (panda_core ++ [cat] ++ [nm]) (panda_core ++ [x])) eqn:E;
          [|reflexivity].
        apply is_prefix_length in E. rewrite !length_app in E. simpl in E. lia. }
    rewrite (not_prefix_of_child _ _ x Hcmp).
    destruct (String.eqb x cat) eqn:E.
    + apply String.eqb_eq in E. subst x. apply K3. now destruct panda_core.
    + destruct (stat (panda_core ++ [x]) fs) as [k|] eqn:Ex; [now apply K1|].
      destruct (stat (panda_core ++ [x]) fs1) eqn:E1; [|reflexivity]. exfalso.
      destruct (K2 _ Ex) as [_ Hp]; [congruence|].
      apply is_prefix_length in Hp as Hlen.
      apply is_prefix_iff in Hp. destruct Hp as [s Hs].
      rewrite <- app_assoc in Hs. apply app_inv_head in Hs.
      injection Hs as Hs _. subst x. now rewrite String.eqb_refl in E.
  - intros r. rewrite Hst. rewrite relative_to_app. apply Hsrc.
  - intros r. rewrite Hst.
    replace (PurePath.relative_to (f ++ r) (panda_core ++ [cat] ++ [nm]))
      with (@None path).
    + now rewrite is_prefix_app.
    + symmetry. apply relative_to_none.
      destruct (is_prefix (panda_core ++ [cat] ++ [nm]) (f ++ r)) eqn:E; [|reflexivity].
      exfalso. apply is_prefix_iff in E. destruct E as [s Hs].
      destruct (not_comparable_inv _ _ Hcmp) as [H1 H2].
      clear - Hs H1 H2. revert f Hs H1 H2.
      induction panda_core as [|z p IHp]; intros f Hs H1 H2; [discriminate|].
      destruct f as [|y f]; [discriminate|].
      cbn [app] in Hs. injection Hs as -> Hs. cbn [is_prefix] in H1, H2.
      rewrite String.eqb_refl in H1, H2. cbn [andb] in H1, H2.
      now apply (IHp f).
Qed.

Lemma no_file_at_in (names : list string) (fs : node) (x d : string) :
  no_file_at names fs = true -> In x names ->
  stat (new_panda_core ++ [x]) fs <> Some (KFile d).
Proof.
  unfold no_file_at. rewrite forallb_forall. intros H Hin E.
  specialize (H x Hin). rewrite E in H. discriminate.
Qed.

(** A regular file below [docs/] is moved when the container is a
    directory and no regular file is in the place of a category
    directory. *)
Lemma move_file_unblocked (f : path) (fs : node) (d : string) :
  is_dir new_panda_core fs = true -> no_file_at category_names fs = true ->
  is_prefix docs_dir f = true -> stat f fs = Some (KFile d) ->
  exists fs' cat target, move_file new_panda_core docs_dir f fs = Moved fs' cat target.
Proof.
  intros Hpc Hno Hf Hd.
  pose proof (move_file_spec new_panda_core docs_dir f fs) as Hspec.
  destruct (move_file new_panda_core docs_dir f fs) as [fs' cat target|fs' e|];
    [eauto| |contradiction].
  exfalso. apply is_prefix_iff in Hf. destruct Hf as [rel ->].
  destruct Hspec as [[-> [Hc|(cat & Hc & Hm)]]|(cat & Hc & Hm & Hwhy)].
  - destruct (map_file_to_category_some docs_dir rel) as (c & Hc' & _). congruence.
  - destruct (mkdir_p_inl _ _ _ Hm) as (q & dd & Hq & Hfile).
    apply is_prefix_snoc in Hq. destruct Hq as [Hq| ->].
    + apply is_dir_true in Hpc. apply is_prefix_iff in Hq. destruct Hq as [s Hs].
      rewrite Hs in Hpc. destruct s as [|z s].
      * rewrite app_nil_r in Hpc. congruence.
      * rewrite (stat_file_below q (z :: s) fs dd Hfile) in Hpc; discriminate.
    + apply (no_file_at_in category_names fs cat dd Hno); trivial.
      now apply (map_file_to_category_in (docs_dir ++ rel) docs_dir).
  - destruct Hwhy as [Hn|[Hp|Heq]].
    + rewrite (proj1 (mkdir_p_inr _ _ _ Hm) _ _ Hd) in Hn. discriminate.
    + discriminate.
    + discriminate.
Qed.

(** The loop over regular files below [docs/], none of them blocked:
    every one is moved. *)
Lemma consolidate_unblocked (l : list path) :
  forall fs m e,
    wf fs = true ->
    is_dir new_panda_core fs = true -> no_file_at category_names fs = true ->
    NoDup l ->
    (forall f, In f l -> is_prefix docs_dir f = true
                         /\ exists d, stat f fs = Some (KFile d)) ->
    exists r,
      consolidate new_panda_core docs_dir l fs m e = Some r
      /\ error_count r = e /\ moved_count r = m + List.length l
      /\ (forall f, In f l -> stat f (c_fs r) = None)
      /\ forallb is_moved_line (c_out r) = true.
Proof.
  induction l as [|f l IH]; intros fs m e Hw Hpc Hno Hnd Hfiles.
  - eexists. split; [reflexivity|]. cbn. repeat split; try lia; intros f [].
  - destruct (Hfiles f (or_introl eq_refl)) as [Hf [d Hd]].
    destruct (move_file_unblocked f fs d Hpc Hno Hf Hd) as (fs' & cat & target & Hmv).
    assert (Hcmp : comparable new_panda_core f = false)
      by now apply under_docs_not_comparable.
    destruct (move_file_moved _ _ _ _ _ _ _ Hcmp Hmv) as (Hc & _ & Hcat & _ & Hgone).
    pose proof (wf_move_file new_panda_core docs_dir f fs Hw) as Hw'.
    pose proof (move_file_keeps new_panda_core docs_dir f fs) as Hkeep.
    rewrite Hmv in Hw', Hkeep.
    inversion Hnd as [|? ? Hnin Hnd']. subst.
    destruct (IH fs' (S m) e Hw') as (r & Hr & He & Hm & Hnone & Hlines); trivial.
    + apply is_dir_true. apply is_dir_true in Hpc. apply (Hkeep _ _ Hpc).
      now destruct (not_comparable_inv _ _ Hcmp).
    + unfold no_file_at. apply forallb_forall. intros x Hx. rewrite Hcat.
      destruct (String.eqb x cat); [reflexivity|].
      unfold no_file_at in Hno. rewrite forallb_forall in Hno. now apply Hno.
    + intros g Hg. destruct (Hfiles g (or_intror Hg)) as [Hg1 [dg Hg2]].
      split; [exact Hg1|]. exists dg. apply (Hkeep _ _ Hg2).
      destruct (is_prefix f g) eqn:E; [|reflexivity]. exfalso.
      apply is_prefix_iff in E. destruct E as [s ->]. destruct s as [|z s].
      * rewrite app_nil_r in Hg. contradiction.
      * rewrite (stat_file_below f (z :: s) fs d Hd) in Hg2; discriminate.
    + cbn [consolidate]. rewrite Hmv, Hr. eexists. split; [reflexivity|].
      cbn [error_count moved_count c_fs c_out List.length forallb is_moved_line andb].
      repeat split; trivial; [lia|].
      intros g [<-|Hg]; [|now apply Hnone].
      destruct (stat f (c_fs r)) eqn:E; [|reflexivity]. exfalso.
      specialize (Hgone []). rewrite app_nil_r in Hgone.
      pose proof (consolidate_creates _ _ _ _ _ _ _ Hr f Hgone) as Hcr.
      rewrite Hcmp in Hcr. assert (false = true) by (apply Hcr; congruence).
      discriminate.
Qed.

End Step3More.

(** ** A run on markdown files only *)

Module RunMore.
Import FS FSFacts OpFacts Conflicts MoveFacts LoopFacts FrameFacts WfFacts GlobFacts
       PruneFacts Step2Facts Step3Facts MainFacts StepFacts RunFacts ResumeFacts
       Step2More Step3More.

Lemma candidates_are_files_in (fs : node) (f : path) :
  candidates_are_files fs = true -> In f (rglob "*.md" docs_dir fs) ->
  is_prefix docs_dir f = true /\ exists d, stat f fs = Some (KFile d).
Proof.
  unfold candidates_are_files. rewrite forallb_forall. intros H Hin.
  specialize (H f Hin). apply in_rglob in Hin. destruct Hin as (_ & r & x & -> & _).
  split; [apply is_prefix_app|].
  destruct (stat (docs_dir ++ r ++ [x]) fs) as [[d|]|]; try discriminate. now exists d.
Qed.

(** Step 3 when nothing is blocked: every candidate is moved and none is
    left below [docs/]. *)
Lemma step3_unblocked (fs : node) :
  wf fs = true ->
  is_dir new_panda_core fs = true ->
  no_file_at category_names fs = true ->
  exists_ docs_dir fs = true ->
  candidates_are_files fs = true ->
  exists r,
    consolidate new_panda_core docs_dir (rglob "*.md" docs_dir fs) fs 0 0 = Some r
    /\ step3 new_panda_core fs
       = Some (c_fs r, c_out r
                       ++ [Lit ""; Summary (List.length (rglob "*.md" docs_dir fs)) 0])
    /\ forallb is_moved_line (c_out r) = true
    /\ (forall f, In f (rglob "*.md" docs_dir fs) -> stat f (c_fs r) = None)
    /\ rglob "*.md" docs_dir (c_fs r) = [].
Proof.
  intros Hw Hpc Hno Hd Hfiles.
  destruct (consolidate_unblocked (rglob "*.md" docs_dir fs) fs 0 0 Hw Hpc Hno)
    as (r & Hr & He & Hm & Hnone & Hlines).
  { now apply rglob_NoDup. }
  { intros f Hf. now apply candidates_are_files_in. }
  exists r. split; [exact Hr|]. split; [|split; [exact Hlines|split; [exact Hnone|]]].
  - unfold step3. rewrite Hd. cbn [negb]. rewrite Hr, He, Hm. reflexivity.
  - destruct (rglob "*.md" docs_dir (c_fs r)) as [|q l] eqn:E; [reflexivity|].
    exfalso.
    assert (Hin : In q (rglob "*.md" docs_dir (c_fs r))) by (rewrite E; now left).
    pose proof (candidate_not_comparable _ _ _ Hin) as Hcmp.
    apply in_rglob in Hin. destruct Hin as (_ & r0 & x & -> & Hmd & Hex).
    specialize (Hex (wf_consolidate _ _ _ _ _ _ _ Hw Hr)).
    assert (Hq : stat (docs_dir ++ r0 ++ [x]) fs <> None).
    { intros Hn. pose proof (consolidate_creates _ _ _ _ _ _ _ Hr _ Hn Hex). congruence. }
    apply Hex, Hnone. apply rglob_complete; trivial.
    apply is_dir_true. apply (stat_below docs_dir (r0 ++ [x]));
      [destruct r0; discriminate | exact Hq].
Qed.

Lemma markdown_only_spec (fs : node) (q : path) (k : kind) :
  markdown_only fs = true ->
  strictly_under docs_dir q = true -> stat q fs = Some k ->
  (k = KDir /\ Str.fnmatch "*.md" (PurePath.name q) = false)
  \/ ((exists d, k = KFile d) /\ Str.fnmatch "*.md" (PurePath.name q) = true).
Proof.
  unfold markdown_only. rewrite forallb_forall. intros H Hq Hk.
  apply strictly_under_iff in Hq. destruct Hq as (r & x & ->).
  assert (Hin : In (docs_dir ++ r ++ [x]) (rglob "*" docs_dir fs)).
  { apply rglob_complete; [|congruence|apply fnmatch_star].
    apply is_dir_true. apply (stat_below docs_dir (r ++ [x]));
      [destruct r; discriminate | congruence]. }
  specialize (H _ Hin). rewrite is_dir_stat, Hk in H.
  destruct k as [d|], (Str.fnmatch "*.md" (PurePath.name (docs_dir ++ r ++ [x])));
    try discriminate; [right | left]; eauto.
Qed.

Lemma markdown_only_candidates (fs : node) :
  wf fs = true -> markdown_only fs = true -> candidates_are_files fs = true.
Proof.
  intros Hw H. unfold candidates_are_files. apply forallb_forall. intros f Hf.
  apply in_rglob in Hf. destruct Hf as (_ & r & x & -> & Hmd & Hex).
  specialize (Hex Hw).
  destruct (stat (docs_dir ++ r ++ [x]) fs) as [k|] eqn:E; [|congruence].
  destruct (markdown_only_spec fs (docs_dir ++ r ++ [x]) k H) as [[_ Hn]|[[d ->] _]];
    trivial.
  - apply strictly_under_iff. now exists r, x.
  - rewrite app_assoc, name_snoc in Hn. congruence.
Qed.

Lemma forallb_agree (A : Type) (f g : A -> bool) (l : list A) :
  (forall a, In a l -> f a = g a) -> forallb f l = forallb g l.
Proof.
  induction l as [|a l IH]; intros H; [reflexivity|]. cbn [forallb].
  rewrite (H a (or_introl eq_refl)), IH; [reflexivity|].
  intros b Hb. apply H. now right.
Qed.

(** Step 2 leaves what is below [docs/] as it is. *)
Lemma step2_markdown_only (fs fs2 : node) (out2 : list line) :
  step2 new_panda_core SUBDIR_MAPPINGS fs = (fs2, out2) ->
  markdown_only fs2 = markdown_only fs.
Proof.
  intros H2. unfold markdown_only.
  rewrite (rglob_lookup "*" docs_dir fs fs2)
    by (apply (step2_docs fs fs2 out2 docs_dir H2); reflexivity).
  apply forallb_agree. intros q Hq. f_equal. unfold is_dir.
  rewrite (step2_docs fs fs2 out2 q H2); [reflexivity|].
  apply in_rglob in Hq. destruct Hq as (_ & r & x & -> & _). apply is_prefix_app.
Qed.

Lemma step2_no_file_at (fs fs2 : node) (out2 : list line) :
  step2 new_panda_core SUBDIR_MAPPINGS fs = (fs2, out2) ->
  no_file_at (item_names SUBDIR_MAPPINGS) fs = true ->
  no_file_at category_names fs2 = true.
Proof.
  intros H2 Hno. unfold no_file_at. apply forallb_forall. intros n Hn.
  unfold category_names in Hn. apply in_map_iff in Hn.
  destruct Hn as ([o n'] & Hn' & Hin). cbn [snd] in Hn'. subst n'.
  pose proof (step2_item _ _ _ _ _ _ _ SUBDIR_MAPPINGS_NoDup Hin H2) as Hit.
  assert (Ho : forall d, stat (new_panda_core ++ [o]) fs <> Some (KFile d)).
  { intros d. apply (no_file_at_in _ _ _ _ Hno). unfold item_names.
    apply in_or_app. left. now apply (in_map fst) in Hin. }
  assert (Hnn : forall d, stat (new_panda_core ++ [n]) fs <> Some (KFile d)).
  { intros d. apply (no_file_at_in _ _ _ _ Hno). unfold item_names.
    apply in_or_app. right. now apply (in_map snd) in Hin. }
  destruct (exists_ (new_panda_core ++ [o]) fs && negb (exists_ (new_panda_core ++ [n]) fs)).
  - destruct Hit as (A & _). rewrite (A []).
    destruct (stat (new_panda_core ++ [o]) fs) as [[d|]|] eqn:E; trivial.
    now destruct (Ho d).
  - destruct Hit as (A & _). rewrite (A []).
    destruct (stat (new_panda_core ++ [n]) fs) as [[d|]|] eqn:E; trivial.
    now destruct (Hnn d).
Qed.

End RunMore.

(** ** Counting in steps 4 and 5 *)

Module PruneMore.
Import FS FSFacts OpFacts WfFacts GlobFacts PruneFacts StepFacts RunFacts ResumeFacts.

Lemma prune_only_removes (l : list path) :
  forall fs n q k,
    (forall p, In p l -> p <> []) ->
    stat q (fst (fst (prune l fs n))) = Some k -> stat q fs = Some k.
Proof.
  induction l as [|p rest IH]; intros fs n q k Hne H; [exact H|].
  assert (Hp : p <> []) by (apply Hne; now left).
  assert (Hne' : forall p0, In p0 rest -> p0 <> []) by (intros p0 H0; apply Hne; now right).
  rewrite (prune_cons p rest fs n Hp) in H.
  destruct (lookup p fs) as [[c|[|e es]]|] eqn:Hl; try (now apply (IH fs n)).
  destruct (prune rest (delete p fs) (S n)) as [[fs1 n1] out1] eqn:Hr.
  cbn [fst] in H.
  assert (H' : stat q (fst (fst (prune rest (delete p fs) (S n)))) = Some k)
    by now rewrite Hr.
  apply IH in H'; trivial. rewrite (stat_delete_empty p q fs Hp Hl) in H'.
  now destruct (path_eqb p q).
Qed.

Lemma prune_keeps_unlisted (l : list path) :
  forall fs n q k,
    (forall p, In p l -> p <> []) -> ~ In q l ->
    stat q fs = Some k -> stat q (fst (fst (prune l fs n))) = Some k.
Proof.
  induction l as [|p rest IH]; intros fs n q k Hne Hq H; [exact H|].
  assert (Hp : p <> []) by (apply Hne; now left).
  assert (Hne' : forall p0, In p0 rest -> p0 <> []) by (intros p0 H0; apply Hne; now right).
  assert (Hq' : ~ In q rest) by (intros Hi; apply Hq; now right).
  rewrite (prune_cons p rest fs n Hp).
  destruct (lookup p fs) as [[c|[|e es]]|] eqn:Hl; try (now apply IH).
  specialize (IH (delete p fs) (S n) q k Hne' Hq').
  destruct (prune rest (delete p fs) (S n)) as [[fs1 n1] out1].
  cbn [fst] in *. apply IH. rewrite (stat_delete_empty p q fs Hp Hl).
  rewrite path_eqb_false; [exact H|]. intros ->. apply Hq. now left.
Qed.

(** The counter of the loop of step 4 counts the listed directories that
    are gone at the end, and so do the lines it prints. *)
Lemma prune_count (l : list path) :
  forall fs n fs' n' out,
    NoDup l -> (forall p, In p l -> p <> []) ->
    prune l fs n = (fs', n', out) ->
    n' = n + List.length (filter (fun p => is_dir p fs && negb (exists_ p fs')) l)
    /\ n' = n + List.length (filter is_removed_line out).
Proof.
  induction l as [|p rest IH]; intros fs n fs' n' out Hnd Hne H.
  - cbn [prune] in H. injection H as <- <- <-. cbn. lia.
  - assert (Hp : p <> []) by (apply Hne; now left).
    assert (Hne' : forall p0, In p0 rest -> p0 <> [])
      by (intros p0 H0; apply Hne; now right).
    inversion Hnd as [|? ? Hnin Hnd']. subst.
    rewrite (prune_cons p rest fs n Hp) in H. cbn [filter].
    assert (Hskip : lookup p fs <> Some (Dir []) ->
                    prune rest fs n = (fs', n', out) ->
                    is_dir p fs && negb (exists_ p fs') = false).
    { intros Hl Hr. unfold is_dir.
      destruct (lookup p fs) as [[c|[|e es]]|] eqn:E; try reflexivity; [congruence|].
      assert (Hs : stat p fs' = Some KDir).
      { pose proof (prune_keeps_unlisted rest fs n p KDir Hne' Hnin) as Hk.
        rewrite Hr in Hk. apply Hk. unfold stat. now rewrite E. }
      rewrite exists_stat, Hs. reflexivity. }
    destruct (lookup p fs) as [[c|[|e es]]|] eqn:Hl;
      try (rewrite (Hskip ltac:(congruence) H); now apply IH).
    destruct (prune rest (delete p fs) (S n)) as [[fs1 n1] out1] eqn:Hr.
    injection H as <- <- <-.
    destruct (IH _ _ _ _ _ Hnd' Hne' Hr) as [E1 E2].
    assert (Hgone : exists_ p fs1 = false).
    { apply exists_false. destruct (stat p fs1) as [k|] eqn:E; [|reflexivity].
      pose proof (prune_only_removes rest (delete p fs) (S n) p k Hne') as Ho.
      rewrite Hr in Ho. specialize (Ho E).
      rewrite (stat_delete_empty p p fs Hp Hl), path_eqb_refl in Ho. discriminate. }
    unfold is_dir at 1. rewrite Hl, Hgone. cbn [andb negb List.length filter is_removed_line].
    split; [|lia].
    rewrite E1. rewrite <- Nat.add_succ_comm. f_equal. f_equal.
    apply filter_ext_in. intros q Hq. f_equal.
    rewrite !is_dir_stat, (stat_delete_empty p q fs Hp Hl).
    rewrite path_eqb_false; [reflexivity|]. intros ->. contradiction.
Qed.

Lemma filter_length_perm (A : Type) (f : A -> bool) (l l' : list A) :
  Permutation l l' -> List.length (filter f l) = List.length (filter f l').
Proof.
  induction 1 as [|x l l' _ IH|x y l|l l' l'' _ IH1 _ IH2]; cbn [filter].
  - reflexivity.
  - destruct (f x); cbn [List.length]; now rewrite IH.
  - destruct (f x), (f y); reflexivity.
  - now rewrite IH1.
Qed.

(** What step 4 leaves of a path. *)
Lemma step4_stat (fs : node) (q : path) :
  wf fs = true ->
  stat q (fst (step4 fs))
  = if strictly_under docs_dir q && transitively_empty q fs then None else stat q fs.
Proof.
  intros Hw. destruct (step4_spec fs) as (R1 & R2 & R3 & _).
  unfold transitively_empty.
  destruct (strictly_under docs_dir q && (is_dir q fs && negb (has_file_at q fs))) eqn:E.
  - apply andb_prop in E. destruct E as [Hu E]. apply andb_prop in E.
    destruct E as [Hd Hf]. apply negb_true_iff in Hf.
    destruct (stat q (fst (step4 fs))) as [k|] eqn:Hq; [|reflexivity].
    exfalso. pose proof (R3 _ _ Hq) as Hq0.
    apply is_dir_true in Hd. rewrite Hd in Hq0. injection Hq0 as <-.
    apply is_dir_true in Hq. destruct (R2 q Hu Hq) as (r & d & Hfile).
    apply R3 in Hfile.
    assert (Hb : has_file_at q fs = true)
      by (apply (has_file_at_iff q fs Hw); now exists r, d).
    congruence.
  - destruct (R1 q) as [->|(_ & Hu & Hd & Hf)]; [reflexivity|].
    rewrite Hu, Hd in E. cbn [andb] in E. apply negb_false_iff in E.
    exfalso. apply Hf. now apply (has_file_at_iff q fs Hw).
Qed.

Lemma entries_below_dir (es : entries_t) :
  entries_below (Dir es)
  = List.length es + list_sum (map (fun e => entries_below (snd e)) es).
Proof.
  cbn [entries_below]. induction es as [|[x c] es IH]; [reflexivity|].
  unfold list_sum in *. rewrite IH. cbn [List.length map fold_right snd]. lia.
Qed.

Lemma listing_star_length (n : node) :
  forall d, List.length (flat_map (select_children "*") (iterate_directories d n))
            = entries_below n.
Proof.
  induction n as [c|es IH] using node_rect'; intros d; [reflexivity|].
  rewrite listing_dir, entries_below_dir, length_app. f_equal.
  - unfold select_children. cbn [fst snd]. rewrite length_map.
    rewrite filter_id; [reflexivity|]. intros e _. apply fnmatch_star.
  - induction es as [|[x c] es IHes]; [reflexivity|].
    inversion IH as [|? ? IHc IHrest]. subst.
    cbn [flat_map map list_sum fold_right fst snd]. rewrite length_app, IHc.
    f_equal. now apply IHes.
Qed.

End PruneMore.

(** ** The lines of step 3 and the passes they report *)

Module Accounting.

Import FS FSFacts OpFacts MoveFacts LoopFacts Step3More.


Lemma move_file_raises (panda_core docs f : path) (fs fs' : node) (e : exn) :
  move_file panda_core docs f fs = Raised fs' e ->
  raises panda_core docs f fs e fs'.
Proof.
  unfold move_file.
  destruct (map_file_to_category f docs) as [cat|] eqn:Hc.
  - destruct (mkdir_p (panda_core ++ [cat]) fs) as [e1|fs1] eqn:Hm.
    + intros H. injection H as <- <-. now apply (raises_mkdir _ _ _ _ _ _ cat).
    + destruct (resolve_target_file (panda_core ++ [cat]) f fs1) as [t|] eqn:Ht;
        [|discriminate].
      destruct (shutil_move f t fs1) as [e2|fs2] eqn:Hs; [|discriminate].
      intros H. injection H as <- <-. now apply (raises_move _ _ _ _ _ _ cat t).
  - intros H. injection H as <- <-. now apply raises_classifier.
Qed.

Lemma move_file_reports (panda_core docs f : path) (fs : node) :
  comparable panda_core f = false ->
  match move_file panda_core docs f fs with
  | Moved fs' cat _ => reports panda_core docs f fs fs' (MovedLine (PurePath.name f) cat)
  | Raised fs' e => reports panda_core docs f fs fs' (ErrMoving (PurePath.name f) e)
  | Looping => False
  end.
Proof.
  intros Hcmp.
  pose proof (move_file_spec panda_core docs f fs) as Hspec.
  pose proof (move_file_keeps panda_core docs f fs) as Hkeep.
  destruct (move_file panda_core docs f fs) as [fs' cat target|fs' e|] eqn:H;
    [| |exact Hspec].
  - destruct (move_file_moved _ _ _ _ _ _ _ Hcmp H) as (A & B & _ & D & E).
    destruct Hspec as (_ & fs1 & nm & Hm & -> & Hfree & Hsrc & _ & Hst).
    cbn [reports]. split; [reflexivity|]. exists (panda_core ++ [cat] ++ [nm]).
    split; [exact H|]. split; [exact A|]. split; [exact B|].
    split; [|split; [|split; [exact D | exact E]]].
    + apply exists_false.
      destruct (stat (panda_core ++ [cat] ++ [nm]) fs) eqn:E0; [|reflexivity].
      apply (mkdir_p_inr _ _ _ Hm) in E0. congruence.
    + apply exists_true. specialize (D []). rewrite !app_nil_r in D. rewrite <- D.
      assert (Hr : PurePath.relative_to ((panda_core ++ [cat] ++ [nm]) ++ [])
                     (panda_core ++ [cat] ++ [nm]) = Some [])
        by apply relative_to_app.
      rewrite app_nil_r in Hr. rewrite Hst, Hr. now rewrite app_nil_r.
  - cbn [reports]. split; [reflexivity|]. split; [exact H|].
    split; [now apply move_file_raises|].
    intros q k Hq. now apply (Hkeep q k Hq).
Qed.

Lemma consolidate_accounted (panda_core docs : path) (all_files : list path) :
  (forall f, In f all_files -> comparable panda_core f = false) ->
  forall fs moved errors r,
    consolidate panda_core docs all_files fs moved errors = Some r ->
    accounted panda_core docs all_files fs (c_out r) (c_fs r).
Proof.
  induction all_files as [|f rest IH]; intros Hcmp fs moved errors r H.
  - injection H as <-. constructor.
  - cbn [consolidate] in H.
    pose proof (move_file_reports panda_core docs f fs (Hcmp f (or_introl eq_refl)))
      as Hrep.
    destruct (move_file panda_core docs f fs) as [fs' cat target|fs' e|];
      [| |discriminate].
    + destruct (consolidate panda_core docs rest fs' (S moved) errors) as [r'|] eqn:Hr;
        [|discriminate].
      injection H as <-. cbn [c_out c_fs].
      apply (accounted_cons _ _ _ _ _ fs'); [exact Hrep|].
      apply (IH (fun g Hg => Hcmp g (or_intror Hg)) _ _ _ _ Hr).
    + destruct (consolidate panda_core docs rest fs' moved (S errors)) as [r'|] eqn:Hr;
        [|discriminate].
      injection H as <-. cbn [c_out c_fs].
      apply (accounted_cons _ _ _ _ _ fs'); [exact Hrep|].
      apply (IH (fun g Hg => Hcmp g (or_intror Hg)) _ _ _ _ Hr).
Qed.

End Accounting.

(** ** A run cut short, and started again *)

Module PartialRuns.

Import FS FSFacts OpFacts Conflicts MoveFacts LoopFacts FrameFacts WfFacts
       GlobFacts PruneFacts Step2Facts Step3Facts MainFacts StepFacts DocFacts RunFacts
       ResumeFacts PruneMore.

(** *** Cut in step 2 *)

Lemma step2_app (panda_core : path) (l1 l2 : list (string * string)) :
  forall fs,
    fst (step2 panda_core (l1 ++ l2) fs)
    = fst (step2 panda_core l2 (fst (step2 panda_core l1 fs))).
Proof.
  induction l1 as [|it l1 IH]; intros fs; [reflexivity|].
  cbn [app step2].
  destruct (rename_subdir panda_core fs it) as [fs1 out1].
  specialize (IH fs1).
  destruct (step2 panda_core (l1 ++ l2) fs1) as [fsa outa].
  destruct (step2 panda_core l1 fs1) as [fsb outb]. exact IH.
Qed.

Lemma item_names_app (l1 l2 : list (string * string)) :
  Permutation (item_names (l1 ++ l2)) (item_names l1 ++ item_names l2).
Proof.
  unfold item_names. rewrite !map_app, <- !app_assoc.
  apply Permutation_app_head. rewrite !app_assoc.
  apply Permutation_app_tail. apply Permutation_app_comm.
Qed.

Lemma item_names_firstn (j : nat) (items : list (string * string)) :
  NoDup (item_names items) -> NoDup (item_names (firstn j items)).
Proof.
  intros H. rewrite <- (firstn_skipn j items) in H.
  apply (Permutation_NoDup (item_names_app _ _)) in H.
  now apply NoDup_app_remove_r in H.
Qed.

(** The whole of step 2, run on the tree its first items left, ends in
    the tree the whole of step 2 ends in. *)
Lemma step2_resumed (panda_core : path) (j : nat) (items : list (string * string))
    (fs : node) :
  NoDup (item_names items) ->
  (forall it, In it items -> fst it <> snd it) ->
  fst (step2 panda_core items (fst (step2 panda_core (firstn j items) fs)))
  = fst (step2 panda_core items fs).
Proof.
  intros Hnd Hne.
  rewrite <- (firstn_skipn j items) at 1 3.
  rewrite !step2_app.
  rewrite (step2_settled panda_core (firstn j items)
             (fst (step2 panda_core (firstn j items) fs))); [reflexivity| |].
  - destruct (step2 panda_core (firstn j items) fs) as [fs1 out1] eqn:H.
    apply (step2_spec _ _ _ _ _ (item_names_firstn j items Hnd) H).
  - intros it Hin. apply Hne. now apply in_firstn in Hin.
Qed.

(** An item of step 2 leaves a regular file where it is, unless the
    file lies in the legacy directory of the item. *)
Lemma rename_subdir_keeps_file (panda_core : path) (fs : node) (o n : string)
    (q : path) (d : string) :
  stat q fs = Some (KFile d) ->
  is_prefix (panda_core ++ [o]) q = false ->
  stat q (fst (rename_subdir panda_core fs (o, n))) = Some (KFile d).
Proof.
  intros Hq Ho. unfold rename_subdir.
  destruct (exists_ (panda_core ++ [o]) fs) eqn:Eo.
  - destruct (exists_ (panda_core ++ [n]) fs) eqn:En; [exact Hq|].
    destruct (os_rename (panda_core ++ [o]) (panda_core ++ [n]) fs) as [e|fs1] eqn:Hr;
      [exact Hq|].
    cbn [fst]. apply exists_false in En.
    destruct (os_rename_fresh _ _ _ _ En Hr) as (_ & _ & _ & Hst).
    rewrite Hst, Ho.
    destruct (PurePath.relative_to q (panda_core ++ [n])) as [r|] eqn:E; [|exact Hq].
    exfalso. apply relative_to_inv in E. subst q.
    destruct r as [|z r].
    + rewrite app_nil_r in Hq. congruence.
    + assert (H : stat (panda_core ++ [n]) fs = Some KDir)
        by (apply (stat_below _ (z :: r)); [discriminate | congruence]).
      congruence.
  - destruct (exists_ (panda_core ++ [n]) fs); exact Hq.
Qed.

(** *** The run, from the tree of step 2 on *)

Lemma main_tree (fs : node) :
  exists_ new_panda_core fs = true ->
  option_map fst (main fs)
  = option_map (fun x => fst (step5 (fst (step4 (fst x)))))
      (step3 new_panda_core (fst (step2 new_panda_core SUBDIR_MAPPINGS fs))).
Proof.
  intros Hc.
  destruct (main_present fs Hc)
    as (fs2 & out2 & fs3 & out3 & fs4 & out4 & fs5 & out5 & H2 & H3 & H4 & H5 & Hm).
  rewrite Hm, H2. cbn [fst]. rewrite H3. cbn [option_map fst].
  rewrite H4. cbn [fst]. now rewrite H5.
Qed.

Lemma step2_container (items : list (string * string)) (fs : node) :
  NoDup (item_names items) ->
  exists_ new_panda_core (fst (step2 new_panda_core items fs))
  = exists_ new_panda_core fs.
Proof.
  intros Hnd. destruct (step2 new_panda_core items fs) as [fs2 out2] eqn:H2.
  destruct (step2_spec _ _ _ _ _ Hnd H2) as (_ & _ & P2 & _).
  cbn [fst]. rewrite !exists_stat. now rewrite (P2 new_panda_core (is_prefix_refl _)).
Qed.

(** From the tree of step 2 on, a regular file outside [docs/] stays
    where it is. *)
Lemma steps345_keep_outside (fs2 fs3 : node) (out3 : list line) (q : path) (d : string) :
  step3 new_panda_core fs2 = Some (fs3, out3) ->
  is_prefix docs_dir q = false ->
  stat q fs2 = Some (KFile d) ->
  stat q (fst (step5 (fst (step4 fs3)))) = Some (KFile d).
Proof.
  intros H3 Hq Hf. rewrite outside_docs_steps45 by assumption.
  apply (step3_keeps _ _ _ _ H3 _ _ Hf).
  intros f Hin. now apply (candidate_not_prefix "*.md" fs2).
Qed.


(** *** Cut in step 3 *)

Lemma mkdir_parents_idem (todo : path) :
  forall done fs fs',
    mkdir_parents done todo fs = inr fs' -> mkdir_parents done todo fs' = inr fs'.
Proof.
  induction todo as [|x todo IH]; intros done fs fs' H; [reflexivity|].
  cbn [mkdir_parents] in *.
  assert (Hdir : forall fs1, stat (done ++ [x]) fs1 = Some KDir ->
                   mkdir_parents (done ++ [x]) todo fs1 = inr fs' ->
                   exists es, lookup (done ++ [x]) fs' = Some (Dir es)).
  { intros fs1 Hs Hm. apply mkdir_parents_inr in Hm. destruct Hm as (K1 & _).
    apply K1 in Hs. unfold stat in Hs.
    destruct (lookup (done ++ [x]) fs') as [[d|es]|]; try discriminate. now exists es. }
  destruct (lookup (done ++ [x]) fs) as [[d|es]|] eqn:Hl; try discriminate.
  - destruct (Hdir fs) as [es' ->]; [unfold stat; now rewrite Hl | exact H|].
    now apply (IH _ fs).
  - destruct (os_mkdir (done ++ [x]) fs) as [e|fs1] eqn:Hm; [discriminate|].
    destruct (os_mkdir_inr _ _ _ Hm) as (_ & _ & Hst).
    destruct (Hdir fs1) as [es' ->]; [|exact H|now apply (IH _ fs1)].
    rewrite Hst. now rewrite path_eqb_refl.
Qed.

Lemma mkdir_p_idem (p : path) (fs fs' : node) :
  mkdir_p p fs = inr fs' -> mkdir_p p fs' = inr fs'.
Proof. apply mkdir_parents_idem. Qed.

(** Once the category directory is made, the pass goes as it would have
    gone. *)
Lemma move_file_make_target_dir (panda_core docs f : path) (fs : node) :
  move_file panda_core docs f (make_target_dir panda_core docs f fs)
  = move_file panda_core docs f fs.
Proof.
  unfold make_target_dir, move_file.
  destruct (map_file_to_category f docs) as [cat|]; [|reflexivity].
  destruct (mkdir_p (panda_core ++ [cat]) fs) as [e|fs1] eqn:Hm.
  - now rewrite Hm.
  - now rewrite (mkdir_p_idem _ _ _ Hm).
Qed.

Lemma consolidate_make_target_dir (panda_core docs f : path) (rest : list path)
    (fs : node) (m e : nat) :
  consolidate panda_core docs (f :: rest) (make_target_dir panda_core docs f fs) m e
  = consolidate panda_core docs (f :: rest) fs m e.
Proof. cbn [consolidate]. now rewrite move_file_make_target_dir. Qed.

(** What [make_target_dir] changes: nothing that existed, nothing below
    [docs/], and nothing of what step 2 has done. *)
Lemma make_target_dir_spec (f : path) (fs : node) :
  (forall q k, stat q fs = Some k ->
               stat q (make_target_dir new_panda_core docs_dir f fs) = Some k)
  /\ lookup docs_dir (make_target_dir new_panda_core docs_dir f fs) = lookup docs_dir fs
  /\ (wf fs = true ->
      wf (make_target_dir new_panda_core docs_dir f fs) = true
      /\ Permutation (documents (make_target_dir new_panda_core docs_dir f fs))
                     (documents fs))
  /\ (forall it, In it SUBDIR_MAPPINGS -> settled new_panda_core fs it ->
                 settled new_panda_core (make_target_dir new_panda_core docs_dir f fs) it).
Proof.
  unfold make_target_dir.
  destruct (map_file_to_category f docs_dir) as [cat|] eqn:Hc;
    [|repeat split; auto].
  destruct (mkdir_p (new_panda_core ++ [cat]) fs) as [e|fs1] eqn:Hm;
    [repeat split; auto|].
  destruct (mkdir_p_inr _ _ _ Hm) as (K1 & K2 & _).
  split; [exact K1|]. split; [|split].
  - apply (lookup_mkdir_p_disjoint "╠═══ PANDA_CORE ═══╣" [cat] docs_dir fs fs1 Hm).
    reflexivity.
  - intros Hw. split; [apply (wf_mkdir_parents _ _ _ _ Hw Hm)|].
    apply (documents_mkdir_parents _ _ _ _ Hw Hm).
  - intros [o n] Hin Hs. unfold settled in *. cbn [fst snd] in *.
    rewrite !exists_stat in *. destruct Hs as [Ho|Hn].
    + left. destruct (stat (new_panda_core ++ [o]) fs) eqn:E; [discriminate|].
      destruct (stat (new_panda_core ++ [o]) fs1) eqn:E1; [|reflexivity]. exfalso.
      destruct (K2 _ E) as [_ Hp]; [congruence|].
      unfold new_panda_core in Hp. simpl in Hp. rewrite andb_true_r in Hp.
      apply String.eqb_eq in Hp. subst cat.
      apply (NoDup_app_disjoint _ _ _ o SUBDIR_MAPPINGS_NoDup);
        [now apply (in_map fst) in Hin | now apply (map_file_to_category_in f docs_dir)].
    + right. destruct (stat (new_panda_core ++ [n]) fs) as [k|] eqn:E; [|discriminate].
      now rewrite (K1 _ _ E).
Qed.

(** When the candidates are regular files, step 3 run on the tree it
    left when it was cut short, between two documents or after the
    [mkdir] of a document, ends in the tree the whole of step 3 ends
    in. *)
Lemma step3_resumed (k : nat) (fs2 g : node) (rk : consolidated) :
  wf fs2 = true ->
  exists_ docs_dir fs2 = true ->
  (forall f, In f (rglob "*.md" docs_dir fs2) -> exists d, stat f fs2 = Some (KFile d)) ->
  consolidate new_panda_core docs_dir (firstn k (rglob "*.md" docs_dir fs2)) fs2 0 0
  = Some rk ->
  g = c_fs rk
  \/ (exists f, nth_error (rglob "*.md" docs_dir fs2) k = Some f
                /\ g = make_target_dir new_panda_core docs_dir f (c_fs rk)) ->
  option_map fst (step3 new_panda_core g) = option_map fst (step3 new_panda_core fs2).
Proof.
  intros W2 Hd Hall Hrk Hg.
  assert (Hsub : forall f, In f (firstn k (rglob "*.md" docs_dir fs2)) ->
                           In f (rglob "*.md" docs_dir fs2))
    by apply in_firstn.
  assert (Hdk : exists_ docs_dir (c_fs rk) = true).
  { rewrite exists_stat in *.
    destruct (stat docs_dir fs2) as [kd|] eqn:E; [|discriminate].
    rewrite (consolidate_keeps _ _ _ _ _ _ _ Hrk _ _ E); [reflexivity|].
    intros f Hf. apply Hsub, in_rglob in Hf.
    destruct Hf as (_ & r & x & -> & _).
    destruct (is_prefix (docs_dir ++ r ++ [x]) docs_dir) eqn:E'; [|reflexivity].
    apply is_prefix_iff in E'. destruct E' as [s E'].
    rewrite <- !app_assoc in E'. rewrite <- (app_nil_r docs_dir) in E' at 1.
    apply app_inv_head in E'. destruct r; discriminate. }
  destruct (consolidate_resume (firstn k (rglob "*.md" docs_dir fs2)) []
              (skipn k (rglob "*.md" docs_dir fs2)) fs2 0 0 rk W2)
    as (pre' & Hg' & Hb'); trivial.
  { cbn [app]. now rewrite firstn_skipn. }
  { rewrite firstn_skipn. exact Hall. }
  { intros f []. }
  pose proof (consolidate_app new_panda_core docs_dir
                (firstn k (rglob "*.md" docs_dir fs2))
                (skipn k (rglob "*.md" docs_dir fs2)) fs2 0 0 rk Hrk) as E'.
  rewrite firstn_skipn in E'.
  assert (Hgk : exists_ docs_dir g = true
                /\ rglob "*.md" docs_dir g = pre' ++ skipn k (rglob "*.md" docs_dir fs2)
                /\ (forall f, In f pre' -> blocked new_panda_core docs_dir g f)
                /\ option_map c_fs
                     (consolidate new_panda_core docs_dir
                        (skipn k (rglob "*.md" docs_dir fs2)) g 0 0)
                   = option_map c_fs
                       (consolidate new_panda_core docs_dir
                          (skipn k (rglob "*.md" docs_dir fs2)) (c_fs rk) 0 0)).
  { destruct Hg as [->|(f & Hf & ->)]; [now repeat split|].
    destruct (make_target_dir_spec f (c_fs rk)) as (K1 & Kl & _).
    split; [|split; [|split]].
    - unfold exists_ in *. now rewrite Kl.
    - now rewrite (rglob_lookup _ _ _ _ Kl).
    - intros f' Hf'. apply (blocked_stable _ _ _ (c_fs rk)); [|now apply Hb'].
      intros q d. apply K1.
    - destruct (nth_error_split _ _ Hf) as (l1 & l2 & Hl & Hlen).
      assert (Hs : skipn k (rglob "*.md" docs_dir fs2) = f :: l2).
      { rewrite Hl, <- Hlen. rewrite skipn_app, Nat.sub_diag, skipn_all. reflexivity. }
      rewrite Hs. now rewrite consolidate_make_target_dir. }
  destruct Hgk as (Hdg & Hlg & Hbg & Eg).
  pose proof (skipn_candidates k fs2 g pre' 0 0 Hlg Hbg) as E.
  rewrite Eg, <- E' in E.
  unfold step3. rewrite Hdg, Hd. cbn [negb].
  destruct (consolidate new_panda_core docs_dir (rglob "*.md" docs_dir fs2) fs2 0 0)
    as [r|];
    destruct (consolidate new_panda_core docs_dir (rglob "*.md" docs_dir g) g 0 0)
      as [r'|]; try discriminate; [|reflexivity].
  cbn [option_map] in *. injection E as ->. reflexivity.
Qed.


(** *** Cut in step 4 *)

(** Removing an empty directory takes its path, and nothing else, out of
    the listing; the order of the rest is kept. *)
Lemma listing_rmdir (pat : string) (t : path) :
  forall x n d,
    wf n = true -> lookup (x :: t) n = Some (Dir []) ->
    flat_map (select_children pat) (iterate_directories d (delete (x :: t) n))
    = filter (fun q => negb (path_eqb q (d ++ x :: t)))
        (flat_map (select_children pat) (iterate_directories d n)).
Proof.
  induction t as [|z t IH]; intros x n d Hw Hl.
  - destruct n as [c|es]; [discriminate|]. cbn [lookup] in Hl.
    cbn [delete]. rewrite !listing_dir, filter_app.
    rewrite select_children_remove_entry. f_equal.
    rewrite filter_children_id by (intros; now right).
    revert Hw Hl.
    induction es as [|[y c] es IHes]; intros Hw Hl; [reflexivity|].
    apply wf_cons_iff in Hw. destruct Hw as (Hn & Hc & Hes).
    unfold remove_entry. cbn [filter fst find_entry] in *.
    destruct (String.eqb y x) eqn:E; cbn [negb].
    + apply String.eqb_eq in E. subst y.
      fold (remove_entry x es). rewrite (remove_entry_absent x es Hn).
      cbn [flat_map snd]. assert (Ec : c = Dir []) by congruence. now rewrite Ec.
    + cbn [flat_map]. f_equal. now apply IHes.
  - destruct n as [c|es]; [discriminate|].
    change (delete (x :: z :: t) (Dir es)) with (Dir (map_entry x (delete (z :: t)) es)).
    rewrite !listing_dir, filter_app, select_children_map_entry. f_equal.
    + symmetry. apply filter_id. intros q Hq.
      apply negb_true_iff, path_eqb_false.
      now apply (select_children_shallow pat d q es).
    + change (lookup (x :: z :: t) (Dir es))
        with (match find_entry x es with
              | Some c => lookup (z :: t) c | None => None end) in Hl.
      revert Hw Hl.
      induction es as [|[y c] es IHes]; intros Hw Hl; [reflexivity|].
      apply wf_cons_iff in Hw. destruct Hw as (Hn & Hc & Hes).
      unfold map_entry. cbn [map fst snd find_entry] in *.
      fold (map_entry x (delete (z :: t)) es).
      destruct (String.eqb y x) eqn:E.
      * apply String.eqb_eq in E. subst y.
        rewrite (map_entry_absent x _ es Hn).
        cbn [flat_map fst snd]. rewrite filter_app.
        rewrite (IH z c (d ++ [x]) Hc Hl), <- app_assoc. cbn [app].
        f_equal. symmetry. apply filter_children_id.
        intros e He. left. now apply (find_entry_none_in x es Hn).
      * cbn [flat_map fst snd]. rewrite filter_app. f_equal.
        -- symmetry. apply filter_id. intros q Hq.
           apply negb_true_iff, path_eqb_false.
           apply (listing_other_branch pat c d q x y (z :: t) Hq). left.
           intros ->. now rewrite String.eqb_refl in E.
        -- now apply IHes.
Qed.

Lemma rglob_rmdir (pat : string) (d : path) (y : string) (r : path) (fs : node) :
  wf fs = true -> lookup (d ++ y :: r) fs = Some (Dir []) ->
  rglob pat d (delete (d ++ y :: r) fs)
  = filter (fun q => negb (path_eqb q (d ++ y :: r))) (rglob pat d fs).
Proof.
  intros Hw Hs. unfold rglob. rewrite lookup_delete_below.
  rewrite lookup_app in Hs. destruct (lookup d fs) as [n|] eqn:Hd; [|discriminate].
  destruct n as [c|es]; [discriminate|]. cbn [option_map].
  pose proof (listing_rmdir pat r y (Dir es) d (wf_lookup d fs _ Hw Hd) Hs) as H.
  destruct (delete (y :: r) (Dir es)) as [c|es'] eqn:E; [destruct r; discriminate|].
  exact H.
Qed.

Lemma filter_filter_implied (A : Type) (f g : A -> bool) (l : list A) :
  (forall a, In a l -> f a = true -> g a = true) ->
  filter f (filter g l) = filter f l.
Proof.
  induction l as [|a l IH]; intros H; [reflexivity|]. cbn [filter].
  destruct (g a) eqn:Eg; cbn [filter].
  - destruct (f a); [f_equal|]; apply IH; intros b Hb; apply H; now right.
  - destruct (f a) eqn:Ef.
    + rewrite (H a (or_introl eq_refl) Ef) in Eg. discriminate.
    + apply IH. intros b Hb. apply H. now right.
Qed.

(** The listing of [docs/] after part of the loop of step 4 is the
    listing before it, without what is gone. *)
Lemma prune_listing (pat : string) (l : list path) :
  forall fs n,
    wf fs = true ->
    (forall p, In p l -> strictly_under docs_dir p = true) ->
    rglob pat docs_dir (fst (fst (prune l fs n)))
    = filter (fun q => exists_ q (fst (fst (prune l fs n)))) (rglob pat docs_dir fs).
Proof.
  induction l as [|p rest IH]; intros fs n Hw Hu.
  - cbn [prune fst]. symmetry. apply filter_id. intros q Hq.
    apply in_rglob in Hq. destruct Hq as (_ & r & x & -> & _ & Hex).
    apply exists_true. now apply Hex.
  - assert (Hpu : strictly_under docs_dir p = true) by (apply Hu; now left).
    apply strictly_under_iff in Hpu. destruct Hpu as (r & x & Hp).
    assert (Hne : p <> []) by (subst p; discriminate).
    assert (Hu' : forall q, In q rest -> strictly_under docs_dir q = true)
      by (intros q Hq; apply Hu; now right).
    rewrite (prune_cons p rest fs n Hne).
    destruct (lookup p fs) as [[c|[|e es]]|] eqn:Hl; try (now apply IH).
    specialize (IH (delete p fs) (S n) (wf_delete p fs Hw) Hu').
    pose proof (prune_only_removes rest (delete p fs) (S n)) as Honly.
    destruct (prune rest (delete p fs) (S n)) as [[fs1 n1] out1].
    cbn [fst] in *. rewrite IH.
    assert (Hshape : exists y t, p = docs_dir ++ y :: t).
    { subst p. destruct r as [|y t]; [now exists x, [] | now exists y, (t ++ [x])]. }
    destruct Hshape as (y & t & Hp'). clear Hp. subst p.
    rewrite (rglob_rmdir pat docs_dir y t fs Hw Hl).
    apply filter_filter_implied. intros q _ Hq.
    apply negb_true_iff, path_eqb_false. intros ->.
    apply exists_true in Hq. destruct (stat (docs_dir ++ y :: t) fs1) as [k|] eqn:E;
      [|congruence].
    apply Honly in E.
    + rewrite stat_delete in E by exact Hne.
      now rewrite is_prefix_refl in E.
    + intros p0 Hp0. apply Hu' in Hp0. apply strictly_under_iff in Hp0.
      destruct Hp0 as (r0 & x0 & ->). discriminate.
Qed.

(** [sorted] is stable, so that it commutes with a filter. *)
Lemma insert_desc_head (key : path -> nat) (x : path) (l : list path) :
  (forall y, In y l -> key y <= key x) -> insert_desc key x l = x :: l.
Proof.
  destruct l as [|y l]; intros H; [reflexivity|]. cbn [insert_desc].
  assert (key y <= key x) by (apply H; now left).
  destruct (Nat.ltb_spec (key x) (key y)); [lia | reflexivity].
Qed.

Lemma filter_insert_desc (key : path -> nat) (f : path -> bool) (x : path)
    (l : list path) :
  StronglySorted (fun a b => key b <= key a) l ->
  filter f (insert_desc key x l)
  = if f x then insert_desc key x (filter f l) else filter f l.
Proof.
  induction l as [|y l IH]; intros Hs.
  - cbn [insert_desc filter]. now destruct (f x).
  - apply StronglySorted_inv in Hs. destruct Hs as [Hs Hall].
    rewrite Forall_forall in Hall. cbn [insert_desc].
    destruct (Nat.ltb_spec (key x) (key y)) as [Hlt|Hge].
    + cbn [filter]. rewrite (IH Hs).
      destruct (f y) eqn:Ey; destruct (f x) eqn:Ex; try reflexivity.
      cbn [insert_desc]. destruct (Nat.ltb_spec (key x) (key y)); [reflexivity | lia].
    + cbn [filter]. destruct (f x) eqn:Ex; [|reflexivity].
      destruct (f y) eqn:Ey.
      * cbn [insert_desc]. destruct (Nat.ltb_spec (key x) (key y)); [lia | reflexivity].
      * symmetry. apply insert_desc_head. intros z Hz.
        apply filter_In in Hz. destruct Hz as [Hz _]. specialize (Hall z Hz). lia.
Qed.

Lemma filter_sorted_reverse (f : path -> bool) (l : list path) :
  filter f (sorted_reverse len_str l) = sorted_reverse len_str (filter f l).
Proof.
  induction l as [|x l IH]; [reflexivity|].
  change (sorted_reverse len_str (x :: l))
    with (insert_desc len_str x (sorted_reverse len_str l)).
  rewrite filter_insert_desc by apply sorted_reverse_sorted.
  cbn [filter]. destruct (f x); [|exact IH].
  change (sorted_reverse len_str (x :: filter f l))
    with (insert_desc len_str x (sorted_reverse len_str (filter f l))).
  now rewrite IH.
Qed.

Lemma longest_first_app (l1 l2 : list path) :
  longest_first (l1 ++ l2) -> longest_first l1.
Proof.
  unfold longest_first. induction l1 as [|a l1 IH]; intros H; [constructor|].
  cbn [app] in H. apply StronglySorted_inv in H. destruct H as [H Hall].
  constructor; [now apply IH|].
  rewrite Forall_forall in *. intros b Hb. apply Hall, in_or_app. now left.
Qed.

(** The tree the loop of step 4 ends in does not depend on the counter,
    and the loop can be taken up where it stopped. *)
Lemma prune_counter (l : list path) :
  forall fs n n', fst (fst (prune l fs n)) = fst (fst (prune l fs n')).
Proof.
  induction l as [|p rest IH]; intros fs n n'; [reflexivity|].
  cbn [prune]. destruct (is_dir p fs); [|apply IH].
  destruct (iterdir p fs) as [e|[|c cs]].
  - specialize (IH fs n n').
    destruct (prune rest fs n) as [[? ?] ?], (prune rest fs n') as [[? ?] ?]. exact IH.
  - destruct (rmdir p fs) as [e|fs1].
    + specialize (IH fs n n').
      destruct (prune rest fs n) as [[? ?] ?], (prune rest fs n') as [[? ?] ?]. exact IH.
    + specialize (IH fs1 (S n) (S n')).
      destruct (prune rest fs1 (S n)) as [[? ?] ?], (prune rest fs1 (S n')) as [[? ?] ?].
      exact IH.
  - apply IH.
Qed.

Lemma prune_app (l1 l2 : list path) :
  forall fs n,
    fst (fst (prune (l1 ++ l2) fs n))
    = fst (fst (prune l2 (fst (fst (prune l1 fs n))) 0)).
Proof.
  induction l1 as [|p rest IH]; intros fs n; [apply prune_counter|].
  cbn [app prune]. destruct (is_dir p fs); [|apply IH].
  destruct (iterdir p fs) as [e|[|c cs]].
  - specialize (IH fs n).
    destruct (prune (rest ++ l2) fs n) as [[? ?] ?], (prune rest fs n) as [[? ?] ?].
    exact IH.
  - destruct (rmdir p fs) as [e|fs1].
    + specialize (IH fs n).
      destruct (prune (rest ++ l2) fs n) as [[? ?] ?], (prune rest fs n) as [[? ?] ?].
      exact IH.
    + specialize (IH fs1 (S n)).
      destruct (prune (rest ++ l2) fs1 (S n)) as [[? ?] ?],
               (prune rest fs1 (S n)) as [[? ?] ?].
      exact IH.
  - apply IH.
Qed.

Lemma prune_keeps_files (l : list path) :
  forall fs n q d,
    (forall p, In p l -> p <> []) ->
    stat q fs = Some (KFile d) -> stat q (fst (fst (prune l fs n))) = Some (KFile d).
Proof.
  induction l as [|p rest IH]; intros fs n q d Hne H; [exact H|].
  assert (Hp : p <> []) by (apply Hne; now left).
  assert (Hne' : forall p0, In p0 rest -> p0 <> []) by (intros p0 H0; apply Hne; now right).
  rewrite (prune_cons p rest fs n Hp).
  destruct (lookup p fs) as [[c|[|e es]]|] eqn:Hl; try (now apply IH).
  specialize (IH (delete p fs) (S n) q d Hne').
  destruct (prune rest (delete p fs) (S n)) as [[fs1 n1] out1].
  cbn [fst] in *. apply IH. rewrite (stat_delete_empty p q fs Hp Hl).
  rewrite path_eqb_false; [exact H|]. intros ->. unfold stat in H. rewrite Hl in H.
  discriminate.
Qed.

(** After the loop of step 4, on a list in its order, none of the listed
    paths is an empty directory: those that were are gone, and the others
    have kept what they held. *)
Lemma prune_leaves_none_empty (l : list path) :
  forall fs n,
    longest_first l -> (forall p, In p l -> p <> []) ->
    forall p, In p l -> lookup p (fst (fst (prune l fs n))) <> Some (Dir []).
Proof.
  induction l as [|p rest IH]; intros fs n Hs Hne q Hq; [contradiction|].
  assert (Hp : p <> []) by (apply Hne; now left).
  assert (Hne' : forall p0, In p0 rest -> p0 <> []) by (intros p0 H0; apply Hne; now right).
  apply StronglySorted_inv in Hs. destruct Hs as [Hs Hall].
  rewrite Forall_forall in Hall.
  rewrite (prune_cons p rest fs n Hp).
  assert (Hstay : forall es0, lookup p fs = Some (Dir es0) -> es0 <> [] ->
                    lookup p (fst (fst (prune rest fs n))) <> Some (Dir [])).
  { intros es0 Hl Hes0 Hempty. destruct es0 as [|[x c] es0]; [congruence|].
    assert (Hx : stat (p ++ [x]) fs <> None).
    { rewrite stat_app, Hl. unfold stat. cbn [lookup find_entry].
      rewrite String.eqb_refl. cbn [lookup]. discriminate. }
    destruct (stat (p ++ [x]) fs) as [k|] eqn:E; [|congruence].
    assert (Hnot : ~ In (p ++ [x]) rest).
    { intros Hin. specialize (Hall _ Hin). pose proof (len_str_snoc p x Hp). lia. }
    pose proof (prune_keeps_unlisted rest fs n _ _ Hne' Hnot E) as E'.
    rewrite stat_app, Hempty in E'. unfold stat in E'. cbn [lookup find_entry] in E'.
    discriminate. }
  assert (Hgone : forall g, lookup p g = None ->
                    lookup p (fst (fst (prune rest g n))) <> Some (Dir [])).
  { intros g Hl Hempty.
    assert (E : stat p (fst (fst (prune rest g n))) = Some KDir)
      by (unfold stat; now rewrite Hempty).
    apply prune_only_removes in E; trivial. unfold stat in E. now rewrite Hl in E. }
  destruct (lookup p fs) as [[c|[|e es]]|] eqn:Hl.
  - destruct Hq as [<-|Hq]; [|now apply IH].
    intros Hempty.
    assert (E : stat p fs = Some (KFile c)) by (unfold stat; now rewrite Hl).
    apply (prune_keeps_files rest fs n _ _ Hne') in E. unfold stat in E.
    now rewrite Hempty in E.
  - pose proof (IH (delete p fs) (S n) Hs Hne') as IH'.
    pose proof (prune_only_removes rest (delete p fs) (S n)) as Honly.
    destruct (prune rest (delete p fs) (S n)) as [[fs1 n1] out1]. cbn [fst] in *.
    destruct Hq as [<-|Hq]; [|now apply IH'].
    intros Hempty.
    assert (E : stat p fs1 = Some KDir) by (unfold stat; now rewrite Hempty).
    apply Honly in E; trivial. rewrite stat_delete in E by assumption.
    now rewrite is_prefix_refl in E.
  - destruct Hq as [<-|Hq]; [|now apply IH].
    apply (Hstay (e :: es)); [reflexivity | discriminate].
  - destruct Hq as [<-|Hq]; [|now apply IH].
    now apply Hgone.
Qed.

Lemma step4_tree (fs : node) :
  fst (step4 fs)
  = if exists_ docs_dir fs
    then fst (fst (prune (sorted_reverse len_str (rglob "*" docs_dir fs)) fs 0))
    else fs.
Proof.
  unfold step4. destruct (exists_ docs_dir fs); [|reflexivity].
  now destruct (prune (sorted_reverse len_str (rglob "*" docs_dir fs)) fs 0)
    as [[fs' n] out].
Qed.

Lemma listed_below_docs (pat : string) (fs : node) (l : list path) :
  (forall p, In p l -> In p (sorted_reverse len_str (rglob pat docs_dir fs))) ->
  (forall p, In p l -> strictly_under docs_dir p = true)
  /\ (forall p, In p l -> p <> []).
Proof.
  intros H.
  assert (Hu : forall p, In p l -> strictly_under docs_dir p = true).
  { intros p Hp. apply H, in_sorted_reverse, in_rglob in Hp.
    destruct Hp as (_ & r & x & -> & _). apply strictly_under_iff. now exists r, x. }
  split; [exact Hu|]. intros p Hp ->. apply Hu in Hp. discriminate.
Qed.

(** Step 4 run on the tree its first [m] directories left ends in the tree
    the whole of step 4 ends in. *)
Lemma step4_resumed (m : nat) (fs : node) :
  wf fs = true ->
  fst (step4 (fst (fst (prune (firstn m (sorted_reverse len_str (rglob "*" docs_dir fs)))
                          fs 0))))
  = fst (step4 fs).
Proof.
  intros Hw.
  set (L := sorted_reverse len_str (rglob "*" docs_dir fs)).
  set (g := fst (fst (prune (firstn m L) fs 0))).
  destruct (listed_below_docs "*" fs (firstn m L) (in_firstn _ m L)) as [Hu1 Hne1].
  destruct (listed_below_docs "*" fs (skipn m L)) as [Hu2 Hne2].
  { intros p Hp. change (In p L). rewrite <- (firstn_skipn m L).
    apply in_or_app. now right. }
  assert (Hnd : NoDup (firstn m L ++ skipn m L)).
  { rewrite firstn_skipn.
    apply (Permutation_NoDup (Permutation_sym (sorted_reverse_perm len_str _))).
    now apply rglob_NoDup. }
  assert (Hdocs : exists_ docs_dir g = exists_ docs_dir fs).
  { rewrite !exists_stat. destruct (stat docs_dir fs) as [k|] eqn:E.
    - unfold g. rewrite (prune_keeps_unlisted _ fs 0 docs_dir k Hne1); trivial.
      intros Hin. apply Hu1 in Hin. discriminate.
    - destruct (stat docs_dir g) as [k|] eqn:E'; [|reflexivity].
      unfold g in E'. apply prune_only_removes in E'; trivial. congruence. }
  rewrite !step4_tree, Hdocs. destruct (exists_ docs_dir fs) eqn:Hd.
  2:{ unfold g, L, rglob. unfold exists_ in Hd.
      destruct (lookup docs_dir fs); [discriminate|]. now rewrite firstn_nil. }
  fold L. unfold g at 1.
  rewrite (prune_listing "*" (firstn m L) fs 0 Hw Hu1). fold g.
  rewrite <- filter_sorted_reverse. fold L.
  rewrite <- (firstn_skipn m L) at 1 2. rewrite filter_app.
  rewrite (filter_id _ _ (skipn m L)).
  - rewrite !prune_app. fold g. f_equal. f_equal. f_equal.
    rewrite prune_nothing; [reflexivity|].
    intros p Hp. apply filter_In in Hp. destruct Hp as [Hp _].
    apply prune_leaves_none_empty; trivial.
    apply (longest_first_app _ (skipn m L)). rewrite firstn_skipn.
    apply sorted_reverse_sorted.
  - intros q Hq. apply exists_true.
    assert (Hex : stat q fs <> None).
    { assert (Hin : In q L)
        by (rewrite <- (firstn_skipn m L); apply in_or_app; now right).
      apply in_sorted_reverse, in_rglob in Hin.
      destruct Hin as (_ & r & x & -> & _ & Hex). now apply Hex. }
    destruct (stat q fs) as [k|] eqn:E; [|congruence].
    unfold g. rewrite (prune_keeps_unlisted _ fs 0 q k Hne1); trivial;
      try discriminate.
    intros Hin. apply (NoDup_app_disjoint _ _ _ q Hnd Hin Hq).
Qed.


(** Part of the loop of step 4 changes nothing outside [docs/]. *)
Lemma prune_outside (l : list path) (fs : node) (n : nat) (q : path) :
  (forall p, In p l -> strictly_under docs_dir p = true) ->
  strictly_under docs_dir q = false ->
  stat q (fst (fst (prune l fs n))) = stat q fs.
Proof.
  intros Hu Hq.
  assert (Hne : forall p, In p l -> p <> [])
    by (intros p Hp ->; apply Hu in Hp; discriminate).
  assert (Hnot : ~ In q l) by (intros Hin; apply Hu in Hin; congruence).
  destruct (stat q fs) as [k|] eqn:E.
  - now apply prune_keeps_unlisted.
  - destruct (stat q (fst (fst (prune l fs n)))) as [k|] eqn:E'; [|reflexivity].
    apply prune_only_removes in E'; trivial. congruence.
Qed.

(** After part of the loop of step 4, step 3 finds nothing it can move. *)
Lemma step3_after_prune (l : list path) (fs3 : node) (n : nat) :
  wf fs3 = true ->
  (forall p, In p l -> strictly_under docs_dir p = true) ->
  (forall q, In q (rglob "*.md" docs_dir fs3) ->
             blocked new_panda_core docs_dir fs3 q) ->
  option_map fst (step3 new_panda_core (fst (fst (prune l fs3 n))))
  = Some (fst (fst (prune l fs3 n))).
Proof.
  intros Hw Hu Hres.
  assert (Hne : forall p, In p l -> p <> [])
    by (intros p Hp ->; apply Hu in Hp; discriminate).
  set (g := fst (fst (prune l fs3 n))).
  assert (Hwg : wf g = true) by now apply wf_prune.
  unfold step3. destruct (exists_ docs_dir g) eqn:Hd; cbn [negb]; [|reflexivity].
  assert (Hb : forall f, In f (rglob "*.md" docs_dir g) ->
                         blocked new_panda_core docs_dir g f).
  { intros f Hf.
    apply (blocked_stable _ _ _ fs3);
      [intros q d; now apply prune_keeps_files|].
    apply Hres. apply in_rglob in Hf. destruct Hf as (_ & r & x & -> & Hm & Hex).
    specialize (Hex Hwg).
    assert (Hex3 : stat (docs_dir ++ r ++ [x]) fs3 <> None).
    { destruct (stat (docs_dir ++ r ++ [x]) g) as [k|] eqn:E; [|congruence].
      unfold g in E. apply prune_only_removes in E; trivial. congruence. }
    apply rglob_complete; trivial. apply is_dir_true.
    apply (stat_below docs_dir (r ++ [x])); [destruct r; discriminate | exact Hex3]. }
  destruct (consolidate_total new_panda_core docs_dir (rglob "*.md" docs_dir g) g 0 0)
    as [r Hr].
  rewrite Hr. destruct (consolidate_blocked_out _ _ _ _ Hb _ _ _ Hr) as (E & _).
  cbn [option_map fst]. now rewrite E.
Qed.

(** *** The tree a partial run leaves *)

Lemma settled_stat (panda_core : path) (fs fs' : node) (it : string * string) :
  (forall x, stat (panda_core ++ [x]) fs' = stat (panda_core ++ [x]) fs) ->
  settled panda_core fs it -> settled panda_core fs' it.
Proof.
  intros H. unfold settled. now rewrite !exists_stat, !H.
Qed.

Lemma partial_run_spec (c : cut) (fs : node) :
  wf fs = true ->
  exists fsk,
    partial_run c fs = Some fsk
    /\ wf fsk = true
    /\ Permutation (documents fsk) (documents fs)
    /\ exists_ new_panda_core fsk = exists_ new_panda_core fs
    /\ (forall it, In it SUBDIR_MAPPINGS ->
          exists_ new_panda_core fs = false
          \/ settled new_panda_core fsk it \/ In (fst it) (pending_legacy c)).
Proof.
  intros Hw. unfold partial_run. rewrite step1_eq.
  destruct (exists_ new_panda_core fs) eqn:Hc.
  2:{ exists fs. repeat split; auto. }
  pose proof (step2_spec new_panda_core SUBDIR_MAPPINGS fs) as H2.
  pose proof (documents_step2 new_panda_core SUBDIR_MAPPINGS fs Hw) as D2.
  pose proof (step2_container SUBDIR_MAPPINGS fs SUBDIR_MAPPINGS_NoDup) as C2.
  destruct c as [j|k|k|m].
  - exists (fst (step2 new_panda_core (firstn j SUBDIR_MAPPINGS) fs)).
    destruct (documents_step2 new_panda_core (firstn j SUBDIR_MAPPINGS) fs Hw) as [W P].
    split; [reflexivity|]. split; [exact W|]. split; [exact P|].
    split.
    { rewrite step2_container, Hc; [reflexivity|].
      apply item_names_firstn, SUBDIR_MAPPINGS_NoDup. }
    intros it Hin. right.
    rewrite <- (firstn_skipn j SUBDIR_MAPPINGS) in Hin. apply in_app_or in Hin.
    destruct Hin as [Hin|Hin].
    + left.
      destruct (step2 new_panda_core (firstn j SUBDIR_MAPPINGS) fs) as [fs1 out1] eqn:H.
      apply (step2_spec _ _ _ _ _ (item_names_firstn j _ SUBDIR_MAPPINGS_NoDup) H).
      exact Hin.
    + right. cbn [pending_legacy]. now apply in_map.
  - destruct (step2 new_panda_core SUBDIR_MAPPINGS fs) as [fs2 out2].
    destruct (H2 _ _ SUBDIR_MAPPINGS_NoDup eq_refl) as (S2 & _ & _ & W2).
    cbn [fst] in *. destruct D2 as [_ D2]. rewrite Hc in C2.
    destruct (negb (exists_ docs_dir fs2)).
    + exists fs2. repeat split; auto.
    + destruct (consolidate_total new_panda_core docs_dir
                  (firstn k (rglob "*.md" docs_dir fs2)) fs2 0 0) as [r Hr].
      rewrite Hr. exists (c_fs r). split; [reflexivity|].
      split; [apply (wf_consolidate _ _ _ _ _ _ _ (W2 Hw) Hr)|].
      split; [now rewrite (documents_consolidate _ _ _ _ _ _ _ (W2 Hw) Hr)|].
      split; [apply (consolidate_container _ fs2 fs2 _ _ _ (in_firstn _ k _) Hr C2)|].
      intros it Hin. right. left.
      apply (consolidate_settled _ fs2 fs2 _ _ _ _ (in_firstn _ k _) Hr Hin).
      now apply S2.
  - destruct (step2 new_panda_core SUBDIR_MAPPINGS fs) as [fs2 out2].
    destruct (H2 _ _ SUBDIR_MAPPINGS_NoDup eq_refl) as (S2 & _ & _ & W2).
    cbn [fst] in *. destruct D2 as [_ D2]. rewrite Hc in C2.
    destruct (negb (exists_ docs_dir fs2)).
    + exists fs2. repeat split; auto.
    + destruct (consolidate_total new_panda_core docs_dir
                  (firstn k (rglob "*.md" docs_dir fs2)) fs2 0 0) as [r Hr].
      rewrite Hr.
      pose proof (wf_consolidate _ _ _ _ _ _ _ (W2 Hw) Hr) as Wr.
      pose proof (documents_consolidate _ _ _ _ _ _ _ (W2 Hw) Hr) as Dr.
      pose proof (consolidate_container _ fs2 fs2 _ _ _ (in_firstn _ k _) Hr C2) as Cr.
      assert (Sr : forall it, In it SUBDIR_MAPPINGS -> settled new_panda_core (c_fs r) it).
      { intros it Hin.
        apply (consolidate_settled _ fs2 fs2 _ _ _ _ (in_firstn _ k _) Hr Hin).
        now apply S2. }
      destruct (nth_error (rglob "*.md" docs_dir fs2) k) as [f|].
      * destruct (make_target_dir_spec f (c_fs r)) as (K1 & _ & Kw & Ks).
        destruct (Kw Wr) as [Kw1 Kw2].
        exists (make_target_dir new_panda_core docs_dir f (c_fs r)).
        split; [reflexivity|]. split; [exact Kw1|].
        split; [now rewrite Kw2, Dr|].
        split.
        { rewrite exists_stat in *.
          destruct (stat new_panda_core (c_fs r)) as [kc|] eqn:E; [|discriminate].
          now rewrite (K1 _ _ E). }
        intros it Hin. right. left. apply Ks; auto.
      * exists (c_fs r). split; [reflexivity|]. split; [exact Wr|].
        split; [now rewrite Dr|]. split; [exact Cr|].
        intros it Hin. right. left. now apply Sr.
  - destruct (step2 new_panda_core SUBDIR_MAPPINGS fs) as [fs2 out2] eqn:E2.
    destruct (H2 _ _ SUBDIR_MAPPINGS_NoDup eq_refl) as (S2 & _ & _ & W2).
    cbn [fst] in *. destruct D2 as [_ D2]. rewrite Hc in C2.
    destruct (step3_total new_panda_core fs2) as (fs3 & out3 & H3). rewrite H3.
    pose proof (wf_step3 _ _ _ _ (W2 Hw) H3) as W3.
    assert (D3 : Permutation (documents fs3) (documents fs2)).
    { destruct (step3_cases _ _ _ _ H3) as [(_ & -> & _)|(_ & r & Hr & -> & _)];
        [reflexivity|].
      apply (documents_consolidate _ _ _ _ _ _ _ (W2 Hw) Hr). }
    assert (C3 : exists_ new_panda_core fs3 = true
                 /\ forall it, In it SUBDIR_MAPPINGS -> settled new_panda_core fs3 it).
    { destruct (step3_cases _ _ _ _ H3) as [(_ & -> & _)|(_ & r & Hr & -> & _)];
        [now split|].
      split.
      - apply (consolidate_container _ fs2 fs2 _ _ _ (fun f H => H) Hr C2).
      - intros it Hin.
        apply (consolidate_settled _ fs2 fs2 _ _ _ _ (fun f H => H) Hr Hin).
        now apply S2. }
    destruct C3 as [C3 S3].
    destruct (exists_ docs_dir fs3).
    + set (l := firstn m (sorted_reverse len_str (rglob "*" docs_dir fs3))).
      destruct (listed_below_docs "*" fs3 l (in_firstn _ m _)) as [Hu Hne].
      exists (fst (fst (prune l fs3 0))).
      split; [reflexivity|]. split; [now apply wf_prune|].
      split; [now rewrite (documents_prune l fs3 0 W3), D3|].
      split.
      { rewrite !exists_stat, prune_outside by (trivial; reflexivity).
        now rewrite <- exists_stat. }
      intros it Hin. right. left.
      apply (settled_stat _ fs3); [|now apply S3].
      intros x. now apply prune_outside.
    + exists fs3. split; [reflexivity|]. split; [exact W3|].
      split; [now rewrite D3|]. split; [exact C3|]. auto.
Qed.

(** Step 2 leaves a regular file where it is, unless the file lies in a
    legacy directory step 2 has yet to rename. *)
Lemma step2_keeps_pending (panda_core : path) (q : path) (d : string)
    (items : list (string * string)) :
  forall fs,
    NoDup (item_names items) ->
    (forall it, In it items ->
       settled panda_core fs it \/ is_prefix (panda_core ++ [fst it]) q = false) ->
    stat q fs = Some (KFile d) ->
    stat q (fst (step2 panda_core items fs)) = Some (KFile d).
Proof.
  induction items as [|[o n] items IH]; intros fs Hnd Hit Hq; [exact Hq|].
  cbn [step2].
  unfold item_names in Hnd. simpl in Hnd.
  apply NoDup_cons_iff in Hnd. destruct Hnd as [Ho Hnd].
  pose proof (NoDup_remove_1 _ _ _ Hnd) as Hnd'.
  pose proof (NoDup_remove_2 _ _ _ Hnd) as Hn.
  assert (Hon : o <> n).
  { intros ->. apply Ho. apply in_or_app. right. now left. }
  assert (Ho' : ~ In o (item_names items)).
  { intros Hin. apply Ho. unfold item_names in Hin. apply in_app_or in Hin.
    apply in_or_app. destruct Hin; [now left | right; now right]. }
  destruct (rename_subdir panda_core fs (o, n)) as [fs1 out1] eqn:H1.
  destruct (rename_subdir_spec _ _ _ _ _ _ Hon H1) as (_ & F1 & _ & _ & Hsame).
  assert (Hq1 : stat q fs1 = Some (KFile d)).
  { destruct (Hit (o, n) (or_introl eq_refl)) as [Hs|Hp].
    - now rewrite (Hsame Hs).
    - pose proof (rename_subdir_keeps_file panda_core fs o n q d Hq Hp) as K.
      now rewrite H1 in K. }
  specialize (IH fs1 Hnd').
  destruct (step2 panda_core items fs1) as [fs2 out2]. cbn [fst] in *.
  apply IH; [|exact Hq1].
  intros [o' n'] Hin. destruct (Hit (o', n') (or_intror Hin)) as [Hs|Hp]; [|now right].
  left. unfold settled, exists_ in *. cbn [fst snd] in *.
  assert (Eo : lookup (panda_core ++ [o']) fs1 = lookup (panda_core ++ [o']) fs).
  { apply F1; apply comparable_siblings; intros ->.
    - apply Ho'. unfold item_names. apply in_or_app. left.
      now apply (in_map fst) in Hin.
    - apply Hn. apply in_or_app. left. now apply (in_map fst) in Hin. }
  assert (En : lookup (panda_core ++ [n']) fs1 = lookup (panda_core ++ [n']) fs).
  { apply F1; apply comparable_siblings; intros ->.
    - apply Ho'. unfold item_names. apply in_or_app. right.
      now apply (in_map snd) in Hin.
    - apply Hn. apply in_or_app. right. now apply (in_map snd) in Hin. }
  now rewrite Eo, En.
Qed.

(** A run leaves a regular file outside [docs/] where it is, with its
    content, unless the file lies in a legacy directory that step 2 has
    yet to rename. *)
Lemma main_keeps_pending (fs fs1 : node) (out1 : list line) (q : path) (d : string) :
  (forall it, In it SUBDIR_MAPPINGS ->
     exists_ new_panda_core fs = false
     \/ settled new_panda_core fs it
     \/ is_prefix (new_panda_core ++ [fst it]) q = false) ->
  main fs = Some (fs1, out1) ->
  is_prefix docs_dir q = false ->
  stat q fs = Some (KFile d) -> stat q fs1 = Some (KFile d).
Proof.
  intros Hit Hm Hq Hf. destruct (exists_ new_panda_core fs) eqn:Hc.
  - destruct (main_present fs Hc)
      as (fs2 & out2 & fs3 & out3 & fs4 & out4 & fs5 & out5
          & H2 & H3 & H4 & H5 & Hm').
    rewrite Hm' in Hm. injection Hm as <- _.
    replace fs5 with (fst (step5 (fst (step4 fs3))))
      by (rewrite H4; cbn [fst]; now rewrite H5).
    apply (steps345_keep_outside fs2 fs3 out3); trivial.
    pose proof (step2_keeps_pending new_panda_core q d SUBDIR_MAPPINGS fs
                  SUBDIR_MAPPINGS_NoDup) as K.
    rewrite H2 in K. apply K; [|exact Hf].
    intros it Hin. destruct (Hit it Hin) as [?|H]; [discriminate | exact H].
  - rewrite (main_absent fs Hc) in Hm. now injection Hm as <- _.
Qed.

Lemma option_map_fst (A B C : Type) (f : A -> C) (a b : option (A * B)) :
  option_map fst a = option_map fst b ->
  option_map (fun x => f (fst x)) a = option_map (fun x => f (fst x)) b.
Proof.
  destruct a as [[a1 a2]|], b as [[b1 b2]|]; cbn; congruence.
Qed.

(** The run started on the tree a partial run left ends in the tree the
    uninterrupted run ends in: after a cut in step 2 or in step 4 always,
    and after a cut in step 3 when the candidates are regular files. *)
Lemma partial_run_converges (c : cut) (fs fsk : node) :
  wf fs = true ->
  in_step3 c = false \/ candidates_are_files fs = true ->
  partial_run c fs = Some fsk ->
  option_map fst (main fsk) = option_map fst (main fs).
Proof.
  intros Hw Hcase Hk.
  destruct (partial_run_spec c fs Hw) as (fsk' & Hk' & Wk & _ & Ck & Sk).
  rewrite Hk in Hk'. injection Hk' as <-.
  unfold partial_run in Hk. rewrite step1_eq in Hk.
  destruct (exists_ new_panda_core fs) eqn:Hc; [|now injection Hk as <-].
  rewrite (main_tree fs Hc), (main_tree fsk Ck).
  assert (Hsettled : pending_legacy c = [] ->
                     fst (step2 new_panda_core SUBDIR_MAPPINGS fsk) = fsk).
  { intros Hp. apply step2_settled; [|apply SUBDIR_MAPPINGS_distinct].
    intros it Hin. destruct (Sk it Hin) as [?|[H|H]]; [discriminate | exact H|].
    rewrite Hp in H. contradiction. }
  destruct (step2 new_panda_core SUBDIR_MAPPINGS fs) as [fs2 out2] eqn:H2.
  cbn [fst].
  destruct (step2_spec _ _ _ _ _ SUBDIR_MAPPINGS_NoDup H2) as (_ & _ & _ & W2).
  specialize (W2 Hw).
  assert (Hall : in_step3 c = true ->
                 forall f, In f (rglob "*.md" docs_dir fs2) ->
                           exists d, stat f fs2 = Some (KFile d)).
  { intros H3 f Hf. destruct Hcase as [Hn|Hfiles]; [congruence|].
    assert (Hl : lookup docs_dir fs2 = lookup docs_dir fs)
      by (apply (step2_docs fs fs2 out2 docs_dir H2); reflexivity).
    rewrite (rglob_lookup _ _ _ _ Hl) in Hf.
    unfold candidates_are_files in Hfiles. rewrite forallb_forall in Hfiles.
    specialize (Hfiles f Hf).
    assert (Hpf : is_prefix docs_dir f = true).
    { apply in_rglob in Hf. destruct Hf as (_ & r & x & -> & _).
      apply is_prefix_app. }
    unfold stat in *. rewrite (step2_docs fs fs2 out2 f H2 Hpf).
    destruct (lookup f fs) as [[d|es]|]; try discriminate. now exists d. }
  destruct c as [j|k|k|m].
  - injection Hk as <-.
    rewrite (step2_resumed new_panda_core j SUBDIR_MAPPINGS fs SUBDIR_MAPPINGS_NoDup
               SUBDIR_MAPPINGS_distinct).
    now rewrite H2.
  - rewrite (Hsettled eq_refl). apply (option_map_fst _ _ _ (fun t => fst (step5 (fst (step4 t))))).
    specialize (Hall eq_refl).
    destruct (negb (exists_ docs_dir fs2)) eqn:Hd; [now injection Hk as <-|].
    apply negb_false_iff in Hd.
    destruct (consolidate new_panda_core docs_dir
                (firstn k (rglob "*.md" docs_dir fs2)) fs2 0 0) as [rk|] eqn:Hrk;
      [|discriminate].
    injection Hk as <-.
    apply (step3_resumed k fs2 (c_fs rk) rk); auto.
  - rewrite (Hsettled eq_refl). apply (option_map_fst _ _ _ (fun t => fst (step5 (fst (step4 t))))).
    specialize (Hall eq_refl).
    destruct (negb (exists_ docs_dir fs2)) eqn:Hd; [now injection Hk as <-|].
    apply negb_false_iff in Hd.
    destruct (consolidate new_panda_core docs_dir
                (firstn k (rglob "*.md" docs_dir fs2)) fs2 0 0) as [rk|] eqn:Hrk;
      [|discriminate].
    apply (step3_resumed k fs2 fsk rk); auto.
    destruct (nth_error (rglob "*.md" docs_dir fs2) k) as [f|] eqn:Hn;
      injection Hk as <-; [right; now exists f | now left].
  - rewrite (Hsettled eq_refl).
    destruct (step3 new_panda_core fs2) as [[fs3 out3]|] eqn:H3; [|discriminate].
    pose proof (wf_step3 _ _ _ _ W2 H3) as W3.
    pose proof (step3_residue _ _ _ W3 H3) as Hres.
    cbn [option_map fst].
    assert (E : option_map fst (step3 new_panda_core fsk) = Some fsk
                /\ fst (step4 fsk) = fst (step4 fs3)).
    { destruct (exists_ docs_dir fs3) eqn:Hd; injection Hk as <-.
      - split; [|now apply step4_resumed].
        apply step3_after_prune; trivial.
        apply (listed_below_docs "*" fs3). apply in_firstn.
      - split; [|reflexivity]. unfold step3. now rewrite Hd. }
    destruct E as [E3 E4].
    destruct (step3 new_panda_core fsk) as [[a oa]|]; [|discriminate].
    cbn [option_map fst] in *. injection E3 as ->. now rewrite E4.
Qed.

End PartialRuns.

(** * The claims *)

Import FS FSFacts OpFacts Conflicts MoveFacts LoopFacts FrameFacts WfFacts
       GlobFacts PruneFacts Step2Facts Step3Facts MainFacts StepFacts DocFacts RunFacts
       ResumeFacts Accounting PartialRuns.

(** C1. Classification is total: for every document under the source root
    (any relative directory, any file name) [map_file_to_category] returns
    without raising, its result is one of the twelve pairwise distinct
    category directory names, and a document that no rule matches gets the
    catch-all Reference category. *)
Theorem map_file_to_category_total (docs rel : path) :
  List.length category_names = 12
  /\ NoDup category_names
  /\ (exists c, map_file_to_category (docs ++ rel) docs = Some c
                /\ In c category_names)
  /\ (matches_no_rule rel = true ->
      map_file_to_category (docs ++ rel) docs = Some "╚═══ REFERENCE ═══╝").
Proof.
  split; [reflexivity|]. split.
  - unfold category_names, SUBDIR_MAPPINGS. cbn [map snd].
    repeat (constructor; [cbn [In]; intros H;
      repeat (destruct H as [H|H]; [discriminate H|]); exact H|]).
    constructor.
  - split.
    + apply map_file_to_category_some.
    + apply map_file_to_category_default.
Qed.

Lemma map_file_to_category_total_witness :
  exists c, map_file_to_category (["docs"] ++ ["sub"; "misc.md"]) ["docs"] = Some c
            /\ In c category_names /\ c = "╚═══ REFERENCE ═══╝".
Proof.
  destruct (map_file_to_category_total ["docs"] ["sub"; "misc.md"])
    as (_ & _ & (c & Hc & Hin) & Hdef).
  exists c. repeat split; try assumption.
  specialize (Hdef eq_refl). rewrite Hdef in Hc. now inversion Hc.
Defined.

(** C2, as stated, fails: after a partial run the run started again need
    not end in the tree of the uninterrupted run.  On [tree_md_dir] the
    directory [docs/x.md] is a candidate, and so is the document inside
    it; the uninterrupted run moves the directory and then, for the
    document, makes the API category directory before the move raises.
    Cut after the first candidate and started again, the run finds
    nothing below [docs/] and makes no such directory. *)
Lemma converges_after_partial_run_counterexample :
  ~ converges_after_partial_run tree_md_dir.
Proof.
  intros H.
  specialize (H (InStep3 1)
                (Dir [("docs", Dir []);
                      ("╠═══ PANDA_CORE ═══╣",
                       Dir [("╚═══ REFERENCE ═══╝",
                             Dir [("x.md", Dir [("api", Dir [("b.md", File "b")])])])])])
                eq_refl).
  vm_compute in H. discriminate H.
Qed.

(** C2, amended. The reorganization is idempotent.  From any well-formed
    tree a run ends, in a tree that holds the same documents, each once;
    and a second run started on that tree ends in that same tree, so that
    it moves, creates and removes nothing, and no line of its output
    reports a move (its summary, when printed, counts 0 moved).  After a
    partial run, cut between any two of the system calls that change the
    tree, the tree left behind is well formed and holds the same
    documents, each once; the run started on it loses and duplicates no
    document, leaves every regular file outside [docs/] in its place
    (unless it lies in a legacy directory that step 2 had yet to rename),
    and ends in a tree that the next run leaves exactly as it is.  That
    tree is the tree the uninterrupted run ends in when the cut fell in
    step 2 or in step 4, and also when it fell in step 3 provided the
    candidates are regular files. *)
Theorem run_twice_changes_nothing (fs : node) :
  FS.wf fs = true ->
  (exists fs1 out1 out2,
     main fs = Some (fs1, out1)
     /\ Permutation (documents fs1) (documents fs)
     /\ main fs1 = Some (fs1, out2) /\ quiet out2)
  /\ (forall c,
        exists fsk fs1 out1 out2,
          partial_run c fs = Some fsk
          /\ FS.wf fsk = true
          /\ Permutation (documents fsk) (documents fs)
          /\ main fsk = Some (fs1, out1)
          /\ Permutation (documents fs1) (documents fsk)
          /\ (forall q d,
                FS.is_prefix docs_dir q = false ->
                (forall o, In o (pending_legacy c) ->
                           FS.is_prefix (new_panda_core ++ [o]) q = false) ->
                FS.stat q fsk = Some (KFile d) -> FS.stat q fs1 = Some (KFile d))
          /\ main fs1 = Some (fs1, out2)
          /\ quiet out2
          /\ (in_step3 c = false \/ candidates_are_files fs = true ->
              option_map fst (main fs) = Some fs1)).
Proof.
  intros Hw. split.
  - destruct (main_fixed_point fs Hw) as (fs1 & out1 & out2 & H1 & H2 & Hq & _).
    destruct (documents_main fs Hw) as (fs' & out' & H' & P).
    rewrite H1 in H'. injection H' as <- _.
    now exists fs1, out1, out2.
  - intros c.
    destruct (partial_run_spec c fs Hw) as (fsk & Hk & Hwk & Pk & Ck & Sk).
    destruct (main_fixed_point fsk Hwk) as (fs1 & out1 & out2 & H1 & H2 & Hq & _).
    destruct (documents_main fsk Hwk) as (fs' & out' & H' & P).
    rewrite H1 in H'. injection H' as <- _.
    exists fsk, fs1, out1, out2.
    split; [exact Hk|]. split; [exact Hwk|]. split; [exact Pk|].
    split; [exact H1|]. split; [exact P|].
    split; [|split; [exact H2|split; [exact Hq|]]].
    + intros q d Hq' Hpend Hf.
      apply (main_keeps_pending fsk fs1 out1 q d); trivial.
      intros it Hin. destruct (Sk it Hin) as [Hn|[Hs|Hp]].
      * left. now rewrite Ck.
      * right. now left.
      * right. right. now apply Hpend.
    + intros Hcase.
      rewrite <- (partial_run_converges c fs fsk Hw Hcase Hk), H1. reflexivity.
Qed.

Lemma run_twice_changes_nothing_witness :
  exists fsk fs1 out1 out2,
    partial_run (InStep3Mkdir 1) tree_reports = Some fsk
    /\ FS.stat ["docs"; "b"; "report.md"] fsk = Some (KFile "second")
    /\ main fsk = Some (fs1, out1)
    /\ option_map fst (main tree_reports) = Some fs1
    /\ main fs1 = Some (fs1, out2)
    /\ quiet out2.
Proof.
  destruct (run_twice_changes_nothing tree_reports eq_refl) as [_ H].
  destruct (H (InStep3Mkdir 1))
    as (fsk & fs1 & out1 & out2 & Hk & _ & _ & Hm & _ & _ & H2 & Hq & He).
  exists fsk, fs1, out1, out2.
  split; [exact Hk|].
  split; [vm_compute in Hk; injection Hk as <-; reflexivity|].
  split; [exact Hm|]. split; [apply He; now right|]. now split.
Defined.

(** On [tree_blocked] the run leaves the blocked document in place, and
    the next run changes nothing. *)
Example tree_blocked_second_run :
  option_map fst (main tree_blocked)
  = Some (Dir [("docs", Dir [("security.md", File "s")]);
               ("╠═══ PANDA_CORE ═══╣",
                Dir [("╠═══ SECURITY ═══╣", File "in the way");
                     ("╚═══ REFERENCE ═══╝", Dir [("misc.md", File "m")])])])
  /\ option_map fst
       (main (Dir [("docs", Dir [("security.md", File "s")]);
                   ("╠═══ PANDA_CORE ═══╣",
                    Dir [("╠═══ SECURITY ═══╣", File "in the way");
                         ("╚═══ REFERENCE ═══╝", Dir [("misc.md", File "m")])])]))
     = Some (Dir [("docs", Dir [("security.md", File "s")]);
                  ("╠═══ PANDA_CORE ═══╣",
                   Dir [("╠═══ SECURITY ═══╣", File "in the way");
                        ("╚═══ REFERENCE ═══╝", Dir [("misc.md", File "m")])])]).
Proof. split; reflexivity. Qed.

(** On [tree_reports] the run cut short after the first document, and the
    run started again, give the second document the suffix the whole run
    gives it. *)
Example tree_reports_resumed :
  partial_run (InStep3 1) tree_reports
  = Some (Dir [("docs", Dir [("a", Dir []);
                             ("b", Dir [("report.md", File "second")])]);
               ("╠═══ PANDA_CORE ═══╣",
                Dir [("╚═══ REFERENCE ═══╝", Dir [("report.md", File "first")])])])
  /\ option_map fst
       (main (Dir [("docs", Dir [("a", Dir []);
                                 ("b", Dir [("report.md", File "second")])]);
                   ("╠═══ PANDA_CORE ═══╣",
                    Dir [("╚═══ REFERENCE ═══╝",
                          Dir [("report.md", File "first")])])]))
     = Some (Dir [("╠═══ PANDA_CORE ═══╣",
                   Dir [("╚═══ REFERENCE ═══╝",
                         Dir [("report.md", File "first");
                              ("report_1.md", File "second")])])])
  /\ option_map fst (main tree_reports)
     = Some (Dir [("╠═══ PANDA_CORE ═══╣",
                   Dir [("╚═══ REFERENCE ═══╝",
                         Dir [("report.md", File "first");
                              ("report_1.md", File "second")])])]).
Proof. repeat split; reflexivity. Qed.

(** The same run cut in step 2, after the [mkdir] of the second document,
    and in step 4 after one directory: the trees left behind. *)
Example tree_reports_cuts :
  partial_run (InStep2 5) tree_reports = Some tree_reports
  /\ partial_run (InStep3Mkdir 0) tree_reports
     = Some (Dir [("docs", Dir [("a", Dir [("report.md", File "first")]);
                                ("b", Dir [("report.md", File "second")])]);
                  ("╠═══ PANDA_CORE ═══╣", Dir [("╚═══ REFERENCE ═══╝", Dir [])])])
  /\ partial_run (InStep4 1) tree_reports
     = Some (Dir [("docs", Dir [("b", Dir [])]);
                  ("╠═══ PANDA_CORE ═══╣",
                   Dir [("╚═══ REFERENCE ═══╝",
                         Dir [("report.md", File "first");
                              ("report_1.md", File "second")])])]).
Proof. repeat split; reflexivity. Qed.

(** The two trees of the counterexample: what the uninterrupted run on
    [tree_md_dir] ends in, and what the run cut after the first candidate
    and started again ends in. *)
Example tree_md_dir_resumed :
  candidates_are_files tree_md_dir = false
  /\ option_map fst (main tree_md_dir)
     = Some (Dir [("╠═══ PANDA_CORE ═══╣",
                   Dir [("╚═══ REFERENCE ═══╝",
                         Dir [("x.md", Dir [("api", Dir [("b.md", File "b")])])]);
                        ("╠═══ API_REFERENCE ═══╣", Dir [])])])
  /\ exists fsk,
       partial_run (InStep3 1) tree_md_dir = Some fsk
       /\ option_map fst (main fsk)
          = Some (Dir [("╠═══ PANDA_CORE ═══╣",
                        Dir [("╚═══ REFERENCE ═══╝",
                              Dir [("x.md",
                                    Dir [("api", Dir [("b.md", File "b")])])])])]).
Proof.
  split; [reflexivity|]. split; [reflexivity|].
  eexists. split; reflexivity.
Qed.

(** C3. A move never overwrites.  One pass of the loop that moves a
    document moves it to a path that does not exist at move time (nor
    before the pass), inside the category directory, under another name
    than the desired one when that one is taken; everything that existed
    outside the moved entry still exists, regular files with their content.
    A pass that fails changes nothing that existed.  Over the whole loop,
    every regular file that is not at or below a candidate keeps its
    content, and on a well-formed tree the documents after the loop are
    the documents before it, each once. *)
Theorem move_never_overwrites (panda_core docs : path) (all_files : list path)
    (fs : node) (moved errors : nat) :
  (forall file_path,
     match move_file panda_core docs file_path fs with
     | Moved fs' cat target =>
         exists fs1,
           FS.mkdir_p (panda_core ++ [cat]) fs = inr fs1
           /\ PurePath.parent target = panda_core ++ [cat]
           /\ FS.exists_ target fs1 = false
           /\ FS.exists_ target fs = false
           /\ (FS.exists_ (panda_core ++ [cat] ++ [PurePath.name file_path]) fs1 = true ->
               target <> panda_core ++ [cat] ++ [PurePath.name file_path])
           /\ forall q k, FS.stat q fs = Some k -> FS.is_prefix file_path q = false ->
                          FS.stat q fs' = Some k
     | Raised fs' _ => forall q k, FS.stat q fs = Some k -> FS.stat q fs' = Some k
     | Looping => False
     end)
  /\ exists r,
       consolidate panda_core docs all_files fs moved errors = Some r
       /\ (forall q d, FS.stat q fs = Some (KFile d) ->
             (forall f, In f all_files -> FS.is_prefix f q = false) ->
             FS.stat q (c_fs r) = Some (KFile d))
       /\ (FS.wf fs = true -> Permutation (documents (c_fs r)) (documents fs)).
Proof.
  split.
  - intros file_path.
    pose proof (move_file_spec panda_core docs file_path fs) as Hspec.
    pose proof (move_file_keeps panda_core docs file_path fs) as Hkeep.
    destruct (move_file panda_core docs file_path fs) as [fs' cat target|fs' e|];
      [| |exact Hspec].
    + destruct Hspec as (_ & fs1 & nm & Hm & -> & Hfree & _ & _ & _).
      exists fs1. repeat split; trivial.
      * rewrite app_assoc. apply parent_snoc.
      * now apply exists_false.
      * apply exists_false. destruct (stat (panda_core ++ [cat] ++ [nm]) fs) eqn:E;
          [|reflexivity].
        apply (mkdir_p_inr _ _ _ Hm) in E. congruence.
      * intros Hex Heq. rewrite <- Heq in Hex. apply exists_true in Hex. auto.
    + intros q k Hq. now apply (Hkeep q k Hq).
  - destruct (consolidate_total panda_core docs all_files fs moved errors) as [r Hr].
    exists r. split; [exact Hr|]. split.
    + intros q d Hq Hout. now apply (consolidate_keeps _ _ _ _ _ _ _ Hr).
    + intros Hw. now apply (documents_consolidate _ _ _ _ _ _ _ Hw Hr).
Qed.

Lemma move_never_overwrites_witness :
  exists r,
    consolidate ["p"] ["docs"] [["docs"; "report.md"]]
      (Dir [("docs", Dir [("report.md", File "new")]);
            ("p", Dir [("╚═══ REFERENCE ═══╝", Dir [("report.md", File "old")])])])
      0 0 = Some r
    /\ FS.stat ["p"; "╚═══ REFERENCE ═══╝"; "report.md"] (c_fs r) = Some (KFile "old")
    /\ FS.stat ["p"; "╚═══ REFERENCE ═══╝"; "report_1.md"] (c_fs r) = Some (KFile "new").
Proof.
  destruct (move_never_overwrites ["p"] ["docs"] [["docs"; "report.md"]]
              (Dir [("docs", Dir [("report.md", File "new")]);
                    ("p", Dir [("╚═══ REFERENCE ═══╝", Dir [("report.md", File "old")])])])
              0 0) as (_ & r & Hr & Hkeep & _).
  exists r. split; [exact Hr|]. split.
  - apply Hkeep; [reflexivity|]. intros f [<-|[]]. reflexivity.
  - vm_compute in Hr. inversion Hr. reflexivity.
Defined.

(** C4. The collision resolver returns a name that is free in the target
    directory: the desired name when it is free, and otherwise
    [stem_k.ext] for the smallest [k >= 1] whose name is free, every
    smaller number having been found taken; with [report.md] present it
    gives [report_1.md], and with [report_1.md] present too,
    [report_2.md]. *)
Theorem resolve_target_file_first_free (target_dir file_path : path) (fs : node) :
  (exists t,
     resolve_target_file target_dir file_path fs = Some t
     /\ FS.exists_ t fs = false
     /\ (FS.exists_ (target_dir ++ [PurePath.name file_path]) fs = false ->
         t = target_dir ++ [PurePath.name file_path])
     /\ (FS.exists_ (target_dir ++ [PurePath.name file_path]) fs = true ->
         exists k,
           1 <= k
           /\ t = target_dir
                  ++ [(PurePath.stem file_path ++ "_" ++ Str.of_nat k
                       ++ PurePath.suffix file_path)%string]
           /\ forall j, 1 <= j < k ->
                FS.exists_ (target_dir ++ [numbered file_path j]) fs = true))
  /\ resolve_target_file ["t"] ["docs"; "report.md"]
       (Dir [("t", Dir [("report.md", File "a")])])
     = Some ["t"; "report_1.md"]
  /\ resolve_target_file ["t"] ["docs"; "report.md"]
       (Dir [("t", Dir [("report.md", File "a"); ("report_1.md", File "b")])])
     = Some ["t"; "report_2.md"].
Proof.
  split; [|split; reflexivity].
  unfold resolve_target_file.
  destruct (handle_name_conflicts_terminates target_dir file_path
              (target_dir ++ [PurePath.name file_path]) fs
              (2 + entry_count target_dir fs) (Nat.le_refl _)) as [t Ht].
  exists t. split; [exact Ht|].
  destruct (handle_name_conflicts_some _ _ _ _ _ _ _ Ht)
    as (Hfree & [[Hd ->]|(Hd & k & Hk & -> & Hall)]).
  - repeat split; trivial. congruence.
  - repeat split; trivial; [congruence|].
    intros _. exists k. repeat split; trivial.
Qed.

Lemma resolve_target_file_first_free_witness :
  exists k,
    1 <= k
    /\ resolve_target_file ["t"] ["docs"; "report.md"]
         (Dir [("t", Dir [("report.md", File "a"); ("report_1.md", File "b")])])
       = Some (["t"] ++ [("report" ++ "_" ++ Str.of_nat k ++ ".md")%string]).
Proof.
  destruct (resolve_target_file_first_free ["t"] ["docs"; "report.md"]
              (Dir [("t", Dir [("report.md", File "a"); ("report_1.md", File "b")])]))
    as ((t & Ht & _ & _ & Hnum) & _).
  destruct (Hnum eq_refl) as (k & Hk & -> & _).
  exists k. split; [exact Hk | exact Ht].
Defined.


Example tree_long_name_step4 :
  step4 tree_long_name
  = (Dir [("docs", Dir [])],
     [RemovedEmptyDir "long_directory_name"; RemovedEmptyDir "c";
      RemovedEmptyDir "b"; RemovedEmptyDir "a"; RemovedCount 4]).
Proof. reflexivity. Qed.



(** C6, as stated, fails: with no container directory at all the script
    still exits with status 0. *)
Lemma exit_code_counterexample :
  ~ exit_code_reflects_failure (Dir [("docs", Dir [("a.md", File "x")])]).
Proof.
  intros H.
  specialize (H (Dir [("docs", Dir [("a.md", File "x")])])
                (header ++ [Lit "  ✗ PANDA_CORE directory not found!"])
                0%Z eq_refl).
  destruct H as [_ H]. now apply H.
Qed.

(** C6, amended. The script always ends, and always with exit status 0:
    whatever per-document errors occurred, and also on the structural
    failure, which is reported by a message only, [main] returning before
    it changes anything. *)
Theorem script_exits_zero (fs : node) :
  exists fs' out,
    script fs = Some (fs', out, 0%Z)
    /\ (structural_failure fs = true ->
        fs' = fs /\ out = header ++ [Lit "  ✗ PANDA_CORE directory not found!"]).
Proof.
  unfold script, structural_failure. change old_panda_core with new_panda_core.
  destruct (exists_ new_panda_core fs) eqn:E.
  - destruct (main_present fs E)
      as (fs2 & out2 & fs3 & out3 & fs4 & out4 & fs5 & out5 & _ & _ & _ & _ & ->).
    eexists. eexists. split; [reflexivity | discriminate].
  - rewrite (main_absent fs E). eexists. eexists. split; [reflexivity|].
    intros _. split; reflexivity.
Qed.

Lemma script_exits_zero_witness :
  script (Dir [("docs", Dir [("a.md", File "x")])])
  = Some (Dir [("docs", Dir [("a.md", File "x")])],
          header ++ [Lit "  ✗ PANDA_CORE directory not found!"], 0%Z).
Proof.
  destruct (script_exits_zero (Dir [("docs", Dir [("a.md", File "x")])]))
    as (fs' & out & Hs & Hf).
  destruct (Hf eq_refl) as [-> ->]. exact Hs.
Defined.

(** C7. A failed move does not stop the run.  When the container and
    [docs/] exist, the loop of step 3 ends for every document list.  Its
    lines account for the candidates: one line per candidate, in order;
    a "moved" line exactly when the pass has moved the document into its
    category directory, an "error" line exactly when the pass has raised,
    carrying the exception raised, the document and everything else that
    existed being left as it was; and after either the loop goes on with
    the next candidate, from the tree that pass left.  The two counters
    count exactly those lines and add up to the number of candidates;
    and [main] goes on to steps 4 and 5 from the tree of the loop, its
    output holding these lines followed by the summary with both
    counters. *)
Theorem step3_full_accounting (fs : node) :
  FS.exists_ new_panda_core fs = true ->
  FS.exists_ docs_dir fs = true ->
  exists fs2 out2 r pre post,
    step2 new_panda_core SUBDIR_MAPPINGS fs = (fs2, out2)
    /\ consolidate new_panda_core docs_dir (FS.rglob "*.md" docs_dir fs) fs2 0 0
       = Some r
    /\ accounted new_panda_core docs_dir (FS.rglob "*.md" docs_dir fs) fs2
         (c_out r) (c_fs r)
    /\ map line_name (c_out r)
       = map (fun f => Some (PurePath.name f)) (FS.rglob "*.md" docs_dir fs)
    /\ moved_count r = List.length (filter is_moved_line (c_out r))
    /\ error_count r = List.length (filter is_error_line (c_out r))
    /\ moved_count r + error_count r = List.length (FS.rglob "*.md" docs_dir fs)
    /\ main fs
       = Some (fst (step5 (fst (step4 (c_fs r)))),
               pre ++ c_out r
                   ++ [Lit ""; Summary (moved_count r) (error_count r)] ++ post).
Proof.
  intros Hc Hd.
  destruct (main_present fs Hc)
    as (fs2 & out2 & fs3 & out3 & fs4 & out4 & fs5 & out5 & H2 & H3 & H4 & H5 & Hm).
  assert (Hl : lookup docs_dir fs2 = lookup docs_dir fs)
    by (apply (step2_docs fs fs2 out2 docs_dir H2); reflexivity).
  unfold step3 in H3. unfold exists_ in H3 at 1. rewrite Hl in H3.
  fold (exists_ docs_dir fs) in H3. rewrite Hd in H3. cbn [negb] in H3.
  rewrite (rglob_lookup _ _ _ _ Hl) in H3.
  destruct (consolidate new_panda_core docs_dir (rglob "*.md" docs_dir fs) fs2 0 0)
    as [r|] eqn:Hr; [|discriminate].
  injection H3 as <- <-.
  destruct (consolidate_accounts _ _ _ _ _ _ _ Hr) as (A1 & A2 & A3 & A4).
  exists fs2, out2, r,
    (transcript_before_step3
       [Lit "  Warning: Target directory already exists. Using existing directory."]
       out2),
    (transcript_after_step3 out4 out5).
  split; [exact H2|]. split; [exact Hr|]. split.
  { apply (consolidate_accounted _ _ _) with (moved := 0) (errors := 0); [|exact Hr].
    intros f Hf. apply under_docs_not_comparable. apply in_rglob in Hf.
    destruct Hf as (_ & r0 & x & -> & _). apply is_prefix_app. }
  split; [exact A1|].
  split; [exact A2|]. split; [exact A3|]. split; [exact A4|].
  rewrite Hm, H4. cbn [fst]. rewrite H5. cbn [fst].
  unfold transcript. now rewrite <- app_assoc.
Qed.

Lemma step3_full_accounting_witness :
  exists fs1 r pre post,
    consolidate new_panda_core docs_dir
      [["docs"; "security.md"]; ["docs"; "misc.md"]] tree_blocked 0 0 = Some r
    /\ reports new_panda_core docs_dir ["docs"; "security.md"] tree_blocked fs1
         (ErrMoving "security.md" (OSError EEXIST))
    /\ reports new_panda_core docs_dir ["docs"; "misc.md"] fs1 (c_fs r)
         (MovedLine "misc.md" "╚═══ REFERENCE ═══╝")
    /\ moved_count r = 1 /\ error_count r = 1
    /\ main tree_blocked
       = Some (fst (step5 (fst (step4 (c_fs r)))),
               pre ++ [ErrMoving "security.md" (OSError EEXIST);
                       MovedLine "misc.md" "╚═══ REFERENCE ═══╝";
                       Lit ""; Summary 1 1] ++ post).
Proof.
  destruct (step3_full_accounting tree_blocked eq_refl eq_refl)
    as (fs2 & out2 & r & pre & post & H2 & Hr & Hacc & _ & Hm & He & _ & Hmain).
  injection H2 as <- <-.
  change (rglob "*.md" docs_dir tree_blocked)
    with [["docs"; "security.md"]; ["docs"; "misc.md"]] in *.
  assert (Hout : c_out r = [ErrMoving "security.md" (OSError EEXIST);
                            MovedLine "misc.md" "╚═══ REFERENCE ═══╝"])
    by (vm_compute in Hr; injection Hr as <-; reflexivity).
  rewrite Hout in *.
  inversion Hacc as [|f rest fs0 fs1 fs3 l out R1 Hacc1]; subst.
  inversion Hacc1 as [|f' rest' fs0' fs1' fs3' l' out' R2 Hacc2]; subst.
  inversion Hacc2; subst.
  change (moved_count r = 1) in Hm. change (error_count r = 1) in He.
  rewrite Hm, He in Hmain.
  exists fs1, r, pre, post.
  split; [exact Hr|]. split; [exact R1|]. split; [exact R2|].
  split; [exact Hm|]. split; [exact He|]. exact Hmain.
Defined.

Example tree_blocked_run :
  option_map snd (step3 new_panda_core tree_blocked)
  = Some [ErrMoving "security.md" (OSError EEXIST);
          MovedLine "misc.md" "╚═══ REFERENCE ═══╝";
          Lit ""; Summary 1 1].
Proof. reflexivity. Qed.

(** C8, as stated, fails: [docs/notes.txt] is a regular file under the
    source root and is no candidate. *)
Lemma format_agnostic_counterexample : ~ format_agnostic tree_mixed.
Proof.
  intros H.
  destruct (H ["docs"; "notes.txt"] "n" eq_refl eq_refl) as [Hin _].
  vm_compute in Hin. destruct Hin as [Hin|[]]. discriminate.
Qed.

(** C8, amended. Enumeration takes the markdown entries only: the
    candidates are exactly the existing paths below [docs/] whose name
    ends in [.md], each of them gets a category, and a regular file below
    [docs/] with another name, outside any such entry, is left where it
    is by the whole run. *)
Theorem markdown_only_enumeration (fs : node) :
  FS.wf fs = true ->
  (forall q,
     In q (FS.rglob "*.md" docs_dir fs)
     <-> strictly_under docs_dir q = true /\ FS.stat q fs <> None
         /\ exists a, PurePath.name q = (a ++ ".md")%string)
  /\ (forall q, In q (FS.rglob "*.md" docs_dir fs) ->
        exists cat, map_file_to_category q docs_dir = Some cat
                    /\ In cat category_names)
  /\ (forall q d,
        strictly_under docs_dir q = true ->
        FS.stat q fs = Some (KFile d) -> md_free q = true ->
        exists fs' out, main fs = Some (fs', out)
                        /\ FS.stat q fs' = Some (KFile d)).
Proof.
  intros Hw. split; [|split].
  - intros q. split.
    + intros Hin. apply in_rglob in Hin. destruct Hin as (_ & r & x & -> & Hm & Hex).
      split; [apply strictly_under_iff; now exists r, x|]. split; [now apply Hex|].
      rewrite app_assoc, name_snoc. now apply fnmatch_md.
    + intros (Hu & Hex & Hname). apply strictly_under_iff in Hu.
      destruct Hu as (r & x & ->). rewrite app_assoc, name_snoc in Hname.
      apply rglob_complete; trivial.
      * apply is_dir_true. apply (stat_below docs_dir (r ++ [x]));
          [destruct r; discriminate | exact Hex].
      * now apply fnmatch_md.
  - intros q Hin. apply in_rglob in Hin. destruct Hin as (_ & r & x & -> & _).
    apply map_file_to_category_some.
  - intros q d. apply main_keeps_file.
Qed.

Lemma markdown_only_enumeration_witness :
  In ["docs"; "guide.md"] (FS.rglob "*.md" docs_dir tree_mixed)
  /\ exists fs' out, main tree_mixed = Some (fs', out)
                     /\ FS.stat ["docs"; "notes.txt"] fs' = Some (KFile "n").
Proof.
  destruct (markdown_only_enumeration tree_mixed eq_refl) as (Hiff & _ & Hkeep).
  split.
  - apply Hiff. split; [reflexivity|]. split; [discriminate|]. now exists "guide".
  - apply Hkeep; reflexivity.
Defined.

(** C9. The container rename never happens.  The legacy path and the
    decorated path are one path, so step 1 leaves every tree as it is: it
    either goes on with the existing container, or, when there is none,
    makes [main] return with the tree untouched. *)
Theorem step1_never_renames (fs : node) :
  old_panda_core = new_panda_core
  /\ fst (fst (step1 fs)) = fs
  /\ (step1 fs
      = (fs, Some new_panda_core,
         [Lit "  Warning: Target directory already exists. Using existing directory."])
      \/ (step1 fs = (fs, None, [Lit "  ✗ PANDA_CORE directory not found!"])
          /\ FS.exists_ new_panda_core fs = false
          /\ exists out, main fs = Some (fs, out))).
Proof.
  split; [reflexivity|]. rewrite step1_eq.
  destruct (exists_ new_panda_core fs) eqn:E.
  - split; [reflexivity | now left].
  - split; [reflexivity|]. right. repeat split.
    rewrite (main_absent fs E). eauto.
Qed.

(** C10. Pruning destroys no document.  Through steps 4 and 5 the regular
    files of the tree, with their paths and contents, stay exactly the
    same; a path that is gone was a directory with no regular file in or
    below it; and each removal, in the loop of step 4 and in step 5, is
    the removal of a directory that has no entries at that moment.  On a
    well-formed tree the documents after pruning, and after the whole
    run, are the documents before, each once: the run relocates
    documents and destroys none. *)
Theorem prune_preserves_files (fs : node) :
  (forall q d,
     FS.stat q fs = Some (KFile d)
     <-> FS.stat q (fst (step5 (fst (step4 fs)))) = Some (KFile d))
  /\ (forall q,
        FS.stat q fs <> None ->
        FS.stat q (fst (step5 (fst (step4 fs)))) = None ->
        FS.stat q fs = Some KDir /\ ~ file_below fs q)
  /\ (forall p rest fs0 n,
        fst (fst (prune (p :: rest) fs0 n)) = fst (fst (prune rest fs0 n))
        \/ (FS.lookup p fs0 = Some (Dir [])
            /\ fst (fst (prune (p :: rest) fs0 n))
               = fst (fst (prune rest (FS.delete p fs0) (S n)))))
  /\ (fst (step5 (fst (step4 fs))) = fst (step4 fs)
      \/ (FS.lookup docs_dir (fst (step4 fs)) = Some (Dir [])
          /\ fst (step5 (fst (step4 fs))) = FS.delete docs_dir (fst (step4 fs))))
  /\ (FS.wf fs = true ->
      Permutation (documents (fst (step5 (fst (step4 fs))))) (documents fs)
      /\ exists fs' out, main fs = Some (fs', out)
                         /\ Permutation (documents fs') (documents fs)).
Proof.
  destruct (step4_spec fs) as (R1 & R2 & R3 & W4).
  split; [|split; [|split; [|split]]].
  - intros q d. split.
    + intros H. now apply step5_keeps_files, step4_keeps_files.
    + intros H. now apply R3, step5_only_removes.
  - intros q Hq Hgone.
    assert (Hcase : stat q (fst (step4 fs)) = None
                    \/ (q = docs_dir /\ lookup docs_dir (fst (step4 fs)) = Some (Dir []))).
    { destruct (under_or_not docs_dir q) as [He|Hu].
      - apply path_eqb_eq in He. subst q.
        destruct (step5_cases (fst (step4 fs)))
          as [[_ E]|[[Hl _]|[(_ & _ & E)|[_ E]]]];
          try (rewrite E in Hgone; now left).
        now right.
      - left. now rewrite <- (step5_stat _ q Hu). }
    destruct Hcase as [Hn|[-> Hl]].
    + destruct (R1 q) as [E|(_ & _ & Hd & Hf)]; [congruence|].
      split; [now apply is_dir_true | exact Hf].
    + split.
      * apply R3. unfold stat. now rewrite Hl.
      * intros (r & d & Hf). apply step4_keeps_files in Hf.
        rewrite stat_app, Hl in Hf. unfold stat in Hf. destruct r; discriminate.
  - intros p rest fs0 n. cbn [prune]. unfold is_dir, iterdir, rmdir.
    destruct (lookup p fs0) as [[d|[|e es]]|] eqn:Hl; try (now left).
    destruct p as [|x p].
    + left. cbn [map]. now destruct (prune rest fs0 n) as [[? ?] ?].
    + right. split; [reflexivity|]. cbn [map].
      now destruct (prune rest (delete (x :: p) fs0) (S n)) as [[? ?] ?].
  - destruct (step5_cases (fst (step4 fs)))
      as [[_ E]|[[Hl E]|[(_ & _ & E)|[_ E]]]]; rewrite E; auto.
  - intros Hw. split; [|now apply documents_main].
    rewrite (documents_step5 _ (W4 Hw)). now apply documents_step4.
Qed.

Lemma prune_preserves_files_witness :
  FS.stat ["docs"; "a"; "b"; "d"; "other.md"]
    (fst (step5 (fst (step4 tree_chain_sibling)))) = Some (KFile "o")
  /\ FS.stat ["docs"; "a"; "b"; "c"] tree_chain_sibling = Some KDir
  /\ ~ file_below tree_chain_sibling ["docs"; "a"; "b"; "c"].
Proof.
  destruct (prune_preserves_files tree_chain_sibling) as (Hfiles & Hgone & _).
  split; [apply Hfiles; reflexivity|].
  apply Hgone; [discriminate | reflexivity].
Defined.

(** * Further properties *)

Import ClassifierFacts Step2More Step3More RunMore PruneMore.

(** X1. First match wins.  For a document directly under [docs_dir] the
    category is that of the first branch of the first chain, in the order
    of the source, one of whose keywords occurs in the lower-cased file
    name, whatever keywords of later branches occur as well; it is the
    catch-all category when no keyword occurs. *)
Theorem root_document_first_rule (docs : path) (name : string) :
  map_file_to_category (docs ++ [name]) docs
  = getitem SUBDIR_MAPPINGS (first_rule root_rules (Str.lower name)).
Proof.
  unfold map_file_to_category. rewrite relative_to_app. cbv zeta.
  change (PurePath.name (PurePath.parent [name])) with EmptyString.
  change (PurePath.name [name]) with name.
  change (Str.lower "") with EmptyString.
  change (String.eqb "" "." || String.eqb "" "") with true. cbv iota.
  unfold first_rule, root_rules. cbn [find fst snd existsb].
  generalize (Str.lower name). intros fn.
  repeat match goal with
         | |- context [Str.contains fn ?k] =>
             destruct (Str.contains fn k); cbn [orb]
         end; reflexivity.
Qed.

(** Three file names with keywords of several branches, or with a keyword
    inside another word. *)
Example api_setup_is_getting_started :
  map_file_to_category ["docs"; "API_Setup.md"] ["docs"] = Some "╔═══ GETTING_STARTED ═══╗"
  /\ map_file_to_category ["docs"; "test_security.md"] ["docs"] = Some "╠═══ SECURITY ═══╣"
  /\ map_file_to_category ["docs"; "latest.md"] ["docs"] = Some "╠═══ TESTING ═══╣".
Proof. repeat split; reflexivity. Qed.

(** X2. For a document in a subdirectory the category is read off the
    lower-cased name of the directory that holds it, by the table of the
    second chain: neither the file name nor the directories above it play
    a part. *)
Theorem subdirectory_document_by_parent (docs r : path) (d name : string) :
  Str.lower d <> "." -> Str.lower d <> "" ->
  map_file_to_category (docs ++ r ++ [d; name]) docs
  = getitem SUBDIR_MAPPINGS (subdir_rule subdir_rules (Str.lower d)).
Proof. apply subdirectory_document. Qed.

Lemma subdirectory_document_by_parent_witness :
  map_file_to_category (["docs"] ++ ["v2"] ++ ["API"; "security_setup.md"]) ["docs"]
  = Some "╠═══ API_REFERENCE ═══╣".
Proof.
  rewrite (subdirectory_document_by_parent ["docs"] ["v2"] "API" "security_setup.md");
    [reflexivity | discriminate | discriminate].
Defined.

(** X3. A document in a subdirectory is never classified as Testing,
    Audits and Reports or Migration Guides: the second chain has no branch
    that returns them. *)
Theorem subdirectory_document_never_testing (docs r : path) (d name c : string) :
  Str.lower d <> "." -> Str.lower d <> "" ->
  map_file_to_category (docs ++ r ++ [d; name]) docs = Some c ->
  c <> "╠═══ TESTING ═══╣" /\ c <> "╠═══ AUDITS_AND_REPORTS ═══╣"
  /\ c <> "╠═══ MIGRATION_GUIDES ═══╣".
Proof.
  intros H1 H2. rewrite (subdirectory_document docs r d name H1 H2).
  unfold subdir_rule, subdir_rules. cbn [getitem].
  generalize (Str.lower d). intros dn.
  repeat match goal with
         | |- context [String.eqb ?k dn] => destruct (String.eqb k dn)
         end; intros [= <-]; repeat split; discriminate.
Qed.

Lemma subdirectory_document_never_testing_witness :
  exists c,
    map_file_to_category (["docs"] ++ [] ++ ["testing"; "test_plan.md"]) ["docs"] = Some c
    /\ c = "╚═══ REFERENCE ═══╝" /\ c <> "╠═══ TESTING ═══╣".
Proof.
  exists "╚═══ REFERENCE ═══╝". split; [reflexivity|]. split; [reflexivity|].
  apply (subdirectory_document_never_testing ["docs"] [] "testing" "test_plan.md");
    [discriminate | discriminate | reflexivity].
Defined.

(** X4. Classification ignores the case of ASCII letters: two paths below
    [docs_dir] whose components are equal once lower-cased get the same
    category. *)
Theorem classification_ignores_case (docs rel rel' : path) :
  map Str.lower rel = map Str.lower rel' ->
  map_file_to_category (docs ++ rel) docs = map_file_to_category (docs ++ rel') docs.
Proof.
  intros H. apply map_file_to_category_reads.
  - rewrite <- !name_map_lower, <- !parent_map_lower. now rewrite H.
  - rewrite <- !name_map_lower. now rewrite H.
Qed.

Lemma classification_ignores_case_witness :
  map_file_to_category (["docs"] ++ ["Guides"; "README.MD"]) ["docs"]
  = map_file_to_category (["docs"] ++ ["guides"; "readme.md"]) ["docs"].
Proof.
  apply (classification_ignores_case ["docs"] ["Guides"; "README.MD"] ["guides"; "readme.md"]).
  reflexivity.
Defined.

(** X5. [map_file_to_category] raises exactly when the path does not lie
    under [docs_dir], which is the [ValueError] of [relative_to]; under
    [docs_dir] it returns, so that no lookup in [SUBDIR_MAPPINGS] raises
    [KeyError]. *)
Theorem classification_raises_outside_docs (file_path docs : path) :
  map_file_to_category file_path docs = None <-> FS.is_prefix docs file_path = false.
Proof.
  rewrite is_prefix_relative_to.
  destruct (PurePath.relative_to file_path docs) as [rel|] eqn:E.
  - apply relative_to_inv in E. subst file_path.
    destruct (map_file_to_category_some docs rel) as (c & -> & _).
    split; discriminate.
  - unfold map_file_to_category. rewrite E. split; reflexivity.
Qed.

(** X6. Step 2 renames a legacy directory.  When the legacy directory of
    a category exists and the decorated one does not, then after step 2
    whatever was at or below the legacy path is, as it was, at the same
    place below the decorated path, nothing is left at the legacy path,
    and the rename is reported. *)
Theorem step2_renames_legacy (fs fs' : node) (out : list line) (o n : string) :
  In (o, n) SUBDIR_MAPPINGS ->
  step2 new_panda_core SUBDIR_MAPPINGS fs = (fs', out) ->
  FS.exists_ (new_panda_core ++ [o]) fs = true ->
  FS.exists_ (new_panda_core ++ [n]) fs = false ->
  (forall r, FS.stat (new_panda_core ++ n :: r) fs'
             = FS.stat (new_panda_core ++ o :: r) fs)
  /\ (forall r, FS.stat (new_panda_core ++ o :: r) fs' = None)
  /\ In (RenamedSubdir o n) out.
Proof.
  intros Hin H Ho Hn.
  pose proof (step2_item _ _ _ _ _ _ _ Step2Facts.SUBDIR_MAPPINGS_NoDup Hin H) as Hit.
  rewrite Ho, Hn in Hit. exact Hit.
Qed.

Lemma step2_renames_legacy_witness :
  FS.stat ["╠═══ PANDA_CORE ═══╣"; "╠═══ SECURITY ═══╣"; "tls.md"]
    (fst (step2 new_panda_core SUBDIR_MAPPINGS
            (Dir [("╠═══ PANDA_CORE ═══╣",
                   Dir [("05_SECURITY", Dir [("tls.md", File "t")])])])))
  = Some (KFile "t").
Proof.
  destruct (step2_renames_legacy
              (Dir [("╠═══ PANDA_CORE ═══╣",
                     Dir [("05_SECURITY", Dir [("tls.md", File "t")])])])
              _ _ "05_SECURITY" "╠═══ SECURITY ═══╣"
              ltac:(cbn; tauto) (surjective_pairing _) eq_refl eq_refl) as (H & _).
  exact (H ["tls.md"]).
Defined.

(** X7. Step 2 never merges.  When the decorated directory of a category
    exists, step 2 leaves it, and the legacy directory when there is one,
    exactly as they are; it reports no rename for them and prints the
    warning when both exist, the note when only the decorated one does. *)
Theorem step2_skips_existing (fs fs' : node) (out : list line) (o n : string) :
  In (o, n) SUBDIR_MAPPINGS ->
  step2 new_panda_core SUBDIR_MAPPINGS fs = (fs', out) ->
  FS.exists_ (new_panda_core ++ [n]) fs = true ->
  (forall r, FS.stat (new_panda_core ++ n :: r) fs'
             = FS.stat (new_panda_core ++ n :: r) fs)
  /\ (forall r, FS.stat (new_panda_core ++ o :: r) fs'
                = FS.stat (new_panda_core ++ o :: r) fs)
  /\ ~ In (RenamedSubdir o n) out
  /\ In (if FS.exists_ (new_panda_core ++ [o]) fs then WarnAlreadyExists n
         else AlreadyExists n) out.
Proof.
  intros Hin H Hn.
  pose proof (step2_item _ _ _ _ _ _ _ Step2Facts.SUBDIR_MAPPINGS_NoDup Hin H) as Hit.
  rewrite Hn, andb_false_r in Hit. destruct Hit as (A & B & C & D). auto.
Qed.

Lemma step2_skips_existing_witness :
  FS.stat ["╠═══ PANDA_CORE ═══╣"; "05_SECURITY"; "tls.md"]
    (fst (step2 new_panda_core SUBDIR_MAPPINGS
            (Dir [("╠═══ PANDA_CORE ═══╣",
                   Dir [("05_SECURITY", Dir [("tls.md", File "t")]);
                        ("╠═══ SECURITY ═══╣", Dir [])])])))
  = Some (KFile "t").
Proof.
  destruct (step2_skips_existing
              (Dir [("╠═══ PANDA_CORE ═══╣",
                     Dir [("05_SECURITY", Dir [("tls.md", File "t")]);
                          ("╠═══ SECURITY ═══╣", Dir [])])])
              _ _ "05_SECURITY" "╠═══ SECURITY ═══╣"
              ltac:(cbn; tauto) (surjective_pairing _) eq_refl) as (_ & H & _).
  exact (eq_trans (H ["tls.md"]) eq_refl).
Defined.

(** X8. Step 2 is idempotent: run again on its own result it changes
    nothing and reports no rename. *)
Theorem step2_idempotent (fs : node) :
  fst (step2 new_panda_core SUBDIR_MAPPINGS
         (fst (step2 new_panda_core SUBDIR_MAPPINGS fs)))
  = fst (step2 new_panda_core SUBDIR_MAPPINGS fs)
  /\ forall o n,
       ~ In (RenamedSubdir o n)
            (snd (step2 new_panda_core SUBDIR_MAPPINGS
                    (fst (step2 new_panda_core SUBDIR_MAPPINGS fs)))).
Proof.
  destruct (step2 new_panda_core SUBDIR_MAPPINGS fs) as [fs2 out2] eqn:H2.
  destruct (Step2Facts.step2_spec _ _ _ _ _ Step2Facts.SUBDIR_MAPPINGS_NoDup H2)
    as (S2 & _).
  cbn [fst]. split.
  - apply Step2Facts.step2_settled; [exact S2 | apply Step2Facts.SUBDIR_MAPPINGS_distinct].
  - intros o n Hi. pose proof (step2_renamed _ _ _ _ _ Hi) as Hin.
    destruct (step2 new_panda_core SUBDIR_MAPPINGS fs2) as [fs3 out3] eqn:H3.
    pose proof (step2_item _ _ _ _ _ _ _ Step2Facts.SUBDIR_MAPPINGS_NoDup Hin H3) as Hit.
    destruct (S2 _ Hin) as [Hs|Hs]; cbn [fst snd] in Hs; rewrite Hs in Hit;
      rewrite ?andb_false_r in Hit; cbn [andb negb] in Hit;
      destruct Hit as (_ & _ & C & _); now apply C.
Qed.

(** X9. A pass of the loop of step 3 that succeeds relocates the document.
    Its category is the one the classifier gives; the target lies directly
    in the directory of that category, which exists afterwards; whatever
    was at or below the source is at or below the target; and nothing is
    left at the source. *)
Theorem move_file_relocates (panda_core docs file_path : path) (fs fs' : node)
    (cat : string) (target : path) :
  comparable panda_core file_path = false ->
  move_file panda_core docs file_path fs = Moved fs' cat target ->
  map_file_to_category file_path docs = Some cat
  /\ PurePath.parent target = panda_core ++ [cat]
  /\ FS.stat (panda_core ++ [cat]) fs' = Some KDir
  /\ (forall r, FS.stat (target ++ r) fs' = FS.stat (file_path ++ r) fs)
  /\ (forall r, FS.stat (file_path ++ r) fs' = None).
Proof.
  intros Hcmp H.
  destruct (move_file_moved _ _ _ _ _ _ _ Hcmp H) as (A & B & C & D & E).
  repeat split; trivial. rewrite C. now rewrite String.eqb_refl.
Qed.

Lemma move_file_relocates_witness :
  exists fs' target,
    move_file new_panda_core docs_dir ["docs"; "guide.md"] tree_mixed
    = Moved fs' "╠═══ GUIDES_AND_TUTORIALS ═══╣" target
    /\ FS.stat target fs' = Some (KFile "g")
    /\ FS.stat ["docs"; "guide.md"] fs' = None.
Proof.
  eexists. eexists. split; [reflexivity|].
  destruct (move_file_relocates new_panda_core docs_dir ["docs"; "guide.md"] tree_mixed
              _ _ _ eq_refl eq_refl) as (_ & _ & _ & D & E).
  split; [exact (eq_trans (D []) eq_refl) | exact (E [])].
Defined.

(** X10. When the container is a directory, no regular file stands in the
    place of a category directory and the candidates are regular files,
    step 3 moves every candidate: it prints one "moved" line for each, in
    the order of the enumeration, its summary counts all of them as moved
    and 0 errors, and no candidate is left below [docs/]. *)
Theorem unblocked_documents_all_move (fs : node) :
  FS.wf fs = true ->
  FS.is_dir new_panda_core fs = true ->
  no_file_at category_names fs = true ->
  FS.exists_ docs_dir fs = true ->
  candidates_are_files fs = true ->
  exists fs3 moved,
    step3 new_panda_core fs
    = Some (fs3, moved ++ [Lit ""; Summary (List.length (FS.rglob "*.md" docs_dir fs)) 0])
    /\ forallb is_moved_line moved = true
    /\ map line_name moved
       = map (fun f => Some (PurePath.name f)) (FS.rglob "*.md" docs_dir fs)
    /\ (forall f, In f (FS.rglob "*.md" docs_dir fs) -> FS.stat f fs3 = None)
    /\ FS.rglob "*.md" docs_dir fs3 = [].
Proof.
  intros Hw Hpc Hno Hd Hfiles.
  destruct (step3_unblocked fs Hw Hpc Hno Hd Hfiles) as (r & Hr & H3 & Hl & Hn & He).
  exists (c_fs r), (c_out r). repeat split; trivial.
  now destruct (consolidate_accounts _ _ _ _ _ _ _ Hr).
Qed.

Lemma unblocked_documents_all_move_witness :
  exists fs3 moved,
    step3 new_panda_core tree_reports = Some (fs3, moved ++ [Lit ""; Summary 2 0])
    /\ FS.rglob "*.md" docs_dir fs3 = [].
Proof.
  destruct (unblocked_documents_all_move tree_reports eq_refl eq_refl eq_refl eq_refl
              eq_refl) as (fs3 & moved & H & _ & _ & _ & He).
  now exists fs3, moved.
Defined.

(** X11. The run on a tree as the script expects it.  When [docs/] is a
    directory below which the regular files are the entries named
    [*.md], the container is a directory, and no regular file stands at
    a legacy or decorated category name, the run ends with [docs/]
    removed: every document has been moved (the summary counts 0 errors),
    step 4 has removed every directory and step 5 removes [docs/]
    itself. *)
Theorem clean_run_removes_docs (fs : node) :
  FS.wf fs = true ->
  FS.is_dir new_panda_core fs = true ->
  no_file_at (item_names SUBDIR_MAPPINGS) fs = true ->
  FS.is_dir docs_dir fs = true ->
  markdown_only fs = true ->
  exists fs' out,
    main fs = Some (fs', out)
    /\ FS.exists_ docs_dir fs' = false
    /\ In (Summary (List.length (FS.rglob "*.md" docs_dir fs)) 0) out
    /\ In (Lit "  ✓ Removed empty docs/ directory") out.
Proof.
  intros Hw Hpc Hno Hdocs Hmd.
  assert (Hc : exists_ new_panda_core fs = true)
    by (unfold exists_, is_dir in *; now destruct (lookup new_panda_core fs)).
  destruct (main_present fs Hc)
    as (fs2 & out2 & fs3 & out3 & fs4 & out4 & fs5 & out5
        & H2 & H3 & H4 & H5 & Hm).
  destruct (step2_spec _ _ _ _ _ SUBDIR_MAPPINGS_NoDup H2) as (_ & _ & P2 & W2).
  specialize (W2 Hw).
  assert (Hl2 : lookup docs_dir fs2 = lookup docs_dir fs)
    by (apply (step2_docs fs fs2 out2 docs_dir H2); reflexivity).
  assert (Hpc2 : is_dir new_panda_core fs2 = true).
  { rewrite is_dir_stat in *. now rewrite (P2 new_panda_core (is_prefix_refl _)). }
  assert (Hdocs2 : is_dir docs_dir fs2 = true) by (unfold is_dir; now rewrite Hl2).
  assert (Hmd2 : markdown_only fs2 = true)
    by now rewrite (step2_markdown_only fs fs2 out2 H2).
  destruct (step3_unblocked fs2 W2 Hpc2 (step2_no_file_at _ _ _ H2 Hno))
    as (r & Hr & H3' & _ & Hnone & _).
  { unfold exists_, is_dir in *. now destruct (lookup docs_dir fs2). }
  { now apply markdown_only_candidates. }
  rewrite H3 in H3'. injection H3' as -> ->.
  rewrite (rglob_lookup "*.md" docs_dir fs fs2 Hl2) in *.
  assert (Hkeep : forall q, stat q fs2 = Some KDir ->
                    strictly_under docs_dir q = true \/ q = docs_dir ->
                    stat q (c_fs r) = Some KDir).
  { intros q Hq Hu. apply (consolidate_keeps _ _ _ _ _ _ _ Hr _ _ Hq).
    intros f Hf. destruct (is_prefix f q) eqn:E; [|reflexivity]. exfalso.
    rewrite <- (rglob_lookup "*.md" docs_dir fs fs2 Hl2) in Hf.
    destruct (candidates_are_files_in fs2 f (markdown_only_candidates _ W2 Hmd2) Hf)
      as [Hpf [d Hd]].
    apply is_prefix_iff in E. destruct E as [s ->]. destruct s as [|z s].
    - rewrite app_nil_r in Hq. congruence.
    - rewrite (stat_file_below f (z :: s) fs2 d Hd) in Hq; discriminate. }
  assert (Hnofile : forall q d, strictly_under docs_dir q = true ->
                      stat q (c_fs r) <> Some (KFile d)).
  { intros q d Hq Hf.
    assert (Hcmp : comparable new_panda_core q = false).
    { apply under_docs_not_comparable. unfold strictly_under in Hq.
      now apply andb_prop in Hq. }
    destruct (stat q fs2) as [k|] eqn:E.
    - destruct (markdown_only_spec fs2 q k Hmd2 Hq E) as [[-> _]|[_ Hname]].
      + rewrite (Hkeep q E (or_introl Hq)) in Hf. discriminate.
      + assert (Hin : In q (rglob "*.md" docs_dir fs)).
        { rewrite <- (rglob_lookup "*.md" docs_dir fs fs2 Hl2).
          apply strictly_under_iff in Hq. destruct Hq as (r0 & x & ->).
          rewrite app_assoc, name_snoc in Hname.
          apply rglob_complete; trivial. congruence. }
        rewrite (Hnone q Hin) in Hf. discriminate.
    - pose proof (consolidate_creates _ _ _ _ _ _ _ Hr q E) as Hcr.
      rewrite Hcmp in Hcr. assert (false = true) by (apply Hcr; congruence).
      discriminate. }
  destruct (step4_spec (c_fs r)) as (R1 & R2 & R3 & _).
  rewrite H4 in R1, R2, R3. cbn [fst] in R1, R2, R3.
  assert (Hgone : forall q, strictly_under docs_dir q = true -> stat q fs4 = None).
  { intros q Hq. destruct (stat q fs4) as [[d|]|] eqn:E; [| |reflexivity]; exfalso.
    - apply R3 in E. now apply (Hnofile q d Hq).
    - apply is_dir_true in E. destruct (R2 q Hq E) as (s & d & Hf).
      apply R3 in Hf. apply (Hnofile (q ++ s) d); trivial.
      apply strictly_under_iff in Hq. destruct Hq as (r0 & x & ->).
      apply strictly_under_iff. destruct (exists_last (l := (r0 ++ [x]) ++ s))
        as (r1 & y & Hy); [destruct r0; discriminate|].
      exists r1, y. rewrite <- Hy. now rewrite <- !app_assoc. }
  assert (Hl4 : lookup docs_dir fs4 = Some (Dir [])).
  { assert (Hd3 : stat docs_dir (c_fs r) = Some KDir)
      by (apply Hkeep; [now apply is_dir_true | now right]).
    assert (Hd4 : stat docs_dir fs4 = Some KDir).
    { destruct (R1 docs_dir) as [E|(_ & E & _)]; [congruence | discriminate]. }
    unfold stat in Hd4.
    destruct (lookup docs_dir fs4) as [[d|[|[x c] es]]|] eqn:E; try discriminate;
      [reflexivity|].
    exfalso. assert (Hx : stat (docs_dir ++ [x]) fs4 = None)
      by (apply Hgone; apply strictly_under_iff; now exists [], x).
    rewrite stat_app, E in Hx. unfold stat in Hx. cbn [lookup find_entry] in Hx.
    rewrite String.eqb_refl in Hx. discriminate. }
  destruct (step5_cases fs4)
    as [[Hno5 _]|[[_ E5]|[((e & es & Hl) & _)|[(d & Hl) _]]]]; try congruence.
  { unfold exists_ in Hno5. rewrite Hl4 in Hno5. discriminate. }
  assert (E : fs5 = delete docs_dir fs4
              /\ out5 = [Lit "  ✓ Removed empty docs/ directory"])
    by (rewrite H5 in E5; now injection E5).
  destruct E as [-> ->].
  exists (delete docs_dir fs4), (transcript
    [Lit "  Warning: Target directory already exists. Using existing directory."]
    out2 (c_out r ++ [Lit ""; Summary (List.length (rglob "*.md" docs_dir fs)) 0])
    out4 [Lit "  ✓ Removed empty docs/ directory"]).
  split; [exact Hm|]. split; [|split].
  - apply exists_false. rewrite stat_delete by discriminate.
    now rewrite is_prefix_refl.
  - unfold transcript. rewrite !in_app_iff. cbn [In]. auto 10.
  - unfold transcript, transcript_after_step3. rewrite !in_app_iff. cbn [In].
    auto 10.
Qed.

Lemma clean_run_removes_docs_witness :
  exists fs' out,
    main tree_reports = Some (fs', out)
    /\ FS.exists_ docs_dir fs' = false
    /\ In (Summary 2 0) out.
Proof.
  destruct (clean_run_removes_docs tree_reports eq_refl eq_refl eq_refl eq_refl eq_refl)
    as (fs' & out & H & Hd & Hs & _).
  now exists fs', out.
Defined.

(** X12. Later collisions get higher numbers.  When a name has been
    resolved in a directory and the directory then holds the result next
    to all it held, the next resolution of that name gives a numbered
    name, and its number is above the number of the earlier result when
    that one was numbered too. *)
Theorem later_collisions_number_higher (target_dir file_path : path)
    (fs fs' : node) (t : path) :
  resolve_target_file target_dir file_path fs = Some t ->
  (forall x, FS.exists_ (target_dir ++ [x]) fs = true ->
             FS.exists_ (target_dir ++ [x]) fs' = true) ->
  FS.exists_ t fs' = true ->
  exists k',
    resolve_target_file target_dir file_path fs'
    = Some (target_dir ++ [numbered file_path k'])
    /\ 1 <= k'
    /\ (FS.exists_ (target_dir ++ [PurePath.name file_path]) fs = true ->
        exists k, t = target_dir ++ [numbered file_path k] /\ 1 <= k < k').
Proof.
  intros H Hmono Ht. unfold resolve_target_file in *.
  destruct (handle_name_conflicts_some _ _ _ _ _ _ _ H)
    as (Hfree & [[Hd ->]|(Hd & k & Hk & -> & Hall)]).
  - destruct (handle_name_conflicts_terminates target_dir file_path
                (target_dir ++ [PurePath.name file_path]) fs'
                (2 + entry_count target_dir fs') (Nat.le_refl _)) as [t' Ht'].
    destruct (handle_name_conflicts_some _ _ _ _ _ _ _ Ht')
      as (Hfree' & [[Hd' _]|(Hd' & k' & Hk' & -> & Hall')]); [congruence|].
    exists k'. split; [exact Ht'|]. split; [exact Hk'|]. congruence.
  - destruct (handle_name_conflicts_terminates target_dir file_path
                (target_dir ++ [PurePath.name file_path]) fs'
                (2 + entry_count target_dir fs') (Nat.le_refl _)) as [t' Ht'].
    destruct (handle_name_conflicts_some _ _ _ _ _ _ _ Ht')
      as (Hfree' & [[Hd' _]|(Hd' & k' & Hk' & -> & Hall')]).
    + rewrite (Hmono _ Hd) in Hd'. discriminate.
    + exists k'. split; [exact Ht'|]. split; [exact Hk'|]. intros _.
      exists k. split; [reflexivity|]. split; [exact Hk|].
      destruct (Nat.lt_ge_cases k k') as [Hlt|Hge]; [exact Hlt|]. exfalso.
      destruct (Nat.eq_dec k' k) as [->|Hne]; [congruence|].
      assert (Hkk : 1 <= k' < k) by lia.
      rewrite (Hmono _ (Hall k' Hkk)) in Hfree'. discriminate.
Qed.

Lemma later_collisions_number_higher_witness :
  exists k',
    resolve_target_file ["t"] ["docs"; "report.md"]
      (Dir [("t", Dir [("report.md", File "a"); ("report_1.md", File "b");
                       ("report_2.md", File "c")])])
    = Some (["t"] ++ [numbered ["docs"; "report.md"] k'])
    /\ 2 < k'.
Proof.
  destruct (later_collisions_number_higher ["t"] ["docs"; "report.md"]
              (Dir [("t", Dir [("report.md", File "a"); ("report_1.md", File "b")])])
              (Dir [("t", Dir [("report.md", File "a"); ("report_1.md", File "b");
                               ("report_2.md", File "c")])])
              ["t"; "report_2.md"] eq_refl)
    as (k' & H & _ & Hlt).
  - intros x. destruct (string_dec "report.md" x) as [<-|H1]; [reflexivity|].
    destruct (string_dec "report_1.md" x) as [<-|H2]; [reflexivity|].
    apply String.eqb_neq in H1, H2. unfold FS.exists_.
    repeat (progress cbn [app FS.lookup FS.find_entry]
            || rewrite String.eqb_refl || rewrite H1 || rewrite H2).
    discriminate.
  - reflexivity.
  - exists k'. split; [exact H|].
    destruct (Hlt eq_refl) as (k & Hk & Hr).
    assert (k = 2).
    { apply (Conflicts.numbered_inj ["docs"; "report.md"]).
      change (numbered ["docs"; "report.md"] 2) with "report_2.md".
      apply (f_equal (fun l => last l EmptyString)) in Hk. exact (eq_sym Hk). }
    lia.
Defined.

(** X13. The count step 4 prints is the number of directories below
    [docs/] that hold no regular file at any depth, and step 4 prints
    that many "removed" lines before it. *)
Theorem step4_counts_empty_directories (fs : node) :
  FS.wf fs = true -> FS.exists_ docs_dir fs = true ->
  exists lines,
    snd (step4 fs)
    = lines ++ [RemovedCount
                  (List.length (filter (fun q => transitively_empty q fs)
                                  (FS.rglob "*" docs_dir fs)))]
    /\ List.length (filter is_removed_line lines)
       = List.length (filter (fun q => transitively_empty q fs)
                        (FS.rglob "*" docs_dir fs)).
Proof.
  intros Hw Hd. pose proof (fun q => step4_stat fs q Hw) as Hst.
  unfold step4 in *. rewrite Hd in *.
  destruct (prune (sorted_reverse len_str (rglob "*" docs_dir fs)) fs 0)
    as [[fs4 n4] out4] eqn:Hp.
  cbn [fst snd] in *.
  assert (Hin : forall p, In p (sorted_reverse len_str (rglob "*" docs_dir fs)) ->
                          strictly_under docs_dir p = true).
  { intros p Hi. apply in_sorted_reverse in Hi. apply in_rglob in Hi.
    destruct Hi as (_ & r & x & -> & _). apply strictly_under_iff. now exists r, x. }
  destruct (prune_count _ _ _ _ _ _
              (Permutation_NoDup (Permutation_sym (sorted_reverse_perm len_str _))
                 (rglob_NoDup "*" docs_dir fs Hw))
              (fun p Hi => ltac:(apply Hin in Hi; apply strictly_under_iff in Hi;
                                 destruct Hi as (r & x & ->); destruct r; discriminate))
              Hp) as [E1 E2].
  cbn [Nat.add] in E1, E2.
  assert (E : n4 = List.length (filter (fun q => transitively_empty q fs)
                                  (rglob "*" docs_dir fs))).
  { rewrite E1.
    rewrite <- (filter_length_perm _ _ _ _ (sorted_reverse_perm len_str (rglob "*" docs_dir fs))).
    f_equal. apply filter_ext_in. intros q Hq. specialize (Hin q Hq).
    rewrite exists_stat, Hst, Hin. cbn [andb]. unfold transitively_empty.
    destruct (is_dir q fs) eqn:Eq; [|reflexivity]. cbn [andb].
    destruct (has_file_at q fs); cbn [negb]; [|reflexivity].
    apply is_dir_true in Eq. now rewrite Eq. }
  exists out4. split; [now rewrite E | now rewrite <- E2, E].
Qed.

Lemma step4_counts_empty_directories_witness :
  exists lines,
    snd (step4 tree_chain_sibling) = lines ++ [RemovedCount 1]
    /\ List.length (filter is_removed_line lines) = 1.
Proof.
  destruct (step4_counts_empty_directories tree_chain_sibling eq_refl eq_refl)
    as (lines & H1 & H2).
  exists lines. split; [exact H1 | exact H2].
Defined.

(** X14. The run is confined to the container and [docs/]: a path that
    lies neither at or below the container nor at or below [docs/] is
    after the run what it was before, whether it existed or not. *)
Theorem run_confined (fs fs' : node) (out : list line) (q : path) :
  main fs = Some (fs', out) ->
  comparable new_panda_core q = false -> FS.is_prefix docs_dir q = false ->
  FS.stat q fs' = FS.stat q fs.
Proof.
  intros Hm Hc Hd. destruct (exists_ new_panda_core fs) eqn:Hex.
  - destruct (main_present fs Hex)
      as (fs2 & out2 & fs3 & out3 & fs4 & out4 & fs5 & out5
          & H2 & H3 & H4 & H5 & Hm').
    rewrite Hm' in Hm. injection Hm as <- _.
    replace fs5 with (fst (step5 (fst (step4 fs3))))
      by (rewrite H4; cbn [fst]; now rewrite H5).
    rewrite outside_docs_steps45 by assumption.
    destruct (step2_spec _ _ _ _ _ SUBDIR_MAPPINGS_NoDup H2) as (_ & F2 & _ & _).
    assert (E2 : stat q fs2 = stat q fs).
    { unfold stat. rewrite F2; [reflexivity|]. intros x _.
      apply (comparable_prefix_l new_panda_core); [apply is_prefix_app | exact Hc]. }
    rewrite <- E2. destruct (stat q fs2) as [k|] eqn:E.
    + apply (step3_keeps _ _ _ _ H3 _ _ E). intros f Hf.
      now apply (candidate_not_prefix "*.md" fs2).
    + destruct (stat q fs3) eqn:E3; [|reflexivity]. exfalso.
      destruct (not_comparable_inv _ _ Hc) as [Hc1 Hc2].
      destruct (step3_creates _ _ _ H3 q E) as [Hp|(cat & _ & Hp)]; [congruence| |].
      * congruence.
      * rewrite (is_prefix_trans _ _ _ (is_prefix_app new_panda_core [cat]) Hp) in Hc2.
        discriminate.
  - rewrite (main_absent fs Hex) in Hm. now injection Hm as <- _.
Qed.

Lemma run_confined_witness :
  exists fs' out,
    main (Dir [("README.md", File "r"); ("docs", Dir [("guide.md", File "g")]);
               ("╠═══ PANDA_CORE ═══╣", Dir [])]) = Some (fs', out)
    /\ FS.stat ["README.md"] fs' = Some (KFile "r").
Proof.
  destruct (main (Dir [("README.md", File "r"); ("docs", Dir [("guide.md", File "g")]);
                       ("╠═══ PANDA_CORE ═══╣", Dir [])]))
    as [[fs' out]|] eqn:H; [|vm_compute in H; discriminate].
  exists fs', out. split; [reflexivity|].
  exact (run_confined _ fs' out ["README.md"] H eq_refl eq_refl).
Defined.

(** X15. A run without a [docs/] directory.  When the container exists
    and [docs] is missing or is a regular file, the run changes nothing
    after step 2.  With no [docs] it prints the warning of step 3 and
    nothing in steps 4 and 5; with a regular file of that name it counts
    0 moved and 0 errors, 0 directories removed, and prints the error of
    the [rmdir] it tries in step 5. *)
Theorem run_without_docs_directory (fs : node) :
  FS.exists_ new_panda_core fs = true -> FS.is_dir docs_dir fs = false ->
  main fs
  = Some (fst (step2 new_panda_core SUBDIR_MAPPINGS fs),
          transcript
            [Lit "  Warning: Target directory already exists. Using existing directory."]
            (snd (step2 new_panda_core SUBDIR_MAPPINGS fs))
            (if FS.exists_ docs_dir fs then [Lit ""; Summary 0 0]
             else [Lit "  Warning: docs/ directory not found. Skipping consolidation."])
            (if FS.exists_ docs_dir fs then [RemovedCount 0] else [])
            (if FS.exists_ docs_dir fs
             then [ErrRemovingDocs (OSError ENOTDIR);
                   Lit "  Note: Some files may still remain. Please check manually."]
             else [])).
Proof.
  intros Hc Hd.
  destruct (step2 new_panda_core SUBDIR_MAPPINGS fs) as [fs2 out2] eqn:H2.
  assert (Hl : lookup docs_dir fs2 = lookup docs_dir fs)
    by (apply (step2_docs fs fs2 out2 docs_dir H2); reflexivity).
  assert (S3 : step3 new_panda_core fs2
               = Some (fs2, if exists_ docs_dir fs then [Lit ""; Summary 0 0]
                            else [Lit "  Warning: docs/ directory not found. Skipping consolidation."])).
  { unfold step3, rglob, exists_, is_dir in *. rewrite Hl.
    destruct (lookup docs_dir fs) as [[d|es]|]; [| discriminate |]; reflexivity. }
  assert (S4 : step4 fs2 = (fs2, if exists_ docs_dir fs then [RemovedCount 0] else [])).
  { unfold step4, rglob, exists_, is_dir in *. rewrite Hl.
    destruct (lookup docs_dir fs) as [[d|es]|]; [| discriminate |]; reflexivity. }
  assert (S5 : step5 fs2
               = (fs2, if exists_ docs_dir fs
                       then [ErrRemovingDocs (OSError ENOTDIR);
                             Lit "  Note: Some files may still remain. Please check manually."]
                       else [])).
  { unfold step5, rglob, rmdir, exists_, is_dir in *.
    change docs_dir with ["docs"] in *. rewrite Hl.
    destruct (lookup ["docs"] fs) as [[d|es]|]; [| discriminate |]; reflexivity. }
  unfold main. rewrite step1_eq, Hc, H2, S3, S4, S5. reflexivity.
Qed.

Lemma run_without_docs_directory_witness :
  exists out,
    main (Dir [("docs", File "not a directory"); ("╠═══ PANDA_CORE ═══╣", Dir [])])
    = Some (Dir [("docs", File "not a directory"); ("╠═══ PANDA_CORE ═══╣", Dir [])], out)
    /\ In (ErrRemovingDocs (OSError ENOTDIR)) out.
Proof.
  eexists. split.
  - exact (run_without_docs_directory
             (Dir [("docs", File "not a directory"); ("╠═══ PANDA_CORE ═══╣", Dir [])])
             eq_refl eq_refl).
  - unfold transcript, transcript_after_step3. rewrite !in_app_iff. cbn. auto 10.
Defined.

(** X16. The number step 5 reports when [docs/] is not empty is the
    number of all the entries below [docs/], at every depth, directories
    as well as regular files. *)
Theorem still_contains_counts_entries (fs : node) (e : string * node)
    (es : FS.entries_t) :
  FS.lookup docs_dir fs = Some (Dir (e :: es)) ->
  step5 fs
  = (fs, [StillContains (entries_below (Dir (e :: es)));
          Lit "  These items were not moved. Please review manually."]).
Proof.
  intros Hl.
  destruct (step5_cases fs) as [[Hno _]|[[Hl' _]|[(_ & _ & E)|[(d & Hl') _]]]];
    try congruence.
  - unfold exists_ in Hno. rewrite Hl in Hno. discriminate.
  - rewrite E. do 3 f_equal. unfold rglob. rewrite Hl. apply listing_star_length.
Qed.

Lemma still_contains_counts_entries_witness :
  step5 (fst (step4 tree_chain_sibling))
  = (fst (step4 tree_chain_sibling),
     [StillContains 4; Lit "  These items were not moved. Please review manually."]).
Proof.
  apply (still_contains_counts_entries (fst (step4 tree_chain_sibling))
           ("a", Dir [("b", Dir [("d", Dir [("other.md", File "o")])])]) []).
  reflexivity.
Defined.

(** X17. With the container in place, step 3 creates nothing but
    category directories and what it moves into them: a path that did
    not exist before step 3 and exists after it is the directory of one
    of the twelve categories or lies inside one. *)
Theorem step3_creates_only_in_categories (fs fs3 : node) (out3 : list line)
    (q : path) :
  FS.exists_ new_panda_core fs = true ->
  step3 new_panda_core fs = Some (fs3, out3) ->
  FS.stat q fs = None -> FS.stat q fs3 <> None ->
  exists cat, In cat category_names
              /\ FS.is_prefix (new_panda_core ++ [cat]) q = true.
Proof.
  intros Hc H3 Hq Hne.
  destruct (step3_creates _ _ _ H3 q Hq Hne) as [Hp|H]; [|exact H].
  exfalso. apply is_prefix_iff in Hp. destruct Hp as [s Hs].
  apply exists_true in Hc. apply Hc. rewrite Hs. now apply stat_none_below.
Qed.

Lemma step3_creates_only_in_categories_witness :
  exists fs3 out3 cat,
    step3 new_panda_core tree_mixed = Some (fs3, out3)
    /\ In cat category_names
    /\ FS.is_prefix (new_panda_core ++ [cat])
         ["╠═══ PANDA_CORE ═══╣"; "╠═══ GUIDES_AND_TUTORIALS ═══╣"; "guide.md"] = true.
Proof.
  destruct (step3 new_panda_core tree_mixed) as [[fs3 out3]|] eqn:H;
    [|vm_compute in H; discriminate].
  destruct (step3_creates_only_in_categories tree_mixed fs3 out3
              ["╠═══ PANDA_CORE ═══╣"; "╠═══ GUIDES_AND_TUTORIALS ═══╣"; "guide.md"]
              eq_refl H eq_refl) as (cat & Hin & Hp).
  - vm_compute in H. injection H as <- _. discriminate.
  - now exists fs3, out3, cat.
Defined.
